(* ===== verification/_CoqProject ===== *)
-Q . S2P
Prelude.v
Keys.v
EntityTypes.v
Entities.v
ToyExternals.v
Sql.v
KeystoreErrors.v
EntityStore.v
Store.v
Transaction.v
TransactionInvariant.v
TransactionCommit.v
TransactionReads.v
Database.v
DatabaseProps.v
PendingMessages.v
KeystoreDivergence.v
CredentialSearch.v
DatabaseLocks.v
EntityKV.v
KeystoreMls.v
CryptoErrors.v
OpenMls.v
ConversationCache.v
TransactionContext.v
TransactionContextProps.v
ConversationMut.v
CacheCoherence.v
CommitDelay.v
ClientIds.v
E2eiState.v
ProteusPrekeys.v
MlsMessages.v
GuardFrames.v
Credentials.v
Commits.v
HistorySharing.v
CommitFrames.v
Decrypt.v
DecryptFrames.v
ConversationRuns.v
DecryptTermination.v
DecryptProps.v
KeyPackages.v
CredentialProps.v
CommitProps.v
PendingConversations.v
PendingProps.v
ProteusSessions.v
ProteusProps.v
X509Check.v
X509Props.v
PkiEnv.v
PkiProps.v
Acme.v
Acquisition.v
AcquisitionProps.v
CryptoProvider.v
CryptoProviderProps.v
CredentialCheck.v
CredentialCheckProps.v
Migrations.v
MigrationProps.v
ItemEncryption.v
WasmEntities.v
Idb.v
WasmStorage.v
WasmStorageProps.v
IdbMigrations.v
IdbMigrationProps.v
BrowserProps.v
UnifiedStore.v
UnifiedConnection.v
UnifiedProps.v
FfiErrors.v
FfiErrorProps.v
X509Credentials.v
X509CredentialProps.v
NativeConnection.v
NativeProps.v
