(* ===== verification/Prelude.v ===== *)
(** * CoreCrypto: a model of its keystore, its MLS and Proteus clients and its
    end-to-end identity

    CoreCrypto is the cryptographic core of a messenger.  An application opens a
    keystore, starts a transaction, works on MLS conversations, Proteus sessions,
    credentials and certificates inside it, and commits or aborts.  This library
    models that program in Rocq, from the statements the keystore sends to SQLite up
    to the operations the bindings offer, and proves what makes it correct.

    ** Parts of the program and the files that model them

    The crate [keystore] stores entities (groups, credentials, key packages,
    sessions, certificates) in SQL tables and buffers the writes of one transaction
    in memory.
    - [Keys], [EntityTypes], [Entities]: keys, the closed set of entity types, the
      entities and their identity ([traits/key_type.rs], [dynamic_dispatch]).
    - [Sql], [EntityStore], [Store]: tables with storage classes and UNIQUE
      constraints, the statements of every entity ([entities/platform/generic],
      [entity_derive]), and the abstract store they implement.
    - [Transaction], [TransactionInvariant], [TransactionCommit], [TransactionReads]:
      the in-memory transaction ([transaction/mod.rs]), its invariant, committing it
      in any order, reading collections through it.
    - [Database], [DatabaseProps], [PendingMessages], [KeystoreDivergence],
      [CredentialSearch], [DatabaseLocks]: the database with its connection,
      transaction slot and semaphore ([connection/mod.rs]), the queries, and the
      order in which calls take its locks.
    - [EntityKV], [KeystoreMls]: what the database promises to its clients, as a class
      with laws, and the interface for OpenMLS and Proteus built on it ([mls.rs],
      [proteus.rs]).
    - [Migrations] with [MigrationProps]: the loop that brings an old database up to date
      ([connection/platform/generic/mod.rs]), the meta migrations 16, 18 and 19 with
      [migrations.rs], and the SQL migrations 16 to 20.
    - [NativeConnection] with [NativeProps]: files encrypted with SQLCipher, opening them,
      changing their key, copies and removal (the same file).
    - [ItemEncryption], [WasmEntities]: the browser build encrypts entities item by item
      ([traits/item_encryption], the derived implementations of [entity_derive]) and stores
      them as JavaScript objects ([entities/platform/wasm]).
    - [Idb], [WasmStorage] with [WasmStorageProps]: IndexedDB as far as it is
      used, the storage built on it and its in-memory variant ([wasm/storage]), commits, and
      the change of the key ([wasm/rekey.rs]).
    - [IdbMigrations] with [IdbMigrationProps]: the builder and the data migration of every
      version of the browser database ([wasm/migrations]), and opening it.
    - [BrowserProps]: the theorems about the browser build.
    - [UnifiedStore], [UnifiedConnection] with [UnifiedProps]: the connection that is to
      replace both ([unified_connection], the [UnifiedEntity] implementations), and the move
      of a browser database into it ([idb_migration.rs]).

    The crate [crypto] is the client.
    - [CryptoErrors], [OpenMls], [MlsMessages]: its errors, the state-and-error monad
      of the model, and the library OpenMLS as classes.
    - [ConversationCache], [TransactionContext], [TransactionContextProps]: the cache
      of open conversations, transaction contexts and their lifecycle, and the
      transaction wrapper of the bindings.
    - [ConversationMut], [CacheCoherence], [GuardFrames], [CommitDelay]:
      guards that change a conversation, persisting and merging.
    - [Decrypt] with [DecryptFrames], [DecryptTermination], [DecryptProps]: decryption,
      buffering of messages and commits, restoring them.
    - [Commits], [HistorySharing] with [CommitFrames], [CommitProps]: proposals,
      commits, sending them, history clients.
    - [PendingConversations] with [PendingProps]: joining by external commit.
    - [ConversationRuns]: the step relation of all operations on conversations.
    - [Credentials], [KeyPackages] with [CredentialProps]: credentials and key packages.
    - [ClientIds], [E2eiState]: client ids, member listings, the identity state of a
      conversation.
    - [ProteusPrekeys], [ProteusSessions] with [ProteusProps]: the Proteus client.
    - [CryptoProvider] with [CryptoProviderProps]: the provider given to OpenMLS
      ([mls_provider]): seeds, the generator, which algorithms are served and how, and
      the authentication service.
    - [CredentialCheck] with [CredentialCheckProps]: the certificates of credentials and
      the regular check of the stored ones ([credential/check.rs]).
    - [X509Credentials] with [X509CredentialProps]: client ids in certificates, credentials
      built from certificates ([credential/x509.rs]), the identities shown to the application
      ([identity.rs], [credential/ext.rs]), and the object of [crypto-ffi] through which a
      credential is acquired ([crypto-ffi/src/e2ei]).
    - [FfiErrors] with [FfiErrorProps]: the chain of sources of an error, and the errors
      [crypto-ffi] makes of it ([crypto-ffi/src/error]).

    The crate [e2e-identity] obtains and checks certificates.
    - [X509Check] with [X509Props]: revocation lists, their index, status cache and
      the validation of certificates.
    - [PkiEnv] with [PkiProps]: trust anchors, intermediate certificates and
      revocation lists, in memory and in the keystore.
    - [Acme]: the messages of the ACME protocol.
    - [Acquisition] with [AcquisitionProps]: obtaining a certificate: the two challenges,
      the hooks of the application as a history of calls, the checks of the result.

    ** How state and effects are modelled

    A function that returns [Result] returns [res], with a third outcome for panics.
    Code that changes state is a function of the state monad [st] ([CryptoErrors]).
    Objects shared by reference counting (cached conversations, Proteus sessions) are
    cells of a heap, so that two handles of one conversation see each other's changes.
    Hash maps are [gmap]s; where the code depends on their iteration order, the order is
    an argument.  Integers of machine width are [Z] with their bounds written out.
    Awaiting a lock or a permit that is never released is a result of its own ([None]
    of [new_transaction]); the interleaving of lock acquisitions is the subject of
    [DatabaseLocks] only.  Mutexes poisoned by a panic are left out.

    The model of the clients is that of the native release build with Proteus; the keystore
    is modelled in its native, browser and unified forms.  An IndexedDB transaction runs on
    a copy of the database that is kept if it succeeds and the platform grants the commit.
    Libraries (SQLCipher,
    AES-GCM, OpenMLS, Proteus, certval, serde, url, rusty-jwt-tools, uuid, the LRU map) and the
    application's callbacks are classes, with the documented behaviour the code relies
    on as laws; every class has a concrete instance (named toy) on which the witnesses
    run.  SQLite itself is modelled in [Sql], as far as the statements use it.

    ** What the theorems show

    - Keystore: reachable databases satisfy the invariant; what a commit does to the reads
      of each type (those of eleven types are kept, entities with a string key and
      pre-shared keys are not found); its order does not matter; a rollback restores;
      transactions, single reads and closing in any interleaving do not deadlock, and the
      pair of calls that does.
    - Migrations: each runs once, followed by its meta migration; the suite a credential
      gets is the one in use most; keys are unique after the removal of duplicates.
    - Encrypted files: which key opens a database, and that changing it, copying it and
      migrating it from a passphrase keep its contents; a change that fails halfway locks it.
    - Browser build: what is stored is read back, for every type, and only with its key, in
      its collection and under its id; commits and reads refine a map of entities; changing
      the key of a readable database keeps sixteen types of entities and forgets two; opening
      ends, creates a usable database, and keeps groups that are readable; three migrations
      that lose data.
    - Unified connection: a readable browser database is moved completely, a failed move or a
      failed look for it hides it;
      what is saved is found, and what the native connection saved under some keys is not.
    - Contexts and cache: at most one live context; what a transaction leaves behind in
      each outcome; along every run the cached conversations agree with the keystore, except
      those changed through a guard whose conversation was evicted and loaded again.
    - Conversations: decryption terminates and restores its buffer in order; outcomes of
      commits, external commits and history sharing on every branch, with the group the
      keystore holds afterwards.
    - Credentials, ids, delays, prekeys, sessions: round trips, searches, freshness,
      transparency of caches.
    - Certificates: the index of revocation lists is complete when no list is skipped;
      operations of the PKI environment are atomic until a commit fails, and lost from then
      on; an enrollment follows the protocol,
      uses no nonce twice, returns only a certificate it has checked, and resumes from its
      snapshot; the check of the credentials fetches the lists of every certificate in
      use and reports exactly the credentials that do not validate; an acquired credential
      shows the configured identity and has the requested key.
    - Errors: the bindings report an error by its cause, whatever it is nested in; some errors
      of the identity layer are reported as others.
    - Primitives: every offered suite is served; HPKE opens what it sealed; seeds have
      the right length.
    - Theorems of kind error state where the program parts from its documentation or
      from its purpose; each belongs to a finding of the manifest.  Some findings are
      stated by theorems that are not among the listed properties.

    ** Bounds and fuel

    [lower_hex] prints with 16 digits, enough for a 64-bit device id; the search for a
    free prekey id runs over the 65534 ids; [decrypt_message] takes a nesting depth, and
    [DecryptTermination] proves that a call below the fourth level is never made, whatever it
    would do, so that four levels satisfy the recursive equation.  The counters of
    [Migrations] wrap at 32 bits; the theorem about them assumes fewer conversations.  The
    loop of [IdbMigrations] has fuel for nine steps, one for each version a migration starts
    from; [opening_ends] proves that it never runs out.  Chains of error sources are followed
    with the depth of the error as fuel, and [errors_reported_by_cause] includes that it is
    enough.

    ** Not modelled

    - The encryption of SQLCipher, a parameter of [NativeConnection], and its workaround for
      iOS ([ios_wal_compat.rs]).  The SQL migrations before 16 and after 20 are a parameter of [Migrations]: they
      reshape tables no meta migration works on.  Which joined rows the cursor of
      migration 16 yields while it deletes from the table it reads is a parameter too.
    - IndexedDB requests that fail for reasons of the platform, other than the commit of a
      transaction and the look for a legacy database.  The transactions of the unified connection ([unified_connection/
      transaction.rs]), which the code leaves unfinished, its export, a copy of a file, and
      its virtual file systems.
    - The derivation of test certificates ([pki.rs]), and the algorithms behind
      [mls_provider]: calls into cryptographic libraries.
    - The methods of [crypto-ffi] that convert arguments and results around one call of
      [crypto], its callback glue and logger; log obfuscation, a salted hash nothing reads;
      test drivers and tools. *)

From stdpp Require Export base numbers list gmap sets strings.
From Stdlib Require Export Strings.Byte.
From Stdlib Require Import Lia ZArith NArith.

(** ** Results of Rust code

    A Rust function returning [Result<T, E>] yields [Ok] or [Err]; the third
    constructor is a panic ([expect], [unreachable!], [panic!]). *)
Inductive res (E A : Type) : Type :=
  | Ok (a : A)
  | Err (e : E)
  | Panic.
Arguments Ok {E A} a.
Arguments Err {E A} e.
Arguments Panic {E A}.

#[export] Instance res_eq_dec {E A} `{EqDecision E, EqDecision A} : EqDecision (res E A).
Proof. solve_decision. Defined.

#[export] Instance res_ret {E} : MRet (res E) := fun A a => Ok a.
#[export] Instance res_bind {E} : MBind (res E) := fun A B f m =>
  match m with Ok a => f a | Err e => Err e | Panic => Panic end.
#[export] Instance res_fmap {E} : FMap (res E) := fun A B f m =>
  match m with Ok a => Ok (f a) | Err e => Err e | Panic => Panic end.

(** [Option::ok_or]. *)
Definition ok_or {E A} (o : option A) (e : E) : res E A :=
  match o with Some a => Ok a | None => Err e end.

(** [Option::expect]. *)
Definition expect {E A} (o : option A) : res E A :=
  match o with Some a => Ok a | None => Panic end.

Definition map_err {E F A} (f : E -> F) (m : res E A) : res F A :=
  match m with Ok a => Ok a | Err e => Err (f e) | Panic => Panic end.

Definition is_ok {E A} (m : res E A) : bool :=
  match m with Ok _ => true | _ => false end.

(** ** Bytes *)
Abbreviation bytes := (list byte).

#[export] Instance byte_eq_decision : EqDecision byte := Byte.byte_eq_dec.

#[export] Instance byte_countable : Countable byte.
Proof. apply (inj_countable Byte.to_N Byte.of_N). apply Byte.of_to_N. Defined.

(** The byte a Rust [x as u8] cast keeps, and the value of a byte. *)
Definition byte_of_Z (z : Z) : byte :=
  default x00 (Byte.of_N (Z.to_N (z mod 256))).

Definition byte_to_Z (b : byte) : Z := Z.of_N (Byte.to_N b).

(** [to_le_bytes] and [from_le_bytes] of an [n]-byte unsigned integer. *)
Fixpoint to_le_bytes (n : nat) (z : Z) : bytes :=
  match n with
  | O => []
  | S n' => byte_of_Z z :: to_le_bytes n' (z / 256)
  end.

Fixpoint from_le_bytes (bs : bytes) : Z :=
  match bs with
  | [] => 0
  | b :: bs' => byte_to_Z b + 256 * from_le_bytes bs'
  end%Z.

(** [to_be_bytes] and [from_be_bytes]. *)
Definition to_be_bytes (n : nat) (z : Z) : bytes := rev (to_le_bytes n z).
Definition from_be_bytes (bs : bytes) : Z := from_le_bytes (rev bs).

(** Byte string literals: [bstr "abc"] is [b"abc"]. *)
Definition bstr (s : string) : bytes := String.list_byte_of_string s.

Lemma byte_to_Z_range b : (0 <= byte_to_Z b < 256)%Z.
Proof. unfold byte_to_Z. pose proof (Byte.to_N_bounded b). lia. Qed.

Lemma byte_to_of_Z z : byte_to_Z (byte_of_Z z) = (z mod 256)%Z.
Proof.
  unfold byte_to_Z, byte_of_Z.
  pose proof (Z.mod_pos_bound z 256 ltac:(lia)) as Hb.
  destruct (Byte.of_N (Z.to_N (z mod 256))) as [b|] eqn:E; simpl.
  - apply Byte.to_of_N in E. lia.
  - apply Byte.of_N_None_iff in E. lia.
Qed.

Lemma byte_of_to_Z b : byte_of_Z (byte_to_Z b) = b.
Proof.
  unfold byte_of_Z. rewrite Z.mod_small by apply byte_to_Z_range.
  unfold byte_to_Z. by rewrite N2Z.id, Byte.of_to_N.
Qed.

Lemma length_to_le_bytes n z : length (to_le_bytes n z) = n.
Proof. revert z; induction n; intros; simpl; auto. Qed.

Lemma length_to_be_bytes n z : length (to_be_bytes n z) = n.
Proof. unfold to_be_bytes. by rewrite length_rev, length_to_le_bytes. Qed.

Lemma from_to_le_bytes n z :
  (0 <= z < 256 ^ Z.of_nat n)%Z -> from_le_bytes (to_le_bytes n z) = z.
Proof.
  revert z; induction n as [|n IH]; intros z Hz; simpl.
  - change (256 ^ Z.of_nat 0)%Z with 1%Z in Hz. lia.
  - rewrite Nat2Z.inj_succ, Z.pow_succ_r in Hz by lia.
    rewrite byte_to_of_Z, IH.
    + pose proof (Z.div_mod z 256 ltac:(lia)). lia.
    + split; [apply Z.div_pos; lia | apply Z.div_lt_upper_bound; lia].
Qed.

Lemma from_le_bytes_range bs :
  (0 <= from_le_bytes bs < 256 ^ Z.of_nat (length bs))%Z.
Proof.
  induction bs as [|b bs IH].
  - vm_compute. by split.
  - cbn [from_le_bytes length]. rewrite Nat2Z.inj_succ, Z.pow_succ_r by lia.
    pose proof (byte_to_Z_range b). lia.
Qed.

Lemma to_from_le_bytes n bs :
  length bs = n -> to_le_bytes n (from_le_bytes bs) = bs.
Proof.
  intros <-. induction bs as [|b bs IH]; [done|]. cbn [length to_le_bytes from_le_bytes].
  pose proof (byte_to_Z_range b). f_equal.
  - rewrite <- (byte_of_to_Z b) at 2. unfold byte_of_Z. do 3 f_equal.
    rewrite Z.mul_comm, Z_mod_plus_full. done.
  - rewrite Z.mul_comm, Z_div_plus_full, Z.div_small by lia. done.
Qed.

Lemma from_to_be_bytes n z :
  (0 <= z < 256 ^ Z.of_nat n)%Z -> from_be_bytes (to_be_bytes n z) = z.
Proof. intros. unfold from_be_bytes, to_be_bytes. by rewrite rev_involutive, from_to_le_bytes. Qed.

(** [str::from_utf8] accepts exactly the well-formed sequences of the Unicode
    standard: no overlong forms, no surrogates, nothing above U+10FFFF. *)
Definition in_range (lo hi : Z) (b : byte) : bool :=
  ((lo <=? byte_to_Z b) && (byte_to_Z b <=? hi))%Z.

Definition utf8_tail (b : byte) : bool := in_range 128 191 b.

(** The range of the second byte, which depends on the first one. *)
Definition utf8_second (b0 b1 : byte) : bool :=
  let v := byte_to_Z b0 in
  if (v =? 224)%Z then in_range 160 191 b1
  else if (v =? 237)%Z then in_range 128 159 b1
  else if (v =? 240)%Z then in_range 144 191 b1
  else if (v =? 244)%Z then in_range 128 143 b1
  else utf8_tail b1.

Fixpoint utf8_valid (bs : bytes) : bool :=
  match bs with
  | [] => true
  | b0 :: r =>
      if in_range 0 127 b0 then utf8_valid r
      else if in_range 194 223 b0 then
        match r with b1 :: r1 => utf8_tail b1 && utf8_valid r1 | _ => false end
      else if in_range 224 239 b0 then
        match r with
        | b1 :: b2 :: r2 => utf8_second b0 b1 && utf8_tail b2 && utf8_valid r2
        | _ => false
        end
      else if in_range 240 244 b0 then
        match r with
        | b1 :: b2 :: b3 :: r3 =>
            utf8_second b0 b1 && utf8_tail b2 && utf8_tail b3 && utf8_valid r3
        | _ => false
        end
      else false
  end.

(** ** Simulation of results

    [res_sim R]: both computations end the same way, and their values are
    related by [R] when they succeed. *)
Inductive res_sim {E A B} (R : A -> B -> Prop) : res E A -> res E B -> Prop :=
  | sim_ok a b : R a b -> res_sim R (Ok a) (Ok b)
  | sim_err e : res_sim R (Err e) (Err e)
  | sim_panic : res_sim R Panic Panic.

Create HintDb sim.
#[export] Hint Constructors res_sim : sim.

Lemma res_sim_bind {E A B A' B'} (R : A -> B -> Prop) (S : A' -> B' -> Prop)
    (m1 : res E A) (m2 : res E B) f g :
  res_sim R m1 m2 -> (forall a b, R a b -> res_sim S (f a) (g b)) ->
  res_sim S (m1 ≫= f) (m2 ≫= g).
Proof. intros [] ?; cbn; auto with sim. Qed.

Lemma res_sim_fmap {E A B A' B'} (R : A -> B -> Prop) (S : A' -> B' -> Prop)
    (m1 : res E A) (m2 : res E B) f g :
  res_sim R m1 m2 -> (forall a b, R a b -> S (f a) (g b)) ->
  res_sim S (f <$> m1) (g <$> m2).
Proof. intros [] ?; cbn; auto with sim. Qed.

Lemma res_sim_ok_l {E A B} (R : A -> B -> Prop) (m2 : res E B) a :
  res_sim R (Ok a) m2 -> exists b, m2 = Ok b /\ R a b.
Proof. inversion 1; subst; eauto. Qed.

Lemma res_sim_ok_r {E A B} (R : A -> B -> Prop) (m1 : res E A) b :
  res_sim R m1 (Ok b) -> exists a, m1 = Ok a /\ R a b.
Proof. inversion 1; subst; eauto. Qed.

Lemma bind_Ok {E A B} (m : res E A) (f : A -> res E B) b :
  m ≫= f = Ok b <-> exists a, m = Ok a /\ f a = Ok b.
Proof. destruct m; cbn; (split; [eauto || done | by intros (? & [=] & ?); subst]). Qed.

Lemma fmap_Ok {E A B} (m : res E A) (f : A -> B) b :
  f <$> m = Ok b <-> exists a, m = Ok a /\ b = f a.
Proof. destruct m; cbn; (split; [intros [=]; eauto || done | by intros (? & [=] & ->); subst]). Qed.

(** ** Lists *)

(** Filtering commutes with an encoding that preserves the predicate. *)
Lemma filter_map_Forall {A B} (enc : A -> B) (p : A -> bool) (q : B -> bool) b l :
  Forall (fun a => q (enc a) = p a) l ->
  filter (fun x => q x = b) (map enc l) = map enc (filter (fun a => p a = b) l).
Proof.
  induction 1 as [|a l Ha _ IH]; [done|]. cbn [map]. rewrite !filter_cons, IH, Ha.
  by case_decide.
Qed.

Lemma existsb_map_Forall {A B} (enc : A -> B) (p : A -> bool) (q : B -> bool) l :
  Forall (fun a => q (enc a) = p a) l -> existsb q (map enc l) = existsb p l.
Proof. induction 1 as [|a l Ha _ IH]; [done|]. cbn. by rewrite Ha, IH. Qed.

Lemma filter_all {A} (P : A -> Prop) `{!forall x, Decision (P x)} (l : list A) :
  (forall x, x ∈ l -> P x) -> filter P l = l.
Proof.
  induction l as [|x l IH]; intros Hl; [done|]. rewrite filter_cons, decide_True by (apply Hl; left).
  f_equal. apply IH. intros. apply Hl. by right.
Qed.

Lemma filter_none {A} (P : A -> Prop) `{!forall x, Decision (P x)} (l : list A) :
  (forall x, x ∈ l -> ~ P x) -> filter P l = [].
Proof.
  induction l as [|x l IH]; intros Hl; [done|]. rewrite filter_cons, decide_False by (apply Hl; left).
  apply IH. intros. apply Hl. by right.
Qed.

(** A [for] loop whose body may return early with [?]. *)
Fixpoint for_each {E A S} (f : A -> S -> res E S) (l : list A) (s : S) : res E S :=
  match l with
  | [] => Ok s
  | a :: l' => s' ← f a s; for_each f l' s'
  end.

Lemma for_each_sim {E A S T} (R : S -> T -> Prop) (P : A -> Prop)
    (f : A -> S -> res E S) (g : A -> T -> res E T) l s t :
  (forall a s t, P a -> R s t -> res_sim R (f a s) (g a t)) ->
  Forall P l -> R s t -> res_sim R (for_each f l s) (for_each g l t).
Proof.
  intros Hfg Hl. revert s t. induction Hl as [|a l Ha _ IH]; intros s t Hst; cbn; [by constructor|].
  eapply res_sim_bind; [by apply Hfg|]. auto.
Qed.

(** [Itertools::unique_by]: the first element of every key, in order. *)
Fixpoint unique_by_seen {A K} `{EqDecision K} (key : A -> K) (seen : list K) (l : list A) : list A :=
  match l with
  | [] => []
  | a :: l' =>
      if decide (key a ∈ seen) then unique_by_seen key seen l'
      else a :: unique_by_seen key (key a :: seen) l'
  end.

Definition unique_by {A K} `{EqDecision K} (key : A -> K) (l : list A) : list A :=
  unique_by_seen key [] l.

Lemma map_bind {A B C} (f : B -> C) (g : A -> list B) l :
  map f (l ≫= g) = l ≫= fun a => map f (g a).
Proof. induction l as [|a l IH]; [done|]. cbn. rewrite map_app. by f_equal. Qed.

Lemma NoDup_map_filter {A B} (f : A -> B) (P : A -> Prop) `{!forall x, Decision (P x)} (l : list A) :
  NoDup (map f l) -> NoDup (map f (filter P l)).
Proof.
  induction l as [|a l IH]; cbn [map]; [done|]. intros [Ha Hnd]%NoDup_cons.
  rewrite filter_cons. case_decide; [|by apply IH]. cbn [map]. apply NoDup_cons.
  split; [|by apply IH]. intros (x & Hfx & [_ Hx]%list_elem_of_filter)%list_elem_of_fmap.
  apply Ha. rewrite Hfx. by apply (list_elem_of_fmap_2 f).
Qed.

Lemma filter_iff_on {A} (P Q : A -> Prop) `{!forall x, Decision (P x), !forall x, Decision (Q x)}
    (l : list A) :
  (forall x, x ∈ l -> P x <-> Q x) -> filter P l = filter Q l.
Proof.
  induction l as [|a l IH]; intros Hl; [done|]. rewrite !filter_cons.
  rewrite (decide_ext _ _ _ _ (Hl a (list_elem_of_here _ _))).
  rewrite IH by (intros; apply Hl; by right). done.
Qed.

Section unique_by_facts.
Context {A K : Type} `{EqDecision K} (key : A -> K).

Lemma unique_by_seen_ext seen seen' l :
  (forall k, k ∈ seen <-> k ∈ seen') -> unique_by_seen key seen l = unique_by_seen key seen' l.
Proof.
  revert seen seen'. induction l as [|a l IH]; intros seen seen' Hs; [done|]. cbn.
  rewrite (decide_ext _ _ _ _ (Hs (key a))). case_decide; [by apply IH|].
  f_equal. apply IH. intros k. rewrite !elem_of_cons, Hs. done.
Qed.

Lemma unique_by_seen_filter seen l :
  NoDup (map key l) -> unique_by_seen key seen l = filter (fun a => key a ∉ seen) l.
Proof.
  revert seen. induction l as [|a l IH]; intros seen; [done|]. cbn [map unique_by_seen].
  intros [Ha Hnd]%NoDup_cons. rewrite filter_cons. case_decide as Hk.
  - rewrite decide_False by auto. by apply IH.
  - rewrite decide_True by done. f_equal. rewrite IH by done.
    apply filter_iff_on. intros x Hx. rewrite elem_of_cons.
    assert (key x <> key a) by (intros E; apply Ha; rewrite <- E; by apply (list_elem_of_fmap_2 key)).
    naive_solver.
Qed.

Lemma unique_by_seen_app seen l1 l2 :
  unique_by_seen key seen (l1 ++ l2) =
  unique_by_seen key seen l1 ++ unique_by_seen key (map key l1 ++ seen) l2.
Proof.
  revert seen. induction l1 as [|a l1 IH]; intros seen; [done|]. cbn. case_decide as Hk.
  - rewrite IH. f_equal. apply unique_by_seen_ext. intros k. rewrite elem_of_cons, !elem_of_app.
    naive_solver.
  - cbn. rewrite IH. do 2 f_equal. apply unique_by_seen_ext.
    intros k. rewrite elem_of_cons, !elem_of_app, elem_of_cons. naive_solver.
Qed.

(** Two lists without repeated keys: the second only adds new keys. *)
Lemma unique_by_app l1 l2 :
  NoDup (map key l1) -> NoDup (map key l2) ->
  unique_by key (l1 ++ l2) = l1 ++ filter (fun a => key a ∉ map key l1) l2.
Proof.
  intros H1 H2. unfold unique_by. rewrite unique_by_seen_app, app_nil_r.
  rewrite !unique_by_seen_filter by done. f_equal. apply filter_all. intros. apply not_elem_of_nil.
Qed.

(** Every key of the list survives. *)
Lemma unique_by_seen_covers seen l a :
  a ∈ l -> key a ∉ seen -> exists a', a' ∈ unique_by_seen key seen l /\ key a' = key a.
Proof.
  revert seen. induction l as [|b l IH]; intros seen Ha Hs; [by apply not_elem_of_nil in Ha|].
  cbn. destruct (decide (key a = key b)) as [Hab|Hab].
  - exists b. rewrite decide_False by congruence. split; [left|done].
  - apply elem_of_cons in Ha as [->|Ha]; [done|]. case_decide; [by apply IH|].
    destruct (IH (key b :: seen) Ha) as (a' & Ha' & Hk); [by rewrite not_elem_of_cons|].
    exists a'. split; [by right|done].
Qed.

Lemma unique_by_covers l a : a ∈ l -> exists a', a' ∈ unique_by key l /\ key a' = key a.
Proof. intros Ha. apply unique_by_seen_covers; [done|]. apply not_elem_of_nil. Qed.

Lemma unique_by_seen_elem seen l a : a ∈ unique_by_seen key seen l -> a ∈ l.
Proof.
  revert seen. induction l as [|b l IH]; intros seen; cbn; [done|].
  case_decide; [by intros ?%IH; right|]. rewrite !elem_of_cons. intros [->|?%IH]; auto.
Qed.

End unique_by_facts.
