(* ===== verification/Keys.v ===== *)
(** * Database keys

    [keystore/src/traits/key_type.rs], [keystore/src/hash.rs] and the primary
    key of [keystore/src/entities/mls/mls_pending_message.rs]: every key type has
    a byte representation, and the owned ones can be parsed back from it. *)

From S2P Require Import Prelude.
From Stdlib Require Import Lia ZArith.

(** ** The traits [KeyType] and [OwnedKeyType] *)
Class KeyType (K : Type) : Type := key_bytes : K -> bytes.
Class OwnedKeyType (K : Type) : Type := key_from_bytes : bytes -> option K.

(** What the keystore expects of a key type: parsing inverts printing on the
    values the Rust type has ([key_valid] bounds the Coq carrier to them). *)
Class LawfulKey (K : Type) `{KeyType K, OwnedKeyType K} (key_valid : K -> Prop) : Prop := {
  key_round_trip k : key_valid k -> key_from_bytes (key_bytes k) = Some k;
  key_parse_sound bs k : key_from_bytes bs = Some k -> key_bytes k = bs /\ key_valid k;
}.

(** ** The implementations *)

(** [()] is the key of entities that exist at most once. *)
#[export] Instance unit_key : KeyType unit := fun _ => [].
#[export] Instance unit_owned : OwnedKeyType unit :=
  fun bs => match bs with [] => Some tt | _ => None end.

(** [Vec<u8>]. *)
Record VecU8 : Type := { vec_bytes : bytes }.
#[export] Instance vec_key : KeyType VecU8 := vec_bytes.
#[export] Instance vec_owned : OwnedKeyType VecU8 := fun bs => Some {| vec_bytes := bs |}.

(** [String]: its bytes are valid UTF-8. *)
Record RString : Type := { str_bytes : bytes }.
#[export] Instance string_key : KeyType RString := str_bytes.
#[export] Instance string_owned : OwnedKeyType RString :=
  fun bs => if utf8_valid bs then Some {| str_bytes := bs |} else None.

(** Unsigned integers of [w] bytes. *)
Record UInt (w : nat) : Type := MkUInt { uint_value : Z }.
Arguments MkUInt {w} uint_value.
Arguments uint_value {w} u.
#[export] Instance uint_key (w : nat) : KeyType (UInt w) :=
  fun k => to_le_bytes w (uint_value k).
#[export] Instance uint_owned (w : nat) : OwnedKeyType (UInt w) :=
  fun bs => if decide (length bs = w) then Some (MkUInt (from_le_bytes bs)) else None.

(** Signed integers of [w] bytes, in two's complement. *)
Record SInt (w : nat) : Type := MkSInt { sint_value : Z }.
Arguments MkSInt {w} sint_value.
Arguments sint_value {w} s.
Definition to_signed (w : nat) (z : Z) : Z :=
  if (2 * z <? 256 ^ Z.of_nat w)%Z then z else (z - 256 ^ Z.of_nat w)%Z.
#[export] Instance sint_key (w : nat) : KeyType (SInt w) :=
  fun k => to_le_bytes w (sint_value k mod 256 ^ Z.of_nat w).
#[export] Instance sint_owned (w : nat) : OwnedKeyType (SInt w) :=
  fun bs => if decide (length bs = w) then Some (MkSInt (to_signed w (from_le_bytes bs))) else None.

(** [Sha256Hash]: 32 bytes. *)
Record Sha256Hash : Type := { hash_bytes : bytes }.
#[export] Instance hash_key : KeyType Sha256Hash := hash_bytes.
#[export] Instance hash_owned : OwnedKeyType Sha256Hash :=
  fun bs => if decide (length bs = 32) then Some {| hash_bytes := bs |} else None.

(** [MlsPendingMessagePrimaryKey]: a [u128], big endian. *)
Record MlsPendingMessagePrimaryKey : Type := { pending_key : Z }.
#[export] Instance pending_message_key : KeyType MlsPendingMessagePrimaryKey :=
  fun k => to_be_bytes 16 (pending_key k).
#[export] Instance pending_message_owned : OwnedKeyType MlsPendingMessagePrimaryKey :=
  fun bs => if decide (length bs = 16) then Some {| pending_key := from_be_bytes bs |} else None.

(** ** The values each Rust type has *)
Definition string_ok (s : RString) : Prop := utf8_valid (str_bytes s) = true.
Definition uint_ok (w : nat) (k : UInt w) : Prop :=
  (0 <= uint_value k < 256 ^ Z.of_nat w)%Z.
Definition sint_ok (w : nat) (k : SInt w) : Prop :=
  (- 256 ^ Z.of_nat w <= 2 * sint_value k < 256 ^ Z.of_nat w)%Z.
Definition hash_ok (h : Sha256Hash) : Prop := length (hash_bytes h) = 32.
Definition pending_ok (k : MlsPendingMessagePrimaryKey) : Prop :=
  (0 <= pending_key k < 256 ^ 16)%Z.

(** ** The laws hold for every implementation *)
Lemma pow256_pos (w : nat) : (0 < 256 ^ Z.of_nat w)%Z.
Proof. apply Z.pow_pos_nonneg; lia. Qed.

#[export] Instance unit_lawful : LawfulKey unit (fun _ => True).
Proof.
  split; [by intros []|].
  intros [|b bs] k; cbv; [by intros [= <-] | done].
Qed.

#[export] Instance vec_lawful : LawfulKey VecU8 (fun _ => True).
Proof. split; [by intros [bs] | by intros bs k [= <-]]. Qed.

#[export] Instance string_lawful : LawfulKey RString string_ok.
Proof.
  split; unfold string_ok, key_from_bytes, string_owned, key_bytes, string_key.
  - intros [bs]; simpl. by intros ->.
  - intros bs k. destruct (utf8_valid bs) eqn:E; [|done]. by intros [= <-].
Qed.

#[export] Instance uint_lawful w : LawfulKey (UInt w) (uint_ok w).
Proof.
  split; unfold uint_ok, key_from_bytes, uint_owned, key_bytes, uint_key.
  - intros [z] Hz; simpl in *. rewrite decide_True by apply length_to_le_bytes.
    by rewrite from_to_le_bytes.
  - intros bs k. case_decide as Hl; [|done]. intros [= <-]; simpl. split.
    + by apply to_from_le_bytes.
    + subst w. apply from_le_bytes_range.
Qed.

Lemma to_signed_mod w z :
  (- 256 ^ Z.of_nat w <= 2 * z < 256 ^ Z.of_nat w)%Z ->
  to_signed w (z mod 256 ^ Z.of_nat w) = z.
Proof.
  intros Hz. pose proof (pow256_pos w). unfold to_signed.
  destruct (Z_lt_le_dec z 0) as [Hneg|Hpos].
  - rewrite <- (Z_mod_plus_full z 1), Z.mod_small by lia.
    case_match eqn:E; [apply Z.ltb_lt in E|]; lia.
  - rewrite Z.mod_small by lia.
    case_match eqn:E; [|apply Z.ltb_ge in E]; lia.
Qed.

Lemma mod_to_signed w z :
  (0 <= z < 256 ^ Z.of_nat w)%Z -> (to_signed w z mod 256 ^ Z.of_nat w = z)%Z.
Proof.
  intros Hz. unfold to_signed. case_match.
  - by apply Z.mod_small.
  - rewrite <- (Z_mod_plus_full _ 1). rewrite Z.mod_small; lia.
Qed.

#[export] Instance sint_lawful w : LawfulKey (SInt w) (sint_ok w).
Proof.
  pose proof (pow256_pos w) as Hp.
  split; unfold sint_ok, key_from_bytes, sint_owned, key_bytes, sint_key.
  - intros [z] Hz; simpl in *. rewrite decide_True by apply length_to_le_bytes.
    pose proof (Z.mod_pos_bound z _ Hp).
    by rewrite from_to_le_bytes, to_signed_mod.
  - intros bs k. case_decide as Hl; [|done]. intros [= <-]; simpl.
    pose proof (from_le_bytes_range bs) as Hr. rewrite Hl in Hr. split.
    + by rewrite mod_to_signed, to_from_le_bytes.
    + unfold to_signed. case_match eqn:E;
        [apply Z.ltb_lt in E | apply Z.ltb_ge in E]; lia.
Qed.

#[export] Instance hash_lawful : LawfulKey Sha256Hash hash_ok.
Proof.
  split; unfold hash_ok, key_from_bytes, hash_owned, key_bytes, hash_key.
  - intros [bs] H; simpl in *. by rewrite decide_True.
  - intros bs k. case_decide; [|done]. by intros [= <-].
Qed.

#[export] Instance pending_message_lawful :
  LawfulKey MlsPendingMessagePrimaryKey pending_ok.
Proof.
  split; unfold pending_ok, key_from_bytes, pending_message_owned, key_bytes, pending_message_key.
  - intros [z] Hz; cbn [pending_key] in *. rewrite decide_True by apply length_to_be_bytes.
    by rewrite from_to_be_bytes.
  - intros bs k. case_decide as Hl; [|done]. intros [= <-].
    cbn [pending_key]. unfold to_be_bytes, from_be_bytes. split.
    + rewrite to_from_le_bytes by by rewrite length_rev. apply rev_involutive.
    + pose proof (from_le_bytes_range (rev bs)) as Hr.
      by rewrite length_rev, Hl in Hr.
Qed.

(** Two keys with the same bytes are the same key. *)
Lemma key_bytes_inj `{LawfulKey K ok} k1 k2 :
  ok k1 -> ok k2 -> key_bytes k1 = key_bytes k2 -> k1 = k2.
Proof.
  intros Hk1 Hk2 E. apply key_round_trip in Hk1, Hk2. congruence.
Qed.
