(* ===== verification/EntityTypes.v ===== *)
(** * The closed set of entity types

    [keystore/src/transaction/dynamic_dispatch/entity_type.rs]: the tag of every
    kind of entity a transaction can hold, and its correspondence with the SQL
    collection names.  The native build with the [proteus-keystore] feature is
    modelled; the [E2eiRefreshToken] variant only exists in the browser build. *)

From S2P Require Import Prelude.

Module EntityType.

Inductive t : Type :=
  | HpkePrivateKey
  | KeyPackage
  | PskBundle
  | EncryptionKeyPair
  | EpochEncryptionKeyPair
  | StoredCredential
  | StoredBufferedCommit
  | PersistedMlsGroup
  | PersistedMlsPendingGroup
  | MlsPendingMessage
  | StoredE2eiEnrollment
  | E2eiAcmeCA
  | E2eiIntermediateCert
  | E2eiCrl
  | ProteusIdentity
  | ProteusPrekey
  | ProteusSession
  | ConsumerData.

#[export] Instance t_eq_dec : EqDecision t.
Proof. solve_decision. Defined.

(** Every variant, in declaration order. *)
Definition all : list t :=
  [HpkePrivateKey; KeyPackage; PskBundle; EncryptionKeyPair; EpochEncryptionKeyPair;
   StoredCredential; StoredBufferedCommit; PersistedMlsGroup; PersistedMlsPendingGroup;
   MlsPendingMessage; StoredE2eiEnrollment; E2eiAcmeCA; E2eiIntermediateCert; E2eiCrl;
   ProteusIdentity; ProteusPrekey; ProteusSession; ConsumerData].

(** [EntityType::collection_name]. *)
Definition collection_name (typ : t) : string :=
  match typ with
  | KeyPackage => "mls_keypackages"
  | PskBundle => "mls_psk_bundles"
  | EncryptionKeyPair => "mls_encryption_keypairs"
  | EpochEncryptionKeyPair => "mls_epoch_encryption_keypairs"
  | StoredCredential => "mls_credentials"
  | StoredBufferedCommit => "mls_buffered_commits"
  | PersistedMlsGroup => "mls_groups"
  | PersistedMlsPendingGroup => "mls_pending_groups"
  | MlsPendingMessage => "mls_pending_messages"
  | StoredE2eiEnrollment => "e2ei_enrollment"
  | E2eiAcmeCA => "e2ei_acme_ca"
  | E2eiIntermediateCert => "e2ei_intermediate_certs"
  | E2eiCrl => "e2ei_crls"
  | ProteusIdentity => "proteus_identities"
  | ProteusPrekey => "proteus_prekeys"
  | ProteusSession => "proteus_sessions"
  | HpkePrivateKey => "mls_hpke_private_keys"
  | ConsumerData => "consumer_data"
  end.

(** [EntityType::from_collection_name]: the arms are tried in source order. *)
Definition from_collection_name (name : string) : option t :=
  let arm typ k := if String.eqb name (collection_name typ) then Some typ else k in
  arm HpkePrivateKey (arm KeyPackage (arm PskBundle (arm EncryptionKeyPair
  (arm EpochEncryptionKeyPair (arm StoredBufferedCommit (arm PersistedMlsGroup
  (arm PersistedMlsPendingGroup (arm StoredCredential (arm MlsPendingMessage
  (arm StoredE2eiEnrollment (arm E2eiCrl (arm E2eiAcmeCA (arm E2eiIntermediateCert
  (arm ProteusIdentity (arm ProteusPrekey (arm ProteusSession
  (arm ConsumerData None))))))))))))))))).

Lemma from_collection_name_of typ : from_collection_name (collection_name typ) = Some typ.
Proof. by destruct typ. Qed.

Lemma from_collection_name_sound name typ :
  from_collection_name name = Some typ -> name = collection_name typ.
Proof.
  unfold from_collection_name. intros H.
  repeat (case_match eqn:E; [apply String.eqb_eq in E; congruence | clear E]). done.
Qed.

#[export] Instance collection_name_inj : Inj (=) (=) collection_name.
Proof.
  intros t1 t2 E. pose proof (from_collection_name_of t1) as H.
  rewrite E, from_collection_name_of in H. congruence.
Qed.

#[export] Instance t_countable : Countable t.
Proof. apply (inj_countable collection_name from_collection_name from_collection_name_of). Defined.

End EntityType.

Export (hints) EntityType.
