(* ===== verification/Entities.v ===== *)
(** * Entities and their identity

    The structs of [keystore/src/entities], the dynamic entity of
    [transaction/dynamic_dispatch/entity.rs], primary keys, and the [EntityId] of
    [transaction/dynamic_dispatch/entity_id.rs]. *)

From S2P Require Import Prelude Keys EntityTypes.
From Stdlib Require Import Lia ZArith.

(** ** Code outside the repository

    The hash functions of the [sha2] and [twox-hash] crates and the two SQLite
    date functions the credential statements call. *)
Class Externals : Type := {
  sha256_digest : bytes -> bytes;
  xxhash3_128 : bytes -> Z;
  sql_datetime : Z -> bytes;
  sql_unixepoch : bytes -> option Z;
}.

(** What the code relies on: the digest sizes, and that [unixepoch] inverts
    [datetime(_, 'unixepoch')] up to the last second of the year 9999. *)
Class ExternalsLaws (X : Externals) : Prop := {
  sha256_digest_length bs : length (sha256_digest bs) = 32;
  xxhash3_128_range bs : (0 <= xxhash3_128 bs < 256 ^ 16)%Z;
  sql_unixepoch_datetime t :
    (0 <= t <= 253402300799)%Z -> sql_unixepoch (sql_datetime t) = Some t;
}.

(** ** Structs *)
Record StoredHpkePrivateKey : Type := { hpke_sk : bytes; hpke_pk : bytes }.
Record StoredKeypackage : Type := { keypackage_ref : bytes; keypackage : bytes }.
Record StoredPskBundle : Type := { psk_id : bytes; psk : bytes }.
Record StoredEncryptionKeyPair : Type := { enc_sk : bytes; enc_pk : bytes }.
Record StoredEpochEncryptionKeypair : Type := { epoch_id : bytes; epoch_keypairs : bytes }.
Record StoredCredential : Type := {
  cred_session_id : bytes;
  cred_credential : bytes;
  cred_created_at : Z;
  cred_ciphersuite : Z;
  cred_public_key : bytes;
  cred_private_key : bytes;
}.
Record StoredBufferedCommit : Type := { bc_conversation_id : bytes; bc_commit_data : bytes }.
Record PersistedMlsGroup : Type := {
  group_id : bytes;
  group_state : bytes;
  group_parent_id : option bytes;
}.
Record PersistedMlsPendingGroup : Type := {
  pgroup_id : bytes;
  pgroup_state : bytes;
  pgroup_parent_id : option bytes;
  pgroup_custom_configuration : bytes;
}.
Record MlsPendingMessage : Type := { pm_foreign_id : bytes; pm_message : bytes }.
Record StoredE2eiEnrollment : Type := { enrollment_id : bytes; enrollment_content : bytes }.
Record E2eiAcmeCA : Type := { acme_ca_content : bytes }.
Record E2eiIntermediateCert : Type := { ski_aki_pair : bytes; intermediate_content : bytes }.
Record E2eiCrl : Type := { distribution_point : bytes; crl_content : bytes }.
Record ProteusIdentity : Type := { identity_sk : bytes; identity_pk : bytes }.
Record ProteusPrekey : Type := {
  prekey_id : Z;
  prekey_id_bytes : bytes;
  prekey_prekey : bytes;
}.
Record ProteusSession : Type := { session_id : bytes; session_session : bytes }.
Record ConsumerData : Type := { consumer_content : bytes }.

#[export] Instance StoredHpkePrivateKey_eq_dec : EqDecision StoredHpkePrivateKey.
Proof. solve_decision. Defined.
#[export] Instance StoredKeypackage_eq_dec : EqDecision StoredKeypackage.
Proof. solve_decision. Defined.
#[export] Instance StoredPskBundle_eq_dec : EqDecision StoredPskBundle.
Proof. solve_decision. Defined.
#[export] Instance StoredEncryptionKeyPair_eq_dec : EqDecision StoredEncryptionKeyPair.
Proof. solve_decision. Defined.
#[export] Instance StoredEpochEncryptionKeypair_eq_dec : EqDecision StoredEpochEncryptionKeypair.
Proof. solve_decision. Defined.
#[export] Instance StoredCredential_eq_dec : EqDecision StoredCredential.
Proof. solve_decision. Defined.
#[export] Instance StoredBufferedCommit_eq_dec : EqDecision StoredBufferedCommit.
Proof. solve_decision. Defined.
#[export] Instance PersistedMlsGroup_eq_dec : EqDecision PersistedMlsGroup.
Proof. solve_decision. Defined.
#[export] Instance PersistedMlsPendingGroup_eq_dec : EqDecision PersistedMlsPendingGroup.
Proof. solve_decision. Defined.
#[export] Instance MlsPendingMessage_eq_dec : EqDecision MlsPendingMessage.
Proof. solve_decision. Defined.
#[export] Instance StoredE2eiEnrollment_eq_dec : EqDecision StoredE2eiEnrollment.
Proof. solve_decision. Defined.
#[export] Instance E2eiAcmeCA_eq_dec : EqDecision E2eiAcmeCA.
Proof. solve_decision. Defined.
#[export] Instance E2eiIntermediateCert_eq_dec : EqDecision E2eiIntermediateCert.
Proof. solve_decision. Defined.
#[export] Instance E2eiCrl_eq_dec : EqDecision E2eiCrl.
Proof. solve_decision. Defined.
#[export] Instance ProteusIdentity_eq_dec : EqDecision ProteusIdentity.
Proof. solve_decision. Defined.
#[export] Instance ProteusPrekey_eq_dec : EqDecision ProteusPrekey.
Proof. solve_decision. Defined.
#[export] Instance ProteusSession_eq_dec : EqDecision ProteusSession.
Proof. solve_decision. Defined.
#[export] Instance ConsumerData_eq_dec : EqDecision ConsumerData.
Proof. solve_decision. Defined.

(** [ProteusPrekey::from_raw]. *)
Definition proteus_prekey_from_raw (id : Z) (prekey : bytes) : ProteusPrekey :=
  {| prekey_id_bytes := to_le_bytes 2 id; prekey_id := id; prekey_prekey := prekey |}.

(** ** The dynamic entity *)
Module Entity.

Inductive t : Type :=
  | ConsumerData (e : ConsumerData)
  | HpkePrivateKey (e : StoredHpkePrivateKey)
  | StoredKeypackage (e : StoredKeypackage)
  | PskBundle (e : StoredPskBundle)
  | EncryptionKeyPair (e : StoredEncryptionKeyPair)
  | StoredEpochEncryptionKeypair (e : StoredEpochEncryptionKeypair)
  | StoredCredential (e : StoredCredential)
  | StoredBufferedCommit (e : StoredBufferedCommit)
  | PersistedMlsGroup (e : PersistedMlsGroup)
  | PersistedMlsPendingGroup (e : PersistedMlsPendingGroup)
  | MlsPendingMessage (e : MlsPendingMessage)
  | StoredE2eiEnrollment (e : StoredE2eiEnrollment)
  | E2eiAcmeCA (e : E2eiAcmeCA)
  | E2eiIntermediateCert (e : E2eiIntermediateCert)
  | E2eiCrl (e : E2eiCrl)
  | ProteusIdentity (e : ProteusIdentity)
  | ProteusPrekey (e : ProteusPrekey)
  | ProteusSession (e : ProteusSession).

#[export] Instance t_eq_dec : EqDecision t.
Proof. solve_decision. Defined.

(** The Rust type of the value the [Arc] points to. *)
Definition typ (e : t) : EntityType.t :=
  match e with
  | ConsumerData _ => EntityType.ConsumerData
  | HpkePrivateKey _ => EntityType.HpkePrivateKey
  | StoredKeypackage _ => EntityType.KeyPackage
  | PskBundle _ => EntityType.PskBundle
  | EncryptionKeyPair _ => EntityType.EncryptionKeyPair
  | StoredEpochEncryptionKeypair _ => EntityType.EpochEncryptionKeyPair
  | StoredCredential _ => EntityType.StoredCredential
  | StoredBufferedCommit _ => EntityType.StoredBufferedCommit
  | PersistedMlsGroup _ => EntityType.PersistedMlsGroup
  | PersistedMlsPendingGroup _ => EntityType.PersistedMlsPendingGroup
  | MlsPendingMessage _ => EntityType.MlsPendingMessage
  | StoredE2eiEnrollment _ => EntityType.StoredE2eiEnrollment
  | E2eiAcmeCA _ => EntityType.E2eiAcmeCA
  | E2eiIntermediateCert _ => EntityType.E2eiIntermediateCert
  | E2eiCrl _ => EntityType.E2eiCrl
  | ProteusIdentity _ => EntityType.ProteusIdentity
  | ProteusPrekey _ => EntityType.ProteusPrekey
  | ProteusSession _ => EntityType.ProteusSession
  end.

(** [Entity::downcast]: the value, when it has the requested type. *)
Definition downcast (ty : EntityType.t) (e : t) : option t :=
  if decide (typ e = ty) then Some e else None.

End Entity.

Export (hints) Entity.

(** ** Primary keys *)

(** The associated type [E::PrimaryKey], tagged by its Rust type. *)
Inductive PrimaryKey : Type :=
  | PkUnit (k : unit)
  | PkVec (k : VecU8)
  | PkString (k : RString)
  | PkU64 (k : UInt 8)
  | PkU16 (k : UInt 2)
  | PkSha256 (k : Sha256Hash)
  | PkPendingMessage (k : MlsPendingMessagePrimaryKey).

(** [KeyType::bytes] at the type of the key. *)
Definition pk_bytes (pk : PrimaryKey) : bytes :=
  match pk with
  | PkUnit k => key_bytes k
  | PkVec k => key_bytes k
  | PkString k => key_bytes k
  | PkU64 k => key_bytes k
  | PkU16 k => key_bytes k
  | PkSha256 k => key_bytes k
  | PkPendingMessage k => key_bytes k
  end.

(** [OwnedKeyType::from_bytes] at the primary key type of [ty]. *)
Definition pk_from_bytes (ty : EntityType.t) (bs : bytes) : option PrimaryKey :=
  match ty with
  | EntityType.ProteusIdentity => PkUnit <$> key_from_bytes bs
  | EntityType.HpkePrivateKey | EntityType.KeyPackage | EntityType.PskBundle
  | EntityType.EncryptionKeyPair | EntityType.EpochEncryptionKeyPair
  | EntityType.StoredBufferedCommit | EntityType.PersistedMlsGroup
  | EntityType.PersistedMlsPendingGroup | EntityType.StoredE2eiEnrollment =>
      PkVec <$> key_from_bytes bs
  | EntityType.E2eiIntermediateCert | EntityType.E2eiCrl | EntityType.ProteusSession =>
      PkString <$> key_from_bytes bs
  | EntityType.E2eiAcmeCA | EntityType.ConsumerData => PkU64 <$> key_from_bytes bs
  | EntityType.ProteusPrekey => PkU16 <$> key_from_bytes bs
  | EntityType.StoredCredential => PkSha256 <$> key_from_bytes bs
  | EntityType.MlsPendingMessage => PkPendingMessage <$> key_from_bytes bs
  end.

(** The keys of the type [E::PrimaryKey] of [ty], with the values that type has. *)
Definition pk_ok (ty : EntityType.t) (pk : PrimaryKey) : Prop :=
  match ty, pk with
  | EntityType.ProteusIdentity, PkUnit _ => True
  | (EntityType.HpkePrivateKey | EntityType.KeyPackage | EntityType.PskBundle
    | EntityType.EncryptionKeyPair | EntityType.EpochEncryptionKeyPair
    | EntityType.StoredBufferedCommit | EntityType.PersistedMlsGroup
    | EntityType.PersistedMlsPendingGroup | EntityType.StoredE2eiEnrollment), PkVec _ => True
  | (EntityType.E2eiIntermediateCert | EntityType.E2eiCrl | EntityType.ProteusSession),
    PkString k => string_ok k
  | (EntityType.E2eiAcmeCA | EntityType.ConsumerData), PkU64 k => uint_ok 8 k
  | EntityType.ProteusPrekey, PkU16 k => uint_ok 2 k
  | EntityType.StoredCredential, PkSha256 k => hash_ok k
  | EntityType.MlsPendingMessage, PkPendingMessage k => pending_ok k
  | _, _ => False
  end.

Lemma pk_round_trip ty pk : pk_ok ty pk -> pk_from_bytes ty (pk_bytes pk) = Some pk.
Proof.
  destruct ty, pk; cbn [pk_from_bytes pk_bytes pk_ok]; intros Hok; try done;
    match goal with
    | |- _ <$> key_from_bytes (key_bytes ?k) = _ => by rewrite (key_round_trip k Hok)
    end.
Qed.

Lemma pk_parse_sound ty bs pk :
  pk_from_bytes ty bs = Some pk -> pk_bytes pk = bs /\ pk_ok ty pk.
Proof.
  destruct ty; cbn [pk_from_bytes]; intros H; apply fmap_Some in H as (k & H & ->);
    apply key_parse_sound in H; done.
Qed.

Lemma pk_bytes_inj ty pk1 pk2 :
  pk_ok ty pk1 -> pk_ok ty pk2 -> pk_bytes pk1 = pk_bytes pk2 -> pk1 = pk2.
Proof.
  intros H1 H2 E. apply pk_round_trip in H1, H2. congruence.
Qed.

Section primary_key.
Context `{X : Externals}.

(** [Sha256Hash::hash_from]. *)
Definition hash_from (input : bytes) : Sha256Hash := {| hash_bytes := sha256_digest input |}.

(** [From<&MlsPendingMessage> for MlsPendingMessagePrimaryKey]: the hasher is
    fed the two fields one after the other. *)
Definition pending_message_primary_key (m : MlsPendingMessage) : MlsPendingMessagePrimaryKey :=
  {| pending_key := xxhash3_128 (pm_foreign_id m ++ pm_message m) |}.

(** [PrimaryKey::primary_key] of each entity. *)
Definition primary_key (e : Entity.t) : PrimaryKey :=
  match e with
  | Entity.ConsumerData _ => PkU64 (MkUInt 0)
  | Entity.HpkePrivateKey e => PkVec {| vec_bytes := hpke_pk e |}
  | Entity.StoredKeypackage e => PkVec {| vec_bytes := keypackage_ref e |}
  | Entity.PskBundle e => PkVec {| vec_bytes := psk_id e |}
  | Entity.EncryptionKeyPair e => PkVec {| vec_bytes := enc_pk e |}
  | Entity.StoredEpochEncryptionKeypair e => PkVec {| vec_bytes := epoch_id e |}
  | Entity.StoredCredential e => PkSha256 (hash_from (cred_public_key e))
  | Entity.StoredBufferedCommit e => PkVec {| vec_bytes := bc_conversation_id e |}
  | Entity.PersistedMlsGroup e => PkVec {| vec_bytes := group_id e |}
  | Entity.PersistedMlsPendingGroup e => PkVec {| vec_bytes := pgroup_id e |}
  | Entity.MlsPendingMessage e => PkPendingMessage (pending_message_primary_key e)
  | Entity.StoredE2eiEnrollment e => PkVec {| vec_bytes := enrollment_id e |}
  | Entity.E2eiAcmeCA _ => PkU64 (MkUInt 0)
  | Entity.E2eiIntermediateCert e => PkString {| str_bytes := ski_aki_pair e |}
  | Entity.E2eiCrl e => PkString {| str_bytes := distribution_point e |}
  | Entity.ProteusIdentity _ => PkUnit tt
  | Entity.ProteusPrekey e => PkU16 (MkUInt (prekey_id e))
  | Entity.ProteusSession e => PkString {| str_bytes := session_id e |}
  end.

(** The invariants the Rust types give the fields: integer widths, UTF-8
    strings, and the private [id_bytes] of a prekey.  The creation time is one
    SQLite can print. *)
Definition entity_ok (e : Entity.t) : Prop :=
  match e with
  | Entity.StoredCredential e =>
      (0 <= cred_created_at e <= 253402300799)%Z /\ (0 <= cred_ciphersuite e < 65536)%Z
  | Entity.E2eiIntermediateCert e => utf8_valid (ski_aki_pair e) = true
  | Entity.E2eiCrl e => utf8_valid (distribution_point e) = true
  | Entity.ProteusPrekey e =>
      (0 <= prekey_id e < 65536)%Z /\ prekey_id_bytes e = to_le_bytes 2 (prekey_id e)
  | Entity.ProteusSession e => utf8_valid (session_id e) = true
  | _ => True
  end.

Lemma primary_key_ok `{!ExternalsLaws X} e : entity_ok e -> pk_ok (Entity.typ e) (primary_key e).
Proof.
  destruct e; cbn [entity_ok primary_key pk_ok Entity.typ]; try done.
  - intros _. apply sha256_digest_length.
  - intros _. apply xxhash3_128_range.
  - intros [Hid _]. unfold uint_ok. exact Hid.
Qed.

End primary_key.

(** ** Entity ids *)
Module EntityId.

Record t : Type := MkId { typ : EntityType.t; id : bytes }.

#[export] Instance t_eq_dec : EqDecision t.
Proof. solve_decision. Defined.

#[export] Instance t_countable : Countable t.
Proof.
  apply (inj_countable' (fun i => (typ i, id i)) (fun p => MkId p.1 p.2)). by intros [].
Defined.

(** [EntityId::from_key]: [ty] stands for the type parameter [E]. *)
Definition from_key (ty : EntityType.t) (primary_key : bytes) : option t :=
  typ ← EntityType.from_collection_name (EntityType.collection_name ty);
  Some (MkId typ primary_key).

(** [EntityId::from_primary_key] and [EntityId::from_borrowed_primary_key]. *)
Definition from_primary_key (ty : EntityType.t) (pk : PrimaryKey) : option t :=
  from_key ty (pk_bytes pk).

(** [EntityId::from_entity]. *)
Definition from_entity `{X : Externals} (e : Entity.t) : option t :=
  from_key (Entity.typ e) (pk_bytes (primary_key e)).

(** [EntityId::primary_key]. *)
Definition primary_key (i : t) : option PrimaryKey := pk_from_bytes (typ i) (id i).

(** [EntityId::collection_name]. *)
Definition collection_name (i : t) : string := EntityType.collection_name (typ i).

Lemma from_key_eq ty bs : from_key ty bs = Some (MkId ty bs).
Proof. unfold from_key. by rewrite EntityType.from_collection_name_of. Qed.

(** The id of an entity. *)
Definition of_entity `{X : Externals} (e : Entity.t) : t :=
  MkId (Entity.typ e) (pk_bytes (Entities.primary_key e)).

Lemma from_entity_eq `{X : Externals} e : from_entity e = Some (of_entity e).
Proof. apply from_key_eq. Qed.

Lemma of_entity_inj_key `{X : Externals} e1 e2 :
  of_entity e1 = of_entity e2 ->
  Entity.typ e1 = Entity.typ e2 /\
  pk_bytes (Entities.primary_key e1) = pk_bytes (Entities.primary_key e2).
Proof. unfold of_entity. intros H. by injection H. Qed.

End EntityId.

Export (hints) EntityId.
