(* ===== verification/ToyExternals.v ===== *)
(** * A concrete choice of the external functions

    The hash functions and SQLite date functions are parameters of the model.
    This instance, with truncation as hashing, satisfies the laws the proofs use,
    so that the model can be run on examples. *)

From S2P Require Import Prelude Keys EntityTypes Entities.
From Stdlib Require Import Lia ZArith.

#[export] Instance toy_externals : Externals := {|
  sha256_digest bs := take 32 (bs ++ replicate 32 x00);
  xxhash3_128 bs := from_le_bytes (take 16 bs);
  sql_datetime t := to_le_bytes 8 t;
  sql_unixepoch bs := Some (from_le_bytes bs);
|}.

#[export] Instance toy_externals_laws : ExternalsLaws toy_externals.
Proof.
  split; cbn [sha256_digest xxhash3_128 sql_datetime sql_unixepoch toy_externals].
  - intros bs. rewrite length_take, length_app, length_replicate. lia.
  - intros bs. pose proof (from_le_bytes_range (take 16 bs)) as [H1 H2].
    split; [done|]. eapply Z.lt_le_trans; [exact H2|].
    apply Z.pow_le_mono_r; [lia|]. pose proof (length_take bs 16). lia.
  - intros t Ht. rewrite from_to_le_bytes; [done|].
    change (256 ^ Z.of_nat 8)%Z with 18446744073709551616%Z. lia.
Qed.
