(* ===== verification/Sql.v ===== *)
(** * The fragment of SQLite the keystore uses

    The statements of [keystore/src/entities/platform/generic] are four shapes:
    [INSERT] with or without [OR REPLACE], [SELECT ... WHERE column = ?],
    [SELECT ...] over the whole table and [DELETE].  A table is the list of its
    rows in rowid order, a row an association list of its columns, and a value
    keeps its storage class: a comparison never converts between [TEXT] and
    [BLOB], which is SQLite's rule for parameters bound without an affinity.
    The tables are those of
    [keystore/src/connection/platform/generic/composite-schema.sql]. *)

From S2P Require Import Prelude EntityTypes.
From Stdlib Require Import Lia ZArith.

Inductive SqlValue : Type :=
  | Null
  | Integer (z : Z)
  | Text (s : bytes)
  | Blob (b : bytes).

#[export] Instance SqlValue_eq_dec : EqDecision SqlValue.
Proof. solve_decision. Defined.

Inductive SqlError : Type :=
  | NoSuchTable (table : string)
  | NoSuchColumn (column : string)
  | ConstraintViolation (table : string)
  | InvalidColumnType (column : string)
  | ToSqlConversionFailure.

#[export] Instance SqlError_eq_dec : EqDecision SqlError.
Proof. solve_decision. Defined.

(** ** Rows and tables *)
Abbreviation Row := (list (string * SqlValue)).
Abbreviation Table := (list Row).
Abbreviation SqlDb := (gmap string Table).

(** The value of a column; [None] when the row has no such column. *)
Fixpoint row_get (column : string) (row : Row) : option SqlValue :=
  match row with
  | [] => None
  | (c, v) :: row' => if String.eqb c column then Some v else row_get column row'
  end.

(** A column definition: [UNIQUE] (or [PRIMARY KEY]), [NOT NULL], [CHECK (id = 0)]. *)
Record Column : Type := MkColumn {
  col_name : string;
  col_unique : bool;
  col_not_null : bool;
  col_check_zero : bool;
}.

Definition plain (name : string) : Column := MkColumn name false false false.
Definition unique (name : string) : Column := MkColumn name true false false.
Definition not_null (name : string) : Column := MkColumn name false true false.

(** The schema.  Column names are compared without case by SQLite and by
    [rusqlite]; they are written in lower case here. *)
Definition schema (ty : EntityType.t) : list Column :=
  match ty with
  | EntityType.ProteusPrekey => [unique "id"; plain "key"]
  | EntityType.PersistedMlsPendingGroup =>
      [plain "id"; plain "state"; plain "cfg"; plain "parent_id"]
  | EntityType.ProteusIdentity => [plain "sk"; plain "pk"]
  | EntityType.ProteusSession => [unique "id"; plain "session"]
  | EntityType.StoredE2eiEnrollment => [unique "id"; plain "content"]
  | EntityType.MlsPendingMessage => [plain "id"; plain "message"]
  | EntityType.E2eiAcmeCA => [MkColumn "id" true false true; plain "content"]
  | EntityType.E2eiIntermediateCert => [unique "ski_aki_pair"; plain "content"]
  | EntityType.E2eiCrl => [unique "distribution_point"; plain "content"]
  | EntityType.EncryptionKeyPair => [unique "pk_sha256"; plain "pk"; plain "sk"]
  | EntityType.HpkePrivateKey => [unique "pk_sha256"; plain "pk"; plain "sk"]
  | EntityType.PskBundle => [unique "id_sha256"; plain "psk_id"; plain "psk"]
  | EntityType.ConsumerData => [MkColumn "id" true false true; plain "content"]
  | EntityType.StoredCredential =>
      [MkColumn "public_key_sha256" true true false; not_null "public_key";
       not_null "session_id"; not_null "credential"; plain "created_at";
       not_null "ciphersuite"; not_null "private_key"]
  | EntityType.EpochEncryptionKeyPair => [unique "id"; plain "keypairs"]
  | EntityType.KeyPackage => [unique "keypackage_ref"; plain "keypackage"]
  | EntityType.PersistedMlsGroup => [unique "id"; plain "state"; plain "parent_id"]
  | EntityType.StoredBufferedCommit => [unique "conversation_id"; plain "commit_data"]
  end.

Definition table_schema (table : string) : option (list Column) :=
  schema <$> EntityType.from_collection_name table.

(** The rows of a table (a table of the schema that was never written is empty). *)
Definition rows (table : string) (db : SqlDb) : Table := default [] (db !! table).

(** ** Statements *)

(** The stored row: the schema's columns in order, [NULL] where none is given. *)
Definition complete_row (cols : list Column) (given : Row) : Row :=
  map (fun c => (col_name c, default Null (row_get (col_name c) given))) cols.

Definition has_column (cols : list Column) (column : string) : bool :=
  existsb (fun c => String.eqb (col_name c) column) cols.

(** [NOT NULL] and [CHECK] constraints of one row. *)
Definition column_admits (row : Row) (c : Column) : bool :=
  let v := default Null (row_get (col_name c) row) in
  negb (col_not_null c && bool_decide (v = Null)) &&
  (negb (col_check_zero c) || bool_decide (v = Integer 0)).

(** Two rows clash on a [UNIQUE] column holding the same non-null value. *)
Definition clash_on (row row' : Row) (c : Column) : bool :=
  col_unique c &&
  match row_get (col_name c) row, row_get (col_name c) row' with
  | Some v, Some v' => negb (bool_decide (v = Null)) && bool_decide (v = v')
  | _, _ => false
  end.

Definition clash (cols : list Column) (row row' : Row) : bool :=
  existsb (clash_on row row') cols.

(** [INSERT INTO table (...) VALUES (...)] and [INSERT OR REPLACE INTO ...]. *)
Definition sql_insert (or_replace : bool) (table : string) (given : Row) (db : SqlDb) :
    res SqlError SqlDb :=
  match table_schema table with
  | None => Err (NoSuchTable table)
  | Some cols =>
      match find (fun cv => negb (has_column cols cv.1)) given with
      | Some cv => Err (NoSuchColumn cv.1)
      | None =>
          let row := complete_row cols given in
          if negb (forallb (column_admits row) cols) then Err (ConstraintViolation table)
          else if or_replace then
            Ok (<[table := filter (fun r => clash cols r row = false) (rows table db) ++ [row]]> db)
          else if existsb (fun r => clash cols r row) (rows table db) then
            Err (ConstraintViolation table)
          else Ok (<[table := rows table db ++ [row]]> db)
      end
  end.

(** [column = ?] holds of a row. *)
Definition row_matches (column : string) (v : SqlValue) (row : Row) : bool :=
  match row_get column row with
  | Some v' => negb (bool_decide (v = Null)) && bool_decide (v' = v)
  | None => false
  end.

(** [SELECT * FROM table WHERE column = ?]. *)
Definition sql_select_where (table column : string) (v : SqlValue) (db : SqlDb) :
    res SqlError (list Row) :=
  match table_schema table with
  | None => Err (NoSuchTable table)
  | Some cols =>
      if has_column cols column
      then Ok (filter (fun r => row_matches column v r = true) (rows table db))
      else Err (NoSuchColumn column)
  end.

(** [SELECT * FROM table]. *)
Definition sql_select (table : string) (db : SqlDb) : res SqlError (list Row) :=
  match table_schema table with
  | None => Err (NoSuchTable table)
  | Some _ => Ok (rows table db)
  end.

(** [SELECT count( * ) FROM table]. *)
Definition sql_count (table : string) (db : SqlDb) : res SqlError nat :=
  length <$> sql_select table db.

(** [DELETE FROM table WHERE column = ?], with the number of deleted rows. *)
Definition sql_delete_where (table column : string) (v : SqlValue) (db : SqlDb) :
    res SqlError (nat * SqlDb) :=
  match table_schema table with
  | None => Err (NoSuchTable table)
  | Some cols =>
      if has_column cols column
      then Ok (length (filter (fun r => row_matches column v r = true) (rows table db)),
               <[table := filter (fun r => row_matches column v r = false) (rows table db)]> db)
      else Err (NoSuchColumn column)
  end.

(** [DELETE FROM table]. *)
Definition sql_delete (table : string) (db : SqlDb) : res SqlError (nat * SqlDb) :=
  match table_schema table with
  | None => Err (NoSuchTable table)
  | Some _ => Ok (length (rows table db), <[table := []]> db)
  end.
