(* ===== verification/KeystoreErrors.v ===== *)
(** * Errors of the keystore

    [keystore/src/error.rs] with Proteus: the errors of the native and of the browser build.
    Payloads that come from other crates carry no information the keystore inspects and are
    dropped. *)

From S2P Require Import Prelude Sql.

Module KeystoreError.

Inductive t : Type :=
  | KeyReprError
  | MutatingOperationWithoutTransaction
  | TransactionInProgress
  | TryFromSliceError
  | LockPoisonError
  | OutOfKeyPackageBundles
  | IncorrectApiUsage
  | SignatureKeyPairDoesNotBelongToCredential
  | AlreadyExists (collection : string)
  | BlobTooBig
  | Closed
  | KeyStoreValueTransformError
  | IoError
  | TimeError
  | AesGcmError
  | DbError (e : SqlError)
  | DbMigrationError
  | InvalidDbKeySize (expected actual : Z)
  | InvalidKeySize (expected actual : Z)
  | ParseIntError
  | NoFreePrekeyId
  | MlsKeyStoreError
  | HexDecodeError
  | FromUtf8Error
  | NotImplemented
  | TimestampError
  | NotFound
  | SerdeJsonError
  | MigrationFailed
  | InvalidPrimaryKeyBytes (collection : string)
  | UnknownCollectionName (collection : string)
  | SerdeWasmBindgenError
  | JsError
  | IdbError
  | MigrationNotSupported (version : Z)
  | RelaxedIdbError.

#[export] Instance t_eq_dec : EqDecision t.
Proof. solve_decision. Defined.

(** The error kinds of [proteus_traits] the mapping below produces. *)
Inductive ProteusErrorKind : Type :=
  | DecodeError
  | OtherSystemError
  | ProteusIoError
  | InvalidArrayLen.

(** [ProteusErrorCode::code] of the native build: the catch-all arm is [unreachable!()]. *)
Definition code (e : t) : res Empty_set ProteusErrorKind :=
  match e with
  | KeyReprError => Ok DecodeError
  | TryFromSliceError => Ok DecodeError
  | LockPoisonError => Ok OtherSystemError
  | BlobTooBig => Ok ProteusIoError
  | KeyStoreValueTransformError => Ok DecodeError
  | IoError => Ok ProteusIoError
  | DbError _ => Ok ProteusIoError
  | DbMigrationError => Ok ProteusIoError
  | InvalidKeySize _ _ => Ok InvalidArrayLen
  | ParseIntError => Ok DecodeError
  | HexDecodeError => Ok DecodeError
  | FromUtf8Error => Ok DecodeError
  | _ => Panic
  end.

End KeystoreError.

Export (hints) KeystoreError.

(** [CryptoKeystoreResult]. *)
Abbreviation kres := (res KeystoreError.t).

(** [?] on a [rusqlite::Result]. *)
Definition sql {A} (m : res SqlError A) : kres A := map_err KeystoreError.DbError m.
