(* ===== verification/EntityStore.v ===== *)
(** * Entities in the database

    The [Entity], [EntityDatabaseMutation], [SearchableEntity] and
    [UniqueEntityExt] implementations of the native build
    ([keystore/src/entities/platform/generic], [keystore/src/traits/unique_entity.rs]
    and the code generated by [crypto-macros/src/entity_derive/derive_impl.rs]),
    and the dynamic dispatch of [execute_save] and [execute_delete]. *)

From S2P Require Import Prelude Keys EntityTypes Entities Sql KeystoreErrors.
From Stdlib Require Import Lia ZArith.

Section entity_store.
Context `{X : Externals}.

(** ** Writing *)

Definition opt_blob (o : option bytes) : SqlValue :=
  match o with Some b => Blob b | None => Null end.

(** The columns and values bound by the [INSERT] statement of each entity. *)
Definition consumer_data_values (e : ConsumerData) : Row :=
  [("id", Integer 0); ("content", Blob (consumer_content e))].
Definition hpke_values (e : StoredHpkePrivateKey) : Row :=
  [("pk_sha256", Blob (hpke_pk e)); ("pk", Blob (hpke_pk e)); ("sk", Blob (hpke_sk e))].
Definition keypackage_values (e : StoredKeypackage) : Row :=
  [("keypackage_ref", Blob (keypackage_ref e)); ("keypackage", Blob (keypackage e))].
Definition psk_values (e : StoredPskBundle) : Row :=
  [("id_sha256", Blob (psk_id e)); ("psk_id", Blob (psk_id e)); ("psk", Blob (psk e))].
Definition encryption_keypair_values (e : StoredEncryptionKeyPair) : Row :=
  [("pk_sha256", Blob (enc_pk e)); ("pk", Blob (enc_pk e)); ("sk", Blob (enc_sk e))].
Definition epoch_keypair_values (e : StoredEpochEncryptionKeypair) : Row :=
  [("id", Blob (epoch_id e)); ("keypairs", Blob (epoch_keypairs e))].
Definition credential_values (e : StoredCredential) : Row :=
  [("public_key_sha256", Blob (hash_bytes (hash_from (cred_public_key e))));
   ("public_key", Blob (cred_public_key e));
   ("session_id", Blob (cred_session_id e));
   ("credential", Blob (cred_credential e));
   ("created_at", Text (sql_datetime (cred_created_at e)));
   ("ciphersuite", Integer (cred_ciphersuite e));
   ("private_key", Blob (cred_private_key e))].
Definition buffered_commit_values (e : StoredBufferedCommit) : Row :=
  [("conversation_id", Blob (bc_conversation_id e)); ("commit_data", Blob (bc_commit_data e))].
Definition group_values (e : PersistedMlsGroup) : Row :=
  [("id", Blob (group_id e)); ("state", Blob (group_state e));
   ("parent_id", opt_blob (group_parent_id e))].
Definition pending_group_values (e : PersistedMlsPendingGroup) : Row :=
  [("id", Blob (pgroup_id e)); ("state", Blob (pgroup_state e));
   ("parent_id", opt_blob (pgroup_parent_id e));
   ("cfg", Blob (pgroup_custom_configuration e))].
Definition pending_message_values (e : MlsPendingMessage) : Row :=
  [("id", Blob (pm_foreign_id e)); ("message", Blob (pm_message e))].
Definition enrollment_values (e : StoredE2eiEnrollment) : Row :=
  [("id", Blob (enrollment_id e)); ("content", Blob (enrollment_content e))].
Definition acme_ca_values (e : E2eiAcmeCA) : Row :=
  [("id", Integer 0); ("content", Blob (acme_ca_content e))].
Definition intermediate_cert_values (e : E2eiIntermediateCert) : Row :=
  [("ski_aki_pair", Text (ski_aki_pair e)); ("content", Blob (intermediate_content e))].
Definition crl_values (e : E2eiCrl) : Row :=
  [("distribution_point", Text (distribution_point e)); ("content", Blob (crl_content e))].
Definition proteus_identity_values (e : ProteusIdentity) : Row :=
  [("sk", Blob (identity_sk e)); ("pk", Blob (identity_pk e))].
Definition proteus_prekey_values (e : ProteusPrekey) : Row :=
  [("id", Integer (prekey_id e)); ("key", Blob (prekey_prekey e))].
Definition proteus_session_values (e : ProteusSession) : Row :=
  [("id", Text (session_id e)); ("session", Blob (session_session e))].

Definition insert_values (e : Entity.t) : Row :=
  match e with
  | Entity.ConsumerData e => consumer_data_values e
  | Entity.HpkePrivateKey e => hpke_values e
  | Entity.StoredKeypackage e => keypackage_values e
  | Entity.PskBundle e => psk_values e
  | Entity.EncryptionKeyPair e => encryption_keypair_values e
  | Entity.StoredEpochEncryptionKeypair e => epoch_keypair_values e
  | Entity.StoredCredential e => credential_values e
  | Entity.StoredBufferedCommit e => buffered_commit_values e
  | Entity.PersistedMlsGroup e => group_values e
  | Entity.PersistedMlsPendingGroup e => pending_group_values e
  | Entity.MlsPendingMessage e => pending_message_values e
  | Entity.StoredE2eiEnrollment e => enrollment_values e
  | Entity.E2eiAcmeCA e => acme_ca_values e
  | Entity.E2eiIntermediateCert e => intermediate_cert_values e
  | Entity.E2eiCrl e => crl_values e
  | Entity.ProteusIdentity e => proteus_identity_values e
  | Entity.ProteusPrekey e => proteus_prekey_values e
  | Entity.ProteusSession e => proteus_session_values e
  end.

(** Whether the [INSERT] is an [INSERT OR REPLACE]. *)
Definition insert_or_replace (ty : EntityType.t) : bool :=
  match ty with
  | EntityType.StoredCredential | EntityType.MlsPendingMessage
  | EntityType.StoredE2eiEnrollment | EntityType.ProteusIdentity
  | EntityType.ProteusPrekey => false
  | _ => true
  end.

(** How a failed [INSERT] is reported: the derived [no_upsert] entities map every
    error to [AlreadyExists], the others use [?]. *)
Definition insert_error (ty : EntityType.t) (e : SqlError) : KeystoreError.t :=
  match ty with
  | EntityType.StoredE2eiEnrollment => KeystoreError.AlreadyExists (EntityType.collection_name ty)
  | _ => KeystoreError.DbError e
  end.

(** [EntityDatabaseMutation::save]. *)
Definition entity_save (e : Entity.t) (db : SqlDb) : kres SqlDb :=
  let ty := Entity.typ e in
  map_err (insert_error ty)
    (sql_insert (insert_or_replace ty) (EntityType.collection_name ty) (insert_values e) db).

(** ** Reading *)

(** [row.get("column")?] at the types the structs use. *)
Definition get_value (column : string) (row : Row) : res SqlError SqlValue :=
  ok_or (row_get column row) (NoSuchColumn column).
Definition get_blob (column : string) (row : Row) : res SqlError bytes :=
  v ← get_value column row;
  match v with Blob b => Ok b | _ => Err (InvalidColumnType column) end.
Definition get_opt_blob (column : string) (row : Row) : res SqlError (option bytes) :=
  v ← get_value column row;
  match v with Blob b => Ok (Some b) | Null => Ok None | _ => Err (InvalidColumnType column) end.
Definition get_text (column : string) (row : Row) : res SqlError bytes :=
  v ← get_value column row;
  match v with Text s => Ok s | _ => Err (InvalidColumnType column) end.
Definition get_u16 (column : string) (row : Row) : res SqlError Z :=
  v ← get_value column row;
  match v with
  | Integer z => if (0 <=? z)%Z && (z <? 65536)%Z then Ok z else Err (InvalidColumnType column)
  | _ => Err (InvalidColumnType column)
  end.

(** [unixepoch(created_at) AS created_at], read as a [u64]. *)
Definition get_unixepoch (column : string) (row : Row) : res SqlError Z :=
  s ← get_text column row;
  ok_or (sql_unixepoch s) (InvalidColumnType column).

(** [from_row] of each entity. *)
Definition consumer_data_from_row (row : Row) : res SqlError ConsumerData :=
  content ← get_blob "content" row;
  Ok {| consumer_content := content |}.
Definition hpke_from_row (row : Row) : res SqlError StoredHpkePrivateKey :=
  pk ← get_blob "pk" row; sk ← get_blob "sk" row;
  Ok {| hpke_sk := sk; hpke_pk := pk |}.
Definition keypackage_from_row (row : Row) : res SqlError StoredKeypackage :=
  r ← get_blob "keypackage_ref" row; kp ← get_blob "keypackage" row;
  Ok {| keypackage_ref := r; keypackage := kp |}.
Definition psk_from_row (row : Row) : res SqlError StoredPskBundle :=
  id ← get_blob "psk_id" row; psk ← get_blob "psk" row;
  Ok {| psk_id := id; psk := psk |}.
Definition encryption_keypair_from_row (row : Row) : res SqlError StoredEncryptionKeyPair :=
  pk ← get_blob "pk" row; sk ← get_blob "sk" row;
  Ok {| enc_sk := sk; enc_pk := pk |}.
Definition epoch_keypair_from_row (row : Row) : res SqlError StoredEpochEncryptionKeypair :=
  id ← get_blob "id" row; keypairs ← get_blob "keypairs" row;
  Ok {| epoch_id := id; epoch_keypairs := keypairs |}.
Definition credential_from_row (row : Row) : res SqlError StoredCredential :=
  session_id ← get_blob "session_id" row;
      credential ← get_blob "credential" row;
  created_at ← get_unixepoch "created_at" row;
  ciphersuite ← get_u16 "ciphersuite" row;
  public_key ← get_blob "public_key" row;
  private_key ← get_blob "private_key" row;
  Ok {| cred_session_id := session_id; cred_credential := credential;
      cred_created_at := created_at; cred_ciphersuite := ciphersuite;
      cred_public_key := public_key; cred_private_key := private_key |}.
Definition buffered_commit_from_row (row : Row) : res SqlError StoredBufferedCommit :=
  id ← get_blob "conversation_id" row; data ← get_blob "commit_data" row;
  Ok {| bc_conversation_id := id; bc_commit_data := data |}.
Definition group_from_row (row : Row) : res SqlError PersistedMlsGroup :=
  id ← get_blob "id" row; parent ← get_opt_blob "parent_id" row; state ← get_blob "state" row;
  Ok {| group_id := id; group_state := state; group_parent_id := parent |}.
Definition pending_group_from_row (row : Row) : res SqlError PersistedMlsPendingGroup :=
  id ← get_blob "id" row; state ← get_blob "state" row;
  parent ← get_opt_blob "parent_id" row; cfg ← get_blob "cfg" row;
  Ok {| pgroup_id := id; pgroup_state := state; pgroup_parent_id := parent;
      pgroup_custom_configuration := cfg |}.
Definition pending_message_from_row (row : Row) : res SqlError MlsPendingMessage :=
  id ← get_blob "id" row; message ← get_blob "message" row;
  Ok {| pm_foreign_id := id; pm_message := message |}.
Definition enrollment_from_row (row : Row) : res SqlError StoredE2eiEnrollment :=
  id ← get_blob "id" row; content ← get_blob "content" row;
  Ok {| enrollment_id := id; enrollment_content := content |}.
Definition acme_ca_from_row (row : Row) : res SqlError E2eiAcmeCA :=
  content ← get_blob "content" row;
  Ok {| acme_ca_content := content |}.
Definition intermediate_cert_from_row (row : Row) : res SqlError E2eiIntermediateCert :=
  id ← get_text "ski_aki_pair" row; content ← get_blob "content" row;
  Ok {| ski_aki_pair := id; intermediate_content := content |}.
Definition crl_from_row (row : Row) : res SqlError E2eiCrl :=
  id ← get_text "distribution_point" row; content ← get_blob "content" row;
  Ok {| distribution_point := id; crl_content := content |}.
Definition proteus_identity_from_row (row : Row) : res SqlError ProteusIdentity :=
  sk ← get_blob "sk" row; pk ← get_blob "pk" row;
  Ok {| identity_sk := sk; identity_pk := pk |}.
Definition proteus_prekey_from_row (row : Row) : res SqlError ProteusPrekey :=
  id ← get_u16 "id" row; prekey ← get_blob "key" row;
  Ok (proteus_prekey_from_raw id prekey).
Definition proteus_session_from_row (row : Row) : res SqlError ProteusSession :=
  id ← get_text "id" row; session ← get_blob "session" row;
  Ok {| session_id := id; session_session := session |}.

Definition from_row (ty : EntityType.t) (row : Row) : res SqlError Entity.t :=
  match ty with
  | EntityType.ConsumerData => Entity.ConsumerData <$> consumer_data_from_row row
  | EntityType.HpkePrivateKey => Entity.HpkePrivateKey <$> hpke_from_row row
  | EntityType.KeyPackage => Entity.StoredKeypackage <$> keypackage_from_row row
  | EntityType.PskBundle => Entity.PskBundle <$> psk_from_row row
  | EntityType.EncryptionKeyPair => Entity.EncryptionKeyPair <$> encryption_keypair_from_row row
  | EntityType.EpochEncryptionKeyPair => Entity.StoredEpochEncryptionKeypair <$> epoch_keypair_from_row row
  | EntityType.StoredCredential => Entity.StoredCredential <$> credential_from_row row
  | EntityType.StoredBufferedCommit => Entity.StoredBufferedCommit <$> buffered_commit_from_row row
  | EntityType.PersistedMlsGroup => Entity.PersistedMlsGroup <$> group_from_row row
  | EntityType.PersistedMlsPendingGroup => Entity.PersistedMlsPendingGroup <$> pending_group_from_row row
  | EntityType.MlsPendingMessage => Entity.MlsPendingMessage <$> pending_message_from_row row
  | EntityType.StoredE2eiEnrollment => Entity.StoredE2eiEnrollment <$> enrollment_from_row row
  | EntityType.E2eiAcmeCA => Entity.E2eiAcmeCA <$> acme_ca_from_row row
  | EntityType.E2eiIntermediateCert => Entity.E2eiIntermediateCert <$> intermediate_cert_from_row row
  | EntityType.E2eiCrl => Entity.E2eiCrl <$> crl_from_row row
  | EntityType.ProteusIdentity => Entity.ProteusIdentity <$> proteus_identity_from_row row
  | EntityType.ProteusPrekey => Entity.ProteusPrekey <$> proteus_prekey_from_row row
  | EntityType.ProteusSession => Entity.ProteusSession <$> proteus_session_from_row row
  end.

(** The column of the [WHERE] clause of [get] and [delete]. *)
Definition key_column (ty : EntityType.t) : string :=
  match ty with
  | EntityType.HpkePrivateKey | EntityType.EncryptionKeyPair => "pk"
  | EntityType.KeyPackage => "keypackage_ref"
  | EntityType.StoredCredential => "public_key_sha256"
  | EntityType.StoredBufferedCommit => "conversation_id"
  | EntityType.E2eiIntermediateCert => "ski_aki_pair"
  | EntityType.E2eiCrl => "distribution_point"
  | _ => "id"
  end.

(** The value bound to the [?]: byte and string keys are bound through
    [KeyType::bytes], integers as such; [u64] must fit an [i64]. *)
Definition key_param (pk : PrimaryKey) : res SqlError SqlValue :=
  match pk with
  | PkU64 k => if (uint_value k <? 2 ^ 63)%Z then Ok (Integer (uint_value k))
               else Err ToSqlConversionFailure
  | PkU16 k => Ok (Integer (uint_value k))
  | _ => Ok (Blob (pk_bytes pk))
  end.

(** [query_row(..).optional()]: the first row, if any. *)
Definition first_row (ty : EntityType.t) (rs : list Row) : res SqlError (option Entity.t) :=
  match rs with [] => Ok None | r :: _ => Some <$> from_row ty r end.

(** [Entity::get]. *)
Definition entity_get (ty : EntityType.t) (pk : PrimaryKey) (db : SqlDb) : kres (option Entity.t) :=
  let table := EntityType.collection_name ty in
  match ty with
  | EntityType.MlsPendingMessage => Panic
  | EntityType.ProteusIdentity => sql (rs ← sql_select table db; first_row ty rs)
  | _ => sql (v ← key_param pk; rs ← sql_select_where table (key_column ty) v db; first_row ty rs)
  end.

(** [Entity::load_all]. *)
Definition entity_load_all (ty : EntityType.t) (db : SqlDb) : kres (list Entity.t) :=
  sql (rs ← sql_select (EntityType.collection_name ty) db; mapM (from_row ty) rs).

(** [Entity::count]. *)
Definition entity_count (ty : EntityType.t) (db : SqlDb) : kres nat :=
  sql (sql_count (EntityType.collection_name ty) db).

(** ** Deleting *)

(** [EntityDatabaseMutation::delete]: whether a row was deleted. *)
Definition entity_delete (ty : EntityType.t) (pk : PrimaryKey) (db : SqlDb) : kres (bool * SqlDb) :=
  let table := EntityType.collection_name ty in
  let deleted p := (bool_decide (0 < p.1), p.2) in
  match ty with
  | EntityType.MlsPendingMessage => Panic
  | EntityType.ProteusIdentity => deleted <$> sql (sql_delete table db)
  | _ => deleted <$> sql (v ← key_param pk; sql_delete_where table (key_column ty) v db)
  end.

(** [MlsPendingMessage::delete_all_matching]. *)
Definition pending_message_delete_all_matching (conversation_id : bytes) (db : SqlDb) : kres SqlDb :=
  snd <$> sql (sql_delete_where (EntityType.collection_name EntityType.MlsPendingMessage) "id"
                 (Blob conversation_id) db).

(** ** Unique entities *)

(** [UniqueEntityExt::set_and_replace]. *)
Definition set_and_replace (e : Entity.t) (db : SqlDb) : kres (bool * SqlDb) :=
  '(deleted, db) ← entity_delete (Entity.typ e) (primary_key e) db;
  db ← entity_save e db;
  Ok (deleted, db).

(** [UniqueEntityExt::set_if_absent]. *)
Definition set_if_absent (e : Entity.t) (db : SqlDb) : kres (bool * SqlDb) :=
  count ← entity_count (Entity.typ e) db;
  if decide (0 < count) then Ok (false, db)
  else db ← entity_save e db; Ok (true, db).

(** ** Dynamic dispatch *)

(** [Entity::execute_save]. *)
Definition execute_save (e : Entity.t) (db : SqlDb) : kres SqlDb :=
  match e with
  | Entity.ConsumerData _ | Entity.E2eiAcmeCA _ => snd <$> set_and_replace e db
  | _ => entity_save e db
  end.

(** [EntityId::execute_delete]. *)
Definition execute_delete (i : EntityId.t) (db : SqlDb) : kres (bool * SqlDb) :=
  match EntityId.typ i with
  | EntityType.MlsPendingMessage =>
      (fun db => (false, db)) <$> pending_message_delete_all_matching (EntityId.id i) db
  | ty =>
      pk ← ok_or (EntityId.primary_key i)
             (KeystoreError.InvalidPrimaryKeyBytes (EntityType.collection_name ty));
      entity_delete ty pk db
  end.

(** ** Searching *)

(** [SearchableEntity<ParentGroupId> for PersistedMlsGroup]. *)
Definition group_matches (parent_id : bytes) (e : Entity.t) : bool :=
  match e with
  | Entity.PersistedMlsGroup g => bool_decide (group_parent_id g = Some parent_id)
  | _ => false
  end.

Definition group_find_all_matching (parent_id : bytes) (db : SqlDb) : kres (list Entity.t) :=
  sql (rs ← sql_select_where (EntityType.collection_name EntityType.PersistedMlsGroup)
              "parent_id" (Blob parent_id) db;
       mapM (from_row EntityType.PersistedMlsGroup) rs).

(** [SearchableEntity<ConversationId> for MlsPendingMessage]. *)
Definition pending_message_matches (conversation_id : bytes) (e : Entity.t) : bool :=
  match e with
  | Entity.MlsPendingMessage m => bool_decide (conversation_id = pm_foreign_id m)
  | _ => false
  end.

Definition pending_message_find_all_matching (conversation_id : bytes) (db : SqlDb) :
    kres (list Entity.t) :=
  sql (rs ← sql_select_where (EntityType.collection_name EntityType.MlsPendingMessage)
              "id" (Blob conversation_id) db;
       mapM (from_row EntityType.MlsPendingMessage) rs).

(** [CredentialFindFilters]. *)
Record CredentialFindFilters : Type := {
  filter_hash : option Sha256Hash;
  filter_public_key : option bytes;
  filter_session_id : option bytes;
  filter_ciphersuite : option Z;
  filter_earliest_validity : option Z;
}.

(** [Option::is_none_or]. *)
Definition is_none_or {A} (o : option A) (f : A -> bool) : bool :=
  match o with Some a => f a | None => true end.

Definition credential_matches (f : CredentialFindFilters) (e : Entity.t) : bool :=
  match e with
  | Entity.StoredCredential c =>
      is_none_or (filter_hash f)
        (fun h => bool_decide (hash_bytes h = hash_bytes (hash_from (cred_public_key c)))) &&
      is_none_or (filter_public_key f) (fun pk => bool_decide (pk = cred_public_key c)) &&
      is_none_or (filter_session_id f) (fun s => bool_decide (s = cred_session_id c)) &&
      is_none_or (filter_ciphersuite f) (fun cs => (cs =? cred_ciphersuite c)%Z) &&
      is_none_or (filter_earliest_validity f) (fun t => (t =? cred_created_at c)%Z)
  | _ => false
  end.

(** The conditions appended to the [WHERE] clause when the filter is present. *)
Definition credential_row_matches (f : CredentialFindFilters) (row : Row) : bool :=
  is_none_or (filter_ciphersuite f) (fun cs => row_matches "ciphersuite" (Integer cs) row) &&
  is_none_or (filter_earliest_validity f)
    (fun t => bool_decide (get_unixepoch "created_at" row = Ok t)) &&
  is_none_or (filter_session_id f) (fun s => row_matches "session_id" (Blob s) row) &&
  is_none_or (filter_session_id f) (fun s => row_matches "session_id" (Blob s) row).

Definition credential_find_all_matching (f : CredentialFindFilters) (db : SqlDb) :
    kres (list Entity.t) :=
  let unique_hash :=
    match filter_hash f with
    | Some h => Some h
    | None => hash_from <$> filter_public_key f
    end in
  match unique_hash with
  | Some hash =>
      optional ← entity_get EntityType.StoredCredential (PkSha256 hash) db;
      Ok (filter (fun c => credential_matches f c = true) (option_list optional))
  | None =>
      if is_none_or (filter_earliest_validity f) (fun t => t <? 2 ^ 63)%Z then
        sql (rs ← sql_select (EntityType.collection_name EntityType.StoredCredential) db;
             mapM (from_row EntityType.StoredCredential)
               (filter (fun r => credential_row_matches f r = true) rs))
      else Err (KeystoreError.DbError ToSqlConversionFailure)
  end.

End entity_store.
