(* ===== verification/Store.v ===== *)
(** * The entity store: what the SQL layer implements

    A store keeps, for every entity type, the list of its entities in insertion
    order.  This file gives each database operation of [EntityStore] its effect on
    a store and proves that the SQL statements implement it: rows are in
    bijection with well-formed entities, [UNIQUE] columns are equality of primary
    keys, and the [WHERE] clauses select by primary key for the [keyed] types. *)

From stdpp Require Import functions.
From S2P Require Import Prelude Keys EntityTypes Entities Sql KeystoreErrors EntityStore.
From Stdlib Require Import Lia ZArith.

Abbreviation Store := (EntityType.t -> list Entity.t).

Definition empty_store : Store := fun _ => [].

(** The tables with a [UNIQUE] column. *)
Definition unique_table (ty : EntityType.t) : bool :=
  match ty with
  | EntityType.PersistedMlsPendingGroup | EntityType.MlsPendingMessage
  | EntityType.ProteusIdentity => false
  | _ => true
  end.

(** The types whose [get] and [delete] select exactly the rows with the given
    primary key. *)
Definition key_selects (ty : EntityType.t) : bool :=
  match ty with
  | EntityType.PskBundle | EntityType.MlsPendingMessage | EntityType.ProteusIdentity
  | EntityType.E2eiIntermediateCert | EntityType.E2eiCrl | EntityType.ProteusSession => false
  | _ => true
  end.

(** The types stored at most once per primary key and found by it. *)
Definition keyed (ty : EntityType.t) : bool := unique_table ty && key_selects ty.

(** The derived entities with a [String] id. *)
Definition string_keyed (ty : EntityType.t) : bool :=
  match ty with
  | EntityType.E2eiIntermediateCert | EntityType.E2eiCrl | EntityType.ProteusSession => true
  | _ => false
  end.

Section store.
Context `{X : Externals}.

Definition entity_key (e : Entity.t) : bytes := pk_bytes (primary_key e).

(** ** Effects on a store *)

(** [EntityDatabaseMutation::save]. *)
Definition store_save (e : Entity.t) (m : Store) : kres Store :=
  let ty := Entity.typ e in
  let same e' := unique_table ty && bool_decide (entity_key e' = entity_key e) in
  if insert_or_replace ty then Ok (<[ty := filter (fun e' => same e' = false) (m ty) ++ [e]]> m)
  else if existsb same (m ty) then
    Err (insert_error ty (ConstraintViolation (EntityType.collection_name ty)))
  else Ok (<[ty := m ty ++ [e]]> m).

(** The entities [get] and [delete] select with the key [pk]. *)
Definition store_select (ty : EntityType.t) (pk : PrimaryKey) (e : Entity.t) : bool :=
  match ty with
  | EntityType.ProteusIdentity => true
  | EntityType.E2eiIntermediateCert | EntityType.E2eiCrl | EntityType.ProteusSession => false
  | _ => bool_decide (entity_key e = pk_bytes pk)
  end.

(** The outcome of preparing and binding the statement. *)
Definition store_prepare (ty : EntityType.t) (pk : PrimaryKey) : kres unit :=
  match ty with
  | EntityType.MlsPendingMessage => Panic
  | EntityType.PskBundle => Err (KeystoreError.DbError (NoSuchColumn "id"))
  | EntityType.ConsumerData | EntityType.E2eiAcmeCA => sql (_ ← key_param pk; Ok ())
  | _ => Ok ()
  end.

(** [Entity::get]. *)
Definition store_get (ty : EntityType.t) (pk : PrimaryKey) (m : Store) : kres (option Entity.t) :=
  _ ← store_prepare ty pk;
  Ok (head (filter (fun e => store_select ty pk e = true) (m ty))).

(** [EntityDatabaseMutation::delete]. *)
Definition store_delete (ty : EntityType.t) (pk : PrimaryKey) (m : Store) : kres (bool * Store) :=
  _ ← store_prepare ty pk;
  Ok (bool_decide (0 < length (filter (fun e => store_select ty pk e = true) (m ty))),
      <[ty := filter (fun e => store_select ty pk e = false) (m ty)]> m).

(** ** Rows represent entities *)

Definition stored_row (e : Entity.t) : Row :=
  complete_row (schema (Entity.typ e)) (insert_values e).

Definition table_ok (ty : EntityType.t) (es : list Entity.t) : Prop :=
  Forall (fun e => Entity.typ e = ty /\ entity_ok e) es.

(** The database holds the rows of the store, and nothing else. *)
Definition represents (m : Store) (db : SqlDb) : Prop :=
  forall ty, rows (EntityType.collection_name ty) db = map stored_row (m ty) /\ table_ok ty (m ty).

Lemma represents_empty : represents empty_store ∅.
Proof. intros ty. split; [done|constructor]. Qed.

(** Reading a stored row gives back the entity. *)
Lemma from_row_stored_row `{!ExternalsLaws X} e :
  entity_ok e -> from_row (Entity.typ e) (stored_row e) = Ok e.
Proof.
  destruct e as [[]|[]|[]|[]|[]|[]|[]|[]|[? ? []]|[? ? [] ?]|[]|[]|[]|[]|[]|[]|[]|[]]; try reflexivity.
  - intros [Ht [Hc1 Hc2]]. cbn in Ht, Hc1, Hc2 |- *.
    unfold get_unixepoch, get_text; cbn. rewrite sql_unixepoch_datetime by done. cbn.
    unfold get_u16; cbn. apply Z.leb_le in Hc1. apply Z.ltb_lt in Hc2. by rewrite Hc1, Hc2.
  - intros [[Hc1 Hc2] Hb]. cbn in Hc1, Hc2, Hb |- *. subst.
    unfold get_u16; cbn. apply Z.leb_le in Hc1. apply Z.ltb_lt in Hc2. by rewrite Hc1, Hc2.
Qed.

Lemma mapM_from_row_stored `{!ExternalsLaws X} ty es :
  table_ok ty es -> mapM (from_row ty) (map stored_row es) = Ok es.
Proof.
  induction 1 as [|e es [<- Hok] _ IH]; [done|]. cbn [map mapM].
  rewrite from_row_stored_row by done. cbn. by rewrite IH.
Qed.

(** [UNIQUE] columns clash exactly on equal primary keys. *)
Lemma clash_stored_row e e' :
  Entity.typ e = Entity.typ e' -> entity_ok e -> entity_ok e' ->
  clash (schema (Entity.typ e')) (stored_row e) (stored_row e') =
  unique_table (Entity.typ e') && bool_decide (entity_key e = entity_key e').
Proof.
  intros Hty Hok Hok'. destruct e, e'; try discriminate; try reflexivity;
    cbn -[key_bytes to_le_bytes sha256_digest]; rewrite ?orb_false_r; apply bool_decide_ext;
    try (split; [intros [= E] | intros E]; cbn in *; by rewrite E + congruence).
  destruct Hok as [Hid _], Hok' as [Hid' _].
  split; [by intros [= ->]|]. intros E. f_equal.
  apply (f_equal from_le_bytes) in E. cbv [key_bytes uint_key uint_value] in E.
  by rewrite !from_to_le_bytes in E.
Qed.

(** The [WHERE] clause of [get] and [delete] selects what [store_select] says. *)
Lemma row_matches_stored_row e pk v :
  has_column (schema (Entity.typ e)) (key_column (Entity.typ e)) = true ->
  Entity.typ e <> EntityType.MlsPendingMessage ->
  pk_ok (Entity.typ e) pk -> entity_ok e -> key_param pk = Ok v ->
  row_matches (key_column (Entity.typ e)) v (stored_row e) = store_select (Entity.typ e) pk e.
Proof.
  intros Hcol Hpm Hpk Hok Hv.
  destruct e; try done; destruct pk; cbn [Entity.typ pk_ok] in Hpk; try done;
    cbn [key_param] in Hv; try (case_match; [|done]); injection Hv as <-;
    cbn -[key_bytes to_le_bytes sha256_digest]; try done; apply bool_decide_ext;
    try (split; [intros [= E] | intros E]; cbn in *; by rewrite E + congruence).
  all: destruct k as [z]; unfold uint_ok in Hpk; cbn [uint_value] in Hpk |- *.
  3: destruct Hok as [Hok _].
  all: split; [intros [= E]; by rewrite E|]; intros E; f_equal.
  all: apply (f_equal from_le_bytes) in E; cbv [key_bytes uint_key uint_value] in E.
  all: by rewrite !from_to_le_bytes in E.
Qed.

(** ** The statements implement the store operations *)

Lemma table_schema_of ty : table_schema (EntityType.collection_name ty) = Some (schema ty).
Proof. unfold table_schema. by rewrite EntityType.from_collection_name_of. Qed.

Lemma rows_insert_eq table t (db : SqlDb) : rows table (<[table := t]> db) = t.
Proof. unfold rows. by rewrite lookup_insert_eq. Qed.

Lemma rows_insert_ne table table' t (db : SqlDb) :
  table <> table' -> rows table' (<[table := t]> db) = rows table' db.
Proof. intros. unfold rows. by rewrite lookup_insert_ne. Qed.

(** Replacing the rows of one table replaces the entities of one type. *)
Lemma represents_insert m db ty es :
  represents m db -> table_ok ty es ->
  represents (<[ty := es]> m) (<[EntityType.collection_name ty := map stored_row es]> db).
Proof.
  intros Hrep Hok ty'. destruct (decide (ty = ty')) as [<-|Hne].
  - rewrite rows_insert_eq, fn_lookup_insert. done.
  - rewrite rows_insert_ne by (by intros ?%(inj _)). rewrite fn_lookup_insert_ne by done. apply Hrep.
Qed.

Lemma table_ok_filter ty es (P : Entity.t -> Prop) `{!forall e, Decision (P e)} :
  table_ok ty es -> table_ok ty (filter P es).
Proof.
  unfold table_ok. induction 1 as [|e' es' He' _ IH]; [constructor|].
  rewrite filter_cons. case_decide; [by constructor|done].
Qed.

Lemma table_ok_app ty es es' : table_ok ty es -> table_ok ty es' -> table_ok ty (es ++ es').
Proof. apply Forall_app_2. Qed.

Lemma insert_values_known e :
  find (fun cv => negb (has_column (schema (Entity.typ e)) cv.1)) (insert_values e) = None.
Proof. by destruct e. Qed.

Lemma stored_row_admitted e : forallb (column_admits (stored_row e)) (schema (Entity.typ e)) = true.
Proof. by destruct e. Qed.

Lemma clash_table e es :
  entity_ok e -> table_ok (Entity.typ e) es ->
  Forall (fun e' => clash (schema (Entity.typ e)) (stored_row e') (stored_row e) =
    unique_table (Entity.typ e) && bool_decide (entity_key e' = entity_key e)) es.
Proof.
  intros Hok Hes. eapply Forall_impl; [exact Hes|]. intros e' [Hty Hok']. cbn.
  by apply clash_stored_row.
Qed.

Lemma entity_save_refines m db e :
  represents m db -> entity_ok e ->
  res_sim represents (store_save e m) (entity_save e db).
Proof.
  intros Hrep Hok. destruct (Hrep (Entity.typ e)) as [Hrows Hes].
  pose proof (clash_table e _ Hok Hes) as Hclash.
  unfold store_save, entity_save, sql_insert.
  rewrite table_schema_of, insert_values_known. fold (stored_row e).
  rewrite stored_row_admitted, Hrows. cbn [negb].
  rewrite (filter_map_Forall _ _ (fun r => clash _ r (stored_row e)) false _ Hclash).
  rewrite (existsb_map_Forall _ _ (fun r => clash _ r (stored_row e)) _ Hclash).
  assert (table_ok (Entity.typ e) [e]) as He by by repeat constructor.
  change [stored_row e] with (map stored_row [e]). rewrite <- !map_app.
  destruct (insert_or_replace (Entity.typ e)); [|case_match; [constructor|]]; cbn [map_err];
    constructor; apply represents_insert; auto using table_ok_app, table_ok_filter.
Qed.

(** The types whose [WHERE] clause names a column of their table. *)
Definition selectable (ty : EntityType.t) : bool :=
  has_column (schema ty) (key_column ty) &&
  bool_decide (ty <> EntityType.MlsPendingMessage).

Lemma match_table ty pk v es :
  selectable ty = true -> pk_ok ty pk -> key_param pk = Ok v -> table_ok ty es ->
  Forall (fun e => row_matches (key_column ty) v (stored_row e) = store_select ty pk e) es.
Proof.
  unfold selectable. rewrite andb_true_iff, bool_decide_eq_true. intros [Hcol Hne] Hpk Hv Hes.
  eapply Forall_impl; [exact Hes|]. intros e [<- Hok]. by apply row_matches_stored_row.
Qed.

Lemma store_prepare_selectable ty pk :
  selectable ty = true -> pk_ok ty pk ->
  store_prepare ty pk = sql (_ ← key_param pk; Ok ()).
Proof. by destruct ty, pk. Qed.

Lemma first_row_stored `{!ExternalsLaws X} ty es :
  table_ok ty es -> first_row ty (map stored_row es) = Ok (head es).
Proof.
  destruct 1 as [|e es [<- Hok] _]; [done|]. cbn. by rewrite from_row_stored_row.
Qed.

Lemma entity_get_refines `{!ExternalsLaws X} m db ty pk :
  represents m db -> pk_ok ty pk -> entity_get ty pk db = store_get ty pk m.
Proof.
  intros Hrep Hpk. destruct (Hrep ty) as [Hrows Hes].
  assert (selectable ty = true -> sql (v ← key_param pk;
      rs ← sql_select_where (EntityType.collection_name ty) (key_column ty) v db;
      first_row ty rs) = store_get ty pk m) as Hsel.
  { intros Hs. unfold store_get. rewrite store_prepare_selectable by done.
    destruct (key_param pk) as [v| |] eqn:Hv; [|done..]. cbn -[sql_select_where].
    unfold sql_select_where. rewrite table_schema_of, Hrows.
    pose proof Hs as [-> _]%andb_true_iff. cbn -[first_row].
    rewrite (filter_map_Forall _ _ (row_matches (key_column ty) v) true _ (match_table _ _ _ _ Hs Hpk Hv Hes)).
    by rewrite first_row_stored by by apply table_ok_filter. }
  destruct ty; try (by apply Hsel); try reflexivity.
  - by destruct pk.
  - unfold entity_get, sql_select, store_get. rewrite table_schema_of, Hrows. cbn -[first_row].
    rewrite first_row_stored by done. cbn. f_equal. by destruct (m EntityType.ProteusIdentity).
Qed.

(** Deleting filters the table. *)
Definition deleted_related (p : bool * Store) (q : bool * SqlDb) : Prop :=
  p.1 = q.1 /\ represents p.2 q.2.

Lemma entity_delete_refines m db ty pk :
  represents m db -> pk_ok ty pk ->
  res_sim deleted_related (store_delete ty pk m) (entity_delete ty pk db).
Proof.
  intros Hrep Hpk. destruct (Hrep ty) as [Hrows Hes].
  assert (selectable ty = true -> res_sim deleted_related (store_delete ty pk m)
      ((fun p => (bool_decide (0 < p.1), p.2)) <$>
       sql (v ← key_param pk; sql_delete_where (EntityType.collection_name ty) (key_column ty) v db)))
    as Hsel.
  { intros Hs. unfold store_delete. rewrite store_prepare_selectable by done.
    destruct (key_param pk) as [v| |] eqn:Hv; [|cbn; auto with sim..]. cbn -[sql_delete_where].
    unfold sql_delete_where. rewrite table_schema_of, Hrows.
    pose proof Hs as [-> _]%andb_true_iff. cbn -[represents].
    pose proof (match_table _ _ _ _ Hs Hpk Hv Hes) as Hm.
    rewrite !(filter_map_Forall _ _ (row_matches (key_column ty) v) _ _ Hm), length_map.
    constructor. split; [done|]. by apply represents_insert, table_ok_filter. }
  destruct ty; try (by apply Hsel); try (cbn; auto with sim; fail).
  - destruct pk; try done. cbn. auto with sim.
  - unfold entity_delete, sql_delete, store_delete. rewrite table_schema_of, Hrows. cbn -[represents].
    rewrite filter_all, filter_none, length_map by done. constructor. split; [done|].
    apply (represents_insert _ _ EntityType.ProteusIdentity []); [done|constructor].
Qed.

Lemma entity_load_all_refines `{!ExternalsLaws X} m db ty :
  represents m db -> entity_load_all ty db = Ok (m ty).
Proof.
  intros Hrep. destruct (Hrep ty) as [Hrows Hes].
  unfold entity_load_all, sql_select. rewrite table_schema_of, Hrows. cbn -[from_row].
  by rewrite mapM_from_row_stored.
Qed.

Lemma entity_count_refines m db ty :
  represents m db -> entity_count ty db = Ok (length (m ty)).
Proof.
  intros Hrep. destruct (Hrep ty) as [Hrows Hes].
  unfold entity_count, sql_count, sql_select. rewrite table_schema_of, Hrows. cbn.
  by rewrite length_map.
Qed.

(** ** Dynamic dispatch on a store *)

(** [Entity::execute_save]. *)
Definition store_execute_save (e : Entity.t) (m : Store) : kres Store :=
  match e with
  | Entity.ConsumerData _ | Entity.E2eiAcmeCA _ =>
      '(_, m) ← store_delete (Entity.typ e) (primary_key e) m; store_save e m
  | _ => store_save e m
  end.

(** [EntityId::execute_delete]. *)
Definition store_execute_delete (i : EntityId.t) (m : Store) : kres (bool * Store) :=
  match EntityId.typ i with
  | EntityType.MlsPendingMessage =>
      Ok (false, <[EntityType.MlsPendingMessage :=
        filter (fun e => pending_message_matches (EntityId.id i) e = false)
          (m EntityType.MlsPendingMessage)]> m)
  | ty =>
      pk ← ok_or (EntityId.primary_key i)
             (KeystoreError.InvalidPrimaryKeyBytes (EntityType.collection_name ty));
      store_delete ty pk m
  end.

Lemma execute_save_refines `{!ExternalsLaws X} m db e :
  represents m db -> entity_ok e ->
  res_sim represents (store_execute_save e m) (execute_save e db).
Proof.
  intros Hrep Hok.
  assert (res_sim represents
    ('(_, m) ← store_delete (Entity.typ e) (primary_key e) m; store_save e m)
    (snd <$> set_and_replace e db)) as Hset.
  { unfold set_and_replace.
    destruct (entity_delete_refines m db (Entity.typ e) (primary_key e)) as [[b m'] [b' db'] [_ Hrep']| |];
      [done|by apply primary_key_ok|cbn -[represents]|cbn; auto with sim..].
    destruct (entity_save_refines m' db' e Hrep' Hok); cbn; auto with sim. }
  destruct e; cbn [store_execute_save execute_save]; auto using entity_save_refines.
Qed.

Lemma pending_message_matches_row cid e :
  Entity.typ e = EntityType.MlsPendingMessage ->
  row_matches "id" (Blob cid) (stored_row e) = pending_message_matches cid e.
Proof. destruct e; try discriminate. intros _. cbn. apply bool_decide_ext. naive_solver. Qed.

Lemma execute_delete_refines m db i :
  represents m db -> res_sim deleted_related (store_execute_delete i m) (execute_delete i db).
Proof.
  intros Hrep.
  assert (res_sim deleted_related
    (pk ← ok_or (EntityId.primary_key i)
       (KeystoreError.InvalidPrimaryKeyBytes (EntityType.collection_name (EntityId.typ i)));
     store_delete (EntityId.typ i) pk m)
    (pk ← ok_or (EntityId.primary_key i)
       (KeystoreError.InvalidPrimaryKeyBytes (EntityType.collection_name (EntityId.typ i)));
     entity_delete (EntityId.typ i) pk db)) as Hdel.
  { unfold EntityId.primary_key. destruct (pk_from_bytes _ _) as [pk|] eqn:Hpk; cbn; [|auto with sim].
    apply pk_parse_sound in Hpk as [_ Hpk]. by apply entity_delete_refines. }
  unfold store_execute_delete, execute_delete. destruct i as [ty id]; cbn [EntityId.typ EntityId.id] in *.
  destruct ty; try exact Hdel.
  destruct (Hrep EntityType.MlsPendingMessage) as [Hrows Hes].
  unfold pending_message_delete_all_matching, sql_delete_where. rewrite table_schema_of, Hrows.
  cbn -[represents]. constructor. split; [done|]. cbn [snd].
  rewrite (filter_map_Forall _ (pending_message_matches id) (row_matches "id" (Blob id)) false).
  - apply (represents_insert _ _ EntityType.MlsPendingMessage); [done|]. by apply table_ok_filter.
  - eapply Forall_impl; [exact Hes|]. intros e [Hty _]. by apply pending_message_matches_row.
Qed.
End store.
