(* ===== verification/Transaction.v ===== *)
(** * The in-memory transaction

    [keystore/src/transaction/mod.rs]: writes are collected in memory and applied
    to the database when the transaction is committed; reads consult the
    collected writes first. *)

From S2P Require Import Prelude Keys EntityTypes Entities Sql KeystoreErrors EntityStore Store.
From Stdlib Require Import Lia ZArith.

Abbreviation InMemoryTable := (gmap EntityId.t Entity.t).
Abbreviation InMemoryCollection := (gmap string InMemoryTable).

(** [KeystoreTransaction]; the semaphore guard it owns is modelled with the
    database, which is the only user of it. *)
Record KeystoreTransaction : Type := MkTx {
  cache : InMemoryCollection;
  deleted : gset EntityId.t;
}.

Section transaction.
Context `{X : Externals}.

(** [KeystoreTransaction::new]. *)
Definition tx_new : KeystoreTransaction := MkTx ∅ ∅.

(** [EntityDatabaseMutation::pre_save]: only credentials override the default.
    [clock] is the time since the Unix epoch in seconds, [None] before it. *)
Definition pre_save (clock : option Z) (e : Entity.t) : kres (option Z * Entity.t) :=
  match e with
  | Entity.StoredCredential c =>
      created_at ← ok_or clock KeystoreError.TimestampError;
      Ok (Some created_at,
          Entity.StoredCredential
            {| cred_session_id := cred_session_id c; cred_credential := cred_credential c;
               cred_created_at := created_at; cred_ciphersuite := cred_ciphersuite c;
               cred_public_key := cred_public_key c; cred_private_key := cred_private_key c |})
  | _ => Ok (None, e)
  end.

(** [KeystoreTransaction::save]. *)
Definition tx_save (clock : option Z) (e : Entity.t) (tx : KeystoreTransaction) :
    kres (option Z * KeystoreTransaction) :=
  '(auto_generated_fields, e) ← pre_save clock e;
  let collection := EntityType.collection_name (Entity.typ e) in
  entity_id ← ok_or (EntityId.from_entity e) (KeystoreError.UnknownCollectionName collection);
  let table := default ∅ (cache tx !! collection) in
  Ok (auto_generated_fields,
      MkTx (<[collection := <[entity_id := e]> table]> (cache tx)) (deleted tx ∖ {[entity_id]})).

(** [KeystoreTransaction::remove_by_entity_id]. *)
Definition remove_by_entity_id (ty : EntityType.t) (i : EntityId.t) (tx : KeystoreTransaction) :
    KeystoreTransaction :=
  MkTx (alter (delete i) (EntityType.collection_name ty) (cache tx)) ({[i]} ∪ deleted tx).

(** [KeystoreTransaction::remove] and [KeystoreTransaction::remove_borrowed]. *)
Definition tx_remove (ty : EntityType.t) (pk : PrimaryKey) (tx : KeystoreTransaction) :
    kres KeystoreTransaction :=
  entity_id ← ok_or (EntityId.from_primary_key ty pk)
                (KeystoreError.UnknownCollectionName (EntityType.collection_name ty));
  Ok (remove_by_entity_id ty entity_id tx).

(** [KeystoreTransaction::find_in_cache]. *)
Definition find_in_cache (ty : EntityType.t) (i : EntityId.t) (tx : KeystoreTransaction) :
    option Entity.t :=
  table ← cache tx !! EntityType.collection_name ty;
  entity ← table !! i;
  Entity.downcast ty entity.

(** [KeystoreTransaction::get_by_entity_id]. *)
Definition get_by_entity_id (ty : EntityType.t) (i : EntityId.t) (tx : KeystoreTransaction) :
    option (option Entity.t) :=
  if decide (i ∈ deleted tx) then Some None else Some <$> find_in_cache ty i tx.

(** [KeystoreTransaction::get] and [KeystoreTransaction::get_borrowed]. *)
Definition tx_get (ty : EntityType.t) (pk : PrimaryKey) (tx : KeystoreTransaction) :
    option (option Entity.t) :=
  i ← EntityId.from_primary_key ty pk; get_by_entity_id ty i tx.

(** [KeystoreTransaction::find_all_in_cache]; a [HashMap] yields its values in an
    unspecified order, here the order of [map_to_list]. *)
Definition find_all_in_cache (ty : EntityType.t) (tx : KeystoreTransaction) : kres (list Entity.t) :=
  match cache tx !! EntityType.collection_name ty with
  | Some table => mapM (fun e => expect (Entity.downcast ty e)) (map_to_list table).*2
  | None => Ok []
  end.

(** [KeystoreTransaction::search_in_cache]. *)
Definition search_in_cache (ty : EntityType.t) (matches : Entity.t -> bool) (tx : KeystoreTransaction) :
    kres (list Entity.t) :=
  filter (fun e => matches e = true) <$> find_all_in_cache ty tx.

(** [KeystoreTransaction::merge_records]. *)
Definition merge_records (records_a records_b : list Entity.t) (tx : KeystoreTransaction) :
    list Entity.t :=
  omap (fun record =>
          i ← EntityId.from_entity record;
          if decide (i ∈ deleted tx) then None else Some record)
       (unique_by (fun e => pk_bytes (primary_key e)) (records_a ++ records_b)).

(** [KeystoreTransaction::find_all]. *)
Definition tx_find_all (ty : EntityType.t) (persisted_records : list Entity.t)
    (tx : KeystoreTransaction) : kres (list Entity.t) :=
  cached_records ← find_all_in_cache ty tx;
  Ok (merge_records cached_records persisted_records tx).

(** [KeystoreTransaction::search]. *)
Definition tx_search (ty : EntityType.t) (matches : Entity.t -> bool)
    (persisted_records : list Entity.t) (tx : KeystoreTransaction) : kres (list Entity.t) :=
  cached_records ← search_in_cache ty matches tx;
  Ok (merge_records cached_records persisted_records tx).

(** [KeystoreTransaction::child_groups]. *)
Definition tx_child_groups (entity : PersistedMlsGroup) (persisted_records : list Entity.t)
    (tx : KeystoreTransaction) : kres (list Entity.t) :=
  cached_records ← find_all_in_cache EntityType.PersistedMlsGroup tx;
  Ok (merge_records (filter (fun e => group_matches (group_id entity) e = true) cached_records)
        persisted_records tx).

(** [KeystoreTransaction::remove_pending_messages_by_conversation_id]; the closure
    of [retain] panics on an entry of another type. *)
Definition tx_remove_pending_messages (conversation_id : bytes) (tx : KeystoreTransaction) :
    kres KeystoreTransaction :=
  let collection := EntityType.collection_name EntityType.MlsPendingMessage in
  _ ← find_all_in_cache EntityType.MlsPendingMessage tx;
  i ← expect (EntityId.from_key EntityType.MlsPendingMessage conversation_id);
  Ok (MkTx
    (alter (filter (fun ie => pending_message_matches conversation_id ie.2 = false))
       collection (cache tx))
    ({[i]} ∪ deleted tx)).

(** [KeystoreTransaction::find_pending_messages_by_conversation_id]. *)
Definition tx_find_pending_messages (conversation_id : bytes) (persisted_records : list Entity.t)
    (tx : KeystoreTransaction) : kres (list Entity.t) :=
  cached_records ← find_all_in_cache EntityType.MlsPendingMessage tx;
  Ok (merge_records
        (filter (fun e => pending_message_matches conversation_id e = true) cached_records)
        persisted_records tx).

(** ** Commit *)

(** [cache.values().flat_map(|table| table.values())]. *)
Definition cached_entities (tx : KeystoreTransaction) : list Entity.t :=
  (map_to_list (cache tx)).*2 ≫= fun table => (map_to_list table).*2.

(** The body of the SQL transaction, for given iteration orders of the cache and
    of the set of deleted ids: all saves, then all deletions.  An error drops the
    SQL transaction, which rolls it back. *)
Definition commit_in_order (saves : list Entity.t) (deletes : list EntityId.t) (db : SqlDb) :
    kres SqlDb :=
  db ← for_each execute_save saves db;
  for_each (fun i db => snd <$> execute_delete i db) deletes db.

(** [KeystoreTransaction::commit]. *)
Definition tx_commit (tx : KeystoreTransaction) (db : SqlDb) : kres SqlDb :=
  let tables := map EntityId.collection_name (elements (deleted tx)) ++
                ((map_to_list (cache tx)).*2 ≫= fun table =>
                   map EntityId.collection_name (map_to_list table).*1) in
  match tables with
  | [] => Ok db
  | _ => commit_in_order (cached_entities tx) (elements (deleted tx)) db
  end.

End transaction.
