(* ===== verification/TransactionInvariant.v ===== *)
(** * Invariant of transactions

    The cache of a transaction files every entity under its own collection and
    id, and an id is not both cached and deleted.  Every operation of
    [KeystoreTransaction] keeps this invariant. *)

From S2P Require Import Prelude Keys EntityTypes Entities Sql KeystoreErrors EntityStore Store Transaction.
From Stdlib Require Import Lia ZArith.

Section invariant.
Context `{X : Externals}.

(** What the cache holds under an id. *)
Definition tx_cached (tx : KeystoreTransaction) (i : EntityId.t) : option Entity.t :=
  table ← cache tx !! EntityId.collection_name i; table !! i.

(** One table of the cache. *)
Definition mem_table_ok (c : string) (table : InMemoryTable) : Prop :=
  forall i e, table !! i = Some e ->
    EntityId.collection_name i = c /\ EntityId.of_entity e = i /\ entity_ok e.

(** Pending messages are deleted by conversation, so their deletion marks are not
    ids of messages. *)
Definition tx_ok (tx : KeystoreTransaction) : Prop :=
  map_Forall mem_table_ok (cache tx) /\
  forall i e, tx_cached tx i = Some e -> i ∈ deleted tx ->
    EntityId.typ i = EntityType.MlsPendingMessage.

Lemma tx_ok_new : tx_ok tx_new.
Proof. split; [apply map_Forall_empty|]. by intros i e H. Qed.

Lemma tx_cached_ok tx i e :
  tx_ok tx -> tx_cached tx i = Some e -> EntityId.of_entity e = i /\ entity_ok e.
Proof.
  intros [Hc _]. unfold tx_cached. intros (table & Ht & He)%bind_Some.
  by destruct (Hc _ _ Ht i e He) as (_ & ? & ?).
Qed.

Lemma entity_collection i e :
  EntityId.of_entity e = i -> EntityId.collection_name i = EntityType.collection_name (Entity.typ e).
Proof. by intros <-. Qed.

(** ** Effect of the operations on the cache *)

Lemma tx_cached_save tx e i :
  let c := EntityType.collection_name (Entity.typ e) in
  tx_cached (MkTx (<[c := <[EntityId.of_entity e := e]> (default ∅ (cache tx !! c))]> (cache tx))
               (deleted tx ∖ {[EntityId.of_entity e]})) i =
  if decide (i = EntityId.of_entity e) then Some e else tx_cached tx i.
Proof.
  unfold tx_cached; cbn [cache]. case_decide as Hi.
  - subst i. rewrite (entity_collection _ e) by done. rewrite lookup_insert_eq. cbn.
    by rewrite lookup_insert_eq.
  - destruct (decide (EntityId.collection_name i = EntityType.collection_name (Entity.typ e))) as [E|E].
    + rewrite E, lookup_insert_eq. cbn. rewrite lookup_insert_ne by done.
      by destruct (cache tx !! _).
    + by rewrite lookup_insert_ne.
Qed.

Lemma tx_cached_remove tx i j :
  tx_cached (remove_by_entity_id (EntityId.typ i) i tx) j =
  if decide (j = i) then None else tx_cached tx j.
Proof.
  unfold tx_cached, remove_by_entity_id; cbn [cache]. fold (EntityId.collection_name i).
  destruct (decide (EntityId.collection_name i = EntityId.collection_name j)) as [E|E].
  - rewrite E, lookup_alter_eq. destruct (cache tx !! _) as [table|]; cbn; [|by case_decide].
    case_decide as Hij; [subst; by rewrite lookup_delete_eq|by rewrite lookup_delete_ne].
  - rewrite lookup_alter_ne by done. rewrite decide_False; congruence.
Qed.

Lemma tx_cached_remove_pending tx cid d j :
  tx_cached (MkTx (alter (filter (fun ie => pending_message_matches cid ie.2 = false))
      (EntityType.collection_name EntityType.MlsPendingMessage) (cache tx)) d) j =
  if decide (EntityId.typ j = EntityType.MlsPendingMessage)
  then e ← tx_cached tx j; (if pending_message_matches cid e then None else Some e)
  else tx_cached tx j.
Proof.
  unfold tx_cached; cbn [cache]. case_decide as Hj.
  - unfold EntityId.collection_name. rewrite Hj, lookup_alter_eq.
    destruct (cache tx !! _) as [table|]; cbn; [|done]. rewrite map_lookup_filter.
    destruct (table !! j) as [e|]; cbn; [|done]. by destruct (pending_message_matches cid e).
  - rewrite lookup_alter_ne; [done|]. by intros ?%(inj EntityType.collection_name).
Qed.

(** ** Preservation *)

(** The clock is past the epoch and before the year 10000. *)
Definition clock_ok (clock : option Z) : Prop :=
  match clock with Some t => (0 <= t <= 253402300799)%Z | None => True end.

Lemma pre_save_ok clock e auto e' :
  clock_ok clock -> entity_ok e -> pre_save clock e = Ok (auto, e') ->
  entity_ok e' /\ EntityId.of_entity e' = EntityId.of_entity e.
Proof.
  destruct e; cbn [pre_save]; try (intros _ Hok [= <- <-]; done).
  destruct clock as [t|]; [|done]. intros Ht [_ Hcs] [= <- <-]. split; [by split|done].
Qed.

Lemma tx_save_eq clock e tx :
  tx_save clock e tx =
  '(auto, e) ← pre_save clock e;
  let c := EntityType.collection_name (Entity.typ e) in
  Ok (auto, MkTx (<[c := <[EntityId.of_entity e := e]> (default ∅ (cache tx !! c))]> (cache tx))
              (deleted tx ∖ {[EntityId.of_entity e]})).
Proof.
  unfold tx_save. destruct (pre_save clock e) as [[auto e']| |]; cbn; [|done..].
  by rewrite EntityId.from_entity_eq.
Qed.

Lemma tx_remove_eq ty pk tx :
  tx_remove ty pk tx = Ok (remove_by_entity_id ty (EntityId.MkId ty (pk_bytes pk)) tx).
Proof. unfold tx_remove, EntityId.from_primary_key. by rewrite EntityId.from_key_eq. Qed.

Lemma tx_save_preserves clock e tx auto tx' :
  clock_ok clock -> entity_ok e -> tx_ok tx -> tx_save clock e tx = Ok (auto, tx') -> tx_ok tx'.
Proof.
  intros Hclock Hok [Hcache Hdel]. rewrite tx_save_eq.
  intros ([auto' e'] & Hpre & [= <- <-])%bind_Ok.
  destruct (pre_save_ok _ _ _ _ Hclock Hok Hpre) as [Hok' _]. split.
  - cbn [cache]. apply map_Forall_insert_2; [|done]. intros i e1.
    destruct (decide (i = EntityId.of_entity e')) as [->|Hi].
    + rewrite lookup_insert_eq. by intros [= <-].
    + rewrite lookup_insert_ne by done. destruct (cache tx !! _) as [table|] eqn:Ht; cbn.
      * apply (Hcache _ _ Ht).
      * by rewrite lookup_empty.
  - intros i e1. rewrite tx_cached_save. cbn [deleted]. case_decide; set_solver.
Qed.

Lemma remove_by_entity_id_preserves i tx :
  tx_ok tx -> tx_ok (remove_by_entity_id (EntityId.typ i) i tx).
Proof.
  intros [Hcache Hdel]. split.
  - cbn [cache remove_by_entity_id]. intros c table. rewrite lookup_alter_Some.
    intros [(<- & table0 & Ht & ->)|(_ & Ht)]; [|by apply Hcache].
    intros j e [_ He]%lookup_delete_Some. by apply (Hcache _ _ Ht).
  - intros j e. rewrite tx_cached_remove. cbn [deleted remove_by_entity_id].
    case_decide; [done|]. intros He Hj. apply (Hdel j e He). set_solver.
Qed.

Lemma tx_remove_preserves ty pk tx tx' :
  tx_ok tx -> tx_remove ty pk tx = Ok tx' -> tx_ok tx'.
Proof.
  rewrite tx_remove_eq. intros Hok [= <-].
  by apply (remove_by_entity_id_preserves (EntityId.MkId ty (pk_bytes pk))).
Qed.

(** No lookup in the cache meets an entity of another type. *)
Lemma cache_downcast tx ty table i e :
  tx_ok tx -> cache tx !! EntityType.collection_name ty = Some table -> table !! i = Some e ->
  Entity.downcast ty e = Some e.
Proof.
  intros [Hcache _] Ht He. destruct (Hcache _ _ Ht _ _ He) as (Hc & Hi & _).
  rewrite (entity_collection _ e) in Hc by done. apply (inj EntityType.collection_name) in Hc.
  unfold Entity.downcast. by rewrite decide_True.
Qed.

Lemma find_all_in_cache_ok tx ty :
  tx_ok tx ->
  find_all_in_cache ty tx =
  Ok (match cache tx !! EntityType.collection_name ty with
      | Some table => (map_to_list table).*2 | None => [] end).
Proof.
  intros Hok. unfold find_all_in_cache.
  destruct (cache tx !! _) as [table|] eqn:Ht; [|done].
  assert (Forall (fun e => Entity.downcast ty e = Some e) (map_to_list table).*2) as Hall.
  { apply Forall_fmap, Forall_forall. intros [i e] Hie.
    apply elem_of_map_to_list in Hie. by eapply cache_downcast. }
  induction Hall as [|e es He _ IH]; [done|]. cbn [mapM]. rewrite He. cbn.
  by rewrite IH.
Qed.

Lemma tx_remove_pending_messages_eq cid tx :
  tx_ok tx ->
  tx_remove_pending_messages cid tx =
  Ok (MkTx (alter (filter (fun ie => pending_message_matches cid ie.2 = false))
              (EntityType.collection_name EntityType.MlsPendingMessage) (cache tx))
        ({[EntityId.MkId EntityType.MlsPendingMessage cid]} ∪ deleted tx)).
Proof.
  intros Hok. unfold tx_remove_pending_messages. by rewrite find_all_in_cache_ok, EntityId.from_key_eq by done.
Qed.

Lemma tx_remove_pending_messages_preserves cid tx tx' :
  tx_ok tx -> tx_remove_pending_messages cid tx = Ok tx' -> tx_ok tx'.
Proof.
  intros Hok. rewrite tx_remove_pending_messages_eq by done. intros [= <-].
  destruct Hok as [Hcache Hdel]. split.
  - cbn [cache]. intros c table. rewrite lookup_alter_Some.
    intros [(<- & table0 & Ht & ->)|(_ & Ht)]; [|by apply Hcache].
    intros j e [He _]%map_lookup_filter_Some. by apply (Hcache _ _ Ht).
  - intros j e. rewrite tx_cached_remove_pending. cbn [deleted]. case_decide as Hj; [done|].
    intros He Hd. apply (Hdel j e He). set_solver.
Qed.

End invariant.
