(* ===== verification/TransactionCommit.v ===== *)
(** * Committing a transaction

    Reading an entity by its key inside a transaction and after its commit gives
    the same answer, for every iteration order of the cache and of the deletion
    set.  The proof goes through the entity store: the SQL commit refines a commit
    on stores, whose effect on a key is computed here. *)

From stdpp Require Import functions.
From S2P Require Import Prelude Keys EntityTypes Entities Sql KeystoreErrors EntityStore Store Transaction TransactionInvariant.
From Stdlib Require Import Lia ZArith.

Section commit.
Context `{X : Externals}.

(** ** Looking up a key in a store *)

Definition lookup_key (m : Store) (i : EntityId.t) : option Entity.t :=
  head (filter (fun e => entity_key e = EntityId.id i) (m (EntityId.typ i))).

Lemma lookup_key_other m i ty es :
  EntityId.typ i <> ty -> lookup_key (<[ty := es]> m) i = lookup_key m i.
Proof. intros. unfold lookup_key. by rewrite fn_lookup_insert_ne. Qed.

Lemma filter_key_ne k k' (es : list Entity.t) :
  k <> k' ->
  filter (fun e => entity_key e = k) (filter (fun e => bool_decide (entity_key e = k') = false) es) =
  filter (fun e => entity_key e = k) es.
Proof.
  intros Hk. rewrite list_filter_filter. apply list_filter_iff.
  intros e. rewrite bool_decide_eq_false. naive_solver.
Qed.

Lemma filter_key_eq k (es : list Entity.t) :
  filter (fun e => entity_key e = k) (filter (fun e => bool_decide (entity_key e = k) = false) es) = [].
Proof.
  apply filter_none. intros e He%list_elem_of_filter. rewrite bool_decide_eq_false in He. naive_solver.
Qed.

(** Saving sets the key of the entity and no other. *)
Lemma lookup_key_save m e m' i :
  unique_table (EntityId.typ i) = true -> store_save e m = Ok m' ->
  lookup_key m' i = if decide (i = EntityId.of_entity e) then Some e else lookup_key m i.
Proof.
  intros Hu. destruct i as [ty k]. cbn [EntityId.typ] in Hu. unfold store_save.
  destruct (decide (ty = Entity.typ e)) as [->|Hty].
  2: { rewrite decide_False by (unfold EntityId.of_entity; congruence).
       repeat case_match; intros [= <-]; by apply lookup_key_other. }
  rewrite Hu. cbn [andb]. unfold EntityId.of_entity. fold (entity_key e).
  destruct (insert_or_replace (Entity.typ e)).
  - intros [= <-]. unfold lookup_key; cbn [EntityId.typ EntityId.id].
    rewrite fn_lookup_insert, filter_app, filter_cons. case_decide as Hk.
    + rewrite decide_True by congruence. by rewrite <- Hk, filter_key_eq.
    + rewrite decide_False by congruence. by rewrite filter_key_ne, app_nil_r by done.
  - destruct (existsb _ _) eqn:Hex; [done|]. intros [= <-].
    unfold lookup_key; cbn [EntityId.typ EntityId.id].
    rewrite fn_lookup_insert, filter_app, filter_cons. case_decide as Hk.
    + rewrite decide_True by congruence. rewrite filter_none; [done|].
      intros e' He' Hk'. apply not_true_iff_false in Hex. apply Hex, existsb_exists.
      exists e'. rewrite bool_decide_eq_true. split; [by apply list_elem_of_In|congruence].
    + rewrite decide_False by congruence. by rewrite app_nil_r.
Qed.

(** Deleting by key unsets that key and no other. *)
Lemma lookup_key_delete m ty pk b m' i :
  key_selects ty = true -> store_delete ty pk m = Ok (b, m') ->
  lookup_key m' i = if decide (i = EntityId.MkId ty (pk_bytes pk)) then None else lookup_key m i.
Proof.
  intros Hsel. unfold store_delete. intros (_ & _ & [= _ <-])%bind_Ok. destruct i as [ty' k].
  destruct (decide (ty' = ty)) as [->|Hty].
  2: { rewrite decide_False by congruence. by apply lookup_key_other. }
  unfold lookup_key; cbn [EntityId.typ EntityId.id]. rewrite fn_lookup_insert.
  assert (forall e, store_select ty pk e = bool_decide (entity_key e = pk_bytes pk)) as Hs
    by (by destruct ty).
  rewrite (list_filter_iff (fun e => store_select ty pk e = false)
             (fun e => bool_decide (entity_key e = pk_bytes pk) = false))
    by (intros e; by rewrite Hs).
  destruct (decide (k = pk_bytes pk)) as [->|Hk].
  - rewrite decide_True by done. by rewrite filter_key_eq.
  - rewrite decide_False by congruence. by rewrite filter_key_ne.
Qed.

Lemma store_delete_prepare ty pk m r : store_delete ty pk m = Ok r -> store_prepare ty pk = Ok ().
Proof. unfold store_delete. by intros ([] & -> & _)%bind_Ok. Qed.

Lemma lookup_key_execute_save m e m' i :
  keyed (EntityId.typ i) = true -> store_execute_save e m = Ok m' ->
  lookup_key m' i = if decide (i = EntityId.of_entity e) then Some e else lookup_key m i.
Proof.
  intros [Hu Hs]%andb_true_iff.
  assert (forall r, key_selects (Entity.typ e) = true ->
    ('(_, m) ← store_delete (Entity.typ e) (primary_key e) m; store_save e m) = Ok r ->
    lookup_key r i = if decide (i = EntityId.of_entity e) then Some e else lookup_key m i) as Hset.
  { intros r Hsel ([b m1] & Hdel & Hsave)%bind_Ok.
    rewrite (lookup_key_save _ _ _ _ Hu Hsave). case_decide as Hi; [done|].
    rewrite (lookup_key_delete _ _ _ _ _ i Hsel Hdel). by rewrite decide_False. }
  destruct e; cbn [store_execute_save]; auto using lookup_key_save.
Qed.

Lemma lookup_key_execute_delete m d b m' i :
  keyed (EntityId.typ i) = true -> store_execute_delete d m = Ok (b, m') ->
  lookup_key m' i = if decide (i = d) then None else lookup_key m i.
Proof.
  intros [Hu Hs]%andb_true_iff Hdel.
  destruct (decide (EntityId.typ d = EntityType.MlsPendingMessage)) as [Hd|Hd].
  - rewrite decide_False by (intros ->; by rewrite Hd in Hs).
    unfold store_execute_delete in Hdel. rewrite Hd in Hdel. injection Hdel as _ <-.
    apply lookup_key_other. intros Hi. by rewrite Hi in Hs.
  - assert (exists pk, pk_from_bytes (EntityId.typ d) (EntityId.id d) = Some pk /\
      store_delete (EntityId.typ d) pk m = Ok (b, m')) as (pk & Hpk & Hsd).
    { unfold store_execute_delete in Hdel. destruct d as [[] id]; try done;
        apply bind_Ok in Hdel as (pk & Hpk & ?); exists pk;
        (split; [|done]); unfold EntityId.primary_key, ok_or in Hpk; case_match; congruence. }
    apply pk_parse_sound in Hpk as [Hpk _].
    destruct (decide (EntityId.typ i = EntityId.typ d)) as [Ht|Ht].
    + rewrite Ht in Hs. rewrite (lookup_key_delete _ _ _ _ _ i Hs Hsd), Hpk. by destruct d.
    + rewrite decide_False by congruence. unfold store_delete in Hsd.
      apply bind_Ok in Hsd as (_ & _ & [= _ <-]). by apply lookup_key_other.
Qed.

(** ** Committing on a store *)

Definition store_commit (saves : list Entity.t) (deletes : list EntityId.t) (m : Store) : kres Store :=
  m ← for_each store_execute_save saves m;
  for_each (fun i m => snd <$> store_execute_delete i m) deletes m.

Lemma commit_in_order_refines `{!ExternalsLaws X} m db saves deletes :
  represents m db -> Forall entity_ok saves ->
  res_sim represents (store_commit saves deletes m) (commit_in_order saves deletes db).
Proof.
  intros Hrep Hok. unfold store_commit, commit_in_order.
  eapply res_sim_bind.
  - eapply (for_each_sim _ entity_ok); [|done..]. intros; by apply execute_save_refines.
  - intros m' db' Hrep'. eapply (for_each_sim _ (fun _ => True)); [|by apply Forall_true|done].
    intros i m1 db1 _ Hrep1. eapply res_sim_fmap; [by apply execute_delete_refines|].
    by intros ? ? [_ ?].
Qed.

(** The effect of the saves on one key, the ids being distinct. *)
Lemma lookup_key_saves l m m' i :
  keyed (EntityId.typ i) = true -> NoDup (map EntityId.of_entity l) ->
  for_each store_execute_save l m = Ok m' ->
  lookup_key m' i =
  match list_find (fun e => EntityId.of_entity e = i) l with
  | Some (_, e) => Some e
  | None => lookup_key m i
  end.
Proof.
  intros Hk. revert m. induction l as [|e l IH]; intros m Hnd; cbn [for_each map].
  - by intros [= <-].
  - intros (m1 & Hsave & Hrest)%bind_Ok. apply NoDup_cons in Hnd as [Hnotin Hnd].
    rewrite (IH m1 Hnd Hrest), (lookup_key_execute_save _ _ _ i Hk Hsave). cbn [list_find].
    destruct (decide (EntityId.of_entity e = i)) as [<-|Hne].
    + rewrite decide_True by done.
      destruct (list_find _ l) as [[n e']|] eqn:Hf; [|done].
      apply list_find_Some in Hf as (Hl & He' & _). exfalso. apply Hnotin. rewrite <- He'.
      apply (list_elem_of_fmap_2 EntityId.of_entity). by eapply list_elem_of_lookup_2.
    + rewrite decide_False by done. by destruct (list_find _ l) as [[]|].
Qed.

(** The effect of the deletions on one key. *)
Lemma lookup_key_deletes ds m m' i :
  keyed (EntityId.typ i) = true ->
  for_each (fun d m => snd <$> store_execute_delete d m) ds m = Ok m' ->
  lookup_key m' i = if decide (i ∈ ds) then None else lookup_key m i.
Proof.
  intros Hk. revert m. induction ds as [|d ds IH]; intros m; cbn [for_each].
  - intros [= <-]. rewrite decide_False; [done|]. by apply not_elem_of_nil.
  - intros (m1 & ([b m2] & Hdel & ->)%fmap_Ok & Hrest)%bind_Ok.
    rewrite (IH _ Hrest); cbn [snd]. rewrite (lookup_key_execute_delete _ _ _ _ i Hk Hdel).
    destruct (decide (i = d)) as [->|Hne].
    + rewrite (decide_True (P := d ∈ d :: ds)) by left. by case_decide.
    + do 2 case_decide; set_solver.
Qed.

(** A deletion that succeeded was prepared without error. *)
Lemma deletes_prepare ds m m' ty pk :
  ty <> EntityType.MlsPendingMessage -> pk_ok ty pk ->
  for_each (fun d m => snd <$> store_execute_delete d m) ds m = Ok m' ->
  EntityId.MkId ty (pk_bytes pk) ∈ ds -> store_prepare ty pk = Ok ().
Proof.
  intros Hty Hpk. revert m. induction ds as [|d ds IH]; intros m; cbn [for_each].
  - by intros _ ?%not_elem_of_nil.
  - intros (m1 & ([b m2] & Hdel & ->)%fmap_Ok & Hrest)%bind_Ok.
    rewrite elem_of_cons. intros [<-|Hin]; [|by eapply IH].
    unfold store_execute_delete, EntityId.primary_key in Hdel. cbn [EntityId.typ EntityId.id] in Hdel.
    rewrite pk_round_trip in Hdel by done.
    destruct ty; try done; by apply store_delete_prepare in Hdel.
Qed.

(** ** The entities of the cache *)

Lemma cached_entities_tables tx :
  cached_entities tx = map_to_list (cache tx) ≫= fun ct => (map_to_list ct.2).*2.
Proof. unfold cached_entities. by rewrite list_fmap_bind. Qed.

Lemma cached_entities_elem tx e :
  tx_ok tx -> e ∈ cached_entities tx <-> tx_cached tx (EntityId.of_entity e) = Some e.
Proof.
  intros Hok. rewrite cached_entities_tables, list_elem_of_bind. split.
  - intros ([c table] & He & Hc). apply elem_of_map_to_list in Hc. cbn [snd] in He.
    apply list_elem_of_fmap in He as ([i e'] & -> & Hi). apply elem_of_map_to_list in Hi.
    destruct Hok as [Hcache _]. destruct (Hcache _ _ Hc _ _ Hi) as (Hcol & <- & _).
    cbn [snd]. unfold tx_cached. by rewrite Hcol, Hc.
  - intros (table & Ht & He)%bind_Some. exists (EntityId.collection_name (EntityId.of_entity e), table).
    split; [|by apply elem_of_map_to_list]. cbn [snd].
    apply list_elem_of_fmap. exists (EntityId.of_entity e, e). by rewrite elem_of_map_to_list.
Qed.

Lemma table_ids table c :
  mem_table_ok c table -> map EntityId.of_entity (map_to_list table).*2 = (map_to_list table).*1.
Proof.
  intros Hok. assert (forall ie, ie ∈ map_to_list table -> EntityId.of_entity ie.2 = ie.1) as H.
  { intros [i e] Hie%elem_of_map_to_list. by destruct (Hok _ _ Hie) as (_ & ? & _). }
  revert H. induction (map_to_list table) as [|ie l IH]; intros H; [done|]. cbn.
  f_equal; [apply H; left|]. apply IH. intros. apply H. by right.
Qed.

Lemma cached_entities_NoDup tx :
  tx_ok tx -> NoDup (map EntityId.of_entity (cached_entities tx)).
Proof.
  intros [Hcache _]. rewrite cached_entities_tables.
  rewrite map_bind. apply NoDup_bind; [| |apply NoDup_map_to_list].
  - intros [c1 t1] [c2 t2] i H1%elem_of_map_to_list H2%elem_of_map_to_list.
    cbn [snd]. rewrite (table_ids _ _ (Hcache _ _ H1)), (table_ids _ _ (Hcache _ _ H2)).
    rewrite !list_elem_of_fmap. intros ([i1 e1] & -> & Hi1) ([i2 e2] & ? & Hi2). cbn in *. subst i2.
    apply elem_of_map_to_list in Hi1, Hi2.
    destruct (Hcache _ _ H1 _ _ Hi1) as (<- & _), (Hcache _ _ H2 _ _ Hi2) as (<- & _). congruence.
  - intros [c t] Hct%elem_of_map_to_list. cbn [snd]. rewrite (table_ids _ _ (Hcache _ _ Hct)).
    apply NoDup_fst_map_to_list.
Qed.

Lemma find_in_cache_eq tx ty k :
  tx_ok tx -> find_in_cache ty (EntityId.MkId ty k) tx = tx_cached tx (EntityId.MkId ty k).
Proof.
  intros Hok. unfold find_in_cache, tx_cached, EntityId.collection_name; cbn [EntityId.typ].
  destruct (cache tx !! _) as [table|] eqn:Ht; cbn; [|done].
  destruct (table !! _) as [e|] eqn:He; cbn; [|done]. by eapply cache_downcast.
Qed.

(** The answer of a transaction, in terms of its cache and deletion set. *)
Lemma tx_get_eq tx ty pk :
  tx_ok tx ->
  tx_get ty pk tx =
  let i := EntityId.MkId ty (pk_bytes pk) in
  if decide (i ∈ deleted tx) then Some None else Some <$> tx_cached tx i.
Proof.
  intros Hok. unfold tx_get, EntityId.from_primary_key, get_by_entity_id.
  rewrite EntityId.from_key_eq. cbn [mbind option_bind]. by rewrite find_in_cache_eq.
Qed.

(** Finding an id among the entities of the cache, in any order. *)
Lemma list_find_cached tx saves i :
  tx_ok tx -> saves ≡ₚ cached_entities tx ->
  match list_find (fun e => EntityId.of_entity e = i) saves with
  | Some (_, e) => Some e | None => None end = tx_cached tx i.
Proof.
  intros Hok Hperm. destruct (list_find _ _) as [[n e]|] eqn:Hf.
  - apply list_find_Some in Hf as (Hl & <- & _). symmetry. apply cached_entities_elem; [done|].
    rewrite <- Hperm. by eapply list_elem_of_lookup_2.
  - destruct (tx_cached tx i) as [e|] eqn:Hc; [|done].
    destruct (tx_cached_ok _ _ _ Hok Hc) as [Hi _]. subst i.
    apply cached_entities_elem in Hc; [|done]. rewrite <- Hperm in Hc.
    apply list_find_None in Hf. rewrite Forall_forall in Hf. by destruct (Hf e Hc).
Qed.

(** ** Reads by key *)

Lemma store_commit_lookup tx saves deletes m m' i :
  tx_ok tx -> saves ≡ₚ cached_entities tx -> deletes ≡ₚ elements (deleted tx) ->
  store_commit saves deletes m = Ok m' -> keyed (EntityId.typ i) = true ->
  lookup_key m' i =
  if decide (i ∈ deleted tx) then None
  else match tx_cached tx i with Some e => Some e | None => lookup_key m i end.
Proof.
  intros Hok Hs Hd (m1 & Hsaves & Hdeletes)%bind_Ok Hk.
  rewrite (lookup_key_deletes _ _ _ i Hk Hdeletes).
  assert (NoDup (map EntityId.of_entity saves)) as Hnd.
  { rewrite Hs. by apply cached_entities_NoDup. }
  rewrite (lookup_key_saves _ _ _ i Hk Hnd Hsaves), <- (list_find_cached tx saves i Hok Hs).
  rewrite (decide_ext (i ∈ deletes) (i ∈ deleted tx)) by (rewrite Hd; apply elem_of_elements).
  case_decide; [done|]. by destruct (list_find _ saves) as [[]|].
Qed.

Lemma store_get_lookup ty pk m :
  keyed ty = true ->
  store_get ty pk m = (_ ← store_prepare ty pk; Ok (lookup_key m (EntityId.MkId ty (pk_bytes pk)))).
Proof.
  intros [_ Hs]%andb_true_iff. unfold store_get, lookup_key; cbn [EntityId.typ EntityId.id].
  rewrite (list_filter_iff (fun e => store_select ty pk e = true) (fun e => entity_key e = pk_bytes pk));
    [done|]. intros e. by destruct ty; try done; cbn; rewrite bool_decide_eq_true.
Qed.

(** The primary key of a well-formed entity of a keyed type can be bound. *)
Lemma store_prepare_entity `{!ExternalsLaws X} e :
  keyed (Entity.typ e) = true -> store_prepare (Entity.typ e) (primary_key e) = Ok ().
Proof. by destruct e. Qed.

Lemma cached_entities_ok tx saves :
  tx_ok tx -> saves ≡ₚ cached_entities tx -> Forall entity_ok saves.
Proof.
  intros Hok Hs. apply Forall_forall. intros e He. rewrite Hs in He.
  by apply cached_entities_elem in He; [apply (tx_cached_ok tx (EntityId.of_entity e))|].
Qed.

Lemma commit_represents `{!ExternalsLaws X} tx saves deletes m db db' :
  tx_ok tx -> saves ≡ₚ cached_entities tx -> represents m db ->
  commit_in_order saves deletes db = Ok db' ->
  exists m', store_commit saves deletes m = Ok m' /\ represents m' db'.
Proof.
  intros Hok Hs Hrep Hcommit.
  pose proof (commit_in_order_refines m db saves deletes Hrep (cached_entities_ok _ _ Hok Hs)) as Hsim.
  rewrite Hcommit in Hsim. by apply res_sim_ok_r in Hsim.
Qed.

Lemma commit_get `{!ExternalsLaws X} tx saves deletes m db db' ty pk :
  tx_ok tx -> saves ≡ₚ cached_entities tx -> deletes ≡ₚ elements (deleted tx) ->
  represents m db -> commit_in_order saves deletes db = Ok db' ->
  keyed ty = true -> pk_ok ty pk ->
  entity_get ty pk db' =
  match tx_get ty pk tx with Some r => Ok r | None => entity_get ty pk db end.
Proof.
  intros Hok Hs Hd Hrep Hcommit Hk Hpk.
  destruct (commit_represents tx saves deletes m db db') as (m' & Hm' & Hrep'); [done..|].
  rewrite !(entity_get_refines _ _ _ _ Hrep' Hpk), !(entity_get_refines _ _ _ _ Hrep Hpk).
  rewrite !store_get_lookup by done.
  rewrite (store_commit_lookup tx saves deletes m m') by done.
  rewrite tx_get_eq by done. cbn zeta. case_decide as Hdel.
  - pose proof Hm' as (m1 & _ & Hdels)%bind_Ok.
    rewrite (deletes_prepare deletes m1 m' ty pk); [done| |done|done|].
    + by intros ->.
    + rewrite Hd. by apply elem_of_elements.
  - destruct (tx_cached tx _) as [e|] eqn:Hc; [|done]. cbn.
    destruct (tx_cached_ok _ _ _ Hok Hc) as [Hi Heok].
    pose proof (primary_key_ok e Heok) as Hpke. injection Hi as Hty Hbytes. subst ty.
    rewrite (pk_bytes_inj _ _ _ Hpk Hpke) by done. by rewrite store_prepare_entity.
Qed.

(** The empty case of [commit] is the general one. *)
Lemma tx_commit_eq tx db :
  tx_commit tx db = commit_in_order (cached_entities tx) (elements (deleted tx)) db.
Proof.
  unfold tx_commit. case_match eqn:Ht; [|done].
  apply app_eq_nil in Ht as [Hd Hc]. apply map_eq_nil in Hd. rewrite Hd.
  assert (cached_entities tx = []) as ->; [|done].
  unfold cached_entities. induction (map_to_list (cache tx)).*2 as [|t ts IH]; [done|].
  cbn in Hc |- *. apply app_eq_nil in Hc as [Ht Hc]. apply map_eq_nil in Ht.
  apply fmap_nil_inv in Ht. rewrite Ht. by apply IH.
Qed.

(** ** Uniqueness of keys *)

(** Every table with a [UNIQUE] column holds each key at most once. *)
Definition keys_unique (m : Store) : Prop :=
  forall ty, unique_table ty = true -> NoDup (map entity_key (m ty)).

Lemma keys_unique_insert m ty es :
  keys_unique m -> (unique_table ty = true -> NoDup (map entity_key es)) ->
  keys_unique (<[ty := es]> m).
Proof.
  intros Hm Hes ty' Hty'. destruct (decide (ty = ty')) as [<-|].
  - rewrite fn_lookup_insert. auto.
  - rewrite fn_lookup_insert_ne by done. auto.
Qed.

Lemma NoDup_map_snoc e es :
  NoDup (map entity_key es) -> (forall e', e' ∈ es -> entity_key e' <> entity_key e) ->
  NoDup (map entity_key (es ++ [e])).
Proof.
  intros Hnd Hne. rewrite map_app. apply NoDup_app. split; [done|]. split.
  - intros k Hk. apply list_elem_of_fmap in Hk as (e' & -> & He'). cbn.
    rewrite list_elem_of_singleton. by apply Hne.
  - cbn. apply NoDup_singleton.
Qed.

Lemma store_save_unique e m m' : keys_unique m -> store_save e m = Ok m' -> keys_unique m'.
Proof.
  intros Hm. unfold store_save. destruct (insert_or_replace _).
  - intros [= <-]. apply keys_unique_insert; [done|]. intros Hu. rewrite Hu. cbn [andb].
    apply NoDup_map_snoc; [by apply NoDup_map_filter, Hm|].
    intros e' [He' _]%list_elem_of_filter. by apply bool_decide_eq_false in He'.
  - destruct (existsb _ _) eqn:Hex; [done|]. intros [= <-].
    apply keys_unique_insert; [done|]. intros Hu. rewrite Hu in Hex. cbn [andb] in Hex.
    apply NoDup_map_snoc; [by apply Hm|]. intros e' He' Hk.
    apply not_true_iff_false in Hex. apply Hex, existsb_exists. exists e'.
    rewrite bool_decide_eq_true. split; [by apply list_elem_of_In|done].
Qed.

Lemma store_delete_unique ty pk m b m' :
  keys_unique m -> store_delete ty pk m = Ok (b, m') -> keys_unique m'.
Proof.
  intros Hm (_ & _ & [= _ <-])%bind_Ok. apply keys_unique_insert; [done|].
  intros. by apply NoDup_map_filter, Hm.
Qed.

Lemma store_execute_save_unique e m m' :
  keys_unique m -> store_execute_save e m = Ok m' -> keys_unique m'.
Proof.
  intros Hm. destruct e; cbn [store_execute_save]; eauto using store_save_unique;
    intros ([b m1] & Hdel & Hsave)%bind_Ok; eauto using store_save_unique, store_delete_unique.
Qed.

Lemma store_execute_delete_unique i m b m' :
  keys_unique m -> store_execute_delete i m = Ok (b, m') -> keys_unique m'.
Proof.
  intros Hm. unfold store_execute_delete. destruct (EntityId.typ i) eqn:Hty;
    try (intros (pk & _ & Hdel)%bind_Ok; by eauto using store_delete_unique).
  intros [= _ <-]. apply keys_unique_insert; [done|]. done.
Qed.

Lemma store_commit_unique saves deletes m m' :
  keys_unique m -> store_commit saves deletes m = Ok m' -> keys_unique m'.
Proof.
  intros Hm (m1 & Hs & Hd)%bind_Ok.
  assert (keys_unique m1) as Hm1.
  { revert m Hm Hs. induction saves as [|e l IH]; cbn; intros m Hm; [by intros [= <-]|].
    intros (m2 & ? & ?)%bind_Ok. eauto using store_execute_save_unique. }
  clear m Hm Hs. revert m1 Hm1 Hd. induction deletes as [|d l IH]; cbn; intros m1 Hm1; [by intros [= <-]|].
  intros (m2 & ([b m3] & Hdel & ->)%fmap_Ok & Hrest)%bind_Ok. eauto using store_execute_delete_unique.
Qed.

(** ** When a commit succeeds *)

(** An entity can be saved: its [INSERT] replaces, or no stored entity has its key. *)
Definition saveable (m : Store) (e : Entity.t) : Prop :=
  insert_or_replace (Entity.typ e) = true \/
  Forall (fun e' => unique_table (Entity.typ e) && bool_decide (entity_key e' = entity_key e) = false)
    (m (Entity.typ e)).

(** A deletion can be prepared and bound; this does not depend on the store. *)
Definition deletable (i : EntityId.t) : Prop := is_ok (store_execute_delete i empty_store) = true.

Lemma is_ok_store_save m e : is_ok (store_save e m) = true <-> saveable m e.
Proof.
  unfold store_save, saveable. destruct (insert_or_replace _); [by split; [left|]|].
  destruct (existsb _ _) eqn:Hex; (split; [|try done]).
  - done.
  - intros [?|Hall]; [done|]. apply existsb_exists in Hex as (e' & He' & Hs).
    rewrite Forall_forall in Hall. rewrite Hall in Hs by (by apply list_elem_of_In). done.
  - intros _. right. apply Forall_forall. intros e' He'. apply not_true_iff_false. intros Hs.
    apply not_true_iff_false in Hex. apply Hex, existsb_exists. exists e'. by rewrite list_elem_of_In in He'.
Qed.

Lemma is_ok_store_execute_save m e : is_ok (store_execute_save e m) = true <-> saveable m e.
Proof.
  rewrite <- is_ok_store_save. destruct e; cbn [store_execute_save]; try done.
Qed.

Lemma is_ok_store_execute_delete m i : is_ok (store_execute_delete i m) = true <-> deletable i.
Proof.
  unfold deletable, store_execute_delete, store_delete, ok_or.
  destruct (EntityId.typ i); try done; destruct (EntityId.primary_key i); cbn; try done;
    by destruct (sql _).
Qed.

(** Saving another id leaves an entity as saveable as it was. *)
Lemma saveable_save m e1 m1 e :
  store_execute_save e1 m = Ok m1 -> EntityId.of_entity e1 <> EntityId.of_entity e ->
  saveable m1 e <-> saveable m e.
Proof.
  intros Hsave Hne. unfold saveable. destruct (insert_or_replace (Entity.typ e)) eqn:Hor.
  { split; by left. }
  assert (m1 (Entity.typ e) = m (Entity.typ e) \/
    m1 (Entity.typ e) = m (Entity.typ e) ++ [e1] /\ Entity.typ e1 = Entity.typ e) as [->|[-> Hty]].
  { destruct (decide (Entity.typ e1 = Entity.typ e)) as [Hty|Hty].
    - right. split; [|done]. assert (store_save e1 m = Ok m1) as Hs.
      { destruct e1; try done; by rewrite <- Hty in Hor. }
      unfold store_save in Hs. rewrite Hty, Hor in Hs. destruct (existsb _ _); [done|].
      injection Hs as <-. by rewrite fn_lookup_insert.
    - left. assert (forall m2, store_save e1 m2 = Ok m1 -> m1 (Entity.typ e) = m2 (Entity.typ e)) as Hsv.
      { intros m2. unfold store_save. repeat case_match; intros [= <-];
          by rewrite fn_lookup_insert_ne. }
      destruct e1; cbn [store_execute_save] in Hsave; try (by apply Hsv);
        apply bind_Ok in Hsave as ([b m2] & (_ & _ & [= _ <-])%bind_Ok & Hs);
        rewrite (Hsv _ Hs); by rewrite fn_lookup_insert_ne. }
  - done.
  - rewrite Forall_app, Forall_singleton.
    assert (bool_decide (entity_key e1 = entity_key e) = false) as ->.
    { apply bool_decide_eq_false. intros Hk. apply Hne. unfold EntityId.of_entity.
      unfold entity_key in Hk. congruence. }
    rewrite andb_false_r. naive_solver.
Qed.

Lemma is_ok_Ok {E A} (r : res E A) : is_ok r = true <-> exists a, r = Ok a.
Proof. destruct r; cbn; split; try done; [by eexists|by intros [? ?]..]. Qed.

Lemma saves_ok_iff l m :
  NoDup (map EntityId.of_entity l) ->
  is_ok (for_each store_execute_save l m) = true <-> Forall (saveable m) l.
Proof.
  revert m. induction l as [|e l IH]; intros m; cbn [map for_each]; [done|].
  intros [Hnotin Hnd]%NoDup_cons. rewrite Forall_cons, <- is_ok_store_execute_save.
  destruct (store_execute_save e m) as [m1| |] eqn:Hs; cbn; [|by split; [|intros [? _]]..].
  rewrite (IH m1 Hnd), !Forall_forall.
  assert (forall e', e' ∈ l -> saveable m1 e' <-> saveable m e') as Hl; [|naive_solver].
  intros e' He'. eapply saveable_save; [exact Hs|].
  intros E. apply Hnotin. rewrite E. by apply (list_elem_of_fmap_2 EntityId.of_entity).
Qed.

Lemma deletes_ok_iff ds m :
  is_ok (for_each (fun d m => snd <$> store_execute_delete d m) ds m) = true <-> Forall deletable ds.
Proof.
  revert m. induction ds as [|d ds IH]; intros m; cbn [for_each]; [done|].
  rewrite Forall_cons, <- (is_ok_store_execute_delete m d).
  destruct (store_execute_delete d m) as [[b m1]| |]; cbn; [|by split; [|intros [? _]]..].
  rewrite IH. naive_solver.
Qed.

(** A commit succeeds exactly when every saved entity is saveable and every
    deletion can be prepared. *)
Lemma store_commit_ok_iff saves deletes m :
  NoDup (map EntityId.of_entity saves) ->
  is_ok (store_commit saves deletes m) = true <-> Forall (saveable m) saves /\ Forall deletable deletes.
Proof.
  intros Hnd. unfold store_commit. rewrite <- saves_ok_iff by done.
  destruct (for_each store_execute_save saves m) as [m1| |]; cbn; [|by split; [|intros [? _]]..].
  rewrite deletes_ok_iff. naive_solver.
Qed.

Lemma is_ok_sim {E A B} (R : A -> B -> Prop) (r1 : res E A) (r2 : res E B) :
  res_sim R r1 r2 -> is_ok r1 = is_ok r2.
Proof. by intros []. Qed.

Lemma commit_ok_iff `{!ExternalsLaws X} tx saves deletes m db :
  tx_ok tx -> saves ≡ₚ cached_entities tx -> deletes ≡ₚ elements (deleted tx) -> represents m db ->
  is_ok (commit_in_order saves deletes db) = true <->
  Forall (saveable m) (cached_entities tx) /\ Forall deletable (elements (deleted tx)).
Proof.
  intros Hok Hs Hd Hrep.
  rewrite <- (is_ok_sim _ _ _ (commit_in_order_refines m db saves deletes Hrep (cached_entities_ok _ _ Hok Hs))).
  rewrite store_commit_ok_iff.
  - by rewrite Hs, Hd.
  - rewrite Hs. by apply cached_entities_NoDup.
Qed.
End commit.
