(* ===== verification/TransactionReads.v ===== *)
(** * Reading collections inside a transaction

    [find_all], [search] and their special cases merge the entities of the cache
    with those read from the database.  For keyed types the merged list is, up to
    order, what the database holds after the commit. *)

From stdpp Require Import functions.
From S2P Require Import Prelude Keys EntityTypes Entities Sql KeystoreErrors EntityStore Store Transaction TransactionInvariant TransactionCommit.
From Stdlib Require Import Lia ZArith.

Section reads.
Context `{X : Externals}.

(** [merge_records] keeps the first record of every key that is not deleted. *)
Lemma merge_records_eq a b tx :
  merge_records a b tx =
  filter (fun e => EntityId.of_entity e ∉ deleted tx) (unique_by entity_key (a ++ b)).
Proof.
  unfold merge_records. fold entity_key.
  change (fun e => pk_bytes (primary_key e)) with entity_key.
  induction (unique_by entity_key (a ++ b)) as [|e l IH]; [done|].
  rewrite filter_cons. cbn [omap list_omap]. rewrite EntityId.from_entity_eq, IH. cbn [mbind option_bind].
  by repeat case_decide.
Qed.

(** The entities of one type in the cache. *)
Definition cached_of (ty : EntityType.t) (tx : KeystoreTransaction) : list Entity.t :=
  match cache tx !! EntityType.collection_name ty with
  | Some table => (map_to_list table).*2
  | None => []
  end.

Lemma find_all_in_cache_cached tx ty : tx_ok tx -> find_all_in_cache ty tx = Ok (cached_of ty tx).
Proof. apply find_all_in_cache_ok. Qed.

Lemma cached_of_elem tx ty e :
  tx_ok tx -> e ∈ cached_of ty tx <-> Entity.typ e = ty /\ tx_cached tx (EntityId.of_entity e) = Some e.
Proof.
  intros [Hcache _]. unfold cached_of, tx_cached. split.
  - destruct (cache tx !! _) as [table|] eqn:Ht; [|by intros ?%not_elem_of_nil].
    intros ([i e'] & -> & Hi)%list_elem_of_fmap. apply elem_of_map_to_list in Hi. cbn [snd].
    destruct (Hcache _ _ Ht _ _ Hi) as (Hc & <- & _).
    split; [by apply (inj EntityType.collection_name) in Hc|]. by rewrite Hc, Ht.
  - intros [<- (table & Ht & He)%bind_Some].
    unfold EntityId.collection_name in Ht. cbn in Ht. rewrite Ht.
    apply list_elem_of_fmap. exists (EntityId.of_entity e, e). by rewrite elem_of_map_to_list.
Qed.

Lemma cached_of_NoDup tx ty : tx_ok tx -> NoDup (map entity_key (cached_of ty tx)).
Proof.
  intros Hok. unfold cached_of. destruct (cache tx !! _) as [table|] eqn:Ht; [|constructor].
  destruct Hok as [Hcache _]. pose proof (Hcache _ _ Ht) as Htab.
  assert (map entity_key (map_to_list table).*2 = map EntityId.id (map_to_list table).*1) as ->.
  { rewrite <- (table_ids _ _ Htab). symmetry. apply (map_map EntityId.of_entity EntityId.id). }
  apply NoDup_fmap_2_strong; [|apply NoDup_fst_map_to_list].
  intros i1 i2 ([? e1] & -> & H1%elem_of_map_to_list)%list_elem_of_fmap
    ([? e2] & -> & H2%elem_of_map_to_list)%list_elem_of_fmap Hid. cbn in *.
  destruct (Htab _ _ H1) as (Hc1 & _), (Htab _ _ H2) as (Hc2 & _).
  rewrite <- Hc1 in Hc2. apply (inj EntityType.collection_name) in Hc2.
  destruct t, t0; cbn in *; congruence.
Qed.

(** What a merge of [cached] over [persisted] contains. *)
Lemma merge_records_elem cached persisted tx e :
  NoDup (map entity_key cached) -> NoDup (map entity_key persisted) ->
  (e ∈ merge_records cached persisted tx) <->
  (EntityId.of_entity e ∉ deleted tx) /\
  (e ∈ cached \/ (e ∈ persisted) /\ entity_key e ∉ map entity_key cached).
Proof.
  intros Hc Hp. rewrite merge_records_eq, unique_by_app by done.
  rewrite list_elem_of_filter, elem_of_app, list_elem_of_filter. naive_solver.
Qed.

Lemma merge_records_NoDup cached persisted tx :
  NoDup (map entity_key cached) -> NoDup (map entity_key persisted) ->
  NoDup (map entity_key (merge_records cached persisted tx)).
Proof.
  intros Hc Hp. rewrite merge_records_eq, unique_by_app by done.
  apply NoDup_map_filter. rewrite map_app. apply NoDup_app. split; [done|]. split.
  - intros k Hk (e & -> & [He _]%list_elem_of_filter)%list_elem_of_fmap. done.
  - by apply NoDup_map_filter.
Qed.

(** Membership in a table of a store with unique keys is lookup by key. *)
Lemma lookup_key_elem m e :
  keys_unique m -> unique_table (Entity.typ e) = true ->
  e ∈ m (Entity.typ e) <-> lookup_key m (EntityId.of_entity e) = Some e.
Proof.
  intros Hu Hty. unfold lookup_key; cbn [EntityId.typ EntityId.id EntityId.of_entity]. fold (entity_key e).
  specialize (Hu _ Hty). induction (m (Entity.typ e)) as [|e' l IH]; cbn [map] in *.
  - split; [by intros ?%not_elem_of_nil|done].
  - apply NoDup_cons in Hu as [Hnotin Hu]. rewrite filter_cons, elem_of_cons. case_decide as Hk.
    + cbn. split; [|by intros [= ->]; left]. intros [->|He]; [done|].
      destruct Hnotin. rewrite Hk. by apply (list_elem_of_fmap_2 entity_key).
    + rewrite <- IH by done. split; [|by right]. by intros [->|He].
Qed.

Lemma NoDup_of_keys (l : list Entity.t) : NoDup (map entity_key l) -> NoDup l.
Proof. apply NoDup_fmap_1. Qed.

(** ** [load_all] agrees with the commit *)

Lemma find_all_elem tx m ty e :
  tx_ok tx -> keys_unique m -> table_ok ty (m ty) -> keyed ty = true ->
  e ∈ merge_records (cached_of ty tx) (m ty) tx <->
  Entity.typ e = ty /\
  (if decide (EntityId.of_entity e ∈ deleted tx) then None
   else match tx_cached tx (EntityId.of_entity e) with
        | Some e' => Some e' | None => lookup_key m (EntityId.of_entity e) end) = Some e.
Proof.
  intros Hok Hu Htab [Hty _]%andb_true_iff.
  assert (forall e, e ∈ m ty -> Entity.typ e = ty) as Htyp.
  { intros e' He'. unfold table_ok in Htab. rewrite Forall_forall in Htab. by apply Htab. }
  rewrite merge_records_elem by auto using cached_of_NoDup. rewrite cached_of_elem by done.
  assert (Entity.typ e = ty -> entity_key e ∈ map entity_key (cached_of ty tx) <->
    is_Some (tx_cached tx (EntityId.of_entity e))) as Hkey.
  { intros Hte. split.
    - intros (e' & Hk & [Hte' Hc]%cached_of_elem)%list_elem_of_fmap; [|done].
      exists e'. rewrite <- Hc. f_equal. unfold EntityId.of_entity, entity_key in *. congruence.
    - intros [e' Hc]. destruct (tx_cached_ok _ _ _ Hok Hc) as [[Ht Hk]%EntityId.of_entity_inj_key _].
      apply list_elem_of_fmap. exists e'. split; [done|]. apply cached_of_elem; [done|].
      split; [congruence|]. by rewrite (proj1 (tx_cached_ok _ _ _ Hok Hc)). }
  split.
  - intros [Hnd Hcases]. assert (Entity.typ e = ty) as Hte by naive_solver. split; [done|].
    rewrite decide_False by done. destruct Hcases as [[_ ->]|[He Hnc]]; [done|].
    rewrite Hkey in Hnc by done. destruct (tx_cached tx _); [by destruct Hnc|].
    apply lookup_key_elem; [done|by rewrite Hte|by rewrite Hte].
  - intros [Hte Hsome]. case_decide as Hnd; [done|]. split; [done|].
    destruct (tx_cached tx _) as [e'|] eqn:Hc.
    + left. by injection Hsome as ->.
    + right. rewrite Hkey by done. split; [|by intros [??]]. subst ty. by apply lookup_key_elem.
Qed.

Lemma commit_load_all `{!ExternalsLaws X} tx saves deletes m db db' ty :
  tx_ok tx -> saves ≡ₚ cached_entities tx -> deletes ≡ₚ elements (deleted tx) ->
  represents m db -> keys_unique m -> commit_in_order saves deletes db = Ok db' ->
  keyed ty = true ->
  exists persisted inside after,
    entity_load_all ty db = Ok persisted /\ tx_find_all ty persisted tx = Ok inside /\
    entity_load_all ty db' = Ok after /\ inside ≡ₚ after.
Proof.
  intros Hok Hs Hd Hrep Hu Hcommit Hk.
  destruct (commit_represents tx saves deletes m db db') as (m' & Hm' & Hrep'); [done..|].
  pose proof (store_commit_unique _ _ _ _ Hu Hm') as Hu'.
  pose proof Hk as [Huty _]%andb_true_iff.
  exists (m ty), (merge_records (cached_of ty tx) (m ty) tx), (m' ty).
  split; [by apply entity_load_all_refines|]. split.
  { unfold tx_find_all. by rewrite find_all_in_cache_cached. }
  split; [by apply entity_load_all_refines|].
  apply NoDup_Permutation.
  - apply NoDup_of_keys, merge_records_NoDup; auto using cached_of_NoDup.
  - by apply NoDup_of_keys, Hu'.
  - intros e. rewrite find_all_elem; [|done|done|apply Hrep|done].
    destruct (decide (Entity.typ e = ty)) as [Hty|Hty].
    + rewrite <- (store_commit_lookup tx saves deletes m m'); [|done..|]; [|cbn; by rewrite Hty].
      rewrite <- lookup_key_elem, Hty by (done || by rewrite Hty). naive_solver.
    + split; [by intros [? _]|]. intros He. destruct (Hrep' ty) as [_ Htab].
      unfold table_ok in Htab. rewrite Forall_forall in Htab. by destruct (Htab e He).
Qed.
End reads.
