(* ===== verification/Database.v ===== *)
(** * The database

    [keystore/src/connection/mod.rs]: a connection, at most one transaction at a
    time (guarded by a semaphore with one permit), and the read and write
    operations that go through the transaction. *)

From S2P Require Import Prelude Keys EntityTypes Entities Sql KeystoreErrors EntityStore Store Transaction.
From Stdlib Require Import Lia ZArith.

(** [Database]: [conn] is [None] once closed; [permits] is the number of free
    permits of [transaction_semaphore]. *)
Record Database : Type := MkDatabase {
  conn : option SqlDb;
  transaction : option KeystoreTransaction;
  permits : nat;
}.

Definition ALLOWED_CONCURRENT_TRANSACTIONS_COUNT : nat := 1.

Section database.
Context `{X : Externals}.

(** [Database::open] on a database with the given contents. *)
Definition open (contents : SqlDb) : Database :=
  MkDatabase (Some contents) None ALLOWED_CONCURRENT_TRANSACTIONS_COUNT.

(** Assigning [*transaction_guard] drops the previous transaction, and with it
    the permit it holds. *)
Definition set_transaction (t : option KeystoreTransaction) (db : Database) : Database :=
  MkDatabase (conn db) t
    (permits db + match transaction db with Some _ => 1 | None => 0 end).

(** Taking a permit. *)
Definition acquire (db : Database) : Database :=
  MkDatabase (conn db) (transaction db) (permits db - 1).

(** [Database::conn]. *)
Definition get_conn (db : Database) : kres SqlDb := ok_or (conn db) KeystoreError.Closed.

(** ** Transactions *)

(** [Database::new_transaction]; [None] is waiting for the permit. *)
Definition new_transaction (db : Database) : option Database :=
  if decide (0 < permits db) then Some (set_transaction (Some tx_new) (acquire db)) else None.

(** [Database::try_new_immediate_transaction]. *)
Definition try_new_immediate_transaction (db : Database) : kres unit * Database :=
  if decide (0 < permits db) then (Ok (), set_transaction (Some tx_new) (acquire db))
  else (Err KeystoreError.TransactionInProgress, db).

(** [Database::commit_transaction]: the transaction is only removed when the
    commit succeeds. *)
Definition commit_transaction (db : Database) : kres unit * Database :=
  match transaction db with
  | None => (Err KeystoreError.MutatingOperationWithoutTransaction, db)
  | Some tx =>
      match (contents ← get_conn db; tx_commit tx contents) with
      | Ok contents' =>
          (Ok (), set_transaction None (MkDatabase (Some contents') (transaction db) (permits db)))
      | Err e => (Err e, db)
      | Panic => (Panic, db)
      end
  end.

(** [Database::rollback_transaction]. *)
Definition rollback_transaction (db : Database) : kres unit * Database :=
  match transaction db with
  | None => (Err KeystoreError.MutatingOperationWithoutTransaction, db)
  | Some _ => (Ok (), set_transaction None db)
  end.

(** [Database::take], the common part of [close] and [wipe]; [None] is waiting.
    The permit is given back when the function returns. *)
Definition take (db : Database) : option (kres SqlDb * Database) :=
  if decide (0 < permits db) then
    Some (get_conn db, MkDatabase None (transaction db) (permits db))
  else None.

(** ** Writes *)

(** A write through the transaction in progress; it mutates shared tables of the
    transaction in place. *)
Definition with_transaction {A} (f : KeystoreTransaction -> kres (A * KeystoreTransaction))
    (db : Database) : kres A * Database :=
  match transaction db with
  | None => (Err KeystoreError.MutatingOperationWithoutTransaction, db)
  | Some tx =>
      match f tx with
      | Ok (a, tx') => (Ok a, MkDatabase (conn db) (Some tx') (permits db))
      | Err e => (Err e, db)
      | Panic => (Panic, db)
      end
  end.

(** [Database::save]. *)
Definition save (clock : option Z) (e : Entity.t) : Database -> kres (option Z) * Database :=
  with_transaction (tx_save clock e).

(** [Database::remove] and [Database::remove_borrowed]. *)
Definition remove (ty : EntityType.t) (pk : PrimaryKey) : Database -> kres unit * Database :=
  with_transaction (fun tx => pair () <$> tx_remove ty pk tx).

(** [Database::remove_pending_messages_by_conversation_id]. *)
Definition remove_pending_messages_by_conversation_id (cid : bytes) :
    Database -> kres unit * Database :=
  with_transaction (fun tx => pair () <$> tx_remove_pending_messages cid tx).

(** ** Reads *)

(** [Database::get] and [Database::get_borrowed]. *)
Definition get (ty : EntityType.t) (pk : PrimaryKey) (db : Database) : kres (option Entity.t) :=
  match (tx ← transaction db; tx_get ty pk tx) with
  | Some cached_record => Ok cached_record
  | None => contents ← get_conn db; entity_get ty pk contents
  end.

(** A read of a list of records, merged with the transaction in progress. *)
Definition merged_read (persisted : SqlDb -> kres (list Entity.t))
    (merge : list Entity.t -> KeystoreTransaction -> kres (list Entity.t)) (db : Database) :
    kres (list Entity.t) :=
  contents ← get_conn db;
  persisted_records ← persisted contents;
  match transaction db with
  | None => Ok persisted_records
  | Some tx => merge persisted_records tx
  end.

(** [Database::load_all]. *)
Definition load_all (ty : EntityType.t) : Database -> kres (list Entity.t) :=
  merged_read (entity_load_all ty) (tx_find_all ty).

(** [Database::count]. *)
Definition count (ty : EntityType.t) (db : Database) : kres nat :=
  match transaction db with
  | Some _ => length <$> load_all ty db
  | None => contents ← get_conn db; entity_count ty contents
  end.

(** [Database::search], at the searchable types. *)
Definition search_groups (parent_id : bytes) : Database -> kres (list Entity.t) :=
  merged_read (group_find_all_matching parent_id)
    (tx_search EntityType.PersistedMlsGroup (group_matches parent_id)).

Definition search_credentials (f : CredentialFindFilters) : Database -> kres (list Entity.t) :=
  merged_read (credential_find_all_matching f)
    (tx_search EntityType.StoredCredential (credential_matches f)).

(** [Database::child_groups]. *)
Definition child_groups (entity : PersistedMlsGroup) : Database -> kres (list Entity.t) :=
  merged_read (group_find_all_matching (group_id entity)) (tx_child_groups entity).

(** [Database::find_pending_messages_by_conversation_id]. *)
Definition find_pending_messages_by_conversation_id (cid : bytes) :
    Database -> kres (list Entity.t) :=
  merged_read (pending_message_find_all_matching cid) (tx_find_pending_messages cid).

(** ** Steps *)

(** One call on a shared database, with the result it returns. *)
Inductive db_step : Database -> kres unit -> Database -> Prop :=
  | step_new db db' :
      new_transaction db = Some db' -> db_step db (Ok ()) db'
  | step_try_new db r db' :
      try_new_immediate_transaction db = (r, db') -> db_step db r db'
  | step_commit db r db' :
      commit_transaction db = (r, db') -> db_step db r db'
  | step_rollback db r db' :
      rollback_transaction db = (r, db') -> db_step db r db'
  | step_save db clock e r db' :
      match clock with Some t => (0 <= t <= 253402300799)%Z | None => True end ->
      entity_ok e -> save clock e db = (r, db') -> db_step db ((fun _ => ()) <$> r) db'
  | step_remove db ty pk r db' :
      remove ty pk db = (r, db') -> db_step db r db'
  | step_remove_pending db cid r db' :
      remove_pending_messages_by_conversation_id cid db = (r, db') -> db_step db r db'
  | step_take db r db' :
      take db = Some (r, db') -> db_step db ((fun _ => ()) <$> r) db'.

(** States reachable from a freshly opened database. *)
Inductive reachable (contents : SqlDb) : Database -> Prop :=
  | reachable_open : reachable contents (open contents)
  | reachable_step db r db' :
      reachable contents db -> db_step db r db' -> reachable contents db'.

End database.
