(* ===== verification/DatabaseProps.v ===== *)
(** * Properties of the database *)

From stdpp Require Import functions.
From S2P Require Import Prelude Keys EntityTypes Entities ToyExternals Sql KeystoreErrors EntityStore Store Transaction TransactionInvariant TransactionCommit TransactionReads Database.
From Stdlib Require Import Lia ZArith.

Section invariant.
Context `{X : Externals}.

(** ** Invariant *)

Definition tx_count (db : Database) : nat :=
  match transaction db with Some _ => 1 | None => 0 end.

(** The permit is free or owned by the transaction in progress, the transaction
    is well formed, and the tables hold well-formed entities with unique keys. *)
Definition db_inv (db : Database) : Prop :=
  permits db + tx_count db = ALLOWED_CONCURRENT_TRANSACTIONS_COUNT /\
  (forall tx, transaction db = Some tx -> tx_ok tx) /\
  (forall contents, conn db = Some contents -> exists m, represents m contents /\ keys_unique m).

Lemma db_inv_open m contents : represents m contents -> keys_unique m -> db_inv (open contents).
Proof. intros Hrep Hu. split; [done|]. split; [done|]. intros c [= <-]. by exists m. Qed.

Lemma db_inv_new db : db_inv db -> 0 < permits db -> db_inv (set_transaction (Some tx_new) (acquire db)).
Proof.
  intros (Hp & Htx & Hc) Hpos. split; [|split]; cbn in *.
  - unfold tx_count in Hp. cbn. destruct (transaction db); unfold ALLOWED_CONCURRENT_TRANSACTIONS_COUNT in *; lia.
  - intros tx [= <-]. apply tx_ok_new.
  - done.
Qed.

Lemma db_inv_drop db contents :
  db_inv db -> transaction db <> None ->
  (forall c, contents = Some c -> exists m, represents m c /\ keys_unique m) ->
  db_inv (set_transaction None (MkDatabase contents (transaction db) (permits db))).
Proof.
  intros (Hp & Htx & Hc) Hsome Hcont. split; [|split; [done|done]].
  unfold tx_count in Hp; cbn. destruct (transaction db); [|done]. lia.
Qed.

Lemma db_inv_with_transaction {A} (f : KeystoreTransaction -> kres (A * KeystoreTransaction)) db r db' :
  db_inv db -> (forall tx a tx', tx_ok tx -> f tx = Ok (a, tx') -> tx_ok tx') ->
  with_transaction f db = (r, db') -> db_inv db'.
Proof.
  intros Hinv Hf. unfold with_transaction. destruct (transaction db) as [tx|] eqn:Htx; [|by intros [= _ <-]].
  destruct (f tx) as [[a tx']| |] eqn:E; intros [= _ <-]; [|done..].
  destruct Hinv as (Hp & Hok & Hc). split; [|split].
  - unfold tx_count in *. rewrite Htx in Hp. done.
  - intros t [= <-]. eapply Hf; [|done]. by apply Hok.
  - done.
Qed.

Lemma tx_commit_ok `{!ExternalsLaws X} tx m contents contents' :
  tx_ok tx -> represents m contents -> keys_unique m -> tx_commit tx contents = Ok contents' ->
  exists m', represents m' contents' /\ keys_unique m'.
Proof.
  intros Hok Hrep Hu Hc. rewrite tx_commit_eq in Hc.
  destruct (commit_represents tx _ _ _ _ _ Hok (reflexivity _) Hrep Hc) as (m' & Hm' & Hrep').
  exists m'. split; [done|]. by eapply store_commit_unique.
Qed.

Lemma db_inv_step `{!ExternalsLaws X} db r db' : db_inv db -> db_step db r db' -> db_inv db'.
Proof.
  intros Hinv Hstep. destruct Hstep as [db db' Hn|db r db' Hn|db r db' Hcm|db r db' Hrb
    |db clock e r db' Hclock He Hs|db ty pk r db' Hr|db cid r db' Hr|db r db' Ht].
  - unfold new_transaction in Hn. case_decide; [|done]. injection Hn as <-. by apply db_inv_new.
  - unfold try_new_immediate_transaction in Hn. case_decide; injection Hn as _ <-; [by apply db_inv_new|done].
  - unfold commit_transaction in Hcm. destruct (transaction db) as [tx|] eqn:Htx; [|by injection Hcm as _ <-].
    destruct (contents ← get_conn db; tx_commit tx contents) as [c'| |] eqn:Hc; injection Hcm as _ <-; [|done..].
    rewrite <- Htx. apply db_inv_drop; [done|by rewrite Htx|]. intros c [= <-].
    apply bind_Ok in Hc as (c & Hconn & Hc). unfold get_conn in Hconn.
    destruct (conn db) as [c0|] eqn:Hc0; [|done]. injection Hconn as ->.
    destruct Hinv as (_ & Hok & Hm). destruct (Hm c Hc0) as (m & Hrep & Hu).
    by eapply tx_commit_ok; [apply Hok| | |].
  - unfold rollback_transaction in Hrb. destruct (transaction db) as [tx|] eqn:Htx; injection Hrb as _ <-; [|done].
    destruct db as [c t p]. cbn in Htx. subst t.
    apply (db_inv_drop (MkDatabase c (Some tx) p)); [done..|]. apply Hinv.
  - eapply db_inv_with_transaction; [done| |exact Hs]. intros; by eapply tx_save_preserves.
  - eapply db_inv_with_transaction; [done| |exact Hr]. intros tx [] tx' Htx (t & Hrm & [= ->])%fmap_Ok.
    by eapply tx_remove_preserves.
  - eapply db_inv_with_transaction; [done| |exact Hr]. intros tx [] tx' Htx (t & Hrm & [= ->])%fmap_Ok.
    by eapply tx_remove_pending_messages_preserves.
  - unfold take in Ht. case_decide; [|done]. injection Ht as _ <-.
    destruct Hinv as (Hp & Hok & Hm). by split; [|split].
Qed.

Lemma reachable_inv `{!ExternalsLaws X} m contents db :
  represents m contents -> keys_unique m -> reachable contents db -> db_inv db.
Proof.
  intros Hrep Hu. induction 1 as [|db r db' _ IH Hstep]; [by eapply db_inv_open|by eapply db_inv_step].
Qed.

(** C1: in every state a database can reach through any interleaving of calls, at
    most one transaction is in progress and the semaphore permit is free exactly
    when none is; the transaction in progress is well formed, and the tables hold
    well-formed entities, at most one per key in every table with a [UNIQUE]
    column. *)
Theorem reachable_database_invariant `{!ExternalsLaws X} m contents db :
  represents m contents -> keys_unique m -> reachable contents db -> db_inv db.
Proof. apply reachable_inv. Qed.

(** ** Commit *)

Lemma commit_transaction_Ok db db' :
  commit_transaction db = (Ok (), db') ->
  exists tx contents contents',
    transaction db = Some tx /\ conn db = Some contents /\ tx_commit tx contents = Ok contents' /\
    conn db' = Some contents' /\ transaction db' = None.
Proof.
  unfold commit_transaction. destruct (transaction db) as [tx|]; [|done].
  unfold get_conn. destruct (conn db) as [c|]; [|done]. cbn.
  destruct (tx_commit tx c) as [c'| |] eqn:Hc; [|done..]. intros [= <-]. by exists tx, c, c'.
Qed.

Lemma commit_transaction_get `{!ExternalsLaws X} db db' ty pk :
  db_inv db -> commit_transaction db = (Ok (), db') -> keyed ty = true -> pk_ok ty pk ->
  get ty pk db' = get ty pk db.
Proof.
  intros (_ & Hok & Hm) (tx & c & c' & Htx & Hconn & Hc & Hconn' & Htx')%commit_transaction_Ok Hk Hpk.
  destruct (Hm c Hconn) as (m & Hrep & _). rewrite tx_commit_eq in Hc.
  unfold get, get_conn. rewrite Htx, Htx', Hconn, Hconn'. cbn.
  rewrite (commit_get tx _ _ m c c' ty pk (Hok tx Htx) (reflexivity _) (reflexivity _)) by done.
  by destruct (tx_get ty pk tx).
Qed.

(** The [WHERE] clause of an entity with a string key matches no row. *)
Lemma string_keyed_entity_get `{!ExternalsLaws X} m contents ty pk :
  represents m contents -> string_keyed ty = true -> pk_ok ty pk -> entity_get ty pk contents = Ok None.
Proof.
  intros Hrep Hty Hpk. rewrite (entity_get_refines m) by done. unfold store_get.
  destruct ty; try done; cbn; by rewrite filter_none.
Qed.

(** C2: what [get] returns after a transaction is committed.  For the eleven types found by
    their key (HPKE private keys, key packages, encryption key pairs, those of an epoch,
    credentials, buffered commits, groups, enrollments, the ACME trust anchor, prekeys and
    consumer data) it is what a reader inside the transaction saw, its own saves and removals
    included.  For the three types with a string key (intermediate certificates, revocation
    lists, Proteus sessions) it is nothing, and for pre-shared keys an error, whatever the
    transaction saw. *)
Theorem commit_transaction_preserves_get `{!ExternalsLaws X} db db' ty pk :
  db_inv db -> commit_transaction db = (Ok (), db') -> pk_ok ty pk ->
  (keyed ty = true -> get ty pk db' = get ty pk db) /\
  (string_keyed ty = true -> get ty pk db' = Ok None) /\
  (ty = EntityType.PskBundle -> get ty pk db' = Err (KeystoreError.DbError (NoSuchColumn "id"))).
Proof.
  intros Hdb Hc Hpk. split; [intros Hk; by apply commit_transaction_get|].
  destruct (db_inv_step db (Ok ()) db' Hdb) as (_ & _ & Hm); [by apply step_commit|].
  apply commit_transaction_Ok in Hc as (_ & _ & c & _ & _ & _ & Hconn & Htx).
  destruct (Hm c Hconn) as (m & Hrep & _). unfold get, get_conn. rewrite Htx, Hconn. cbn -[entity_get]. split.
  - intros Hk. by rewrite (string_keyed_entity_get m).
  - intros ->. by rewrite (entity_get_refines m).
Qed.

(** Committing a transaction does not change what [load_all] returns, up to
    order, for the same types. *)
Theorem commit_transaction_preserves_load_all `{!ExternalsLaws X} db db' ty :
  db_inv db -> commit_transaction db = (Ok (), db') -> keyed ty = true ->
  exists inside after, load_all ty db = Ok inside /\ load_all ty db' = Ok after /\ inside ≡ₚ after.
Proof.
  intros (_ & Hok & Hm) (tx & c & c' & Htx & Hconn & Hc & Hconn' & Htx')%commit_transaction_Ok Hk.
  destruct (Hm c Hconn) as (m & Hrep & Hu). rewrite tx_commit_eq in Hc.
  destruct (commit_load_all tx _ _ m c c' ty (Hok tx Htx) (reflexivity _) (reflexivity _))
    as (persisted & inside & after & Hp & Hi & Ha & Hperm); [done..|].
  exists inside, after. unfold load_all, merged_read, get_conn.
  rewrite Htx, Htx', Hconn, Hconn'. cbn. by rewrite Hp, Ha.
Qed.

(** The iteration order of the cache and of the deletion set is irrelevant: if
    one order commits then so does any other, and every key of a keyed type reads
    the same in the two resulting databases. *)
Theorem commit_order_irrelevant `{!ExternalsLaws X} tx m db s1 s2 d1 d2 db1 :
  tx_ok tx -> represents m db ->
  s1 ≡ₚ cached_entities tx -> s2 ≡ₚ cached_entities tx ->
  d1 ≡ₚ elements (deleted tx) -> d2 ≡ₚ elements (deleted tx) ->
  commit_in_order s1 d1 db = Ok db1 ->
  exists db2, commit_in_order s2 d2 db = Ok db2 /\
    forall ty pk, keyed ty = true -> pk_ok ty pk -> entity_get ty pk db1 = entity_get ty pk db2.
Proof.
  intros Hok Hrep Hs1 Hs2 Hd1 Hd2 H1.
  assert (is_ok (commit_in_order s2 d2 db) = true) as [db2 H2]%is_ok_Ok.
  { rewrite (commit_ok_iff tx s2 d2 m), <- (commit_ok_iff tx s1 d1 m), H1; done. }
  exists db2. split; [done|]. intros ty pk Hk Hpk.
  rewrite (commit_get tx s1 d1 m db db1), (commit_get tx s2 d2 m db db2); done.
Qed.

(** ** Failed commit and rollback *)

(** A commit that fails changes nothing: the persisted tables are as before,
    and the transaction is still in progress, so that no other one can start until
    somebody rolls it back. *)
Theorem failed_commit_keeps_transaction db r db' :
  db_inv db -> transaction db <> None -> commit_transaction db = (r, db') -> is_ok r = false ->
  db' = db /\ new_transaction db' = None /\
  try_new_immediate_transaction db' = (Err KeystoreError.TransactionInProgress, db') /\
  exists db'', rollback_transaction db' = (Ok (), db'') /\ conn db'' = conn db /\ new_transaction db'' <> None.
Proof.
  intros (Hp & _) Htx Hc Hr. unfold commit_transaction in Hc.
  destruct (transaction db) as [tx|] eqn:Ht; [|done].
  assert (db' = db) as ->.
  { destruct (contents ← get_conn db; tx_commit tx contents); injection Hc as <- <-; done. }
  unfold tx_count in Hp. rewrite Ht in Hp. assert (permits db = 0) as Hzero.
  { unfold ALLOWED_CONCURRENT_TRANSACTIONS_COUNT in Hp. lia. }
  unfold new_transaction at 1, try_new_immediate_transaction, rollback_transaction. rewrite Hzero, Ht.
  split; [done|]. split; [done|]. split; [done|].
  eexists. split; [reflexivity|]. split; [done|].
  unfold new_transaction, set_transaction; cbn. rewrite Ht, Hzero. done.
Qed.

(** Writes of a transaction. *)
Inductive writes : Database -> Database -> Prop :=
  | writes_refl db : writes db db
  | writes_save db clock e r db1 db2 : save clock e db = (r, db1) -> writes db1 db2 -> writes db db2
  | writes_remove db ty pk r db1 db2 : remove ty pk db = (r, db1) -> writes db1 db2 -> writes db db2
  | writes_remove_pending db cid r db1 db2 :
      remove_pending_messages_by_conversation_id cid db = (r, db1) -> writes db1 db2 -> writes db db2.

Lemma with_transaction_frame {A} (f : KeystoreTransaction -> kres (A * KeystoreTransaction)) db r db' :
  with_transaction f db = (r, db') ->
  conn db' = conn db /\ permits db' = permits db /\ tx_count db' = tx_count db.
Proof.
  unfold with_transaction, tx_count. destruct (transaction db) as [tx|] eqn:Htx.
  - destruct (f tx) as [[a tx']| |]; intros [= _ <-]; rewrite ?Htx; done.
  - intros [= _ <-]. by rewrite Htx.
Qed.

Lemma writes_frame db db' :
  writes db db' -> conn db' = conn db /\ permits db' = permits db /\ tx_count db' = tx_count db.
Proof.
  induction 1 as [|db ? ? ? db1 db2 H _ IH|db ? ? ? db1 db2 H _ IH|db ? ? db1 db2 H _ IH];
    [done|apply with_transaction_frame in H; intuition congruence..].
Qed.

(** Rolling back restores the database exactly: after any sequence of writes
    in a new transaction, [rollback_transaction] succeeds and gives back the state
    from before [new_transaction]. *)
Theorem rollback_restores db db1 db2 :
  transaction db = None -> new_transaction db = Some db1 -> writes db1 db2 ->
  rollback_transaction db2 = (Ok (), db).
Proof.
  intros Htx Hn (Hconn & Hp & Ht)%writes_frame. unfold new_transaction in Hn. case_decide; [|done].
  injection Hn as <-. unfold rollback_transaction. unfold tx_count in Ht. cbn in Ht, Hconn, Hp.
  destruct (transaction db2) as [tx|] eqn:Htx2; [|done].
  rewrite Htx in Hp. unfold set_transaction. rewrite Hconn, Hp, Htx2. destruct db; cbn in *. subst.
  do 2 f_equal. lia.
Qed.

(** ** Reading one's own writes *)

(** Inside a transaction a [save] is visible to the next [get] of its key, with
    the generated fields, and a [remove] hides the key, whatever the type. *)
Theorem reads_own_writes `{!ExternalsLaws X} db clock e auto db1 ty pk r db2 :
  db_inv db -> clock_ok clock -> entity_ok e -> save clock e db = (Ok auto, db1) ->
  remove ty pk db = (r, db2) ->
  (exists e', pre_save clock e = Ok (auto, e') /\
     get (Entity.typ e) (primary_key e) db1 = Ok (Some e')) /\
  get ty pk db2 = Ok None.
Proof.
  intros (_ & Hok & _) Hclock He. unfold save, remove, with_transaction.
  destruct (transaction db) as [tx|] eqn:Htx; [|done]. pose proof (Hok tx eq_refl) as Htxok.
  intros Hs Hr. split.
  - destruct (tx_save clock e tx) as [[auto' tx']| |] eqn:Es; [|done..]. injection Hs as <- <-.
    pose proof Es as E. rewrite tx_save_eq in Es. apply bind_Ok in Es as ([a e'] & Hpre & [= <- <-]).
    exists e'. split; [done|]. destruct (pre_save_ok _ _ _ _ Hclock He Hpre) as [_ Hid].
    unfold get; cbn. rewrite tx_get_eq by (by eapply tx_save_preserves).
    change (EntityId.MkId (Entity.typ e) (pk_bytes (primary_key e))) with (EntityId.of_entity e).
    rewrite <- Hid. cbn zeta. rewrite decide_False by set_solver.
    rewrite tx_cached_save, decide_True by done. done.
  - rewrite tx_remove_eq in Hr. injection Hr as <- <-. unfold get; cbn.
    rewrite tx_get_eq by (by eapply (remove_by_entity_id_preserves (EntityId.MkId ty (pk_bytes pk)))).
    cbn zeta. rewrite decide_True by set_solver. done.
Qed.
(** Inside a transaction [load_all] returns the records that [get] finds. *)
Lemma load_all_elem `{!ExternalsLaws X} db ty :
  db_inv db -> transaction db <> None -> conn db <> None -> keyed ty = true ->
  exists l, load_all ty db = Ok l /\
    forall e, e ∈ l <-> Entity.typ e = ty /\ entity_ok e /\ get ty (primary_key e) db = Ok (Some e).
Proof.
  intros (_ & Hok & Hm) Htx Hconn Hk. destruct (transaction db) as [tx|] eqn:Ht; [|done].
  destruct (conn db) as [c|] eqn:Hc; [|done]. destruct (Hm c eq_refl) as (m & Hrep & Hu).
  specialize (Hok tx eq_refl). destruct (Hrep ty) as [_ Htab].
  exists (merge_records (cached_of ty tx) (m ty) tx). split.
  { unfold load_all, merged_read, get_conn. rewrite Hc, Ht. cbn. rewrite (entity_load_all_refines m) by done. cbn.
    unfold tx_find_all. by rewrite find_all_in_cache_cached. }
  intros e. rewrite find_all_elem by done.
  assert (entity_ok e -> Entity.typ e = ty -> get ty (primary_key e) db =
    Ok (if decide (EntityId.of_entity e ∈ deleted tx) then None
        else match tx_cached tx (EntityId.of_entity e) with
             | Some e' => Some e' | None => lookup_key m (EntityId.of_entity e) end)) as Hget.
  { intros He Hte. unfold get, get_conn. rewrite Hc, Ht. cbn [mbind option_bind]. rewrite tx_get_eq by done.
    rewrite <- Hte. fold (EntityId.of_entity e). cbn zeta. case_decide; [done|].
    destruct (tx_cached tx _); [done|]. cbn. rewrite (entity_get_refines m) by (done || by apply primary_key_ok).
    rewrite store_get_lookup by by rewrite Hte. rewrite store_prepare_entity by (by rewrite ?Hte). done. }
  split; [|intros (Hte & He & Hg); split; [done|]; rewrite Hget in Hg by done; congruence].
  intros [Hte Hs]. assert (entity_ok e) as He.
  { case_decide; [done|]. destruct (tx_cached tx _) as [e'|] eqn:Hcached.
    - injection Hs as ->. by eapply tx_cached_ok in Hcached as [_ ?].
    - apply lookup_key_elem in Hs; [|done|rewrite Hte; by apply andb_true_iff in Hk as [? _]].
      rewrite Hte in Hs. unfold table_ok in Htab. rewrite Forall_forall in Htab. by apply Htab. }
  split; [done|]. split; [done|]. rewrite Hget by done. by f_equal.
Qed.

(** A record is found under its own key. *)
Lemma get_filed `{!ExternalsLaws X} db ty pk e :
  db_inv db -> keyed ty = true -> pk_ok ty pk -> get ty pk db = Ok (Some e) ->
  Entity.typ e = ty /\ entity_ok e /\ primary_key e = pk.
Proof.
  intros (_ & Hok & Hm) Hk Hpk.
  assert (entity_ok e -> EntityId.of_entity e = EntityId.MkId ty (pk_bytes pk) ->
    Entity.typ e = ty /\ entity_ok e /\ primary_key e = pk) as Hdone.
  { intros He [= Ht Hb]. split; [done|]. split; [done|]. apply (pk_bytes_inj ty); [|done..].
    rewrite <- Ht. by apply primary_key_ok. }
  assert (forall c, conn db = Some c -> entity_get ty pk c = Ok (Some e) ->
    entity_ok e /\ EntityId.of_entity e = EntityId.MkId ty (pk_bytes pk)) as Hsql.
  { intros c Hc. destruct (Hm c Hc) as (m & Hrep & _). rewrite (entity_get_refines m), store_get_lookup by done.
    destruct (store_prepare ty pk); cbn; [|done..]. intros [= Hl]. unfold lookup_key in Hl. cbn in Hl.
    apply head_Some_elem_of, list_elem_of_filter in Hl as [Hkey He]. destruct (Hrep ty) as [_ Htab].
    unfold table_ok in Htab. rewrite Forall_forall in Htab. destruct (Htab e He) as [Hty Heok].
    split; [done|]. unfold EntityId.of_entity. by rewrite Hty, <- Hkey. }
  unfold get, get_conn. destruct (transaction db) as [tx|] eqn:Ht; cbn [mbind option_bind].
  - rewrite tx_get_eq by auto. cbn zeta. case_decide; [done|].
    destruct (tx_cached tx _) as [e'|] eqn:Hcached; cbn.
    + intros [= ->]. destruct (tx_cached_ok _ _ _ (Hok _ eq_refl) Hcached). auto.
    + destruct (conn db) as [c|]; [|done]. cbn. intros Hg. apply Hdone; by eapply Hsql.
  - destruct (conn db) as [c|]; [|done]. cbn. intros Hg. apply Hdone; by eapply Hsql.
Qed.
End invariant.

(** ** A run of the model *)

Definition demo_group : Entity.t :=
  Entity.PersistedMlsGroup
    {| group_id := bstr "group"; group_state := bstr "epoch 1"; group_parent_id := None |}.
Definition demo_group_key : PrimaryKey := PkVec {| vec_bytes := bstr "group" |}.

Definition demo_open : Database := open ∅.
Definition demo_started : Database := default demo_open (new_transaction demo_open).
Definition demo_saved : Database := snd (save None demo_group demo_started).
Definition demo_committed : Database := snd (commit_transaction demo_saved).

Lemma demo_keys_unique : keys_unique empty_store.
Proof. intros ty _. constructor. Qed.

Lemma demo_saved_reachable : reachable ∅ demo_saved.
Proof.
  eapply (reachable_step _ demo_started); [eapply (reachable_step _ demo_open); [constructor|]|].
  - by apply step_new.
  - eapply (step_save _ None demo_group); [done|done|apply surjective_pairing].
Qed.

Lemma demo_saved_inv : db_inv demo_saved.
Proof.
  apply (reachable_inv empty_store ∅);
    [apply represents_empty|apply demo_keys_unique|apply demo_saved_reachable].
Qed.

Lemma reachable_database_invariant_witness : db_inv demo_saved.
Proof.
  apply (reachable_database_invariant empty_store ∅ demo_saved);
    [apply represents_empty|apply demo_keys_unique|apply demo_saved_reachable].
Defined.

Lemma commit_transaction_preserves_get_witness :
  get EntityType.PersistedMlsGroup demo_group_key demo_committed = Ok (Some demo_group).
Proof.
  transitivity (get EntityType.PersistedMlsGroup demo_group_key demo_saved); [|vm_compute; reflexivity].
  apply (commit_transaction_preserves_get demo_saved demo_committed);
    [apply demo_saved_inv|vm_compute; reflexivity|exact I|reflexivity].
Defined.

Lemma commit_transaction_preserves_load_all_witness :
  exists inside after, load_all EntityType.PersistedMlsGroup demo_saved = Ok inside /\
    load_all EntityType.PersistedMlsGroup demo_committed = Ok after /\ inside ≡ₚ after.
Proof.
  apply commit_transaction_preserves_load_all; [apply demo_saved_inv|vm_compute; reflexivity|reflexivity].
Defined.

(** A second save, and the removal of a pre-shared key. *)
Definition demo_commit : Entity.t :=
  Entity.StoredBufferedCommit {| bc_conversation_id := bstr "group"; bc_commit_data := bstr "commit" |}.
Definition demo_two : Database := snd (save None demo_commit demo_saved).
Definition demo_two_tx : KeystoreTransaction := default tx_new (transaction demo_two).
Definition demo_psk_key : PrimaryKey := PkVec {| vec_bytes := bstr "psk" |}.
Definition demo_psk_removed : Database := snd (remove EntityType.PskBundle demo_psk_key demo_saved).

Lemma demo_two_tx_ok : tx_ok demo_two_tx.
Proof.
  assert (db_inv demo_two) as (_ & Hok & _); [|by apply Hok].
  eapply db_inv_step; [apply demo_saved_inv|].
  by eapply (step_save _ None demo_commit); [| |apply surjective_pairing].
Qed.

Lemma demo_psk_removed_inv : db_inv demo_psk_removed.
Proof.
  eapply db_inv_step; [apply demo_saved_inv|]. eapply step_remove. apply surjective_pairing.
Qed.

Lemma commit_order_irrelevant_witness :
  exists db2, commit_in_order (rev (cached_entities demo_two_tx)) [] ∅ = Ok db2 /\
    forall ty pk, keyed ty = true -> pk_ok ty pk ->
      entity_get ty pk (default ∅ (conn (snd (commit_transaction demo_two)))) = entity_get ty pk db2.
Proof.
  apply (commit_order_irrelevant demo_two_tx empty_store ∅ (cached_entities demo_two_tx) _ [] []).
  - apply demo_two_tx_ok.
  - apply represents_empty.
  - reflexivity.
  - symmetry. apply Permutation_rev.
  - vm_compute. constructor.
  - vm_compute. constructor.
  - vm_compute. reflexivity.
Defined.

Lemma failed_commit_keeps_transaction_witness :
  new_transaction (snd (commit_transaction demo_psk_removed)) = None.
Proof.
  refine (proj1 (proj2 (failed_commit_keeps_transaction demo_psk_removed
           (fst (commit_transaction demo_psk_removed)) (snd (commit_transaction demo_psk_removed))
           demo_psk_removed_inv _ _ _))).
  - intros Hnone. assert (tx_count demo_psk_removed = 1) as Hc by (vm_compute; reflexivity).
    unfold tx_count in Hc. by rewrite Hnone in Hc.
  - apply surjective_pairing.
  - vm_compute. reflexivity.
Defined.

Lemma rollback_restores_witness : rollback_transaction demo_saved = (Ok (), demo_open).
Proof.
  apply (rollback_restores demo_open demo_started demo_saved); [reflexivity|reflexivity|].
  eapply (writes_save demo_started None demo_group); [apply surjective_pairing|constructor].
Defined.

Lemma reads_own_writes_witness :
  (exists e', pre_save None demo_commit = Ok (None, e') /\
     get (Entity.typ demo_commit) (primary_key demo_commit) demo_two = Ok (Some e')) /\
  get EntityType.PskBundle demo_psk_key demo_psk_removed = Ok None.
Proof.
  assert (fst (save None demo_commit demo_saved) = Ok None) as Hs by (vm_compute; reflexivity).
  refine (reads_own_writes demo_saved None demo_commit None demo_two EntityType.PskBundle demo_psk_key
           (fst (remove EntityType.PskBundle demo_psk_key demo_saved)) demo_psk_removed
           demo_saved_inv I I _ (surjective_pairing _)).
  rewrite <- Hs. apply surjective_pairing.
Defined.
