(* ===== verification/PendingMessages.v ===== *)
(** * Buffered messages in the keystore

    What [find_pending_messages_by_conversation_id] returns inside a transaction,
    and how saving and removing change it. *)

From S2P Require Import Prelude Keys EntityTypes Entities Sql KeystoreErrors EntityStore Store Transaction TransactionInvariant TransactionCommit TransactionReads Database DatabaseProps.
From Stdlib Require Import Lia ZArith.

Section pending_messages.
Context `{X : Externals, !ExternalsLaws X}.

(** The messages of a conversation among some records. *)
Definition of_conversation (cid : bytes) (l : list Entity.t) : list Entity.t :=
  filter (fun e => pending_message_matches cid e = true) l.

Lemma pending_message_find_eq cid m contents :
  represents m contents ->
  pending_message_find_all_matching cid contents = Ok (of_conversation cid (m EntityType.MlsPendingMessage)).
Proof.
  intros Hrep. destruct (Hrep EntityType.MlsPendingMessage) as [Hrows Htab].
  unfold pending_message_find_all_matching, sql_select_where. rewrite table_schema_of, Hrows.
  cbn -[row_matches from_row EntityType.collection_name].
  rewrite (filter_map_Forall _ (pending_message_matches cid) (row_matches "id" (Blob cid)) true).
  - by rewrite mapM_from_row_stored by by apply table_ok_filter.
  - eapply Forall_impl; [exact Htab|]. intros e' [Hty _]. by apply pending_message_matches_row.
Qed.

Lemma find_pending_eq cid m contents tx p :
  tx_ok tx -> represents m contents ->
  find_pending_messages_by_conversation_id cid (MkDatabase (Some contents) (Some tx) p) =
  Ok (merge_records (of_conversation cid (cached_of EntityType.MlsPendingMessage tx))
        (of_conversation cid (m EntityType.MlsPendingMessage)) tx).
Proof.
  intros Hok Hrep. unfold find_pending_messages_by_conversation_id, merged_read, get_conn. cbn [conn transaction].
  cbn -[pending_message_find_all_matching tx_find_pending_messages].
  rewrite (pending_message_find_eq cid m) by done. cbn -[tx_find_pending_messages].
  unfold tx_find_pending_messages. by rewrite find_all_in_cache_cached.
Qed.

(** A record of the transaction is not hidden by other records. *)
Lemma merge_records_cached cached persisted tx e :
  NoDup (map entity_key cached) -> e ∈ cached -> EntityId.of_entity e ∉ deleted tx ->
  e ∈ merge_records cached persisted tx.
Proof.
  intros Hnd He Hdel. rewrite merge_records_eq. apply list_elem_of_filter. split; [done|].
  unfold unique_by. rewrite unique_by_seen_app, unique_by_seen_filter by done. apply elem_of_app. left.
  apply list_elem_of_filter. split; [apply not_elem_of_nil|done].
Qed.

(** Buffering a message: it is found afterwards. *)
Lemma save_pending_found m contents tx p pm :
  tx_ok tx -> represents m contents ->
  let e := Entity.MlsPendingMessage pm in
  exists tx', save None e (MkDatabase (Some contents) (Some tx) p) =
      (Ok None, MkDatabase (Some contents) (Some tx') p) /\ tx_ok tx' /\
    exists found, find_pending_messages_by_conversation_id (pm_foreign_id pm)
        (MkDatabase (Some contents) (Some tx') p) = Ok found /\ e ∈ found.
Proof.
  intros Hok Hrep e. unfold save, with_transaction. cbn [transaction].
  pose proof (tx_save_preserves None e tx) as Hpres. rewrite tx_save_eq in *. cbn [pre_save e mbind res_bind] in *.
  eexists. split; [reflexivity|]. specialize (Hpres _ _ I I Hok eq_refl). split; [done|].
  eexists. split; [by eapply find_pending_eq|]. apply merge_records_cached.
  - by apply NoDup_map_filter, cached_of_NoDup.
  - apply list_elem_of_filter. split; [apply bool_decide_eq_true_2; reflexivity|].
    apply cached_of_elem; [done|]. split; [done|]. rewrite tx_cached_save. by rewrite decide_True.
  - cbn [deleted]. set_solver.
Qed.

(** Removing the messages of a conversation: only persisted ones are found
    afterwards. *)
Lemma remove_pending_found cid m contents tx p :
  tx_ok tx -> represents m contents ->
  exists tx', remove_pending_messages_by_conversation_id cid (MkDatabase (Some contents) (Some tx) p) =
      (Ok (), MkDatabase (Some contents) (Some tx') p) /\ tx_ok tx' /\
    find_pending_messages_by_conversation_id cid (MkDatabase (Some contents) (Some tx') p) =
      Ok (merge_records [] (of_conversation cid (m EntityType.MlsPendingMessage)) tx').
Proof.
  intros Hok Hrep. unfold remove_pending_messages_by_conversation_id, with_transaction. cbn [transaction].
  pose proof (tx_remove_pending_messages_preserves cid tx) as Hpres.
  rewrite tx_remove_pending_messages_eq in * by done. cbn [fmap res_fmap].
  eexists. split; [reflexivity|]. specialize (Hpres _ Hok eq_refl). split; [done|].
  rewrite (find_pending_eq cid m) by done. do 2 f_equal. apply elem_of_nil_inv. intros e.
  intros [Hm [Hty Hc]%cached_of_elem]%list_elem_of_filter; [|done].
  rewrite tx_cached_remove_pending in Hc. rewrite decide_True in Hc by done.
  destruct (tx_cached tx (EntityId.of_entity e)) as [e'|]; [|done]. cbn in Hc.
  destruct (pending_message_matches cid e') eqn:Hm'; [done|]. congruence.
Qed.
End pending_messages.
