(* ===== verification/KeystoreDivergence.v ===== *)
(** * Where the transactional and the persisted view differ

    [DatabaseProps] shows that commit preserves reads for the keyed types.  This
    file shows what happens with the others: entities with a string key, which
    the [WHERE] clauses never match; pre-shared keys, whose [WHERE] clause names a
    column that does not exist; pending groups, whose table has no [UNIQUE]
    column; pending messages, which are deleted by conversation but filtered by
    message; and searches, which can return a version of a record that the
    transaction has replaced. *)

From stdpp Require Import functions.
From S2P Require Import Prelude Keys EntityTypes Entities ToyExternals Sql KeystoreErrors EntityStore Store Transaction TransactionInvariant TransactionCommit TransactionReads Database DatabaseProps PendingMessages.
From Stdlib Require Import Lia ZArith.

Section divergence.
Context `{X : Externals}.

(** One that is found is in the cache of the transaction, under its own key. *)
Lemma string_keyed_filed `{!ExternalsLaws X} db ty pk e :
  db_inv db -> string_keyed ty = true -> pk_ok ty pk -> get ty pk db = Ok (Some e) ->
  Entity.typ e = ty /\ primary_key e = pk /\ entity_ok e.
Proof.
  intros (_ & Hok & Hm) Hty Hpk. unfold get, get_conn.
  assert (forall c, conn db = Some c -> entity_get ty pk c = Ok None) as Hsql.
  { intros c Hc. destruct (Hm c Hc) as (m & Hrep & _). by eapply string_keyed_entity_get. }
  destruct (transaction db) as [tx|] eqn:Ht; cbn [mbind option_bind].
  - rewrite tx_get_eq by auto. cbn zeta. case_decide; [done|].
    destruct (tx_cached tx _) as [e'|] eqn:Hcached; cbn.
    + intros [= ->]. destruct (tx_cached_ok _ _ _ (Hok _ eq_refl) Hcached) as [[= <- Hb] He].
      split; [done|]. split; [|done]. apply (pk_bytes_inj (Entity.typ e)); [by apply primary_key_ok|done..].
    + destruct (conn db) as [c|]; [|done]. cbn. by rewrite Hsql.
  - destruct (conn db) as [c|]; [|done]. cbn. by rewrite Hsql.
Qed.

(** An intermediate certificate, a CRL or a Proteus session is never found by
    its key once no transaction is in progress, and deleting it by its key deletes
    nothing: the id is stored as [TEXT] and looked up as [BLOB]. *)
Theorem string_keyed_never_found `{!ExternalsLaws X} db contents ty pk :
  db_inv db -> transaction db = None -> conn db = Some contents ->
  string_keyed ty = true -> pk_ok ty pk ->
  get ty pk db = Ok None /\
  exists contents', entity_delete ty pk contents = Ok (false, contents') /\
    entity_load_all ty contents' = entity_load_all ty contents.
Proof.
  intros (_ & _ & Hm) Htx Hconn Hty Hpk. destruct (Hm _ Hconn) as (m & Hrep & _). split.
  - unfold get, get_conn. rewrite Htx, Hconn. cbn -[entity_get]. by apply (string_keyed_entity_get m).
  - pose proof (entity_delete_refines m contents ty pk Hrep Hpk) as Hsim.
    assert (store_delete ty pk m = Ok (false, <[ty := m ty]> m)) as Hdel.
    { unfold store_delete. destruct ty; try done; cbn; rewrite filter_none, filter_all; done. }
    rewrite Hdel in Hsim. apply res_sim_ok_l in Hsim as ([b c'] & Hd & [Hb Hrep']). cbn in Hb. subst b.
    exists c'. split; [done|].
    rewrite (entity_load_all_refines _ _ _ Hrep'), (entity_load_all_refines _ _ _ Hrep). cbn [snd].
    by rewrite fn_lookup_insert.
Qed.

(** A pre-shared key can be written but never read back or deleted: outside
    the cache of the transaction that saved it, [get] fails, and a transaction
    that removes one cannot commit. *)
Theorem psk_bundle_statements_fail `{!ExternalsLaws X} db contents tx pk :
  db_inv db -> conn db = Some contents -> transaction db = Some tx ->
  pk_ok EntityType.PskBundle pk ->
  entity_get EntityType.PskBundle pk contents = Err (KeystoreError.DbError (NoSuchColumn "id")) /\
  is_ok (fst (commit_transaction (snd (remove EntityType.PskBundle pk db)))) = false.
Proof.
  intros (_ & Hok & Hm) Hconn Htx Hpk. destruct (Hm _ Hconn) as (m & Hrep & _).
  split; [by rewrite (entity_get_refines m)|].
  unfold remove, with_transaction. rewrite Htx, tx_remove_eq. cbn [fmap res_fmap].
  set (tx' := remove_by_entity_id _ _ _).
  assert (tx_ok tx') as Htx'
    by (apply (remove_by_entity_id_preserves (EntityId.MkId _ _)); by apply Hok).
  unfold commit_transaction, get_conn. cbn [transaction conn snd]. rewrite Hconn. cbn [ok_or mbind res_bind].
  rewrite tx_commit_eq.
  destruct (is_ok (commit_in_order (cached_entities tx') (elements (deleted tx')) contents)) eqn:Hc.
  - rewrite (commit_ok_iff tx' _ _ m) in Hc by done. destruct Hc as [_ Hdel].
    rewrite Forall_forall in Hdel.
    assert (deletable (EntityId.MkId EntityType.PskBundle (pk_bytes pk))) as Hbad.
    { apply Hdel, elem_of_elements. cbn. set_solver. }
    unfold deletable, store_execute_delete, EntityId.primary_key in Hbad. cbn in Hbad. done.
  - by destruct (commit_in_order _ _ _).
Qed.

(** After [remove_pending_messages_by_conversation_id] the messages of the
    conversation that are already persisted are still returned by
    [find_pending_messages_by_conversation_id] in the same transaction, unless a
    deletion mark happens to equal the hash of the message. *)
Theorem removed_pending_messages_still_found `{!ExternalsLaws X} db contents tx cid db' m e :
  db_inv db -> conn db = Some contents -> transaction db = Some tx -> represents m contents ->
  remove_pending_messages_by_conversation_id cid db = (Ok (), db') ->
  e ∈ m EntityType.MlsPendingMessage -> pending_message_matches cid e = true ->
  EntityId.of_entity e ∉ {[EntityId.MkId EntityType.MlsPendingMessage cid]} ∪ deleted tx ->
  exists found, find_pending_messages_by_conversation_id cid db' = Ok found /\ exists e', e' ∈ found /\ entity_key e' = entity_key e.
Proof.
  intros (_ & Hok & _) Hconn Htx Hrep Hr He Hmatch Hmark. pose proof (Hok tx Htx) as Htxok.
  unfold remove_pending_messages_by_conversation_id, with_transaction in Hr. rewrite Htx in Hr.
  pose proof (tx_remove_pending_messages_preserves cid tx) as Hpres.
  rewrite tx_remove_pending_messages_eq in Hr, Hpres by done. cbn [fmap res_fmap] in Hr.
  injection Hr as <-. specialize (Hpres _ Htxok eq_refl).
  set (tx' := MkTx _ _) in *. rewrite Hconn, (find_pending_eq cid m) by done. unfold of_conversation.
  eexists. split; [reflexivity|]. rewrite merge_records_eq.
  destruct (unique_by_covers entity_key
    (filter (fun e => pending_message_matches cid e = true) (cached_of EntityType.MlsPendingMessage tx') ++
     filter (fun e => pending_message_matches cid e = true) (m EntityType.MlsPendingMessage)) e)
    as (e' & He' & Hk).
  { apply elem_of_app. right. by apply list_elem_of_filter. }
  exists e'. split; [|done]. apply list_elem_of_filter. split; [|done].
  assert (pending_message_matches cid e' = true) as Hm'.
  { apply unique_by_seen_elem, elem_of_app in He' as [H|H]; by apply list_elem_of_filter in H as [? _]. }
  assert (EntityId.of_entity e' = EntityId.of_entity e) as ->; [|done].
  unfold EntityId.of_entity. fold (entity_key e) (entity_key e'). rewrite Hk.
  by destruct e, e'.
Qed.

(** Saving only appends to the table of pending groups. *)
Lemma lookup_pending_group_saves saves m m' k e :
  lookup_key m (EntityId.MkId EntityType.PersistedMlsPendingGroup k) = Some e ->
  for_each store_execute_save saves m = Ok m' ->
  lookup_key m' (EntityId.MkId EntityType.PersistedMlsPendingGroup k) = Some e.
Proof.
  revert m. induction saves as [|e1 l IH]; intros m Hl; cbn [for_each]; [by intros [= <-]|].
  intros (m1 & Hs & Hrest)%bind_Ok. apply (IH m1); [|done]. rewrite <- Hl.
  destruct (decide (Entity.typ e1 = EntityType.PersistedMlsPendingGroup)) as [Ht|Ht].
  - assert (store_execute_save e1 m = Ok (<[EntityType.PersistedMlsPendingGroup :=
      m EntityType.PersistedMlsPendingGroup ++ [e1]]> m)) as Happ.
    { destruct e1; try done. cbn. by rewrite filter_all. }
    rewrite Happ in Hs. injection Hs as <-. unfold lookup_key in *; cbn [EntityId.typ EntityId.id] in *.
    rewrite fn_lookup_insert, filter_app. by destruct (filter _ (m _)).
  - assert (forall m2, store_save e1 m2 = Ok m1 ->
      m1 EntityType.PersistedMlsPendingGroup = m2 EntityType.PersistedMlsPendingGroup) as Hsv.
    { intros m2. unfold store_save. repeat case_match; intros [= <-]; by rewrite fn_lookup_insert_ne. }
    unfold lookup_key; cbn [EntityId.typ]. f_equal. f_equal.
    destruct e1; cbn [store_execute_save] in Hs; try (by apply Hsv);
      apply bind_Ok in Hs as ([b m2] & (_ & _ & [= _ <-])%bind_Ok & Hs);
      rewrite (Hsv _ Hs); by rewrite fn_lookup_insert_ne.
Qed.

Lemma lookup_pending_group_deletes deletes m m' k :
  EntityId.MkId EntityType.PersistedMlsPendingGroup k ∉ deletes ->
  for_each (fun i m => snd <$> store_execute_delete i m) deletes m = Ok m' ->
  lookup_key m' (EntityId.MkId EntityType.PersistedMlsPendingGroup k) =
  lookup_key m (EntityId.MkId EntityType.PersistedMlsPendingGroup k).
Proof.
  revert m. induction deletes as [|[ty id] l IH]; intros m Hnot; cbn [for_each]; [by intros [= <-]|].
  apply not_elem_of_cons in Hnot as [Hd Hnot].
  intros (m1 & ([b m2] & Hdel & ->)%fmap_Ok & Hrest)%bind_Ok. rewrite (IH _ Hnot Hrest). cbn [snd].
  destruct (decide (ty = EntityType.PersistedMlsPendingGroup)) as [->|Ht].
  - unfold store_execute_delete in Hdel; cbn in Hdel. injection Hdel as _ <-.
    unfold lookup_key; cbn [EntityId.typ EntityId.id]. rewrite fn_lookup_insert.
    rewrite filter_key_ne; [done|]. intros ->. by apply Hd.
  - unfold store_execute_delete, store_delete in Hdel. cbn [EntityId.typ EntityId.id] in Hdel.
    destruct ty; try done; try (injection Hdel as _ <-; by apply lookup_key_other);
      apply bind_Ok in Hdel as (pk & _ & (_ & _ & [= _ <-])%bind_Ok); by apply lookup_key_other.
Qed.

(** A pending group that is already persisted cannot be updated: its table has
    no [UNIQUE] column, so saving a new state appends a row and [get] keeps
    returning the oldest one after the commit. *)
Theorem pending_group_update_lost `{!ExternalsLaws X} db db' contents e0 pk :
  db_inv db -> conn db = Some contents -> pk_ok EntityType.PersistedMlsPendingGroup pk ->
  entity_get EntityType.PersistedMlsPendingGroup pk contents = Ok (Some e0) ->
  (forall tx, transaction db = Some tx ->
     EntityId.MkId EntityType.PersistedMlsPendingGroup (pk_bytes pk) ∉ deleted tx) ->
  commit_transaction db = (Ok (), db') ->
  get EntityType.PersistedMlsPendingGroup pk db' = Ok (Some e0).
Proof.
  intros (_ & Hok & Hm) Hconn Hpk Hget Hnd
    (tx & c & c' & Htx & Hconn1 & Hc & Hconn' & Htx')%commit_transaction_Ok.
  rewrite Hconn in Hconn1. injection Hconn1 as <-. destruct (Hm _ Hconn) as (m & Hrep & _).
  rewrite tx_commit_eq in Hc. pose proof (Hok tx Htx) as Htxok.
  destruct (commit_represents tx _ _ m contents c' Htxok (reflexivity _) Hrep Hc) as (m' & Hm' & Hrep').
  unfold get, get_conn. rewrite Htx', Hconn'. cbn -[entity_get].
  rewrite (entity_get_refines m') by done. rewrite (entity_get_refines m) in Hget by done.
  assert (forall m, store_get EntityType.PersistedMlsPendingGroup pk m =
    Ok (lookup_key m (EntityId.MkId EntityType.PersistedMlsPendingGroup (pk_bytes pk)))) as Hsg.
  { intros m0. unfold store_get, lookup_key; cbn. f_equal. f_equal. apply list_filter_iff.
    intros e. by rewrite bool_decide_eq_true. }
  rewrite Hsg in Hget |- *. injection Hget as Hget. f_equal.
  apply bind_Ok in Hm' as (m1 & Hs & Hd).
  rewrite (lookup_pending_group_deletes (elements (deleted tx)) m1 m'); [|by rewrite elem_of_elements; apply Hnd|done].
  by eapply lookup_pending_group_saves.
Qed.

End divergence.

(** ** Runs of the model *)

(** A database on which [es] were saved and committed. *)
Definition committed_with (es : list Entity.t) : Database :=
  snd (commit_transaction (foldr (fun e db => snd (save None e db)) demo_started es)).
Definition restarted (db : Database) : Database := default db (new_transaction db).

Lemma committed_with_inv es : Forall entity_ok es -> db_inv (committed_with es).
Proof.
  intros Hes. assert (db_inv (foldr (fun e db => snd (save None e db)) demo_started es)) as Hinv.
  { induction Hes as [|e es He _ IH]; cbn.
    - eapply (db_inv_step demo_open); [apply (db_inv_open empty_store ∅ represents_empty demo_keys_unique)|].
      by apply step_new.
    - eapply db_inv_step; [exact IH|]. by eapply (step_save _ None e); [| |apply surjective_pairing]. }
  eapply db_inv_step; [exact Hinv|]. eapply step_commit. apply surjective_pairing.
Qed.

Lemma restarted_inv db : db_inv db -> db_inv (restarted db).
Proof.
  intros Hinv. unfold restarted. destruct (new_transaction db) as [db'|] eqn:Hn; [|done].
  eapply db_inv_step; [exact Hinv|]. by apply step_new.
Qed.

Definition demo_crl : Entity.t :=
  Entity.E2eiCrl {| distribution_point := bstr "https://crl"; crl_content := bstr "der" |}.
Definition demo_crl_db : Database := committed_with [demo_crl].

Lemma string_keyed_never_found_witness :
  get EntityType.E2eiCrl (primary_key demo_crl) demo_crl_db = Ok None /\
  load_all EntityType.E2eiCrl demo_crl_db = Ok [demo_crl].
Proof.
  split; [|vm_compute; reflexivity].
  refine (proj1 (string_keyed_never_found demo_crl_db (default ∅ (conn demo_crl_db)) EntityType.E2eiCrl
                   (primary_key demo_crl) _ _ _ _ _)).
  - apply committed_with_inv. by repeat constructor.
  - vm_compute. reflexivity.
  - vm_compute. reflexivity.
  - reflexivity.
  - vm_compute. reflexivity.
Defined.

Lemma psk_bundle_statements_fail_witness :
  entity_get EntityType.PskBundle demo_psk_key ∅ = Err (KeystoreError.DbError (NoSuchColumn "id")).
Proof.
  refine (proj1 (psk_bundle_statements_fail demo_started ∅ tx_new demo_psk_key _ eq_refl eq_refl I)).
  apply (db_inv_new demo_open); [apply (db_inv_open empty_store ∅ represents_empty demo_keys_unique)|].
  vm_compute. lia.
Defined.

Definition demo_message : Entity.t :=
  Entity.MlsPendingMessage {| pm_foreign_id := bstr "group"; pm_message := bstr "hello" |}.
Definition demo_message_db : Database := restarted (committed_with [demo_message]).
Definition demo_message_store : Store := <[EntityType.MlsPendingMessage := [demo_message]]> empty_store.

Lemma removed_pending_messages_still_found_witness :
  exists found,
    find_pending_messages_by_conversation_id (bstr "group")
      (snd (remove_pending_messages_by_conversation_id (bstr "group") demo_message_db)) = Ok found /\
    exists e', e' ∈ found /\ entity_key e' = entity_key demo_message.
Proof.
  refine (removed_pending_messages_still_found demo_message_db
    (default ∅ (conn demo_message_db)) tx_new (bstr "group") _ demo_message_store demo_message
    (restarted_inv _ (committed_with_inv _ _)) _ _ _ _ _ _ _).
  - by repeat constructor.
  - vm_compute. reflexivity.
  - vm_compute. reflexivity.
  - intros []; (split; [vm_compute; reflexivity|by repeat constructor]).
  - vm_compute. reflexivity.
  - unfold demo_message_store. rewrite fn_lookup_insert. left.
  - vm_compute. reflexivity.
  - apply (bool_decide_unpack _). vm_compute. exact I.
Defined.

Definition demo_pending (state : string) : Entity.t :=
  Entity.PersistedMlsPendingGroup
    {| pgroup_id := bstr "group"; pgroup_state := bstr state; pgroup_parent_id := None;
       pgroup_custom_configuration := [] |}.
Definition demo_pending_db : Database :=
  snd (save None (demo_pending "new") (restarted (committed_with [demo_pending "old"]))).

Lemma pending_group_update_lost_witness :
  get EntityType.PersistedMlsPendingGroup demo_group_key demo_pending_db = Ok (Some (demo_pending "new")) /\
  get EntityType.PersistedMlsPendingGroup demo_group_key (snd (commit_transaction demo_pending_db)) =
    Ok (Some (demo_pending "old")).
Proof.
  split; [vm_compute; reflexivity|].
  refine (pending_group_update_lost demo_pending_db (snd (commit_transaction demo_pending_db))
    (default ∅ (conn demo_pending_db)) (demo_pending "old") demo_group_key _ _ _ _ _ _).
  - eapply (db_inv_step (restarted (committed_with [demo_pending "old"])));
      [apply restarted_inv, committed_with_inv; by repeat constructor|].
    by eapply (step_save _ None (demo_pending "new")); [| |apply surjective_pairing].
  - vm_compute. reflexivity.
  - exact I.
  - vm_compute. reflexivity.
  - intros tx Htx. assert (deleted <$> transaction demo_pending_db = Some ∅) as Hd by (vm_compute; reflexivity).
    rewrite Htx in Hd. injection Hd as ->. apply not_elem_of_empty.
  - vm_compute. reflexivity.
Defined.

(** A search inside a transaction can return a persisted version of a record
    that the transaction has replaced by one that no longer matches, while [get]
    returns the replacement. *)
Theorem search_returns_replaced_record :
  exists db p e e',
    db_inv db /\ search_groups p db = Ok [e] /\
    get EntityType.PersistedMlsGroup (primary_key e) db = Ok (Some e') /\
    group_matches p e = true /\ group_matches p e' = false.
Proof.
  pose (child parent := Entity.PersistedMlsGroup
    {| group_id := bstr "child"; group_state := bstr "s"; group_parent_id := parent |}).
  exists (snd (save None (child None) (restarted (committed_with [child (Some (bstr "parent"))])))),
    (bstr "parent"), (child (Some (bstr "parent"))), (child None).
  split; [|by repeat split; vm_compute; reflexivity].
  eapply (db_inv_step (restarted (committed_with [child (Some (bstr "parent"))])));
    [apply restarted_inv, committed_with_inv; by repeat constructor|].
  by eapply (step_save _ None (child None)); [| |apply surjective_pairing].
Qed.
