(* ===== verification/CredentialSearch.v ===== *)
(** * Searching for credentials

    [SearchableEntity<CredentialFindFilters> for StoredCredential] runs either a
    lookup by hash or a query with a computed [WHERE] clause, while the cache of a
    transaction is searched with [matches].  Both are the same filter over all
    stored credentials. *)

From stdpp Require Import functions.
From S2P Require Import Prelude Keys EntityTypes Entities ToyExternals Sql KeystoreErrors EntityStore Store TransactionCommit.
From Stdlib Require Import Lia ZArith Btauto.

(** The values the Rust types of the filters have; the point in time fits an [i64]. *)
Definition filters_ok (f : CredentialFindFilters) : Prop :=
  match filter_hash f with Some h => hash_ok h | None => True end /\
  match filter_earliest_validity f with Some t => (0 <= t < 2 ^ 63)%Z | None => True end.

Section credential_search.
Context `{X : Externals, !ExternalsLaws X}.

Abbreviation credentials m := (m EntityType.StoredCredential).

(** A list without repeated keys has at most one element of a key. *)
Lemma filter_key_unique k (l : list Entity.t) :
  NoDup (map entity_key l) ->
  filter (fun e => entity_key e = k) l = option_list (head (filter (fun e => entity_key e = k) l)).
Proof.
  induction l as [|e l IH]; cbn [map]; [done|]. intros [Hnotin Hnd]%NoDup_cons.
  rewrite filter_cons. case_decide as Hk; [|by apply IH]. cbn. f_equal. apply filter_none.
  intros e' He' Hk'. apply Hnotin. rewrite Hk, <- Hk'. by apply (list_elem_of_fmap_2 entity_key).
Qed.

(** Searching by something that determines the hash. *)
Lemma find_by_hash m db f h :
  represents m db -> keys_unique m -> hash_ok h ->
  (forall e, e ∈ credentials m -> credential_matches f e = true -> entity_key e = hash_bytes h) ->
  (optional ← entity_get EntityType.StoredCredential (PkSha256 h) db;
   Ok (filter (fun c => credential_matches f c = true) (option_list optional))) =
  Ok (filter (fun c => credential_matches f c = true) (credentials m)).
Proof.
  intros Hrep Hu Hh Hkey. rewrite (entity_get_refines m) by done.
  rewrite store_get_lookup by done. cbn [store_prepare mbind res_bind]. f_equal.
  unfold lookup_key; cbn [EntityId.typ EntityId.id].
  rewrite <- filter_key_unique by (by apply Hu).
  rewrite list_filter_filter. apply filter_iff_on. intros e He. split; [by intros [? _]|].
  intros Hm. split; [done|]. by apply Hkey.
Qed.

(** The computed [WHERE] clause. *)
Lemma credential_row_matches_stored f e :
  filter_hash f = None -> filter_public_key f = None ->
  Entity.typ e = EntityType.StoredCredential -> entity_ok e ->
  credential_row_matches f (stored_row e) = credential_matches f e.
Proof.
  intros Hh Hp Hty Hok. destruct e as [| | | | | |c| | | | | | | | | | |]; try discriminate.
  unfold credential_row_matches, credential_matches. rewrite Hh, Hp. cbn [is_none_or andb].
  assert (forall s, row_matches "session_id" (Blob s) (stored_row (Entity.StoredCredential c)) =
    bool_decide (s = cred_session_id c)) as Hsession.
  { intros s. cbn. apply bool_decide_ext. naive_solver. }
  assert (forall cs, row_matches "ciphersuite" (Integer cs) (stored_row (Entity.StoredCredential c)) =
    (cs =? cred_ciphersuite c)%Z) as Hcs.
  { intros cs. cbn. rewrite (bool_decide_eq_false_2 (Integer cs = Null)) by done. cbn [negb andb].
    destruct (Z.eqb_spec cs (cred_ciphersuite c)); case_bool_decide; congruence. }
  assert (forall t, bool_decide (get_unixepoch "created_at" (stored_row (Entity.StoredCredential c)) = Ok t) =
    (t =? cred_created_at c)%Z) as Hat.
  { intros t. destruct Hok as [Ht _]. unfold get_unixepoch, get_text; cbn.
    rewrite sql_unixepoch_datetime by done. cbn.
    destruct (Z.eqb_spec t (cred_created_at c)); case_bool_decide; congruence. }
  destruct (filter_ciphersuite f), (filter_earliest_validity f), (filter_session_id f);
    cbn [is_none_or]; rewrite ?Hcs, ?Hat, ?Hsession; btauto.
Qed.

(** Searching for credentials in the database returns exactly the stored
    credentials that satisfy [matches], in storage order, whichever query is run. *)
Theorem credential_search_is_filter m db f :
  represents m db -> keys_unique m -> filters_ok f ->
  credential_find_all_matching f db =
  Ok (filter (fun c => credential_matches f c = true) (credentials m)).
Proof.
  intros Hrep Hu [Hh Ht]. unfold credential_find_all_matching.
  assert (forall e, e ∈ credentials m -> Entity.typ e = EntityType.StoredCredential /\ entity_ok e) as Htab.
  { destruct (Hrep EntityType.StoredCredential) as [_ Htab]. unfold table_ok in Htab.
    by rewrite Forall_forall in Htab. }
  assert (forall e, e ∈ credentials m -> exists c, e = Entity.StoredCredential c) as Hcred.
  { intros e He. destruct (Htab e He) as [Hty _]. destruct e; try discriminate. eauto. }
  destruct (filter_hash f) as [h|] eqn:Hfh; [|destruct (filter_public_key f) as [pk|] eqn:Hfp].
  - apply find_by_hash; [done..|]. intros e He. destruct (Hcred e He) as [c ->].
    unfold credential_matches. rewrite Hfh. cbn [is_none_or].
    rewrite !andb_true_iff, bool_decide_eq_true. by intros [[[[-> _] _] _] _].
  - apply find_by_hash; [done|done|apply sha256_digest_length|].
    intros e He. destruct (Hcred e He) as [c ->].
    unfold credential_matches. rewrite Hfh, Hfp. cbn [is_none_or].
    rewrite !andb_true_iff, !bool_decide_eq_true. by intros [[[[_ ->] _] _] _].
  - cbn [fmap option_fmap option_map].
    assert (is_none_or (filter_earliest_validity f) (fun t => t <? 2 ^ 63)%Z = true) as ->.
    { destruct (filter_earliest_validity f); [|done]. cbn. apply Z.ltb_lt. apply Ht. }
    destruct (Hrep EntityType.StoredCredential) as [Hrows Hok].
    unfold sql_select. rewrite table_schema_of, Hrows. cbn -[from_row credential_row_matches].
    rewrite (filter_map_Forall _ (credential_matches f) (credential_row_matches f) true).
    + by rewrite mapM_from_row_stored by by apply table_ok_filter.
    + eapply Forall_impl; [exact Hok|]. intros e [Hty He]. by apply credential_row_matches_stored.
Qed.
End credential_search.

(** ** A run of the model *)
Definition demo_credential (pk : string) : Entity.t :=
  Entity.StoredCredential
    {| cred_session_id := bstr "alice"; cred_credential := bstr "basic"; cred_created_at := 1700000000;
       cred_ciphersuite := 1; cred_public_key := bstr pk; cred_private_key := bstr "sk" |}.
Definition demo_credential_store : Store :=
  <[EntityType.StoredCredential := [demo_credential "pk1"; demo_credential "pk2"]]> empty_store.
Definition demo_credential_tables : SqlDb :=
  {[EntityType.collection_name EntityType.StoredCredential :=
      map stored_row [demo_credential "pk1"; demo_credential "pk2"]]}.
Definition demo_filters : CredentialFindFilters :=
  {| filter_hash := None; filter_public_key := Some (bstr "pk2"); filter_session_id := Some (bstr "alice");
     filter_ciphersuite := Some 1%Z; filter_earliest_validity := None |}.

Lemma credential_search_is_filter_witness :
  credential_find_all_matching demo_filters demo_credential_tables =
  Ok (filter (fun c => credential_matches demo_filters c = true)
        (demo_credential_store EntityType.StoredCredential)) /\
  credential_find_all_matching demo_filters demo_credential_tables = Ok [demo_credential "pk2"].
Proof.
  split; [|vm_compute; reflexivity].
  apply credential_search_is_filter.
  - intros ty. destruct (decide (ty = EntityType.StoredCredential)) as [->|Hty].
    + unfold demo_credential_store. rewrite fn_lookup_insert. split; [vm_compute; reflexivity|].
      repeat constructor; vm_compute; congruence.
    + unfold demo_credential_store. rewrite fn_lookup_insert_ne by done.
      split; [by destruct ty|constructor].
  - intros ty _. unfold demo_credential_store. destruct (decide (ty = EntityType.StoredCredential)) as [->|Hty].
    + rewrite fn_lookup_insert. apply (bool_decide_unpack _). vm_compute. exact I.
    + rewrite fn_lookup_insert_ne by done. constructor.
  - by split.
Defined.
