(* ===== verification/DatabaseLocks.v ===== *)
(** * Lock protocol of the database

    Every call on a [Database] takes the mutex of the transaction slot
    ([Database.transaction]), the mutex of the connection slot ([Database.conn]) and
    the mutex inside the connection ([SqlCipherConnection.conn]) in an order that
    depends on the call.  Starting a transaction and closing the database first take
    the only permit of [Database.transaction_semaphore], which a transaction keeps
    until it is committed or rolled back.  Tasks that share a database interleave at
    these locks.  The locks inside a transaction are only taken with the transaction
    mutex held and are left out. *)

From S2P Require Import Prelude.
From Stdlib Require Import Lia.

Inductive lock : Type := LSemaphore | LTransaction | LConn | LInner.

#[export] Instance lock_eq_dec : EqDecision lock.
Proof. solve_decision. Defined.

Inductive action : Type := Acquire (l : lock) | Release (l : lock).

(** What remains to be done by a task. *)
Abbreviation program := (list action).

(** ** The lock programs of the calls *)

(** [new_transaction]: the permit goes into the transaction. *)
Definition locks_begin : program := [Acquire LSemaphore; Acquire LTransaction; Release LTransaction].

(** [save] and [remove]. *)
Definition locks_write : program := [Acquire LTransaction; Release LTransaction].

(** [commit_transaction]: the transaction mutex is held while [commit] takes the
    connection; when it succeeds the transaction is dropped, with its permit. *)
Definition locks_commit : program :=
  [Acquire LTransaction; Acquire LConn; Acquire LInner;
   Release LInner; Release LConn; Release LSemaphore; Release LTransaction].

(** [rollback_transaction]. *)
Definition locks_rollback : program := [Acquire LTransaction; Release LSemaphore; Release LTransaction].

(** [get] on a cache miss: the transaction mutex is released before the
    connection is taken. *)
Definition locks_get : program :=
  [Acquire LTransaction; Release LTransaction;
   Acquire LConn; Acquire LInner; Release LInner; Release LConn].

(** [load_all], [search], [child_groups] and
    [find_pending_messages_by_conversation_id]: the connection is still held when
    the transaction mutex is taken. *)
Definition locks_load_all : program :=
  [Acquire LConn; Acquire LInner; Release LInner;
   Acquire LTransaction; Release LTransaction; Release LConn].

(** [count] with a transaction in progress. *)
Definition locks_count : program :=
  [Acquire LTransaction; Release LTransaction] ++ locks_load_all.

(** [take], of [close] and [wipe]: the permit is held until the connection has been
    taken out. *)
Definition locks_take : program := [Acquire LSemaphore; Acquire LConn; Release LConn; Release LSemaphore].

(** ** Interleaving *)

Record system : Type := MkSystem {
  tasks : list program;
  owner : lock -> option nat;
}.

Definition start (ps : list program) : system := MkSystem ps (fun _ => None).

Definition set_owner (l : lock) (o : option nat) (f : lock -> option nat) : lock -> option nat :=
  fun l' => if decide (l' = l) then o else f l'.

Inductive lock_step : system -> system -> Prop :=
  | step_acquire s i l p :
      tasks s !! i = Some (Acquire l :: p) -> owner s l = None ->
      lock_step s (MkSystem (<[i := p]> (tasks s)) (set_owner l (Some i) (owner s)))
  | step_release s i l p :
      tasks s !! i = Some (Release l :: p) -> owner s l = Some i ->
      lock_step s (MkSystem (<[i := p]> (tasks s)) (set_owner l None (owner s))).

Definition finished (s : system) : Prop := Forall (fun p => p = []) (tasks s).
Definition deadlocked (s : system) : Prop := ~ finished s /\ forall s', ~ lock_step s s'.

(** ** Ordered programs do not deadlock *)

Definition rank (l : lock) : nat :=
  match l with LSemaphore => 0 | LTransaction => 1 | LConn => 2 | LInner => 3 end.

(** A program that holds [held] only acquires locks above those it holds, only
    releases what it holds, and ends up holding nothing. *)
Fixpoint ordered (held : list lock) (p : program) : bool :=
  match p with
  | [] => match held with [] => true | _ => false end
  | Acquire l :: p' => forallb (fun h => rank h <? rank l) held && ordered (l :: held) p'
  | Release l :: p' =>
      bool_decide (l ∈ held) && ordered (filter (fun h => h <> l) held) p'
  end.

(** Every task is ordered given what it holds, and the owners are those tasks. *)
Definition lock_inv (s : system) : Prop :=
  exists held : nat -> list lock,
    (forall i p, tasks s !! i = Some p -> ordered (held i) p = true) /\
    (forall l i, owner s l = Some i <-> l ∈ held i) /\
    (forall i, tasks s !! i = None -> held i = []).

Lemma lock_inv_start ps : Forall (fun p => ordered [] p = true) ps -> lock_inv (start ps).
Proof.
  intros Hps. exists (fun _ => []). split; [|split].
  - intros i p Hi. cbn in Hi. rewrite Forall_lookup in Hps. by eapply Hps.
  - intros l i. split; [done|]. by intros ?%not_elem_of_nil.
  - done.
Qed.

Lemma lock_inv_step s s' : lock_inv s -> lock_step s s' -> lock_inv s'.
Proof.
  intros (held & Hord & Hown & Hnone) Hstep. destruct Hstep as [s i l p Hi Hfree|s i l p Hi Ho].
  - exists (fun j => if decide (j = i) then l :: held i else held j). split; [|split]; cbn [tasks owner].
    + intros j q. destruct (decide (i = j)) as [<-|Hij].
      * rewrite list_lookup_insert_eq by (by eapply lookup_lt_Some). intros [= <-].
        rewrite decide_True by done. specialize (Hord _ _ Hi). cbn in Hord.
        by apply andb_true_iff in Hord as [_ ?].
      * rewrite list_lookup_insert_ne, decide_False by done. apply Hord.
    + intros l' j. unfold set_owner. case_decide as Hl; case_decide as Hj; subst.
      * split; [by left|done].
      * split; [by intros [= ->]|]. intros Hl%Hown. congruence.
      * rewrite Hown, elem_of_cons. naive_solver.
      * apply Hown.
    + intros j Hj. apply lookup_ge_None in Hj. rewrite length_insert in Hj.
      rewrite decide_False by (intros ->; apply lookup_lt_Some in Hi; lia).
      apply Hnone. by apply lookup_ge_None.
  - exists (fun j => if decide (j = i) then filter (fun h => h <> l) (held i) else held j).
    split; [|split]; cbn [tasks owner].
    + intros j q. destruct (decide (i = j)) as [<-|Hij].
      * rewrite list_lookup_insert_eq by (by eapply lookup_lt_Some). intros [= <-].
        rewrite decide_True by done. specialize (Hord _ _ Hi). cbn in Hord.
        by apply andb_true_iff in Hord as [_ ?].
      * rewrite list_lookup_insert_ne, decide_False by done. apply Hord.
    + intros l' j. unfold set_owner. case_decide as Hl; case_decide as Hj; subst.
      * rewrite list_elem_of_filter. naive_solver.
      * split; [done|]. intros Hl%Hown. congruence.
      * rewrite Hown, list_elem_of_filter. naive_solver.
      * apply Hown.
    + intros j Hj. apply lookup_ge_None in Hj. rewrite length_insert in Hj.
      rewrite decide_False by (intros ->; apply lookup_lt_Some in Hi; lia).
      apply Hnone. by apply lookup_ge_None.
Qed.

Lemma rank_bound l : rank l <= 3.
Proof. destruct l; cbn; lia. Qed.

(** A task waiting for a lock leads, through the owners, to one that can step. *)
Lemma ordered_progress_from n s i l p :
  lock_inv s -> tasks s !! i = Some (Acquire l :: p) -> 3 - rank l <= n ->
  exists s', lock_step s s'.
Proof.
  intros (held & Hord & Hown & Hnone). revert i l p.
  induction n as [|n IH]; intros i l p Hi Hn;
    (destruct (owner s l) as [j|] eqn:Ho; [|eexists; by eapply step_acquire]);
    pose proof (proj1 (Hown l j) Ho) as Hl;
    (destruct (tasks s !! j) as [q|] eqn:Hj;
      [|rewrite (Hnone j Hj) in Hl; by apply not_elem_of_nil in Hl]);
    pose proof (Hord j q Hj) as Hq; destruct q as [|[l'|l'] q];
    try (cbn in Hq; destruct (held j); [by apply not_elem_of_nil in Hl|done]);
    cbn in Hq; apply andb_true_iff in Hq as [Hq _].
  - rewrite forallb_forall in Hq. specialize (Hq l (proj1 (list_elem_of_In _ _) Hl)).
    apply Nat.ltb_lt in Hq. pose proof (rank_bound l'). lia.
  - eexists. eapply step_release; [done|]. apply Hown. by apply bool_decide_eq_true in Hq.
  - rewrite forallb_forall in Hq. specialize (Hq l (proj1 (list_elem_of_In _ _) Hl)).
    apply Nat.ltb_lt in Hq. apply (IH j l' q Hj). lia.
  - eexists. eapply step_release; [done|]. apply Hown. by apply bool_decide_eq_true in Hq.
Qed.

Lemma ordered_no_deadlock s : lock_inv s -> ~ deadlocked s.
Proof.
  intros Hinv [Hunf Hstuck]. apply Hunf, Forall_lookup. intros i p Hi.
  destruct p as [|[l|l] p]; [done| |]; exfalso.
  - destruct (ordered_progress_from 3 s i l p) as [s' Hs]; [done|done|lia|]. by eapply Hstuck.
  - destruct Hinv as (held & Hord & Hown & _). specialize (Hord _ _ Hi). cbn in Hord.
    apply andb_true_iff in Hord as [Hl%bool_decide_eq_true _].
    eapply Hstuck, step_release; [done|]. by apply Hown.
Qed.

(** ** The calls of the database *)

(** What a task does that starts transactions, writes and reads single entities in
    them, ends them, reads single entities outside of them, and closes the database. *)
Inductive body : program -> Prop :=
  | body_nil : body []
  | body_call call p : call = locks_write \/ call = locks_get -> body p -> body (call ++ p).

Inductive task : program -> Prop :=
  | task_nil : task []
  | task_call call p : call = locks_get \/ call = locks_take -> task p -> task (call ++ p)
  | task_transaction writes ending p :
      body writes -> ending = locks_commit \/ ending = locks_rollback -> task p ->
      task (locks_begin ++ writes ++ ending ++ p).

Lemma body_ordered writes p : body writes -> ordered [LSemaphore] (writes ++ p) = ordered [LSemaphore] p.
Proof. induction 1 as [|call q [-> | ->] _ IH]; [done|exact IH..]. Qed.

Lemma task_ordered p : task p -> ordered [] p = true.
Proof.
  induction 1 as [|call p [-> | ->] _ IH|writes ending p Hw [-> | ->] _ IH]; [done|exact IH..| |];
    (etransitivity; [exact (body_ordered _ _ Hw)|exact IH]).
Qed.

(** Any number of such tasks, in any interleaving, never deadlock: a transaction
    only waits for locks above the permit it holds. *)
Theorem transactions_never_deadlock ps s :
  Forall task ps -> rtc lock_step (start ps) s -> ~ deadlocked s.
Proof.
  intros Hps Hrtc. apply ordered_no_deadlock.
  assert (lock_inv (start ps)) as Hinv.
  { apply lock_inv_start. eapply Forall_impl; [exact Hps|apply task_ordered]. }
  clear Hps. remember (start ps) as s0. clear Heqs0.
  induction Hrtc as [|s0 s1 s2 Hs _ IH]; [done|]. apply IH. by eapply lock_inv_step.
Qed.

(** A task that commits and a task that loads a collection can block each
    other forever: the first holds the transaction and waits for the connection,
    the second holds the connection and waits for the transaction. *)
Theorem commit_load_all_deadlock :
  exists s, rtc lock_step (start [locks_begin ++ locks_commit; locks_load_all]) s /\ deadlocked s.
Proof.
  exists (MkSystem [drop 1 locks_commit; drop 3 locks_load_all]
    (set_owner LInner None (set_owner LInner (Some 1)
       (set_owner LConn (Some 1) (set_owner LTransaction (Some 0) (set_owner LTransaction None
         (set_owner LTransaction (Some 0) (set_owner LSemaphore (Some 0) (fun _ => None))))))))).
  split.
  - eapply rtc_l; [by eapply (step_acquire _ 0 LSemaphore)|].
    eapply rtc_l; [by eapply (step_acquire _ 0 LTransaction)|].
    eapply rtc_l; [by eapply (step_release _ 0 LTransaction)|].
    eapply rtc_l; [by eapply (step_acquire _ 0 LTransaction)|].
    eapply rtc_l; [by eapply (step_acquire _ 1 LConn)|].
    eapply rtc_l; [by eapply (step_acquire _ 1 LInner)|].
    eapply rtc_l; [by eapply (step_release _ 1 LInner)|]. constructor.
  - split; [intros H; by inversion H|]. intros s' Hs.
    inversion Hs as [? i l p Hi Hfree|? i l p Hi Ho]; subst; destruct i as [|[|i]]; cbn in Hi; try done;
      injection Hi as ? ?; by subst.
Qed.
