(* ===== verification/EntityKV.v ===== *)
(** * The keyed view of a database

    What the clients of the keystore rely on while a transaction is in progress:
    a map from entity ids to entities that can be read, written and removed.  The
    clients are verified against this interface; [Database] implements it. *)

From S2P Require Import Prelude Keys EntityTypes Entities Sql KeystoreErrors EntityStore Store Transaction TransactionInvariant TransactionCommit Database DatabaseProps.
From Stdlib Require Import Lia ZArith.

(** The operations. *)
Class EntityKV (D : Type) : Type := {
  kv_get : EntityType.t -> PrimaryKey -> D -> kres (option Entity.t);
  kv_save : option Z -> Entity.t -> D -> kres (option Z) * D;
  kv_remove : EntityType.t -> PrimaryKey -> D -> kres unit * D;
  kv_load_all : EntityType.t -> D -> kres (list Entity.t);
}.

(** Their laws, on the states [inv] in which a transaction is in progress. *)
Class EntityKVLaws `{X : Externals} (D : Type) `{!EntityKV D} (inv : D -> Prop) : Prop := {
  kv_save_total clock e d auto e' :
    inv d -> clock_ok clock -> entity_ok e -> pre_save clock e = Ok (auto, e') ->
    exists d', kv_save clock e d = (Ok auto, d') /\ inv d' /\
      forall ty pk, pk_ok ty pk ->
        kv_get ty pk d' =
        if decide (EntityId.MkId ty (pk_bytes pk) = EntityId.of_entity e)
        then Ok (Some e') else kv_get ty pk d;
  kv_remove_total ty pk d :
    inv d ->
    exists d', kv_remove ty pk d = (Ok (), d') /\ inv d' /\
      forall ty' pk', pk_ok ty' pk' ->
        kv_get ty' pk' d' =
        if decide (EntityId.MkId ty' (pk_bytes pk') = EntityId.MkId ty (pk_bytes pk))
        then Ok None else kv_get ty' pk' d;
}.

(** ** The database with a transaction in progress *)

#[export] Instance database_kv `{X : Externals} : EntityKV Database := {|
  kv_get := get; kv_save := save; kv_remove := remove; kv_load_all := load_all
|}.

Definition in_transaction `{X : Externals} (db : Database) : Prop :=
  db_inv db /\ transaction db <> None.

#[export] Instance database_kv_laws `{X : Externals, !ExternalsLaws X} :
  EntityKVLaws Database in_transaction.
Proof.
  split.
  - intros clock e db auto e' [Hinv Htx] Hclock He Hpre. cbn [kv_save kv_get database_kv].
    destruct (transaction db) as [tx|] eqn:Ht; [|done].
    assert (save clock e db = (Ok auto, MkDatabase (conn db) (Some (MkTx
      (<[EntityType.collection_name (Entity.typ e') := <[EntityId.of_entity e' := e']>
        (default ∅ (cache tx !! EntityType.collection_name (Entity.typ e')))]> (cache tx))
      (deleted tx ∖ {[EntityId.of_entity e']}))) (permits db))) as Hsave.
    { unfold save, with_transaction. by rewrite Ht, tx_save_eq, Hpre. }
    rewrite Hsave. eexists. split; [reflexivity|].
    assert (db_inv _) as Hinv' by (eapply db_inv_step; [exact Hinv|by eapply step_save]).
    split; [done|]. intros ty pk Hpk. unfold get; cbn [transaction conn get_conn]. rewrite Ht.
    destruct Hinv as (_ & Hok & _), Hinv' as (_ & Hok' & _).
    specialize (Hok tx Ht). specialize (Hok' _ eq_refl). cbn [mbind option_bind].
    destruct (pre_save_ok _ _ _ _ Hclock He Hpre) as [_ Hid]. rewrite <- Hid.
    rewrite !tx_get_eq by done. cbn zeta. rewrite tx_cached_save. cbn [deleted].
    destruct (decide (EntityId.MkId ty (pk_bytes pk) = EntityId.of_entity e')) as [->|Hne].
    + rewrite decide_False by set_solver. done.
    + rewrite (decide_ext _ (EntityId.MkId ty (pk_bytes pk) ∈ deleted tx)) by set_solver. done.
  - intros ty pk db [Hinv Htx]. cbn [kv_remove kv_get database_kv].
    destruct (transaction db) as [tx|] eqn:Ht; [|done].
    assert (remove ty pk db = (Ok (), MkDatabase (conn db)
      (Some (remove_by_entity_id ty (EntityId.MkId ty (pk_bytes pk)) tx)) (permits db))) as Hrem.
    { unfold remove, with_transaction. by rewrite Ht, tx_remove_eq. }
    rewrite Hrem. eexists. split; [reflexivity|].
    assert (db_inv _) as Hinv' by (eapply db_inv_step; [exact Hinv|by eapply step_remove]).
    split; [done|]. intros ty' pk' Hpk'. unfold get; cbn [transaction conn get_conn]. rewrite Ht.
    destruct Hinv as (_ & Hok & _), Hinv' as (_ & Hok' & _).
    specialize (Hok tx Ht). specialize (Hok' _ eq_refl). cbn [mbind option_bind].
    rewrite !tx_get_eq by done. cbn zeta.
    rewrite (tx_cached_remove tx (EntityId.MkId ty (pk_bytes pk))). cbn [deleted remove_by_entity_id].
    destruct (decide (EntityId.MkId ty' (pk_bytes pk') = EntityId.MkId ty (pk_bytes pk))) as [->|Hne].
    + rewrite decide_True by set_solver. done.
    + rewrite (decide_ext _ (EntityId.MkId ty' (pk_bytes pk') ∈ deleted tx)) by set_solver. done.
Qed.
