(* ===== verification/KeystoreMls.v ===== *)
(** * The keystore as OpenMLS sees it

    [keystore/src/mls.rs] and [keystore/src/proteus.rs]: the group, enrollment and
    prekey helpers of the database, and the implementation of OpenMLS's key store
    trait.  Everything is verified against the interface [EntityKV]. *)

From S2P Require Import Prelude Keys EntityTypes Entities ToyExternals Sql KeystoreErrors EntityStore Store Transaction TransactionInvariant TransactionCommit Database DatabaseProps EntityKV.
From Stdlib Require Import Lia ZArith.

(** The kinds of values OpenMLS stores. *)
Inductive MlsEntityId : Type :=
  | GroupState | SignatureKeyPair | IdKeyPackage | IdHpkePrivateKey | IdPskBundle
  | IdEncryptionKeyPair | IdEpochEncryptionKeyPair.

Definition vec_key_of (k : bytes) : PrimaryKey := PkVec {| vec_bytes := k |}.

Section keystore_mls.
Context `{X : Externals} {D : Type} `{!EntityKV D}.

(** ** Groups *)

(** [mls_group_exists]. *)
Definition mls_group_exists (group_id : bytes) (d : D) : bool :=
  match kv_get EntityType.PersistedMlsGroup (vec_key_of group_id) d with
  | Ok (Some _) => true
  | _ => false
  end.

(** [mls_group_persist]. *)
Definition mls_group_persist (group_id state : bytes) (parent_group_id : option bytes) (d : D) :
    kres unit * D :=
  let '(r, d) := kv_save None (Entity.PersistedMlsGroup
    {| group_id := group_id; group_state := state; group_parent_id := parent_group_id |}) d in
  ((fun _ => ()) <$> r, d).

(** [mls_groups_restore]: later entries of the list win in the [HashMap]. *)
Definition mls_groups_restore (d : D) : kres (gmap bytes (option bytes * bytes)) :=
  groups ← kv_load_all EntityType.PersistedMlsGroup d;
  Ok (foldl (fun acc e => match e with
                          | Entity.PersistedMlsGroup g =>
                              <[group_id g := (group_parent_id g, group_state g)]> acc
                          | _ => acc
                          end) ∅ groups).

(** [mls_group_delete]. *)
Definition mls_group_delete (group_id : bytes) (d : D) : kres unit * D :=
  kv_remove EntityType.PersistedMlsGroup (vec_key_of group_id) d.

(** [mls_pending_groups_save]. *)
Definition mls_pending_groups_save (group_id mls_group custom_configuration : bytes)
    (parent_group_id : option bytes) (d : D) : kres unit * D :=
  let '(r, d) := kv_save None (Entity.PersistedMlsPendingGroup
    {| pgroup_id := group_id; pgroup_state := mls_group;
       pgroup_custom_configuration := custom_configuration;
       pgroup_parent_id := parent_group_id |}) d in
  ((fun _ => ()) <$> r, d).

(** [mls_pending_groups_load]. *)
Definition mls_pending_groups_load (group_id : bytes) (d : D) : kres (option (bytes * bytes)) :=
  (fun o => e ← o; match e with
                   | Entity.PersistedMlsPendingGroup g =>
                       Some (pgroup_state g, pgroup_custom_configuration g)
                   | _ => None
                   end)
  <$> kv_get EntityType.PersistedMlsPendingGroup (vec_key_of group_id) d.

(** [mls_pending_groups_delete]. *)
Definition mls_pending_groups_delete (group_id : bytes) (d : D) : kres unit * D :=
  kv_remove EntityType.PersistedMlsPendingGroup (vec_key_of group_id) d.

(** ** Enrollments *)

(** [save_e2ei_enrollment]. *)
Definition save_e2ei_enrollment (id content : bytes) (d : D) : kres unit * D :=
  let '(r, d) := kv_save None (Entity.StoredE2eiEnrollment
    {| enrollment_id := id; enrollment_content := content |}) d in
  ((fun _ => ()) <$> r, d).

(** [pop_e2ei_enrollment]. *)
Definition pop_e2ei_enrollment (id : bytes) (d : D) : kres (option bytes) * D :=
  match kv_get EntityType.StoredE2eiEnrollment (vec_key_of id) d with
  | Ok (Some (Entity.StoredE2eiEnrollment e)) =>
      match kv_remove EntityType.StoredE2eiEnrollment (vec_key_of id) d with
      | (Ok _, d') => (Ok (Some (enrollment_content e)), d')
      | (Err err, d') => (Err err, d')
      | (Panic, d') => (Panic, d')
      end
  | Ok _ => (Ok None, d)
  | Err err => (Err err, d)
  | Panic => (Panic, d)
  end.

(** ** Proteus prekeys *)

(** [proteus_store_prekey]. *)
Definition proteus_store_prekey (id : Z) (prekey : bytes) (d : D) : kres unit * D :=
  let '(r, d) := kv_save None (Entity.ProteusPrekey (proteus_prekey_from_raw id prekey)) d in
  ((fun _ => ()) <$> r, d).

(** [PreKeyStore::prekey]. *)
Definition prekey (id : Z) (d : D) : kres (option bytes) :=
  (fun o => e ← o; match e with Entity.ProteusPrekey p => Some (prekey_prekey p) | _ => None end)
  <$> kv_get EntityType.ProteusPrekey (PkU16 (MkUInt id)) d.

(** [PreKeyStore::remove]. *)
Definition prekey_remove (id : Z) (d : D) : kres unit * D :=
  kv_remove EntityType.ProteusPrekey (PkU16 (MkUInt id)) d.

(** ** OpenMLS's key store *)

(** A value type of OpenMLS: its serialization ([postcard]), and the key pair built
    from the columns of a credential and serialized. *)
Context {V : Type} (ser : V -> option bytes) (deser : bytes -> option V)
  (signature_keypair : Z -> bytes -> bytes -> option bytes).

(** The entity under which a serialized value is stored. *)
Definition mls_entity (id : MlsEntityId) (k data : bytes) : option Entity.t :=
  match id with
  | GroupState | SignatureKeyPair => None
  | IdKeyPackage => Some (Entity.StoredKeypackage {| keypackage_ref := k; keypackage := data |})
  | IdHpkePrivateKey => Some (Entity.HpkePrivateKey {| hpke_pk := k; hpke_sk := data |})
  | IdPskBundle => Some (Entity.PskBundle {| psk_id := k; psk := data |})
  | IdEncryptionKeyPair => Some (Entity.EncryptionKeyPair {| enc_pk := k; enc_sk := data |})
  | IdEpochEncryptionKeyPair =>
      Some (Entity.StoredEpochEncryptionKeypair {| epoch_id := k; epoch_keypairs := data |})
  end.

(** [OpenMlsKeyStore::store]. *)
Definition store (id : MlsEntityId) (k : bytes) (v : V) (d : D) : kres unit * D :=
  match k with
  | [] => (Err KeystoreError.MlsKeyStoreError, d)
  | _ =>
      match ser v with
      | None => (Err KeystoreError.KeyStoreValueTransformError, d)
      | Some data =>
          match mls_entity id k data with
          | None => (Err KeystoreError.IncorrectApiUsage, d)
          | Some e => let '(r, d) := kv_save None e d in ((fun _ => ()) <$> r, d)
          end
      end
  end.

(** [.await.ok().flatten()?] on a read of an entity. *)
Definition get_ok (ty : EntityType.t) (pk : PrimaryKey) (d : D) : option Entity.t :=
  match kv_get ty pk d with Ok o => o | _ => None end.

(** [OpenMlsKeyStore::read]. *)
Definition read (id : MlsEntityId) (k : bytes) (d : D) : option V :=
  match k with
  | [] => None
  | _ =>
      match id with
      | GroupState =>
          e ← get_ok EntityType.PersistedMlsGroup (vec_key_of k) d;
          match e with Entity.PersistedMlsGroup g => deser (group_state g) | _ => None end
      | SignatureKeyPair =>
          hash ← key_from_bytes (K := Sha256Hash) k;
          e ← get_ok EntityType.StoredCredential (PkSha256 hash) d;
          match e with
          | Entity.StoredCredential c =>
              data ← signature_keypair (cred_ciphersuite c) (cred_private_key c) (cred_public_key c);
              deser data
          | _ => None
          end
      | IdKeyPackage =>
          e ← get_ok EntityType.KeyPackage (vec_key_of k) d;
          match e with Entity.StoredKeypackage p => deser (keypackage p) | _ => None end
      | IdHpkePrivateKey =>
          e ← get_ok EntityType.HpkePrivateKey (vec_key_of k) d;
          match e with Entity.HpkePrivateKey p => deser (hpke_sk p) | _ => None end
      | IdPskBundle =>
          e ← get_ok EntityType.PskBundle (vec_key_of k) d;
          match e with Entity.PskBundle p => deser (psk p) | _ => None end
      | IdEncryptionKeyPair =>
          e ← get_ok EntityType.EncryptionKeyPair (vec_key_of k) d;
          match e with Entity.EncryptionKeyPair p => deser (enc_sk p) | _ => None end
      | IdEpochEncryptionKeyPair =>
          e ← get_ok EntityType.EpochEncryptionKeyPair (vec_key_of k) d;
          match e with Entity.StoredEpochEncryptionKeypair p => deser (epoch_keypairs p) | _ => None end
      end
  end.

(** [OpenMlsKeyStore::delete]. *)
Definition mls_delete (id : MlsEntityId) (k : bytes) (d : D) : kres unit * D :=
  match id with
  | GroupState => kv_remove EntityType.PersistedMlsGroup (vec_key_of k) d
  | SignatureKeyPair => (Panic, d)
  | IdHpkePrivateKey => kv_remove EntityType.HpkePrivateKey (vec_key_of k) d
  | IdKeyPackage => kv_remove EntityType.KeyPackage (vec_key_of k) d
  | IdPskBundle => kv_remove EntityType.PskBundle (vec_key_of k) d
  | IdEncryptionKeyPair => kv_remove EntityType.EncryptionKeyPair (vec_key_of k) d
  | IdEpochEncryptionKeyPair => kv_remove EntityType.EpochEncryptionKeyPair (vec_key_of k) d
  end.

(** [mls_fetch_key_packages]. *)
Definition mls_fetch_key_packages (count : nat) (d : D) : kres (list V) :=
  keypackages ← kv_load_all EntityType.KeyPackage d;
  Ok (firstn count (omap (fun e => match e with
                                 | Entity.StoredKeypackage p => deser (keypackage p)
                                 | _ => None
                                 end) keypackages)).

End keystore_mls.

Section openmls_properties.
Context `{X : Externals} {D : Type} `{!EntityKV D} (inv : D -> Prop) `{!EntityKVLaws D inv}.
Context {V : Type} (ser : V -> option bytes) (deser : bytes -> option V)
  (signature_keypair : Z -> bytes -> bytes -> option bytes).
Hypothesis deser_ser : forall v data, ser v = Some data -> deser data = Some v.

Abbreviation store := (KeystoreMls.store ser).
Abbreviation read := (KeystoreMls.read deser signature_keypair).

(** The type under which a value kind is stored. *)
Definition mls_type (id : MlsEntityId) : EntityType.t :=
  match id with
  | GroupState => EntityType.PersistedMlsGroup
  | SignatureKeyPair => EntityType.StoredCredential
  | IdKeyPackage => EntityType.KeyPackage
  | IdHpkePrivateKey => EntityType.HpkePrivateKey
  | IdPskBundle => EntityType.PskBundle
  | IdEncryptionKeyPair => EntityType.EncryptionKeyPair
  | IdEpochEncryptionKeyPair => EntityType.EpochEncryptionKeyPair
  end.

Definition storable (id : MlsEntityId) : bool :=
  match id with GroupState | SignatureKeyPair => false | _ => true end.

Lemma mls_entity_id id k data e :
  mls_entity id k data = Some e ->
  EntityId.of_entity e = EntityId.MkId (mls_type id) k /\ entity_ok e /\ pre_save None e = Ok (None, e).
Proof. destruct id; cbn; by intros [= <-]. Qed.

Lemma mls_type_inj id id' : storable id = true -> mls_type id = mls_type id' -> id = id'.
Proof. by destruct id, id'. Qed.

(** [read] only depends on the entity stored under the key. *)
Lemma read_ext id k d d' :
  (forall pk, pk_ok (mls_type id) pk -> pk_bytes pk = k -> kv_get (mls_type id) pk d = kv_get (mls_type id) pk d') ->
  read id k d = read id k d'.
Proof.
  intros Hext. destruct k as [|b k]; [done|].
  assert (id <> SignatureKeyPair -> get_ok (mls_type id) (vec_key_of (b :: k)) d =
    get_ok (mls_type id) (vec_key_of (b :: k)) d') as Hget.
  { intros Hid. unfold get_ok. rewrite (Hext (vec_key_of (b :: k))); [done|by destruct id|done]. }
  unfold KeystoreMls.read. destruct id; cbn [mls_type] in *; try (rewrite Hget by done; reflexivity).
  destruct (key_from_bytes (K := Sha256Hash) (b :: k)) as [h|] eqn:Hh; [|done].
  apply key_parse_sound in Hh as [Hb Hok]. cbn [mbind option_bind]. unfold get_ok.
  by rewrite (Hext (PkSha256 h)).
Qed.

(** OpenMLS reads back what it stored: after a successful [store], [read] of
    the same kind and key returns the value, and every other kind or key reads as
    before.  An empty key, a group state or a signature key pair is refused and
    changes nothing. *)
Theorem openmls_store_read id k v data d :
  inv d -> ser v = Some data ->
  if (storable id && negb (bool_decide (k = [])))%bool then
    exists d', store id k v d = (Ok (), d') /\ inv d' /\ read id k d' = Some v /\
      forall id' k', (id', k') <> (id, k) -> read id' k' d' = read id' k' d
  else exists e, store id k v d = (Err e, d).
Proof.
  intros Hinv Hser. destruct k as [|b k]; [rewrite andb_false_r; by eexists|].
  unfold KeystoreMls.store. rewrite Hser.
  destruct (mls_entity id (b :: k) data) as [e|] eqn:He; [|by destruct id; try done; eexists].
  assert (storable id = true) as -> by (by destruct id). cbn [andb negb bool_decide].
  rewrite bool_decide_eq_false_2 by done. cbn [negb].
  destruct (mls_entity_id _ _ _ _ He) as (Hid & Hok & Hpre).
  destruct (kv_save_total (inv := inv) None e d None e) as (d' & -> & Hinv' & Hget); [done..|].
  exists d'. split; [done|]. split; [done|]. rewrite Hid in Hget. split.
  - specialize (Hget (mls_type id) (vec_key_of (b :: k))).
    rewrite decide_True in Hget by done.
    unfold KeystoreMls.read, get_ok. destruct id; try done; injection He as <-; cbn -[kv_get] in *;
      rewrite (Hget I); cbn; by apply deser_ser.
  - intros id' k' Hne. apply read_ext. intros pk Hpk Hk. rewrite Hget by done.
    rewrite decide_False; [done|]. intros [= Hty Hb]. apply Hne.
    rewrite Hk in Hb. f_equal; [|done]. symmetry. apply mls_type_inj; [by destruct id|done].
Qed.

(** After OpenMLS deletes a value of a kind it may delete, [read] finds
    nothing under its key. *)
Theorem openmls_delete_read id k d :
  inv d -> id <> SignatureKeyPair ->
  exists d', mls_delete id k d = (Ok (), d') /\ inv d' /\ read id k d' = None.
Proof.
  intros Hinv Hid. destruct (kv_remove_total (inv := inv) (mls_type id) (vec_key_of k) d) as (d' & Hr & Hinv' & Hget);
    [done|]. exists d'. split; [by destruct id|]. split; [done|].
  specialize (Hget (mls_type id) (vec_key_of k)). rewrite decide_True in Hget by done.
  destruct k as [|b k]; [done|]. unfold KeystoreMls.read, get_ok.
  destruct id; try done; cbn -[kv_get] in *; by rewrite (Hget I).
Qed.

(** An enrollment can be taken out exactly once: saving it and popping it
    returns the content, and a second pop finds nothing. *)
Theorem enrollment_popped_once id content d :
  inv d ->
  exists d1 d2, save_e2ei_enrollment id content d = (Ok (), d1) /\
    pop_e2ei_enrollment id d1 = (Ok (Some content), d2) /\ pop_e2ei_enrollment id d2 = (Ok None, d2) /\ inv d2.
Proof.
  intros Hinv. set (e := Entity.StoredE2eiEnrollment {| enrollment_id := id; enrollment_content := content |}).
  destruct (kv_save_total (inv := inv) None e d None e) as (d1 & Hs & Hinv1 & Hget1); [done..|].
  destruct (kv_remove_total (inv := inv) EntityType.StoredE2eiEnrollment (vec_key_of id) d1) as (d2 & Hr & Hinv2 & Hget2);
    [done|].
  exists d1, d2. unfold save_e2ei_enrollment, pop_e2ei_enrollment. fold e. rewrite Hs, Hr.
  rewrite (Hget1 EntityType.StoredE2eiEnrollment (vec_key_of id)), (Hget2 EntityType.StoredE2eiEnrollment (vec_key_of id))
    by done.
  by rewrite !decide_True by done.
Qed.

(** A persisted group exists until it is deleted, and pending groups are
    loaded as they were saved. *)
Theorem groups_persist_delete gid state cfg parent d :
  inv d ->
  exists d1 d2 d3,
    mls_group_persist gid state parent d = (Ok (), d1) /\ mls_group_exists gid d1 = true /\
    mls_pending_groups_save gid state cfg parent d1 = (Ok (), d2) /\
    mls_pending_groups_load gid d2 = Ok (Some (state, cfg)) /\ mls_group_exists gid d2 = true /\
    mls_group_delete gid d2 = (Ok (), d3) /\ mls_group_exists gid d3 = false /\
    mls_pending_groups_load gid d3 = Ok (Some (state, cfg)) /\ inv d3.
Proof.
  intros Hinv.
  set (g := Entity.PersistedMlsGroup {| group_id := gid; group_state := state; group_parent_id := parent |}).
  set (p := Entity.PersistedMlsPendingGroup {| pgroup_id := gid; pgroup_state := state;
    pgroup_parent_id := parent; pgroup_custom_configuration := cfg |}).
  destruct (kv_save_total (inv := inv) None g d None g) as (d1 & Hs1 & Hinv1 & Hg1); [done..|].
  destruct (kv_save_total (inv := inv) None p d1 None p) as (d2 & Hs2 & Hinv2 & Hg2); [done..|].
  destruct (kv_remove_total (inv := inv) EntityType.PersistedMlsGroup (vec_key_of gid) d2) as (d3 & Hr & Hinv3 & Hg3);
    [done|].
  exists d1, d2, d3. unfold mls_group_persist, mls_pending_groups_save, mls_group_delete, mls_group_exists,
    mls_pending_groups_load. fold g p. rewrite Hs1, Hs2, Hr.
  assert (pk_ok EntityType.PersistedMlsGroup (vec_key_of gid)) as Hk1 by done.
  assert (pk_ok EntityType.PersistedMlsPendingGroup (vec_key_of gid)) as Hk2 by done.
  rewrite !(Hg3 _ _ Hk1), !(Hg3 _ _ Hk2), !(Hg2 _ _ Hk1), !(Hg2 _ _ Hk2), !(Hg1 _ _ Hk1).
  rewrite !decide_True by done. rewrite !decide_False by done. rewrite !decide_True by done.
  by repeat split.
Qed.
End openmls_properties.

(** ** A run of the model: the database with a transaction in progress *)

Lemma demo_started_in_transaction : in_transaction demo_started.
Proof.
  split; [|done]. apply (db_inv_new demo_open); [|vm_compute; lia].
  apply (db_inv_open empty_store ∅ represents_empty demo_keys_unique).
Qed.

Lemma openmls_store_read_witness :
  exists d', store (Some (A := bytes)) IdKeyPackage (bstr "ref") (bstr "kp") demo_started = (Ok (), d') /\
    in_transaction d' /\
    read (Some (A := bytes)) (fun _ _ _ => None) IdKeyPackage (bstr "ref") d' = Some (bstr "kp") /\
    forall id' k', (id', k') <> (IdKeyPackage, bstr "ref") ->
      read (Some (A := bytes)) (fun _ _ _ => None) id' k' d' =
      read (Some (A := bytes)) (fun _ _ _ => None) id' k' demo_started.
Proof.
  refine (openmls_store_read in_transaction (Some (A := bytes)) (Some (A := bytes)) (fun _ _ _ => None) _
            IdKeyPackage (bstr "ref") (bstr "kp") (bstr "kp") demo_started
            demo_started_in_transaction eq_refl).
  intros v data [= ->]. reflexivity.
Defined.

Lemma openmls_delete_read_witness :
  exists d', mls_delete IdPskBundle (bstr "psk") demo_started = (Ok (), d') /\ in_transaction d' /\
    read (Some (A := bytes)) (fun _ _ _ => None) IdPskBundle (bstr "psk") d' = None.
Proof.
  refine (openmls_delete_read in_transaction (Some (A := bytes)) (fun _ _ _ => None) IdPskBundle (bstr "psk")
            demo_started demo_started_in_transaction _).
  discriminate.
Defined.

Lemma enrollment_popped_once_witness :
  exists d1 d2, save_e2ei_enrollment (bstr "id") (bstr "state") demo_started = (Ok (), d1) /\
    pop_e2ei_enrollment (bstr "id") d1 = (Ok (Some (bstr "state")), d2) /\
    pop_e2ei_enrollment (bstr "id") d2 = (Ok None, d2) /\ in_transaction d2.
Proof.
  exact (enrollment_popped_once in_transaction (bstr "id") (bstr "state") demo_started demo_started_in_transaction).
Defined.

Lemma groups_persist_delete_witness :
  exists d1 d2 d3 : Database,
    mls_group_persist (bstr "g") (bstr "s") None demo_started = (Ok (), d1) /\
    mls_group_exists (bstr "g") d1 = true /\
    mls_pending_groups_save (bstr "g") (bstr "s") (bstr "cfg") None d1 = (Ok (), d2) /\
    mls_pending_groups_load (bstr "g") d2 = Ok (Some (bstr "s", bstr "cfg")) /\
    mls_group_exists (bstr "g") d2 = true /\
    mls_group_delete (bstr "g") d2 = (Ok (), d3) /\ mls_group_exists (bstr "g") d3 = false /\
    mls_pending_groups_load (bstr "g") d3 = Ok (Some (bstr "s", bstr "cfg")) /\ in_transaction d3.
Proof.
  exact (groups_persist_delete in_transaction (bstr "g") (bstr "s") (bstr "cfg") None demo_started
           demo_started_in_transaction).
Defined.
