(* ===== verification/CryptoErrors.v ===== *)
(** * Errors of the crypto crate, and computations over a state

    The module errors of [crypto/src] and the wrapper that nests them in one
    another ([crypto/src/error/recursive.rs]).  Contexts (static strings) and the
    payloads of other crates are dropped; the nesting is kept, because the code
    matches on the outermost constructor. *)

From S2P Require Import Prelude Entities Sql KeystoreErrors.

(** [LeafError]. *)
Inductive LeafError : Type :=
  | ConversationAlreadyExists (id : bytes)
  | ConversationNotFound (id : bytes)
  | E2eiEnrollmentNotDone
  | InternalMlsError
  | MissingGroupInfo.

(** [openmls::ProcessMessageError], as far as the code tells its values apart:
    [ValidationError] of [UnableToDecrypt] or [WrongEpoch], and [InvalidCommit]. *)
Inductive ProcessMessageError : Type :=
  | GenerationOutOfBound
  | WrongEpoch
  | AeadError
  | TooDistantInThePast
  | OwnCommit
  | MissingProposal
  | IncompatibleWireFormat
  | OtherProcessMessageError.

(** [OpenMlsErrorKind]. *)
Inductive OpenMlsErrorKind : Type :=
  | MlsMessageError (e : ProcessMessageError)
  | OtherOpenMlsError.

(** [ProteusErrorKind]: errors of the Proteus library, or common ones. *)
Inductive ProteusErrorKind : Type :=
  | ProteusLibraryError
  | ProteusLeaf (e : LeafError).

(** [wire_e2e_identity::E2eIdentityError]. *)
Inductive E2eIdentityError : Type :=
  | E2eInvalidCertificate
  | E2eJsonError
  | E2eAcmeError
  | E2eJwtError
  | E2eJwtSimpleError
  | E2eNotSupported
  | E2eImplementationError
  | E2eNotYetSupported
  | E2eOutOfOrderEnrollment
  | E2eInvalidRefreshToken
  | E2eInvalidClientId
  | E2eEmptyInputIdList
  | E2eNotFound
  | E2eCryptoError
  | E2ePkiEnvError
  | E2eX509Error
  | E2eUrlError
  | E2eX509CertDerError
  | E2eCertificateGenerationError
  | E2eUnsupportedSignatureScheme
  | E2eSignatureKeyGenerationFailed
  | E2eSigningFailed
  | E2eCertificateValidation
  | E2eKeystore (e : KeystoreError.t).

(** [crate::Error]. *)
Inductive CoreError : Type :=
  | CoreInvalidTransactionContext
  | CoreProteusNotInitialized
  | MlsTransportNotProvided
  | ErrorDuringMlsTransport (reason : string)
  | FeatureDisabled
  | CoreKeystore (e : KeystoreError.t)
  | InvalidHistorySecret
  | CoreOpenMls
  | CoreE2eIdentity (e : E2eIdentityError)
  | CoreProteus (source : ProteusErrorKind)
  | CoreRecursive (e : RecursiveError)

(** [mls::Error]. *)
with MlsError : Type :=
  | UnknownCipherSuite
  | MalformedIdentifier (reason : string)
  | MlsKeystore (e : KeystoreError.t)
  | MlsOpenMls
  | MlsLeaf (e : LeafError)
  | MlsRecursive (e : RecursiveError)

(** [mls::session::Error]. *)
with SessionError : Type :=
  | InvalidQualifiedClientId
  | InvalidUserId
  | NoX509CertificateBundle
  | CredentialConflict
  | MlsNotInitialized
  | NoCredentialWithType
  | InvalidSignatureScheme
  | ClientSignatureNotFound
  | UnexpectedlyReady
  | IdentityAlreadyPresent
  | EpochObserverAlreadyExists
  | HistoryObserverAlreadyExists
  | AmbiguousCredentialRef
  | SessionTlsSerialize
  | SessionTlsDeserialize
  | SessionOpenMls
  | SessionKeystore (e : KeystoreError.t)
  | SessionLeaf (e : LeafError)
  | SessionRecursive (e : RecursiveError)

(** [mls::conversation::Error]. *)
with ConversationError : Type :=
  | InappropriateMessageBodyType
  | Unauthorized
  | MessageRejected (reason : string)
  | DuplicateMessage
  | MessageEpochTooOld
  | StaleMessage
  | BufferedCommit
  | BufferedFutureMessage (message_epoch : Z)
  | BufferedForPendingConversation
  | UnbufferedFarFutureMessage
  | StaleCommit
  | StaleProposal
  | DecryptionError
  | IdentityInitializationError
  | MlsGroupInvalidState (reason : string)
  | MlsMessageInvalidState (reason : string)
  | MissingExternalSenderExtension
  | PendingCommitNotFound
  | PendingConversationNotFound
  | ClearingPendingCommitError
  | SelfCommitIgnored
  | ProposalVariantCannotBeRenewed
  | ConvCallerError (reason : string)
  | OrphanWelcome
  | DuplicateSignature (affected_clients : list (bytes * bytes))
  | ConvTlsSerialize
  | ConvTlsDeserialize
  | ConvOpenMls (source : OpenMlsErrorKind)
  | ConvKeystore (e : KeystoreError.t)
  | ConvLeaf (e : LeafError)
  | ConvRecursive (e : RecursiveError)

(** [transaction_context::Error]. *)
with TransactionError : Type :=
  | TxCallerError (reason : string)
  | InvalidTransactionContext
  | PendingConversationError (pending : PersistedMlsPendingGroup)
  | ClientNotFound (id : bytes)
  | ProteusNotInitialized
  | TxTlsSerialize
  | TxTlsDeserialize
  | TxE2EIdentity (e : E2eTransactionError)
  | TxKeystore (e : KeystoreError.t)
  | TxOpenMls
  | UnknownCredential (ty : Z)
  | CredentialStillInUse (id : bytes)
  | WrongCredential
  | InvalidCredentials (refs : list bytes)
  | KeypackageNew
  | TxLeaf (e : LeafError)
  | TxRecursive (e : RecursiveError)

(** [transaction_context::e2e_identity::Error]. *)
with E2eTransactionError : Type :=
  | ImplementationError
  | MissingExistingClient
  | TrustAnchorAlreadyRegistered
  | PkiEnvironmentUnset
  | InvalidCertificateChain
  | TxE2eNotFound
  | TxE2eX509Error
  | TxE2eX509CertDerError
  | TxE2eOpenMls
  | TxE2eKeystore (e : KeystoreError.t)
  | PkiEnvironmentEror
  | TxE2eRecursive (e : RecursiveError)

(** [RecursiveError]. *)
with RecursiveError : Type :=
  | Root (source : CoreError)
  | RecTransactionContext (source : TransactionError)
  | RecE2e (source : E2eIdentityError)
  | RecMls (source : MlsError)
  | RecMlsClient (source : SessionError)
  | RecMlsConversation (source : ConversationError)
  | RecMlsCredential (source : CredentialError)
  | RecMlsCredentialRef (source : CredentialRefError)

(** [mls::credential::Error]. *)
with CredentialError : Type :=
  | DecodeX509
  | InvalidIdentity
  | CredentialNotFound (public_key : bytes)
  | MissingPKIEnvironment
  | UnsupportedCredentialType (ty : Z)
  | SignatureSchemeNotPresentInX509Identity
  | UnsupportedOperation
  | UnsupportedAlgorithm
  | CredKeystore (e : KeystoreError.t)
  | CredOpenMls
  | CredRecursive (e : RecursiveError)
  | CredTlsSerialize
  | CredTlsDeserialize

(** [mls::credential::credential_ref::Error]. *)
with CredentialRefError : Type :=
  | KeypairNotFound
  | RefCredentialNotFound
  | ValidationFailed (source : CredentialValidationError)
  | RefKeystore (e : KeystoreError.t)
  | RefRecursive (e : RecursiveError)
  | RefTlsSerialize
  | RefTlsDeserialize

(** [mls::credential::CredentialValidationError]. *)
with CredentialValidationError : Type :=
  | ValidationWrongCredential
  | NoPublicKey
  | ValidationRecursive (e : RecursiveError).

(** ** Computations

    Code that reads and writes a state [S] and may fail; the state reached so far
    is kept when it does ([?] returns early and undoes nothing). *)
Definition st (S E A : Type) : Type := S -> res E A * S.

#[export] Instance st_ret {S E} : MRet (st S E) := fun A a s => (Ok a, s).
#[export] Instance st_bind {S E} : MBind (st S E) := fun A B f m s =>
  match m s with
  | (Ok a, s') => f a s'
  | (Err e, s') => (Err e, s')
  | (Panic, s') => (Panic, s')
  end.

Definition st_of {S E A} (f : S -> res E A * S) : st S E A := f.

(** A computation that leaves the state alone. *)
Definition st_lift {S E A} (f : S -> res E A) : st S E A := fun s => (f s, s).

(** [Err(e)?]. *)
Definition st_throw {S E A} (e : E) : st S E A := fun s => (Err e, s).

(** [map_err]. *)
Definition st_map_err {S E F A} (f : E -> F) (m : st S E A) : st S F A := fun s =>
  let '(r, s') := m s in (map_err f r, s').

(** [match m { .. }] on the result of a computation. *)
Definition st_try {S E F A B} (m : st S E A) (k : res E A -> st S F B) : st S F B := fun s =>
  let '(r, s') := m s in match r with Panic => (Panic, s') | _ => k r s' end.

(** Every step of [m] relates the states before and after by [R]. *)
Definition st_frame {S E A} (R : S -> S -> Prop) (m : st S E A) : Prop :=
  forall s, R s (snd (m s)).

Section st_frame.
Context {S : Type} (R : S -> S -> Prop) `{!PreOrder R}.

Lemma st_frame_ret {E A} (a : A) : st_frame (E := E) R (mret a).
Proof. intros s. by cbn. Qed.

Lemma st_frame_throw {E A} (e : E) : st_frame (A := A) R (st_throw e).
Proof. intros s. by cbn. Qed.

Lemma st_frame_lift {E A} (f : S -> res E A) : st_frame R (st_lift f).
Proof. intros s. by cbn. Qed.

Lemma st_frame_bind {E A B} (m : st S E A) (f : A -> st S E B) :
  st_frame R m -> (forall a, st_frame R (f a)) -> st_frame R (m ≫= f).
Proof.
  intros Hm Hf s. unfold mbind, st_bind. specialize (Hm s).
  destruct (m s) as [[a|e|] s']; cbn in *; [|done..].
  etrans; [exact Hm|apply Hf].
Qed.

Lemma st_frame_map_err {E F A} (f : E -> F) (m : st S E A) :
  st_frame R m -> st_frame R (st_map_err f m).
Proof. intros Hm s. specialize (Hm s). unfold st_map_err. by destruct (m s). Qed.

Lemma st_frame_try {E F A B} (m : st S E A) (k : res E A -> st S F B) :
  st_frame R m -> (forall r, st_frame R (k r)) -> st_frame R (st_try m k).
Proof.
  intros Hm Hk s. specialize (Hm s). unfold st_try. destruct (m s) as [[a|e|] s']; cbn in *; [| |done];
    (etrans; [exact Hm|apply Hk]).
Qed.
End st_frame.

Create HintDb frame.
#[export] Hint Resolve st_frame_ret st_frame_throw st_frame_lift st_frame_bind st_frame_map_err
  st_frame_try : frame.

(** Walks through a computation; the calls on the database remain. *)
Ltac solve_keeps :=
  repeat match goal with
  | |- st_frame _ (_ ≫= _) => apply st_frame_bind; [apply _| |intros ?]
  | |- st_frame _ (mret _) => apply st_frame_ret; apply _
  | |- st_frame _ (st_throw _) => apply st_frame_throw; apply _
  | |- st_frame _ (st_lift _) => apply st_frame_lift; apply _
  | |- st_frame _ (st_map_err _ _) => apply st_frame_map_err
  | |- st_frame _ (st_try _ _) => apply st_frame_try; [apply _| |intros ?]
  | |- st_frame _ (st_of (fun w => (_, w))) => intros ?; reflexivity
  | |- st_frame _ (match ?x with _ => _ end) => destruct x
  | |- st_frame _ _ => progress eauto with frame
  end.

(** Rules for results of sequenced computations. *)
Lemma st_bind_Ok {S E A B} (m : st S E A) (f : A -> st S E B) s b s' :
  (m ≫= f) s = (Ok b, s') -> exists a s1, m s = (Ok a, s1) /\ f a s1 = (Ok b, s').
Proof.
  unfold mbind, st_bind. destruct (m s) as [[a|e|] s1] eqn:Hm; [eauto|discriminate..].
Qed.

Lemma st_map_err_Ok {S E F A} (f : E -> F) (m : st S E A) s a s' :
  st_map_err f m s = (Ok a, s') -> m s = (Ok a, s').
Proof. unfold st_map_err. destruct (m s) as [[] ?]; cbn; congruence. Qed.
