(* ===== verification/OpenMls.v ===== *)
(** * The OpenMLS group

    OpenMLS is a library: a group is an abstract value with the observers and
    operations the crypto crate calls.  Operations that take the crypto provider
    may read and write the database through the key store trait, and nothing
    else. *)

From S2P Require Import Prelude Keys EntityTypes Entities ToyExternals Sql KeystoreErrors EntityStore Store Transaction Database DatabaseProps EntityKV KeystoreMls.
From Stdlib Require Import Lia ZArith.

(** [InnerState]: whether a group has changed since it was last persisted. *)
Inductive InnerState : Type := Changed | Persisted.

#[export] Instance InnerState_eq_dec : EqDecision InnerState.
Proof. solve_decision. Defined.

Class OpenMls : Type := {
  MlsGroup : Type;
  group_group_id : MlsGroup -> bytes;
  group_ciphersuite : MlsGroup -> Z;
  group_epoch : MlsGroup -> Z;
  group_is_active : MlsGroup -> bool;
  state_changed : MlsGroup -> InnerState;
  set_state : InnerState -> MlsGroup -> MlsGroup;
  (** [postcard] serialization of a group. *)
  ser_group : MlsGroup -> option bytes;
  deser_group : bytes -> option MlsGroup;
  pending_commit : MlsGroup -> bool;
  clear_pending_commit_of : MlsGroup -> MlsGroup;
  (** The encryption keys of [own_leaf_nodes]. *)
  own_leaf_keys : MlsGroup -> list bytes;
  (** [merge_pending_commit(provider)]: whether it succeeded, the group and the
      key store afterwards. *)
  merge_pending_commit_of : MlsGroup -> Database -> bool * (MlsGroup * Database);
  (** [delete_previous_epoch_keypairs(provider)], whose result is ignored. *)
  delete_previous_epoch_keypairs_of : MlsGroup -> Database -> Database;
  (** The references of the pending proposals, and [remove_pending_proposal]. *)
  pending_proposal_refs : MlsGroup -> list bytes;
  remove_pending_proposal_of : MlsGroup -> bytes -> Database -> bool * (MlsGroup * Database);
}.

(** The writes of OpenMLS through the key store: values of its own kinds, never a
    group state. *)
Inductive provider_calls `{X : Externals} : Database -> Database -> Prop :=
  | provider_done db : provider_calls db db
  | provider_store {V} (ser : V -> option bytes) id k v db db' :
      provider_calls (snd (store ser id k v db)) db' -> provider_calls db db'
  | provider_delete id k db db' :
      id <> GroupState -> id <> SignatureKeyPair ->
      provider_calls (snd (mls_delete id k db)) db' -> provider_calls db db'.

(** The same group, up to the flag that says whether it is persisted. *)
Definition same_group `{OpenMls} (g g' : MlsGroup) : Prop :=
  set_state Persisted g = set_state Persisted g'.

(** OpenMLS sets the flag before it touches a group. *)
Definition flagged `{OpenMls} (g g' : MlsGroup) : Prop := g' = g \/ state_changed g' = Changed.

#[export] Instance flagged_preorder `{OpenMls} : PreOrder flagged.
Proof. split; [by left|]. intros a b c [-> | H1] [-> | H2]; [by left|by right..]. Qed.

(** What the crypto crate relies on. *)
Class OpenMlsLaws `{X : Externals} (O : OpenMls) : Prop := {
  deser_ser_group g b :
    ser_group g = Some b -> exists g', deser_group b = Some g' /\ same_group g' g;
  set_state_set_state s s' g : set_state s (set_state s' g) = set_state s g;
  state_changed_set_state s g : state_changed (set_state s g) = s;
  group_id_set_state s g : group_group_id (set_state s g) = group_group_id g;
  is_active_set_state s g : group_is_active (set_state s g) = group_is_active g;
  epoch_set_state s g : group_epoch (set_state s g) = group_epoch g;
  pending_commit_set_state s g : pending_commit (set_state s g) = pending_commit g;
  clear_pending_commit_none g : pending_commit (clear_pending_commit_of g) = false;
  merge_pending_commit_none g db g' db' :
    merge_pending_commit_of g db = (true, (g', db')) -> pending_commit g' = false;
  merge_pending_commit_provider g db ok g' db' :
    merge_pending_commit_of g db = (ok, (g', db')) -> provider_calls db db';
  merge_pending_commit_group_id g db ok g' db' :
    merge_pending_commit_of g db = (ok, (g', db')) -> group_group_id g' = group_group_id g;
  merge_pending_commit_changed g db ok g' db' :
    merge_pending_commit_of g db = (ok, (g', db')) -> flagged g g';
  clear_pending_commit_changed g : flagged g (clear_pending_commit_of g);
  clear_pending_commit_group_id g :
    group_group_id (clear_pending_commit_of g) = group_group_id g;
  delete_previous_epoch_keypairs_provider g db :
    provider_calls db (delete_previous_epoch_keypairs_of g db);
  remove_pending_proposal_provider g p db ok g' db' :
    remove_pending_proposal_of g p db = (ok, (g', db')) -> provider_calls db db';
  remove_pending_proposal_group_id g p db ok g' db' :
    remove_pending_proposal_of g p db = (ok, (g', db')) -> group_group_id g' = group_group_id g;
  remove_pending_proposal_changed g p db ok g' db' :
    remove_pending_proposal_of g p db = (ok, (g', db')) -> flagged g g';
}.

#[export] Instance same_group_equiv `{OpenMls} : Equivalence same_group.
Proof. unfold same_group. split; congruence. Qed.

Lemma same_group_set_state `{OpenMlsLaws} s g : same_group (set_state s g) g.
Proof. unfold same_group. apply set_state_set_state. Qed.

Lemma same_group_id `{OpenMlsLaws} g g' : same_group g g' -> group_group_id g = group_group_id g'.
Proof. intros Hs. rewrite <- (group_id_set_state Persisted g), Hs. apply group_id_set_state. Qed.

Lemma same_group_epoch `{OpenMlsLaws} g g' : same_group g g' -> group_epoch g = group_epoch g'.
Proof. intros Hs. rewrite <- (epoch_set_state Persisted g), Hs. apply epoch_set_state. Qed.

Lemma same_group_pending `{OpenMlsLaws} g g' : same_group g g' -> pending_commit g = pending_commit g'.
Proof. intros Hs. rewrite <- (pending_commit_set_state Persisted g), Hs. apply pending_commit_set_state. Qed.

Lemma same_group_active `{OpenMlsLaws} g g' : same_group g g' -> group_is_active g = group_is_active g'.
Proof. intros Hs. rewrite <- (is_active_set_state Persisted g), Hs. apply is_active_set_state. Qed.

(** ** A concrete group

    An id, an epoch that a merge advances, and the flags; it satisfies the laws. *)
Record ToyGroup : Type := MkToyGroup {
  toy_id : bytes;
  toy_epoch : byte;
  toy_active : bool;
  toy_pending : bool;
  toy_proposed : bool;
  toy_state : InnerState;
}.

Definition toy_flag (b : bool) : byte := if b then x01 else x00.
Definition toy_unflag (b : byte) : bool := match b with x01 => true | _ => false end.

(** The next epoch, with nothing pending. *)
Definition toy_advance (active : bool) (g : ToyGroup) : ToyGroup :=
  MkToyGroup (toy_id g) (byte_of_Z (byte_to_Z (toy_epoch g) + 1)) active false false Changed.

#[export] Instance toy_openmls : OpenMls := {|
  MlsGroup := ToyGroup;
  group_group_id := toy_id;
  group_ciphersuite _ := 1%Z;
  group_epoch g := byte_to_Z (toy_epoch g);
  group_is_active := toy_active;
  state_changed := toy_state;
  set_state s g :=
    MkToyGroup (toy_id g) (toy_epoch g) (toy_active g) (toy_pending g) (toy_proposed g) s;
  ser_group g :=
    Some (toy_epoch g :: toy_flag (toy_active g) :: toy_flag (toy_pending g) ::
          toy_flag (toy_proposed g) :: toy_id g);
  deser_group b :=
    match b with
    | e :: a :: p :: q :: gid =>
        Some (MkToyGroup gid e (toy_unflag a) (toy_unflag p) (toy_unflag q) Persisted)
    | _ => None
    end;
  pending_commit := toy_pending;
  clear_pending_commit_of g :=
    MkToyGroup (toy_id g) (toy_epoch g) (toy_active g) false (toy_proposed g) Changed;
  own_leaf_keys _ := [];
  merge_pending_commit_of g db := (toy_pending g, (toy_advance (toy_active g) g, db));
  delete_previous_epoch_keypairs_of _ db := db;
  pending_proposal_refs _ := [];
  remove_pending_proposal_of g _ db := (false, (g, db));
|}.

#[export] Instance toy_openmls_laws : OpenMlsLaws toy_openmls.
Proof.
  split; cbn.
  - intros [gid e a p q s] b [= <-]. eexists. split; [reflexivity|]. by destruct a, p, q.
  - done.
  - done.
  - done.
  - done.
  - done.
  - done.
  - done.
  - by intros g db g' db' [= _ <- _].
  - intros g db ok g' db' [= _ _ <-]. constructor.
  - by intros g db ok g' db' [= _ <- _].
  - intros g db ok g' db' [= _ <- _]. by right.
  - by right.
  - done.
  - constructor.
  - intros g p db ok g' db' [= _ _ <-]. constructor.
  - by intros g p db ok g' db' [= _ <- _].
  - intros g p db ok g' db' [= _ <- _]. by left.
Qed.
