(* ===== verification/ConversationCache.v ===== *)
(** * Conversations and their cache

    [crypto/src/mls/conversation/immutable] (the structure and loading from the
    keystore), [crypto/src/mls/conversation/config.rs] and
    [crypto/src/mls/conversation_cache.rs].  Conversations are shared objects:
    the cache and the guards of a transaction hold handles to them, so they live
    in a heap and a handle is an address. *)

From S2P Require Import Prelude Keys EntityTypes Entities ToyExternals Sql KeystoreErrors EntityStore Store Transaction Database EntityKV KeystoreMls CryptoErrors OpenMls.
From Stdlib Require Import Lia ZArith.

(** ** Configuration *)

Inductive WirePolicy : Type := Plaintext | Ciphertext.

(** [CustomConfiguration]; a rotation span is a number of seconds. *)
Record CustomConfiguration : Type := MkCustom {
  key_rotation_span : option Z;
  wire_policy : WirePolicy;
  out_of_order_tolerance : Z;
  maximum_forward_distance : Z;
}.

Definition default_custom : CustomConfiguration :=
  {| key_rotation_span := None; wire_policy := Plaintext;
     out_of_order_tolerance := 2; maximum_forward_distance := 1000 |}.

(** [ConversationConfiguration]. *)
Record ConversationConfiguration : Type := MkConfig {
  cipher_suite : Z;
  external_senders : list bytes;
  custom : CustomConfiguration;
}.

(** [{ cipher_suite, ..Default::default() }]. *)
Definition config_of_ciphersuite (cs : Z) : ConversationConfiguration :=
  MkConfig cs [] default_custom.

(** ** The LRU map

    [schnellru::LruMap] limited by length. *)
Class LruMap (M V : Type) : Type := {
  lru_new : nat -> M;
  lru_get : bytes -> M -> option V * M;
  lru_peek : bytes -> M -> option V;
  lru_insert : bytes -> V -> M -> M;
  lru_remove : bytes -> M -> option V * M;
  lru_clear : M -> M;
  lru_limit : M -> nat;
}.

(** An insertion may evict other entries; nothing else appears or changes.  A map
    whose limit is not zero holds the entry inserted last. *)
Class LruMapLaws (M V : Type) `{!LruMap M V} : Prop := {
  lru_peek_new n k : lru_peek k (lru_new n) = None;
  lru_get_peek k m : fst (lru_get k m) = lru_peek k m;
  lru_peek_get k k' m : lru_peek k' (snd (lru_get k m)) = lru_peek k' m;
  lru_peek_insert k v k' w m :
    lru_peek k' (lru_insert k v m) = Some w -> (k' = k /\ w = v) \/ (k' <> k /\ lru_peek k' m = Some w);
  lru_peek_remove k k' w m :
    lru_peek k' (snd (lru_remove k m)) = Some w -> k' <> k /\ lru_peek k' m = Some w;
  lru_peek_clear k m : lru_peek k (lru_clear m) = None;
  lru_peek_inserted k v m : lru_limit m <> 0 -> lru_peek k (lru_insert k v m) = Some v;
  lru_limit_new n : lru_limit (lru_new n) = n;
  lru_limit_get k m : lru_limit (snd (lru_get k m)) = lru_limit m;
  lru_limit_insert k v m : lru_limit (lru_insert k v m) = lru_limit m;
  lru_limit_remove k m : lru_limit (snd (lru_remove k m)) = lru_limit m;
}.

(** A list with the most recently used entry first, for running the model. *)
Record ToyLru (V : Type) : Type := MkLru { lru_capacity : nat; lru_items : list (bytes * V) }.
Arguments MkLru {V}.
Arguments lru_capacity {V}.
Arguments lru_items {V}.

Fixpoint assoc {V} (k : bytes) (l : list (bytes * V)) : option V :=
  match l with
  | [] => None
  | (k', v) :: l => if decide (k = k') then Some v else assoc k l
  end.

Definition without {V} (k : bytes) (l : list (bytes * V)) : list (bytes * V) :=
  filter (fun kv => fst kv <> k) l.

#[export] Instance toy_lru {V} : LruMap (ToyLru V) V := {|
  lru_new n := MkLru n [];
  lru_get k m :=
    match assoc k (lru_items m) with
    | Some v => (Some v, MkLru (lru_capacity m) ((k, v) :: without k (lru_items m)))
    | None => (None, m)
    end;
  lru_peek k m := assoc k (lru_items m);
  lru_insert k v m :=
    MkLru (lru_capacity m) (firstn (lru_capacity m) ((k, v) :: without k (lru_items m)));
  lru_remove k m := (assoc k (lru_items m), MkLru (lru_capacity m) (without k (lru_items m)));
  lru_clear m := MkLru (lru_capacity m) [];
  lru_limit := lru_capacity;
|}.

Lemma assoc_without {V} k k' (l : list (bytes * V)) :
  assoc k' (without k l) = if decide (k' = k) then None else assoc k' l.
Proof.
  unfold without. induction l as [|[k0 v] l IH].
  - cbn. by destruct (decide (k' = k)).
  - rewrite filter_cons. cbn [fst assoc]. destruct (decide (k0 <> k)) as [Hne|Heq].
    + cbn [assoc]. rewrite IH. destruct (decide (k' = k0)) as [->|]; [by rewrite decide_False|done].
    + rewrite IH. destruct (decide (k' = k)) as [|Hk]; [done|].
      rewrite decide_False; [done|]. intros ->. by apply Heq.
Qed.

Lemma assoc_firstn {V} n k (l : list (bytes * V)) v :
  assoc k (firstn n l) = Some v -> assoc k l = Some v.
Proof.
  revert n. induction l as [|[k' w] l IH]; intros [|n]; cbn; try done.
  destruct (decide (k = k')); [done|apply IH].
Qed.

#[export] Instance toy_lru_laws {V} : LruMapLaws (ToyLru V) V.
Proof.
  split; cbn -[firstn].
  - done.
  - intros k m. by destruct (assoc k (lru_items m)).
  - intros k k' m. destruct (assoc k (lru_items m)) as [v|] eqn:Hk; [|done]. cbn.
    rewrite assoc_without. by destruct (decide (k' = k)) as [->|].
  - intros k v k' w m Hp%assoc_firstn. cbn in Hp. rewrite assoc_without in Hp.
    destruct (decide (k' = k)) as [->|]; [left; split; congruence|by right].
  - intros k k' w m. rewrite assoc_without. by destruct (decide (k' = k)).
  - done.
  - intros k v m Hl. destruct (lru_capacity m); [done|]. cbn. by rewrite decide_True.
  - done.
  - intros k m. by destruct (assoc k (lru_items m)).
  - done.
  - done.
Qed.

(** ** Conversations *)

Section conversations.
Context `{X : Externals, O : OpenMls}.

(** [Conversation]; the session it belongs to is the one whose cache holds it. *)
Record Conversation : Type := MkConversation {
  conv_id : bytes;
  conv_group : MlsGroup;
  conv_configuration : ConversationConfiguration;
}.

Abbreviation handle := nat.
Abbreviation Heap := (list Conversation).

(** [Conversation::from_serialized_state]. *)
Definition from_serialized_state (buf : bytes) : res ConversationError Conversation :=
  group ← ok_or (deser_group buf) (ConvKeystore KeystoreError.KeyStoreValueTransformError);
  Ok (MkConversation (group_group_id group) group (config_of_ciphersuite (group_ciphersuite group))).

(** [Conversation::load]. *)
Definition load (id : bytes) (db : Database) : res ConversationError (option Conversation) :=
  group ← map_err ConvKeystore (kv_get EntityType.PersistedMlsGroup (vec_key_of id) db);
  match group with
  | Some (Entity.PersistedMlsGroup g) => Some <$> from_serialized_state (group_state g)
  | _ => Ok None
  end.

(** [Conversation::load_all]. *)
Definition load_all_conversations (db : Database) :
    res ConversationError (gmap bytes Conversation) :=
  groups ← map_err ConvKeystore (kv_load_all EntityType.PersistedMlsGroup db);
  for_each (fun e acc => match e with
                         | Entity.PersistedMlsGroup g =>
                             c ← from_serialized_state (group_state g); Ok (<[group_id g := c]> acc)
                         | _ => Ok acc
                         end) groups ∅.

(** ** The cache *)

Context {M : Type} `{!LruMap M handle}.

Definition CAPACITY : nat := 200.

(** [ConversationCache::new]. *)
Definition cache_new : M := lru_new CAPACITY.

(** [Arc::new]. *)
Definition alloc (c : Conversation) (heap : Heap) : handle * Heap := (length heap, heap ++ [c]).

(** What [get_or_fetch] works on: the cache, the heap and the keystore. *)
Record CacheState : Type := MkCacheState {
  cs_cache : M;
  cs_heap : Heap;
  cs_database : Database;
}.

(** [ConversationCache::get_or_fetch]. *)
Definition get_or_fetch (id : bytes) : st CacheState CoreError (option handle) := fun s =>
  let '(entry, cache) := lru_get id (cs_cache s) in
  let s := MkCacheState cache (cs_heap s) (cs_database s) in
  match entry with
  | Some h => (Ok (Some h), s)
  | None =>
      match load id (cs_database s) with
      | Err e => (Err (CoreRecursive (RecMlsConversation e)), s)
      | Panic => (Panic, s)
      | Ok None => (Ok None, s)
      | Ok (Some c) =>
          if group_is_active (conv_group c) then
            let '(h, heap) := alloc c (cs_heap s) in
            (Ok (Some h), MkCacheState (lru_insert (conv_id c) h (cs_cache s)) heap (cs_database s))
          else
            let '(r, db) := kv_remove EntityType.PersistedMlsGroup (vec_key_of id) (cs_database s) in
            (map_err CoreKeystore ((fun _ => None) <$> r),
             MkCacheState (cs_cache s) (cs_heap s) db)
      end
  end.

(** [ConversationCache::exists]. *)
Definition cache_exists (id : bytes) (cache : M) (db : Database) : res CoreError bool :=
  match lru_peek id cache with
  | Some _ => Ok true
  | None => map_err CoreKeystore
      ((fun o => bool_decide (is_Some o)) <$> kv_get EntityType.PersistedMlsGroup (vec_key_of id) db)
  end.

(** [ConversationCache::insert]. *)
Definition cache_insert (c : Conversation) (cache : M) (heap : Heap) : handle * (M * Heap) :=
  let '(h, heap) := alloc c heap in (h, (lru_insert (conv_id c) h cache, heap)).

(** [ConversationCache::remove]. *)
Definition cache_remove (id : bytes) (cache : M) : M := snd (lru_remove id cache).

(** [ConversationCache::clear]. *)
Definition cache_clear (cache : M) : M := lru_clear cache.
End conversations.
