(* ===== verification/TransactionContext.v ===== *)
(** * Transaction contexts

    [crypto/src/lib.rs] (the [CoreCrypto] instance), [crypto/src/mls/session]
    (its session and epoch observer) and [crypto/src/transaction_context]: the
    lifecycle of a transaction and the conversation operations on it. *)

From S2P Require Import Prelude Keys EntityTypes Entities ToyExternals Sql KeystoreErrors EntityStore Store Transaction Database EntityKV KeystoreMls CryptoErrors OpenMls ConversationCache.
From Stdlib Require Import Lia ZArith.

(** [TransactionContextInner]; the [CoreCrypto] it points to is part of the
    world below. *)
Inductive TransactionContextInner : Type :=
  | Valid (pending_epoch_changes : list (bytes * Z))
  | Invalid.

#[export] Instance TransactionContextInner_eq_dec : EqDecision TransactionContextInner.
Proof. solve_decision. Defined.

Section transaction_context.
Context `{X : Externals, O : OpenMls} {M : Type} `{!LruMap M nat}.

(** [Session]: its id, its cache, and whether an epoch observer and a history
    observer are registered. *)
Record Session : Type := MkSession {
  session_client_id : bytes;
  conversation_cache : M;
  epoch_observer : bool;
  history_observer : bool;
}.

(** [CoreCrypto], with the heap of conversations and the calls its epoch observer
    has received.  The PKI environment is a shared object, known by its address. *)
Record CoreCrypto : Type := MkCore {
  database : Database;
  pki_environment : option nat;
  mls : option Session;
  heap : list Conversation;
  observed : list (bytes * Z);
}.

(** What an operation on a context works on. *)
Record World : Type := MkWorld { core : CoreCrypto; context : TransactionContextInner }.

Abbreviation tx E A := (st World E A).

Definition set_database (db : Database) (c : CoreCrypto) : CoreCrypto :=
  MkCore db (pki_environment c) (mls c) (heap c) (observed c).
Definition set_mls (s : option Session) (c : CoreCrypto) : CoreCrypto :=
  MkCore (database c) (pki_environment c) s (heap c) (observed c).
Definition set_heap (h : list Conversation) (c : CoreCrypto) : CoreCrypto :=
  MkCore (database c) (pki_environment c) (mls c) h (observed c).
Definition set_core (c : CoreCrypto) (w : World) : World := MkWorld c (context w).
Definition set_cache (m : M) (s : Session) : Session :=
  MkSession (session_client_id s) m (epoch_observer s) (history_observer s).

(** ** Sessions *)

(** [Session::new]. *)
Definition session_new (id : bytes) : Session := MkSession id cache_new false false.

(** [Session::register_epoch_observer]. *)
Definition register_epoch_observer (s : Session) : res SessionError Session :=
  if epoch_observer s then Err EpochObserverAlreadyExists
  else Ok (MkSession (session_client_id s) (conversation_cache s) true (history_observer s)).

(** [Session::register_history_observer]. *)
Definition register_history_observer (s : Session) : res CoreError Session :=
  if history_observer s then Err (CoreRecursive (RecMlsClient HistoryObserverAlreadyExists))
  else Ok (MkSession (session_client_id s) (conversation_cache s) (epoch_observer s) true).

(** [Session::notify_epoch_changed]. *)
Definition notify_epoch_changed (s : Session) (change : bytes * Z) (c : CoreCrypto) : CoreCrypto :=
  if epoch_observer s then
    MkCore (database c) (pki_environment c) (mls c) (heap c) (observed c ++ [change])
  else c.

(** ** Lifecycle *)

(** [CoreCrypto::new] on an open database. *)
Definition core_new (db : Database) : CoreCrypto := MkCore db None None [] [].

(** [CoreCrypto::new_transaction]; [None] is waiting for the semaphore. *)
Definition new_context (c : CoreCrypto) : option World :=
  db ← new_transaction (database c); Some (MkWorld (set_database db c) (Valid [])).

(** [*guard] is [Valid], or the call fails. *)
Definition valid : tx TransactionError () := st_lift (fun w =>
  match context w with Valid _ => Ok () | Invalid => Err InvalidTransactionContext end).

(** [TransactionContext::session], [mls_transport] and [crypto_provider] read
    parts of the session. *)
Definition session : tx TransactionError Session :=
  _ ← valid;
  st_lift (fun w => ok_or (mls (core w)) (TxRecursive (RecMlsClient MlsNotInitialized))).

Definition crypto_provider : tx TransactionError () := _ ← session; mret ().

(** [TransactionContext::pki_environment]. *)
Definition get_pki_environment : tx TransactionError nat :=
  _ ← valid;
  st_lift (fun w => ok_or (pki_environment (core w)) (TxRecursive (RecTransactionContext (TxE2EIdentity PkiEnvironmentUnset)))).

(** A call on the database of the core. *)
Definition on_database {A} (f : Database -> kres A * Database) : tx KeystoreError.t A := fun w =>
  let '(r, db) := f (database (core w)) in (r, set_core (set_database db (core w)) w).

(** [self.database().await?] followed by a call on it. *)
Definition with_database {A} (f : Database -> kres A * Database) : tx TransactionError A :=
  _ ← valid; st_map_err TxKeystore (on_database f).

Definition read_database {A} (f : Database -> kres A) : tx TransactionError A :=
  with_database (fun db => (f db, db)).

(** [self.mls_groups().await?] followed by a call on the cache. *)
Definition with_groups {A} (f : st (CacheState (M := M)) CoreError A) : tx TransactionError A :=
  s ← session;
  st_of (fun w =>
    let '(r, cs) := f (MkCacheState (conversation_cache s) (heap (core w)) (database (core w))) in
    (map_err (fun e => TxRecursive (Root e)) r,
     set_core (set_mls (Some (set_cache (cs_cache cs) s))
       (set_heap (cs_heap cs) (set_database (cs_database cs) (core w)))) w)).

(** [TransactionContext::queue_epoch_changed]. *)
Definition queue_epoch_changed (id : bytes) (epoch : Z) : tx TransactionError () := fun w =>
  match context w with
  | Valid changes => (Ok (), MkWorld (core w) (Valid (changes ++ [(id, epoch)])))
  | Invalid => (Err InvalidTransactionContext, w)
  end.

(** [TransactionContext::finish]. *)
Definition finish : tx TransactionError () := fun w =>
  match context w with
  | Invalid => (Err InvalidTransactionContext, w)
  | Valid changes =>
      let '(commit_result, db) := commit_transaction (database (core w)) in
      let c := set_database db (core w) in
      match commit_result with
      | Panic => (Panic, MkWorld c (context w))
      | _ =>
          let c :=
            match mls c with
            | None => c
            | Some s =>
                if is_ok commit_result then
                  foldl (fun c change => notify_epoch_changed s change c) c changes
                else set_mls (Some (set_cache (cache_clear (conversation_cache s)) s)) c
            end in
          (map_err TxKeystore commit_result, MkWorld c Invalid)
      end
  end.

(** [TransactionContext::abort]. *)
Definition abort : tx TransactionError () := fun w =>
  match context w with
  | Invalid => (Err InvalidTransactionContext, w)
  | Valid _ =>
      let c :=
        match mls (core w) with
        | None => core w
        | Some s => set_mls (Some (set_cache (cache_clear (conversation_cache s)) s)) (core w)
        end in
      let '(r, db) := rollback_transaction (database c) in
      (map_err TxKeystore r, MkWorld (set_database db c) Invalid)
  end.

(** [TransactionContext::set_mls_session]. *)
Definition set_mls_session (s : Session) : tx TransactionError () :=
  _ ← valid; st_of (fun w => (Ok (), set_core (set_mls (Some s) (core w)) w)).

(** [TransactionContext::mls_init]. *)
Definition mls_init (id : bytes) : tx TransactionError () :=
  _ ← valid; set_mls_session (session_new id).

(** [TransactionContext::client_id]. *)
Definition client_id : tx TransactionError bytes := s ← session; mret (session_client_id s).

(** [TransactionContext::set_data] and [get_data]. *)
Definition set_data (data : bytes) : tx TransactionError () :=
  _ ← with_database (kv_save None (Entity.ConsumerData {| consumer_content := data |})); mret ().

Definition get_data : tx TransactionError (option bytes) :=
  _ ← valid;
  st_try (on_database (fun db => (kv_get EntityType.ConsumerData (PkU64 (MkUInt 0)) db, db))) (fun r =>
    match r with
    | Ok o => mret (e ← o; match e with Entity.ConsumerData d => Some (consumer_content d) | _ => None end)
    | Err KeystoreError.NotFound => mret None
    | Err e => st_throw (TxKeystore e)
    | Panic => st_of (fun w => (Panic, w))
    end).

(** ** Conversations *)

(** [TransactionContext::conversation_exists]. *)
Definition conversation_exists (id : bytes) : tx TransactionError bool :=
  _ ← valid;
  with_groups (fun cs => (cache_exists id (cs_cache cs) (cs_database cs), cs)).

(** [TransactionContext::pending_conversation]. *)
Definition pending_conversation (id : bytes) : tx TransactionError PersistedMlsPendingGroup :=
  o ← read_database (kv_get EntityType.PersistedMlsPendingGroup (vec_key_of id));
  match o with
  | Some (Entity.PersistedMlsPendingGroup g) => mret g
  | _ => st_throw (TxLeaf (ConversationNotFound id))
  end.

(** [TransactionContext::pending_conversation_exists]. *)
Definition pending_conversation_exists (id : bytes) : tx TransactionError bool :=
  st_try (pending_conversation id) (fun r =>
    match r with
    | Ok _ => mret true
    | Err (TxLeaf (ConversationNotFound _)) => mret false
    | Err e => st_throw e
    | Panic => st_of (fun w => (Panic, w))
    end).

(** [TransactionContext::conversation]: a guard is the handle of the cached
    conversation. *)
Definition conversation (id : bytes) : tx TransactionError nat :=
  _ ← valid;
  _ ← session;
  inner ← with_groups (get_or_fetch id);
  match inner with
  | Some h => mret h
  | None => pending ← pending_conversation id; st_throw (PendingConversationError pending)
  end.

(** [TransactionContext::persist_conversation_from_mls_group]. *)
Definition persist_conversation_from_mls_group (group : MlsGroup)
    (configuration : ConversationConfiguration) : tx TransactionError nat :=
  let id := group_group_id group in
  _ ← st_map_err (fun e => TxRecursive (RecTransactionContext e)) session;
  _ ← valid;
  group_state ← st_lift (fun _ => ok_or (ser_group group)
                                   (TxKeystore KeystoreError.KeyStoreValueTransformError));
  _ ← with_database (mls_group_persist id group_state None);
  with_groups (fun cs =>
    let conversation := MkConversation id (set_state Persisted group) configuration in
    let '(h, (cache, heap)) := cache_insert conversation (cs_cache cs) (cs_heap cs) in
    (Ok h, MkCacheState cache heap (cs_database cs))).

(** [TransactionContext::new_conversation]; loading the credential and creating
    the group are calls of OpenMLS and of the credential store. *)
Definition new_conversation {C} (credential_load : Database -> res CredentialRefError C)
    (new_with_group_id : C -> ConversationConfiguration -> bytes -> Database -> option MlsGroup * Database)
    (id : bytes) (configuration : ConversationConfiguration) : tx TransactionError () :=
  _ ← valid;
  _ ← crypto_provider;
  exists_ ← conversation_exists id;
  pending ← (if exists_ : bool then mret true else pending_conversation_exists id);
  if pending : bool then st_throw (TxLeaf (ConversationAlreadyExists id)) else
  credential ← st_lift (fun w => map_err (fun e => TxRecursive (RecMlsCredentialRef e)) (credential_load (database (core w))));
  o ← st_of (fun w =>
         let '(g, db) := new_with_group_id credential configuration id (database (core w)) in
         (Ok g, set_core (set_database db (core w)) w));
  match o with
  | None => st_throw TxOpenMls
  | Some group => _ ← persist_conversation_from_mls_group group configuration; mret ()
  end.

(** The outcomes of [MlsGroup::new_from_welcome] the code distinguishes. *)
Inductive WelcomeOutcome : Type :=
  | WelcomeGroup (g : MlsGroup)
  | NoMatchingKeyPackage
  | NoMatchingEncryptionKey
  | WelcomeOther.

(** [TransactionContext::persist_conversation_from_welcome_message]. *)
Definition persist_conversation_from_welcome_message {W}
    (new_from_welcome : ConversationConfiguration -> W -> Database -> WelcomeOutcome * Database)
    (welcome : W) (configuration : ConversationConfiguration) : tx TransactionError nat :=
  _ ← crypto_provider;
  outcome ← st_of (fun w =>
         let '(o, db) := new_from_welcome configuration welcome (database (core w)) in
         (Ok o, set_core (set_database db (core w)) w));
  match outcome with
  | NoMatchingKeyPackage | NoMatchingEncryptionKey =>
      st_throw (TxRecursive (RecMlsConversation OrphanWelcome))
  | WelcomeOther => st_throw (TxRecursive (RecMlsConversation (ConvOpenMls OtherOpenMlsError)))
  | WelcomeGroup group =>
      let id := group_group_id group in
      exists_ ← conversation_exists id;
      pending ← (if exists_ : bool then mret true else pending_conversation_exists id);
      if pending : bool then st_throw (TxLeaf (ConversationAlreadyExists id))
      else persist_conversation_from_mls_group group configuration
  end.
(** ** Transactions as the bindings run them *)

(** The error of [transaction_ffi]: of the command, or of the context. *)
Inductive FfiError (E : Type) : Type :=
  | CommandError (e : E)
  | ContextError (e : TransactionError).
Arguments CommandError {E} e.
Arguments ContextError {E} e.

(** [CoreCryptoFfi::transaction_ffi]; [None] is waiting for the semaphore. *)
Definition transaction_ffi {E} (command : tx E ()) (c : CoreCrypto) :
    option (res (FfiError E) () * World) :=
  w ← new_context c;
  Some (st_try command (fun result =>
    match result with
    | Ok _ => st_map_err ContextError finish
    | Err err => _ ← st_map_err ContextError abort; st_throw (CommandError err)
    | Panic => st_of (fun w => (Panic, w))
    end) w).
End transaction_context.

Arguments CommandError {E} e.
Arguments ContextError {E} e.
Arguments Session M : clear implicits.
Arguments CoreCrypto {O} M.
Arguments World {O} M.
