(* ===== verification/TransactionContextProps.v ===== *)
(** * The lifecycle of transaction contexts *)

From S2P Require Import Prelude Keys EntityTypes Entities ToyExternals Sql KeystoreErrors EntityStore Store Transaction TransactionInvariant TransactionCommit Database DatabaseProps EntityKV KeystoreMls CryptoErrors OpenMls ConversationCache TransactionContext.
From Stdlib Require Import Lia ZArith.

(** ** Calls that neither start nor end a transaction *)

Section keeps_database.
Context `{X : Externals, !ExternalsLaws X}.

(** The database keeps its invariant, its connection, and whether a transaction
    is in progress. *)
Definition keeps_database (db db' : Database) : Prop :=
  (transaction db' = None <-> transaction db = None) /\ permits db' = permits db /\
  conn db' = conn db /\ (db_inv db -> db_inv db').

#[export] Instance keeps_database_preorder : PreOrder keeps_database.
Proof.
  unfold keeps_database. split.
  - done.
  - intros a b c (H1 & H2 & H3 & H4) (G1 & G2 & G3 & G4).
    split; [tauto|]. split; [congruence|]. split; [congruence|tauto].
Qed.

Lemma with_transaction_keeps {A} (f : KeystoreTransaction -> kres (A * KeystoreTransaction)) db r db' :
  with_transaction f db = (r, db') ->
  (transaction db' = None <-> transaction db = None) /\ permits db' = permits db /\ conn db' = conn db.
Proof.
  unfold with_transaction. destruct (transaction db) as [tx|] eqn:Ht; [|by intros [= _ <-]].
  destruct (f tx) as [[a tx']|e|]; intros [= _ <-]; by rewrite ?Ht.
Qed.

Lemma kv_save_keeps clock e db :
  match clock with Some t => (0 <= t <= 253402300799)%Z | None => True end -> entity_ok e ->
  keeps_database db (snd (kv_save clock e db)).
Proof.
  intros Hc He. destruct (kv_save clock e db) as [r db'] eqn:Hs. cbn in Hs |- *.
  destruct (with_transaction_keeps _ _ _ _ Hs) as (H1 & H2 & H3).
  do 3 (split; [done|]). intros Hi. eapply db_inv_step; [exact Hi|by eapply step_save].
Qed.

Lemma kv_remove_keeps ty pk db : keeps_database db (snd (kv_remove ty pk db)).
Proof.
  destruct (kv_remove ty pk db) as [r db'] eqn:Hs. cbn in Hs |- *.
  destruct (with_transaction_keeps _ _ _ _ Hs) as (H1 & H2 & H3).
  do 3 (split; [done|]). intros Hi. eapply db_inv_step; [exact Hi|by eapply step_remove].
Qed.

Lemma fmap_save_keeps {B} (f : option Z -> B) e db :
  entity_ok e ->
  keeps_database db (snd (let '(r, d) := kv_save None e db in (f <$> r, d))).
Proof.
  intros He. pose proof (kv_save_keeps None e db I He) as Hk. by destruct (kv_save None e db).
Qed.

Lemma mls_group_persist_keeps id state parent db :
  keeps_database db (snd (mls_group_persist id state parent db)).
Proof. by apply fmap_save_keeps. Qed.

Lemma store_keeps {V} (ser : V -> option bytes) id k v db :
  keeps_database db (snd (store ser id k v db)).
Proof.
  unfold store. destruct k as [|b k]; [done|]. destruct (ser v) as [data|]; [|done].
  destruct (mls_entity id (b :: k) data) as [e|] eqn:He; [|done].
  apply fmap_save_keeps. by apply (mls_entity_id id (b :: k) data).
Qed.

Lemma mls_delete_keeps id k db : keeps_database db (snd (mls_delete id k db)).
Proof. destruct id; cbn -[kv_remove]; try apply kv_remove_keeps; done. Qed.

Lemma provider_calls_keeps db db' : provider_calls db db' -> keeps_database db db'.
Proof.
  induction 1 as [|V ser id k v db db' _ IH|id k db db' Hg Hs _ IH]; [done| |];
    (etrans; [|exact IH]); [apply store_keeps|apply mls_delete_keeps].
Qed.
End keeps_database.

#[export] Hint Resolve kv_save_keeps kv_remove_keeps fmap_save_keeps mls_group_persist_keeps
  provider_calls_keeps : frame.

Section keeps.
Context `{X : Externals, !ExternalsLaws X, O : OpenMls, !OpenMlsLaws O}.
Context {M : Type} `{!LruMap M nat}.
Abbreviation World := (World M).
Abbreviation CoreCrypto := (CoreCrypto M).

(** An operation of a context other than [finish] and [abort]. *)
Definition keeps (w w' : World) : Prop :=
  (context w' = Invalid <-> context w = Invalid) /\ observed (core w') = observed (core w) /\
  keeps_database (database (core w)) (database (core w')).

#[export] Instance keeps_preorder : PreOrder keeps.
Proof.
  unfold keeps. split.
  - done.
  - intros a b c (H1 & H2 & H3) (G1 & G2 & G3). split; [tauto|]. split; [congruence|]. by etrans.
Qed.

Lemma valid_keeps : st_frame keeps valid.
Proof. apply st_frame_lift. apply _. Qed.

Lemma session_keeps : st_frame keeps session.
Proof. apply st_frame_bind; [apply _|apply valid_keeps|]. intros _. apply st_frame_lift. apply _. Qed.

Lemma on_database_keeps {A} (f : Database -> kres A * Database) :
  (forall db, keeps_database db (snd (f db))) -> st_frame keeps (on_database f).
Proof.
  intros Hf w. unfold on_database. specialize (Hf (database (core w))).
  by destruct (f (database (core w))).
Qed.

Lemma with_database_keeps {A} (f : Database -> kres A * Database) :
  (forall db, keeps_database db (snd (f db))) -> st_frame keeps (with_database f).
Proof.
  intros Hf. apply st_frame_bind; [apply _|apply valid_keeps|]. intros _.
  apply st_frame_map_err. by apply on_database_keeps.
Qed.

Lemma read_database_keeps {A} (f : Database -> kres A) : st_frame keeps (read_database f).
Proof. by apply with_database_keeps. Qed.

Lemma with_groups_keeps {A} (f : st (CacheState (M := M)) CoreError A) :
  (forall cs, keeps_database (cs_database cs) (cs_database (snd (f cs)))) ->
  st_frame keeps (with_groups f).
Proof.
  intros Hf. apply st_frame_bind; [apply _|apply session_keeps|]. intros s w. unfold st_of.
  match goal with |- context [f ?cs] => specialize (Hf cs); destruct (f cs) end. by cbn in *.
Qed.

Lemma provider_keeps {A} (f : Database -> A * Database) :
  (forall db, provider_calls db (snd (f db))) ->
  st_frame (E := TransactionError) keeps (st_of (fun w : World =>
    let '(a, db) := f (database (core w)) in (Ok a, set_core (set_database db (core w)) w))).
Proof.
  intros Hf w. unfold st_of. specialize (Hf (database (core w))).
  destruct (f (database (core w))) as [a db]. cbn in *. split; [done|]. split; [done|].
  by apply provider_calls_keeps.
Qed.
End keeps.

#[export] Hint Resolve valid_keeps session_keeps with_database_keeps read_database_keeps
  with_groups_keeps provider_keeps on_database_keeps : frame.

Section operations.
Context `{X : Externals, !ExternalsLaws X, O : OpenMls, !OpenMlsLaws O}.
Context {M : Type} `{!LruMap M nat}.
Abbreviation World := (World M).
Abbreviation CoreCrypto := (CoreCrypto M).
Abbreviation keeps := (keeps (M := M)).

Lemma queue_epoch_changed_keeps id epoch : st_frame keeps (queue_epoch_changed id epoch).
Proof.
  intros w. unfold queue_epoch_changed. destruct (context w) eqn:Hc; cbn; [|done].
  split; [|done]. rewrite Hc. by split.
Qed.

Lemma set_mls_session_keeps s : st_frame keeps (set_mls_session s).
Proof. unfold set_mls_session. by solve_keeps. Qed.

Lemma mls_init_keeps id : st_frame keeps (mls_init id).
Proof. unfold mls_init. solve_keeps; apply set_mls_session_keeps. Qed.

Lemma set_data_keeps data : st_frame keeps (set_data data).
Proof. unfold set_data. solve_keeps; apply with_database_keeps; intros db; by apply kv_save_keeps. Qed.

Lemma get_data_keeps : st_frame keeps get_data.
Proof. unfold get_data. solve_keeps; by apply on_database_keeps. Qed.

Lemma conversation_exists_keeps id : st_frame keeps (conversation_exists id).
Proof. unfold conversation_exists. solve_keeps; by apply with_groups_keeps. Qed.

Lemma pending_conversation_keeps id : st_frame keeps (pending_conversation id).
Proof. unfold pending_conversation. solve_keeps. Qed.

Lemma pending_conversation_exists_keeps id : st_frame keeps (pending_conversation_exists id).
Proof. unfold pending_conversation_exists. solve_keeps; apply pending_conversation_keeps. Qed.

Lemma get_or_fetch_keeps id (cs : CacheState (M := M)) :
  keeps_database (cs_database cs) (cs_database (snd (get_or_fetch id cs))).
Proof.
  unfold get_or_fetch. destruct (lru_get id (cs_cache cs)) as [[h|] cache]; cbn [cs_database]; [done|].
  destruct (load id (cs_database cs)) as [[c|]|e|]; [|done..].
  destruct (group_is_active (conv_group c)); [done|].
  pose proof (kv_remove_keeps EntityType.PersistedMlsGroup (vec_key_of id) (cs_database cs)).
  by destruct (kv_remove EntityType.PersistedMlsGroup (vec_key_of id) (cs_database cs)).
Qed.

Lemma conversation_keeps id : st_frame keeps (conversation id).
Proof.
  unfold conversation. solve_keeps; [|apply pending_conversation_keeps].
  apply with_groups_keeps. apply get_or_fetch_keeps.
Qed.

Lemma persist_conversation_from_mls_group_keeps g cfg :
  st_frame keeps (persist_conversation_from_mls_group g cfg).
Proof.
  unfold persist_conversation_from_mls_group. solve_keeps; by apply with_groups_keeps.
Qed.

Lemma new_conversation_keeps {C} (load : Database -> res CredentialRefError C) new id cfg :
  (forall c cfg id db, provider_calls db (snd (new c cfg id db))) ->
  st_frame keeps (new_conversation load new id cfg).
Proof.
  intros Hnew. unfold new_conversation, crypto_provider.
  solve_keeps; try apply conversation_exists_keeps; try apply pending_conversation_exists_keeps;
    apply persist_conversation_from_mls_group_keeps.
Qed.

Lemma persist_conversation_from_welcome_message_keeps {W} new (welcome : W) cfg :
  (forall cfg w db, provider_calls db (snd (new cfg w db))) ->
  st_frame keeps (persist_conversation_from_welcome_message new welcome cfg).
Proof.
  intros Hnew. unfold persist_conversation_from_welcome_message, crypto_provider.
  solve_keeps; try apply conversation_exists_keeps; try apply pending_conversation_exists_keeps;
    apply persist_conversation_from_mls_group_keeps.
Qed.
End operations.

(** ** A [CoreCrypto] and the contexts created from it *)

Section system.
Context `{X : Externals, !ExternalsLaws X, O : OpenMls, !OpenMlsLaws O}.
Context {M : Type} `{!LruMap M nat}.
Abbreviation World := (World M).
Abbreviation CoreCrypto := (CoreCrypto M).
Abbreviation keeps := (keeps (M := M)).

(** The operations of a context that can be called while it is valid, and their
    sequences.  The closures are calls of OpenMLS. *)
Inductive operation : forall {E A : Type}, st World E A -> Prop :=
  | op_session : operation session
  | op_pki : operation get_pki_environment
  | op_queue id epoch : operation (queue_epoch_changed id epoch)
  | op_mls_init id : operation (mls_init id)
  | op_set_data data : operation (set_data data)
  | op_get_data : operation get_data
  | op_conversation_exists id : operation (conversation_exists id)
  | op_conversation id : operation (conversation id)
  | op_pending_conversation id : operation (pending_conversation id)
  | op_persist g cfg : operation (persist_conversation_from_mls_group g cfg)
  | op_new_conversation {C} (load : Database -> res CredentialRefError C) new id cfg :
      (forall c cfg id db, provider_calls db (snd (new c cfg id db))) ->
      operation (new_conversation load new id cfg)
  | op_welcome {W} new (welcome : W) cfg :
      (forall cfg w db, provider_calls db (snd (new cfg w db))) ->
      operation (persist_conversation_from_welcome_message new welcome cfg)
  | op_save clock e :
      match clock with Some t => (0 <= t <= 253402300799)%Z | None => True end -> entity_ok e ->
      operation (with_database (kv_save clock e))
  | op_remove ty pk : operation (with_database (kv_remove ty pk))
  | op_seq {E A B} (m : st World E A) (f : A -> st World E B) :
      operation m -> (forall a, operation (f a)) -> operation (m ≫= f).

Lemma operation_keeps {E A} (m : st World E A) : operation m -> st_frame keeps m.
Proof.
  induction 1.
  - apply session_keeps.
  - unfold get_pki_environment. by solve_keeps.
  - apply queue_epoch_changed_keeps.
  - apply mls_init_keeps.
  - apply set_data_keeps.
  - apply get_data_keeps.
  - apply conversation_exists_keeps.
  - apply conversation_keeps.
  - apply pending_conversation_keeps.
  - apply persist_conversation_from_mls_group_keeps.
  - by apply new_conversation_keeps.
  - by apply persist_conversation_from_welcome_message_keeps.
  - apply with_database_keeps. intros db. by apply kv_save_keeps.
  - apply with_database_keeps. intros db. apply kv_remove_keeps.
  - by apply st_frame_bind; [apply _|..].
Qed.

(** Fails without changing anything. *)
Definition refused {S E A} (m : st S E A) (s : S) : Prop := exists e, m s = (Err e, s).

Lemma refused_bind {S E A B} (m : st S E A) (f : A -> st S E B) s : refused m s -> refused (m ≫= f) s.
Proof. intros [e He]. exists e. unfold mbind, st_bind. by rewrite He. Qed.

Lemma refused_map_err {S E F A} (g : E -> F) (m : st S E A) s : refused m s -> refused (st_map_err g m) s.
Proof. intros [e He]. exists (g e). unfold st_map_err. by rewrite He. Qed.

Lemma operation_refused {E A} (m : st World E A) w : operation m -> context w = Invalid -> refused m w.
Proof.
  intros Hop Hw. assert (refused valid w) as Hv by (eexists; unfold valid, st_lift; by rewrite Hw).
  assert (refused session w) as Hs by by apply refused_bind.
  induction Hop; try exact Hs; repeat first [exact Hv|exact Hs|apply refused_bind|apply refused_map_err].
  - unfold refused, queue_epoch_changed. rewrite Hw. by eexists.
  - exact IHHop.
Qed.

Record System : Type := MkSystem { sys_core : CoreCrypto; sys_contexts : list TransactionContextInner }.

(** One call, on one of the contexts or on the core. *)
Inductive sys_step : System -> System -> Prop :=
  | sys_new c cs w :
      new_context c = Some w -> sys_step (MkSystem c cs) (MkSystem (core w) (cs ++ [context w]))
  | sys_operation {E A} (m : st World E A) c cs i x r w :
      cs !! i = Some x -> operation m -> m (MkWorld c x) = (r, w) ->
      sys_step (MkSystem c cs) (MkSystem (core w) (<[i := context w]> cs))
  | sys_finish c cs i x r w :
      cs !! i = Some x -> finish (MkWorld c x) = (r, w) ->
      sys_step (MkSystem c cs) (MkSystem (core w) (<[i := context w]> cs))
  | sys_abort c cs i x r w :
      cs !! i = Some x -> abort (MkWorld c x) = (r, w) ->
      sys_step (MkSystem c cs) (MkSystem (core w) (<[i := context w]> cs))
  | sys_close c cs r db :
      take (database c) = Some (r, db) -> sys_step (MkSystem c cs) (MkSystem (set_database db c) cs)
  | sys_observe c cs s s' :
      mls c = Some s -> register_epoch_observer s = Ok s' ->
      sys_step (MkSystem c cs) (MkSystem (set_mls (Some s') c) cs).

Inductive sys_reach : System -> System -> Prop :=
  | sys_refl s : sys_reach s s
  | sys_trans s s' s'' : sys_reach s s' -> sys_step s' s'' -> sys_reach s s''.

Definition live (s : System) (i : nat) : Prop := exists changes, sys_contexts s !! i = Some (Valid changes).

(** The database is well formed, at most one context is valid, and the valid one
    has a transaction in progress. *)
Definition sys_inv (s : System) : Prop :=
  db_inv (database (sys_core s)) /\ (forall i j, live s i -> live s j -> i = j) /\
  (forall i, live s i -> transaction (database (sys_core s)) <> None).

Lemma live_insert c c' cs i x x' j :
  cs !! i = Some x -> (x' = Invalid <-> x = Invalid) \/ x' = Invalid ->
  live (MkSystem c' (<[i := x']> cs)) j -> live (MkSystem c cs) j /\ (j = i -> x' <> Invalid).
Proof.
  intros Hi Hx [ch Hj]. cbn in Hj. destruct (decide (j = i)) as [->|Hne].
  - rewrite list_lookup_insert_eq in Hj by (by eapply lookup_lt_Some). injection Hj as ->.
    split; [|done]. destruct Hx as [Hx|]; [|done]. destruct x as [ch'|]; [by exists ch'|].
    by assert (Valid ch = Invalid) by by apply Hx.
  - rewrite list_lookup_insert_ne in Hj by done. split; [by exists ch|done].
Qed.

Lemma notify_all s changes (c : CoreCrypto) :
  foldl (fun c change => notify_epoch_changed s change c) c changes =
  if epoch_observer s
  then MkCore (database c) (pki_environment c) (mls c) (heap c) (observed c ++ changes) else c.
Proof.
  revert c. induction changes as [|x changes IH]; intros c; cbn.
  - rewrite app_nil_r. by destruct c, (epoch_observer s).
  - rewrite IH. unfold notify_epoch_changed. destruct (epoch_observer s); [|done].
    cbn. by rewrite <- app_assoc.
Qed.

(** [finish] and [abort], as seen from the database and the context. *)
Lemma finish_database w r w' :
  finish w = (r, w') ->
  (exists e, r = Err e /\ w' = w /\ context w = Invalid) \/
  (context w <> Invalid /\
   commit_transaction (database (core w)) =
     (match r with Ok _ => Ok () | Err (TxKeystore e) => Err e | _ => Panic end, database (core w')) /\
   (context w' = Invalid \/ r = Panic /\ context w' = context w)).
Proof.
  unfold finish. destruct (context w) as [ch|] eqn:Hc; [|intros [= <- <-]; left; eauto].
  destruct (commit_transaction (database (core w))) as [[[]|e|] db] eqn:Hcommit; intros [= <- <-];
    right; (split; [done|]); cbn; (split; [f_equal|by eauto]); destruct (mls (core w)) as [s|]; try done.
  cbn. rewrite notify_all. by destruct (epoch_observer s).
Qed.

Lemma abort_database w r w' :
  abort w = (r, w') ->
  (exists e, r = Err e /\ w' = w /\ context w = Invalid) \/
  (context w <> Invalid /\ context w' = Invalid /\
   exists r0, rollback_transaction (database (core w)) = (r0, database (core w'))).
Proof.
  unfold abort. destruct (context w) as [ch|] eqn:Hc; [|intros [= <- <-]; left; eauto].
  intros Ha. right. split; [done|]. revert Ha.
  destruct (mls (core w)) as [s|]; cbn;
    destruct (rollback_transaction (database (core w))) as [r0 db]; intros [= <- <-]; eauto.
Qed.
Lemma idle_permits db : db_inv db -> 0 < permits db -> transaction db = None.
Proof.
  intros (Hp & _) Hpos. unfold tx_count, ALLOWED_CONCURRENT_TRANSACTIONS_COUNT in Hp.
  destruct (transaction db); [lia|done].
Qed.

Lemma new_context_inv (c : CoreCrypto) w :
  db_inv (database c) -> new_context c = Some w ->
  transaction (database c) = None /\ db_inv (database (core w)) /\
  transaction (database (core w)) <> None /\ context w = Valid [] /\ observed (core w) = observed c.
Proof.
  intros Hdb. unfold new_context, new_transaction.
  destruct (decide (0 < permits (database c))) as [Hp|]; [|discriminate].
  intros [= <-]. cbn. split; [by apply idle_permits|]. split; [by apply db_inv_new|done].
Qed.

Lemma commit_transaction_inv db r db' :
  db_inv db -> commit_transaction db = (r, db') ->
  db_inv db' /\ (is_ok r = false -> db' = db).
Proof.
  intros Hdb Hc. split; [eapply db_inv_step; [exact Hdb|by apply step_commit]|].
  unfold commit_transaction in Hc. destruct (transaction db) as [tx|]; [|by injection Hc as <- <-].
  destruct (contents ← get_conn db; tx_commit tx contents); by injection Hc as <- <-.
Qed.

Lemma sys_inv_operation {E A} (m : st World E A) c cs i x r w :
  sys_inv (MkSystem c cs) -> cs !! i = Some x -> operation m -> m (MkWorld c x) = (r, w) ->
  sys_inv (MkSystem (core w) (<[i := context w]> cs)).
Proof.
  intros (Hdb & Hone & Htx) Hi Hop Hm.
  pose proof (operation_keeps m Hop (MkWorld c x)) as (Hk & _ & Ht & _ & _ & Hd). rewrite Hm in *.
  cbn in *. split; [by apply Hd|]. split.
  - intros i' j' [Hi' _]%(live_insert c _ _ _ _ _ _ Hi (or_introl Hk))
      [Hj' _]%(live_insert c _ _ _ _ _ _ Hi (or_introl Hk)). by apply Hone.
  - intros i' [Hi' _]%(live_insert c _ _ _ _ _ _ Hi (or_introl Hk)) Hnone. apply (Htx i' Hi'). by apply Ht.
Qed.

Lemma sys_inv_finish c cs i x r w :
  sys_inv (MkSystem c cs) -> cs !! i = Some x -> finish (MkWorld c x) = (r, w) ->
  sys_inv (MkSystem (core w) (<[i := context w]> cs)).
Proof.
  intros Hinv Hi Hf. destruct (finish_database _ _ _ Hf) as [(e & _ & -> & _)|(Hv & Hcom & Hw)].
  { cbn. by rewrite list_insert_id. }
  destruct Hinv as (Hdb & Hone & Htx). cbn in Hv, Hcom.
  destruct (commit_transaction_inv _ _ _ Hdb Hcom) as [Hdb' Hsame].
  assert ((context w = Invalid <-> x = Invalid) \/ context w = Invalid) as Hx.
  { destruct Hw as [Hw|[_ Hw]]; [by right|left; cbn in Hw; by rewrite Hw]. }
  assert (live (MkSystem c cs) i) as Hlive by (destruct x as [ch|]; [by exists ch|done]).
  split; [done|]. split.
  - intros i' j' [Hi' _]%(live_insert c _ _ _ _ _ _ Hi Hx) [Hj' _]%(live_insert c _ _ _ _ _ _ Hi Hx).
    by apply Hone.
  - intros i' [Hi' Hne]%(live_insert c _ _ _ _ _ _ Hi Hx).
    assert (i' = i) as -> by by apply Hone.
    destruct Hw as [Hw|[-> _]]; [by exfalso; apply Hne|]. cbn. rewrite Hsame by done. by apply (Htx i).
Qed.

Lemma sys_inv_abort c cs i x r w :
  sys_inv (MkSystem c cs) -> cs !! i = Some x -> abort (MkWorld c x) = (r, w) ->
  sys_inv (MkSystem (core w) (<[i := context w]> cs)).
Proof.
  intros Hinv Hi Ha. destruct (abort_database _ _ _ Ha) as [(e & _ & -> & _)|(Hv & Hw & r0 & Hroll)].
  { cbn. by rewrite list_insert_id. }
  destruct Hinv as (Hdb & Hone & Htx).
  assert (live (MkSystem c cs) i) as Hlive by (destruct x as [ch|]; [by exists ch|done]).
  split; [eapply db_inv_step; [exact Hdb|by apply (step_rollback _ r0)]|]. rewrite Hw.
  assert (forall j, live (MkSystem (core w) (<[i := Invalid]> cs)) j -> False) as Hdead.
  { intros j [Hj Hne]%(live_insert c _ _ _ _ _ _ Hi (or_intror eq_refl)).
    assert (j = i) as -> by by apply Hone. by apply Hne. }
  split; [intros i' j' []%Hdead|intros i' []%Hdead].
Qed.

Lemma sys_inv_step s s' : sys_inv s -> sys_step s s' -> sys_inv s'.
Proof.
  intros Hinv Hstep. revert Hinv.
  destruct Hstep as [c cs w Hn|E A m c cs i x r w Hi Hop Hm|c cs i x r w Hi Hf|c cs i x r w Hi Ha|
    c cs r db Hc|c cs s0 s1 Hs Ho]; intros Hinv.
  - destruct Hinv as (Hdb & Hone & Htx).
    destruct (new_context_inv c w Hdb Hn) as (Hnone & Hdb' & Hsome & -> & _).
    assert (forall i, live (MkSystem (core w) (cs ++ [Valid []])) i -> i = length cs) as Hlive.
    { intros i [ch Hi]. cbn in Hi. apply lookup_app_Some in Hi as [Hi|[Hge Hi]].
      - exfalso. apply (Htx i); [by exists ch|done].
      - apply list_lookup_singleton_Some in Hi as [? _]. lia. }
    split; [done|]. split; [|done]. intros i j ->%Hlive ->%Hlive. done.
  - by eapply sys_inv_operation.
  - by eapply sys_inv_finish.
  - by eapply sys_inv_abort.
  - destruct Hinv as (Hdb & Hone & Htx).
    split; [eapply db_inv_step; [exact Hdb|by apply (step_take _ r)]|]. split; [done|].
    intros i Hi. unfold take in Hc. destruct (decide (0 < permits (database c))); [|done].
    injection Hc as _ <-. by apply (Htx i).
  - by destruct Hinv.
Qed.

Lemma sys_inv_reach s s' : sys_inv s -> sys_reach s s' -> sys_inv s'.
Proof. intros Hs Hr. induction Hr; [done|]. eauto using sys_inv_step. Qed.
(** C4: in every state reachable from a freshly opened database, at most one
    transaction context is valid, the valid one has the transaction of the database,
    and a context that was finished or aborted refuses every further operation and
    changes nothing. *)
Theorem one_live_context m contents s :
  represents m contents -> keys_unique m -> sys_reach (MkSystem (core_new (open contents)) []) s ->
  db_inv (database (sys_core s)) /\ (forall i j, live s i -> live s j -> i = j) /\
  (forall i, live s i -> transaction (database (sys_core s)) <> None) /\
  (forall i E A (op : st World E A), sys_contexts s !! i = Some Invalid -> operation op ->
     exists e, op (MkWorld (sys_core s) Invalid) = (Err e, MkWorld (sys_core s) Invalid)).
Proof.
  intros Hrep Hu Hr.
  assert (sys_inv s) as (Hdb & Hone & Htx).
  { eapply sys_inv_reach; [|exact Hr]. split; [by eapply db_inv_open|].
    split; [intros i j [ch Hi]|intros i [ch Hi]]; done. }
  do 3 (split; [done|]). intros i E A op _ Hop. by apply operation_refused.
Qed.

(** No context is valid, but the transaction is still in progress. *)
Definition stuck (s : System) : Prop :=
  sys_inv s /\ transaction (database (sys_core s)) <> None /\ forall i, ~ live s i.

Lemma stuck_permits s : stuck s -> permits (database (sys_core s)) = 0.
Proof.
  intros (((Hp & _) & _) & Htx & _). unfold tx_count, ALLOWED_CONCURRENT_TRANSACTIONS_COUNT in Hp.
  destruct (transaction (database (sys_core s))); [lia|done].
Qed.

Lemma stuck_new_context s : stuck s -> new_context (sys_core s) = None.
Proof. intros Hs%stuck_permits. unfold new_context, new_transaction. by rewrite Hs. Qed.

Lemma stuck_step s s' : stuck s -> sys_step s s' -> stuck s'.
Proof.
  intros Hs Hstep. pose proof (stuck_new_context s Hs) as Hnew. pose proof (stuck_permits s Hs) as Hp.
  destruct Hs as (Hinv & Htx & Hdead).
  pose proof (sys_inv_step s s' Hinv Hstep) as Hinv'. split; [done|]. clear Hinv Hinv'.
  assert (forall c cs i x, s = MkSystem c cs -> cs !! i = Some x -> x = Invalid) as Hall.
  { intros c cs i [ch|] -> Hi; [|done]. exfalso. apply (Hdead i). by exists ch. }
  destruct Hstep as [c cs w Hn|E A m c cs i x r w Hi Hop Hm|c cs i x r w Hi Hf|c cs i x r w Hi Ha|
    c cs r db Hc|c cs s0 s1 Hs Ho]; cbn [sys_core] in *.
  - congruence.
  - assert (x = Invalid) as -> by by eapply Hall.
    destruct (operation_refused m (MkWorld c Invalid) Hop eq_refl) as [e He].
    rewrite He in Hm. injection Hm as _ <-. cbn. by rewrite list_insert_id.
  - assert (x = Invalid) as -> by by eapply Hall. injection Hf as _ <-. cbn. by rewrite list_insert_id.
  - assert (x = Invalid) as -> by by eapply Hall. injection Ha as _ <-. cbn. by rewrite list_insert_id.
  - unfold take in Hc. by rewrite Hp in Hc.
  - done.
Qed.

(** C35: a [finish] whose commit fails blocks the instance for good.  The context
    becomes invalid, so nobody can abort, while the database still holds the
    transaction and the semaphore: whatever is called afterwards, no context is ever
    valid again and [new_transaction] waits forever. *)
Theorem failed_finish_blocks c cs i changes e w s' :
  sys_inv (MkSystem c cs) -> cs !! i = Some (Valid changes) ->
  finish (MkWorld c (Valid changes)) = (Err e, w) ->
  sys_reach (MkSystem (core w) (<[i := context w]> cs)) s' ->
  new_context (sys_core s') = None /\ (forall j, ~ live s' j) /\
  transaction (database (sys_core s')) <> None.
Proof.
  intros Hinv Hi Hf Hr.
  assert (stuck (MkSystem (core w) (<[i := context w]> cs))) as Hstuck.
  { split; [by eapply sys_inv_finish|]. destruct Hinv as (Hdb & Hone & Htx).
    assert (live (MkSystem c cs) i) as Hlive by by exists changes.
    destruct (finish_database _ _ _ Hf) as [(e' & _ & _ & Hbad)|(_ & Hcom & Hw)]; [done|].
    cbn in Hcom. destruct (commit_transaction_inv _ _ _ Hdb Hcom) as [_ Hsame].
    destruct Hw as [Hw|[Hp _]]; [|done]. cbn. rewrite Hw. split.
    - rewrite Hsame by (by destruct e). by apply (Htx i).
    - intros j [Hj Hne]%(live_insert c _ _ _ _ _ _ Hi (or_intror eq_refl)).
      assert (j = i) as -> by by apply Hone. by apply Hne. }
  assert (stuck s') as Hs' by (clear -Hr Hstuck ExternalsLaws0 OpenMlsLaws0; induction Hr; eauto using stuck_step).
  split; [by apply stuck_new_context|]. by destruct Hs' as (_ & Htx' & Hdead').
Qed.
Context `{!LruMapLaws M nat}.

(** The conversation cache is empty. *)
Definition cache_empty (c : CoreCrypto) : Prop :=
  forall s id, mls c = Some s -> lru_peek id (conversation_cache s) = None.

Definition observer_log (c : CoreCrypto) (changes : list (bytes * Z)) : list (bytes * Z) :=
  match mls c with Some s => if epoch_observer s then changes else [] | None => [] end.

Lemma finish_ok w changes w' :
  context w = Valid changes -> finish w = (Ok (), w') ->
  commit_transaction (database (core w)) = (Ok (), database (core w')) /\ context w' = Invalid /\
  observed (core w') = observed (core w) ++ observer_log (core w) changes.
Proof.
  unfold finish, observer_log. intros ->.
  destruct (commit_transaction (database (core w))) as [[[]|e|] db]; [|discriminate..].
  intros [= <-]. cbn. destruct (mls (core w)) as [s|]; [|cbn; by rewrite app_nil_r].
  rewrite notify_all. destruct (epoch_observer s); cbn; by rewrite ?app_nil_r.
Qed.

Lemma finish_err w changes e w' :
  db_inv (database (core w)) -> context w = Valid changes -> finish w = (Err e, w') ->
  database (core w') = database (core w) /\ context w' = Invalid /\
  observed (core w') = observed (core w) /\ cache_empty (core w').
Proof.
  intros Hdb. unfold finish, cache_empty. intros ->.
  destruct (commit_transaction (database (core w))) as [[[]|e'|] db] eqn:Hc; [discriminate| |discriminate].
  destruct (commit_transaction_inv _ _ _ Hdb Hc) as [_ ->]; [|done]. intros [= _ <-]. cbn.
  destruct (mls (core w)) as [s|] eqn:Hs; cbn; [|by rewrite Hs].
  do 3 (split; [done|]). intros s' id [= <-]. apply lru_peek_clear.
Qed.

Lemma abort_ok w changes :
  transaction (database (core w)) <> None -> context w = Valid changes ->
  exists w', abort w = (Ok (), w') /\ context w' = Invalid /\
    database (core w') = set_transaction None (database (core w)) /\
    observed (core w') = observed (core w) /\ cache_empty (core w').
Proof.
  intros Htx Hc. unfold abort, rollback_transaction, cache_empty. rewrite Hc.
  destruct (mls (core w)) as [s|] eqn:Hs; cbn;
    (destruct (transaction (database (core w))) as [tx|] eqn:Ht; [|done]);
    (eexists; split; [reflexivity|]); cbn; rewrite ?Hs; do 3 (split; [done|]); [|done].
  intros s' id [= <-]. apply lru_peek_clear.
Qed.

(** The state in which a command leaves its transaction. *)
Lemma after_command c w0 w1 :
  db_inv (database c) -> new_context c = Some w0 -> keeps w0 w1 ->
  db_inv (database (core w1)) /\ (exists changes, context w1 = Valid changes) /\
  transaction (database (core w1)) <> None /\ observed (core w1) = observed c /\
  permits (database (core w1)) = 0 /\ set_transaction None (database (core w1)) = database c.
Proof.
  intros Hdb Hnew (Hk & Hobs1 & Ht1 & Hp1 & Hconn1 & Hinv1).
  destruct (new_context_inv c w0 Hdb Hnew) as (Hidle & Hdb0 & Hsome & Hctx & Hobs).
  split; [by apply Hinv1|]. rewrite Hobs1. split.
  { destruct (context w1) as [ch|]; [by exists ch|]. rewrite Hctx in Hk. by destruct Hk as [Hk _]; specialize (Hk eq_refl). }
  assert (transaction (database (core w1)) <> None) as Htx1 by tauto. split; [done|]. split; [done|].
  unfold new_context, new_transaction in Hnew. destruct (decide (0 < permits (database c))); [|discriminate].
  injection Hnew as <-. destruct Hdb as (Hp & _).
  unfold tx_count, ALLOWED_CONCURRENT_TRANSACTIONS_COUNT in Hp.
  unfold set_transaction in *. cbn in Hp1, Hconn1. rewrite Hp1, Hconn1, Hidle in *.
  split; [lia|]. destruct (transaction (database (core w1))); [|done].
  destruct (database c) as [cn tx pm]; cbn in *. subst tx. f_equal. lia.
Qed.

(** C5: what a transaction run by the bindings leaves behind.  When the command
    and the commit succeed, the epoch observer is told exactly the queued epoch changes
    in order, another transaction can start, and the entities of the eleven types the
    database finds by their key ([keyed]) are read as the command could read them last;
    nothing is said of pre-shared keys, of the types with a string key, and of pending
    groups, pending messages and the Proteus identity.  When the command fails, its error is returned, the
    database is exactly the one from before, nobody is notified and no conversation
    is cached.  When the commit fails nothing is persisted and nobody is notified,
    but no transaction can start any more. *)
Theorem transaction_ffi_outcome {E} (command : st World E ()) c w0 w1 r0 r w :
  db_inv (database c) -> new_context c = Some w0 -> st_frame keeps command ->
  command w0 = (r0, w1) -> transaction_ffi command c = Some (r, w) ->
  (r0 = Ok () -> r = Ok () -> exists changes, context w1 = Valid changes /\
     observed (core w) = observed c ++ observer_log (core w1) changes /\
     new_context (core w) <> None /\
     forall ty pk, keyed ty = true -> pk_ok ty pk ->
       get ty pk (database (core w)) = get ty pk (database (core w1))) /\
  (forall e, r0 = Err e -> r = Err (CommandError e) /\ database (core w) = database c /\
     observed (core w) = observed c /\ cache_empty (core w)) /\
  (forall e, r0 = Ok () -> r = Err e -> conn (database (core w)) = conn (database c) /\
     observed (core w) = observed c /\ cache_empty (core w) /\ new_context (core w) = None).
Proof.
  intros Hdb Hnew Hframe Hcmd Hffi. pose proof (Hframe w0) as Hkeeps. rewrite Hcmd in Hkeeps. cbn [snd] in Hkeeps.
  destruct (after_command c w0 w1 Hdb Hnew Hkeeps) as (Hinv1 & [changes Hch] & Htx1 & Hobs1 & Hpw & Hback).
  unfold transaction_ffi in Hffi. rewrite Hnew in Hffi. cbn [mbind option_bind] in Hffi.
  unfold st_try in Hffi. rewrite Hcmd in Hffi. split; [|split].
  - intros -> ->. exists changes. split; [done|]. injection Hffi as Hf%st_map_err_Ok.
    destruct (finish_ok w1 changes w Hch Hf) as (Hcom & _ & ->). rewrite Hobs1. split; [done|]. split.
    + destruct (commit_transaction_Ok _ _ Hcom) as (tx & k & k' & Htx & _ & _ & _ & Hnone).
      destruct (commit_transaction_inv _ _ _ Hinv1 Hcom) as [(Hp & _) _]. unfold tx_count in Hp.
      unfold new_context, new_transaction. rewrite Hnone in Hp. rewrite decide_True; [done|].
      unfold ALLOWED_CONCURRENT_TRANSACTIONS_COUNT in Hp. lia.
    + intros ty pk Hty Hpk. by eapply commit_transaction_get.
  - intros e ->. destruct (abort_ok w1 changes Htx1 Hch) as (w2 & Ha & _ & Hd & Ho & He).
    unfold mbind, st_bind, st_map_err in Hffi. rewrite Ha in Hffi. injection Hffi as <- <-.
    split; [done|]. by rewrite Hd, Ho.
  - intros e -> ->. injection Hffi as Hf. unfold st_map_err in Hf.
    destruct (finish w1) as [[[]|e'|] w2] eqn:Hfin; try discriminate. injection Hf as _ ->.
    destruct (finish_err w1 changes e' w Hinv1 Hch Hfin) as (Hd & _ & Ho & He).
    rewrite Hd, Ho. split; [by rewrite <- Hback|]. split; [done|]. split; [done|].
    unfold new_context, new_transaction. by rewrite Hd, Hpw.
Qed.
(** The checkpoint data an application sets in a transaction is what it gets
    in the next one, once the first one has been committed. *)
Theorem checkpoint_persists data (w w1 w2 w3 : World) :
  db_inv (database (core w)) -> transaction (database (core w)) <> None ->
  set_data data w = (Ok (), w1) -> finish w1 = (Ok (), w2) -> new_context (core w2) = Some w3 ->
  fst (get_data w3) = Ok (Some data).
Proof.
  intros Hdb Htx Hset Hfin Hnew.
  set (e := Entity.ConsumerData {| consumer_content := data |}).
  destruct (kv_save_total (inv := in_transaction) None e (database (core w)) None e) as (d & Hs & [Hdb1 _] & Hget);
    [done..|].
  assert (context w1 <> Invalid /\ database (core w1) = d) as [Hc Hd].
  { revert Hset. unfold set_data, with_database, valid, st_lift, on_database, st_map_err, mbind, st_bind.
    fold e. destruct (context w) as [ch|] eqn:Hc; [|discriminate]. rewrite Hs. intros [= <-]. cbn. by rewrite Hc. }
  destruct (context w1) as [ch|] eqn:Hctx; [|done].
  destruct (finish_ok w1 ch w2 Hctx Hfin) as (Hcom & _ & _). rewrite Hd in Hcom.
  assert (get EntityType.ConsumerData (PkU64 (MkUInt 0)) (database (core w2)) = Ok (Some e)) as Hread.
  { rewrite (commit_transaction_get d _ EntityType.ConsumerData (PkU64 (MkUInt 0)) Hdb1 Hcom); [|done|by split].
    change (kv_get EntityType.ConsumerData (PkU64 (MkUInt 0)) d = Ok (Some e)).
    rewrite Hget by (by split). by rewrite decide_True. }
  destruct (commit_transaction_inv _ _ _ Hdb1 Hcom) as [Hdb2 _].
  destruct (new_context_inv _ _ Hdb2 Hnew) as (Hidle & _ & _ & Hctx3 & _).
  assert (kv_get EntityType.ConsumerData (PkU64 (MkUInt 0)) (database (core w3)) = Ok (Some e)) as Hread3.
  { rewrite <- Hread. unfold new_context, new_transaction in Hnew.
    destruct (decide (0 < permits (database (core w2)))); [|discriminate]. injection Hnew as <-.
    unfold kv_get, database_kv, get. cbn [transaction set_transaction]. by rewrite Hidle. }
  unfold get_data, mbind, st_bind, valid, st_lift, st_try, on_database. by rewrite Hctx3, Hread3.
Qed.
End system.

(** ** A run of the model *)

Definition toy_core (db : Database) : CoreCrypto (ToyLru nat) := core_new db.

Definition demo_world : World (ToyLru nat) :=
  default (MkWorld (toy_core demo_open) Invalid) (new_context (toy_core demo_open)).

Lemma one_live_context_witness :
  live (MkSystem (core demo_world) [context demo_world]) 0 /\
  forall i, live (MkSystem (core demo_world) [context demo_world]) i -> i = 0.
Proof.
  assert (live (MkSystem (core demo_world) [context demo_world]) 0) as Hlive by (eexists; reflexivity).
  split; [exact Hlive|]. intros i Hi.
  refine (proj1 (proj2 (one_live_context empty_store ∅ (MkSystem (core demo_world) [context demo_world])
    represents_empty demo_keys_unique _)) i 0 Hi Hlive).
  eapply sys_trans; [apply sys_refl|]. apply (sys_new _ [] demo_world). reflexivity.
Defined.

(** The transaction of [demo_psk_removed] cannot be committed. *)
Definition demo_failing : World (ToyLru nat) := MkWorld (toy_core demo_psk_removed) (Valid []).
Definition demo_failed : World (ToyLru nat) := snd (finish demo_failing).

Lemma demo_psk_removed_tx : transaction demo_psk_removed <> None.
Proof.
  intros Hnone. assert (tx_count demo_psk_removed = 1) as Hc by (vm_compute; reflexivity).
  unfold tx_count in Hc. by rewrite Hnone in Hc.
Qed.

Lemma failed_finish_blocks_witness : new_context (core demo_failed) = None.
Proof.
  refine (proj1 (failed_finish_blocks (toy_core demo_psk_removed) [Valid []] 0 []
    (TxKeystore (KeystoreError.DbError (NoSuchColumn "id"))) demo_failed
    (MkSystem (core demo_failed) [context demo_failed]) _ _ _ _)).
  - split; [exact demo_psk_removed_inv|]. split.
    + intros [|i] [|j] [ch Hi] [ch' Hj]; done.
    + intros i _. apply demo_psk_removed_tx.
  - reflexivity.
  - transitivity (fst (finish demo_failing), demo_failed); [apply surjective_pairing|].
    apply (f_equal (fun r => (r, demo_failed))). vm_compute. reflexivity.
  - apply sys_refl.
Defined.

Definition demo_run : res (FfiError TransactionError) () * World (ToyLru nat) :=
  default (Panic, demo_world) (transaction_ffi (set_data (bstr "checkpoint")) (toy_core demo_open)).

Lemma transaction_ffi_outcome_witness : new_context (core (snd demo_run)) <> None.
Proof.
  destruct (proj1 (transaction_ffi_outcome (set_data (bstr "checkpoint")) (toy_core demo_open) demo_world
    (snd (set_data (bstr "checkpoint") demo_world)) (fst (set_data (bstr "checkpoint") demo_world))
    (fst demo_run) (snd demo_run)
    (db_inv_open empty_store ∅ represents_empty demo_keys_unique) eq_refl (set_data_keeps _)
    (surjective_pairing _) eq_refl)) as (changes & _ & _ & Hnew & _).
  - vm_compute. reflexivity.
  - vm_compute. reflexivity.
  - exact Hnew.
Defined.

Definition demo_data1 : World (ToyLru nat) := snd (set_data (bstr "checkpoint") demo_world).
Definition demo_data2 : World (ToyLru nat) := snd (finish demo_data1).
Definition demo_data3 : World (ToyLru nat) := default demo_data2 (new_context (core demo_data2)).

Lemma checkpoint_persists_witness : fst (get_data demo_data3) = Ok (Some (bstr "checkpoint")).
Proof.
  refine (checkpoint_persists (bstr "checkpoint") demo_world demo_data1 demo_data2 demo_data3 _ _ _ _ _).
  - apply (db_inv_new demo_open); [|vm_compute; lia].
    apply (db_inv_open empty_store ∅ represents_empty demo_keys_unique).
  - discriminate.
  - reflexivity.
  - transitivity (fst (finish demo_data1), demo_data2); [apply surjective_pairing|].
    apply (f_equal (fun r => (r, demo_data2))). vm_compute. reflexivity.
  - reflexivity.
Defined.
