(* ===== verification/ConversationMut.v ===== *)
(** * Guards of conversations

    [crypto/src/mls/conversation/mutable]: changes of the group behind a guard,
    merging and clearing pending commits, and wiping a conversation. *)

From S2P Require Import Prelude Keys EntityTypes Entities ToyExternals Sql KeystoreErrors EntityStore Store Transaction Database EntityKV KeystoreMls CryptoErrors OpenMls ConversationCache TransactionContext.
From Stdlib Require Import Lia ZArith.

Section conversation_mut.
Context `{X : Externals, O : OpenMls} {M : Type} `{!LruMap M nat}.
Abbreviation World := (World M).
Abbreviation conv A := (st World ConversationError A).

(** A step of the context of a guard. *)
Definition in_context {A} (m : st World TransactionError A) : conv A :=
  st_map_err (fun e => ConvRecursive (RecTransactionContext e)) m.

(** What a closure given to [mutate_group] does with the database and the group. *)
Abbreviation group_operation T :=
  (Database -> MlsGroup -> bytes -> res ConversationError T * (Database * MlsGroup)).

(** Writing the group of a conversation. *)
Definition set_group (h : nat) (g : MlsGroup) (c : CoreCrypto M) : CoreCrypto M :=
  set_heap (alter (fun cv => MkConversation (conv_id cv) g (conv_configuration cv)) h (heap c)) c.

Definition update (h : nat) (db : Database) (g : MlsGroup) (w : World) : World :=
  set_core (set_group h g (set_database db (core w))) w.

(** [ConversationMut::mutate_group]: the group is persisted when the closure
    succeeds and has changed it. *)
Definition mutate_group {T} (h : nat) (operation : group_operation T) : conv T :=
  _ ← in_context valid;
  st_of (fun w =>
    match heap (core w) !! h with
    | None => (Panic, w)
    | Some c =>
        let '(result, (db, group)) := operation (database (core w)) (conv_group c) (conv_id c) in
        match result with
        | Err e => (Err e, update h db group w)
        | Panic => (Panic, update h db group w)
        | Ok ok_result =>
            if decide (state_changed group = Changed) then
              match ser_group group with
              | None => (Err (ConvKeystore KeystoreError.KeyStoreValueTransformError), update h db group w)
              | Some state =>
                  let '(r, db) := mls_group_persist (conv_id c) state None db in
                  match r with
                  | Ok _ => (Ok ok_result, update h db (set_state Persisted group) w)
                  | Err e => (Err (ConvKeystore e), update h db group w)
                  | Panic => (Panic, update h db group w)
                  end
              end
            else (Ok ok_result, update h db group w)
        end
    end).

(** The conversation behind a guard. *)
Definition guarded (h : nat) : conv Conversation :=
  st_lift (fun w => expect (heap (core w) !! h)).

(** [ConversationMut::commit_accepted]: the encryption keys of earlier update
    proposals are removed, errors ignored. *)
Definition commit_accepted_operation : group_operation () := fun db group _ =>
  let previous_own_leaf_nodes := own_leaf_keys group in
  match merge_pending_commit_of group db with
  | (false, (group, db)) => (Err (ConvOpenMls OtherOpenMlsError), (db, group))
  | (true, (group, db)) =>
      (Ok (), (foldl (fun db ek => snd (kv_remove EntityType.EncryptionKeyPair (vec_key_of ek) db))
                 db previous_own_leaf_nodes, group))
  end.

Definition commit_accepted (h : nat) : conv () :=
  _ ← in_context crypto_provider; mutate_group h commit_accepted_operation.

(** [ConversationMut::clear_pending_commit]. *)
Definition clear_pending_commit_operation : group_operation () := fun db group _ =>
  if pending_commit group then (Ok (), (db, clear_pending_commit_of group))
  else (Err PendingCommitNotFound, (db, group)).

Definition clear_pending_commit (h : nat) : conv () := mutate_group h clear_pending_commit_operation.

(** [ConversationMut::ensure_no_pending_commit]. *)
Definition ensure_no_pending_commit (h : nat) : conv () :=
  st_try (clear_pending_commit h) (fun r =>
    match r with
    | Ok _ => mret ()
    | Err PendingCommitNotFound => mret ()
    | Err e => st_throw e
    | Panic => st_of (fun w => (Panic, w))
    end).

(** [ConversationMut::merge_commit]. *)
Definition merge_commit (h : nat) : conv () :=
  _ ← commit_accepted h;
  c ← guarded h;
  in_context (queue_epoch_changed (conv_id c) (group_epoch (conv_group c))).

(** [ConversationMut::wipe]. *)
Fixpoint remove_proposals (proposals : list bytes) (db : Database) (group : MlsGroup) :
    res ConversationError () * (Database * MlsGroup) :=
  match proposals with
  | [] => (Ok (), (db, group))
  | p :: proposals =>
      match remove_pending_proposal_of group p db with
      | (false, (group, db)) => (Err (ConvOpenMls OtherOpenMlsError), (db, group))
      | (true, (group, db)) => remove_proposals proposals db group
      end
  end.

Definition wipe_operation : group_operation () := fun db group _ =>
  let db := delete_previous_epoch_keypairs_of group db in
  remove_proposals (pending_proposal_refs group) db group.

Definition wipe (h : nat) : conv () :=
  _ ← in_context crypto_provider;
  _ ← in_context session;
  _ ← mutate_group h wipe_operation;
  c ← guarded h;
  _ ← st_map_err ConvKeystore (on_database (mls_group_delete (conv_id c)));
  in_context (with_groups (fun cs =>
    (Ok (), MkCacheState (cache_remove (conv_id c) (cs_cache cs)) (cs_heap cs) (cs_database cs)))).
End conversation_mut.
