(* ===== verification/CacheCoherence.v ===== *)
(** * The conversation cache agrees with the keystore

    The cache outlives transactions; a cached conversation must be the persisted
    one, or later transactions would work on a state that was rolled back. *)

From S2P Require Import Prelude Keys EntityTypes Entities ToyExternals Sql KeystoreErrors EntityStore Store Transaction TransactionInvariant TransactionCommit Database DatabaseProps EntityKV KeystoreMls CryptoErrors OpenMls ConversationCache TransactionContext TransactionContextProps ConversationMut.
From Stdlib Require Import Lia ZArith.

Section stored_groups.
Context `{X : Externals, !ExternalsLaws X, O : OpenMls, !OpenMlsLaws O}.

(** The group a reader of the database finds under an id. *)
Definition stored_group (id : bytes) (db : Database) : option MlsGroup :=
  match kv_get EntityType.PersistedMlsGroup (vec_key_of id) db with
  | Ok (Some (Entity.PersistedMlsGroup p)) => deser_group (group_state p)
  | _ => None
  end.

(** The database without the transaction in progress. *)
Definition persisted (db : Database) : Database := MkDatabase (conn db) None 1.

(** Groups are stored under their own id. *)
Definition groups_ok (db : Database) : Prop :=
  forall id g, stored_group id db = Some g -> group_group_id g = id.

(** A write that does not touch the records of a type. *)
Definition same_reads (ty : EntityType.t) (db db' : Database) : Prop :=
  keeps_database db db' /\
  (db_inv db -> forall pk, pk_ok ty pk -> kv_get ty pk db' = kv_get ty pk db).

#[export] Instance same_reads_preorder ty : PreOrder (same_reads ty).
Proof.
  split; [done|]. intros a b c [H1 H2] [G1 G2]. split; [by etrans|].
  intros Ha pk Hpk. rewrite G2 by (done || by apply H1). by apply H2.
Qed.

Abbreviation same_groups := (same_reads EntityType.PersistedMlsGroup).

Lemma same_groups_stored db db' id :
  same_groups db db' -> db_inv db -> stored_group id db' = stored_group id db.
Proof. intros [_ Hs] Hdb. unfold stored_group. by rewrite Hs. Qed.

Lemma save_idle clock e db : transaction db = None -> snd (kv_save clock e db) = db.
Proof. intros Ht. cbn. unfold save, with_transaction. by rewrite Ht. Qed.

Lemma remove_idle ty pk db : transaction db = None -> snd (kv_remove ty pk db) = db.
Proof. intros Ht. cbn. unfold remove, with_transaction. by rewrite Ht. Qed.

Lemma save_same_reads ty e db auto e' :
  entity_ok e -> pre_save None e = Ok (auto, e') -> Entity.typ e <> ty ->
  same_reads ty db (snd (kv_save None e db)).
Proof.
  intros He Hpre Hty. split; [by apply kv_save_keeps|]. intros Hdb pk Hpk.
  destruct (transaction db) as [tx|] eqn:Ht; [|by rewrite save_idle].
  assert (in_transaction db) as Hin by (split; [done|by rewrite Ht]).
  destruct (kv_save_total (inv := in_transaction) None e db auto e' Hin I He Hpre) as (d & -> & _ & Hget).
  cbn [snd]. rewrite Hget by done. rewrite decide_False; [done|]. intros [= Heq _]. congruence.
Qed.

Lemma remove_same_reads ty ty' pk db : ty' <> ty -> same_reads ty db (snd (kv_remove ty' pk db)).
Proof.
  intros Hty. split; [by apply kv_remove_keeps|]. intros Hdb pk' Hpk'.
  destruct (transaction db) as [tx|] eqn:Ht; [|by rewrite remove_idle].
  assert (in_transaction db) as Hin by (split; [done|by rewrite Ht]).
  destruct (kv_remove_total (inv := in_transaction) ty' pk db Hin) as (d & -> & _ & Hget).
  cbn [snd]. rewrite Hget by done. rewrite decide_False; [done|]. congruence.
Qed.

(** OpenMLS only writes records of the types of its key store. *)
Lemma provider_same_reads ty db db' :
  (forall id, id <> GroupState -> id <> SignatureKeyPair -> mls_type id <> ty) ->
  provider_calls db db' -> same_reads ty db db'.
Proof.
  intros Hty. induction 1 as [|V ser id k v db db' _ IH|id k db db' Hg Hs _ IH]; [done| |]; (etrans; [|exact IH]).
  - unfold store. destruct k as [|b k]; [done|]. destruct (ser v) as [data|]; [|done].
    destruct (mls_entity id (b :: k) data) as [e|] eqn:He; [|done].
    destruct (mls_entity_id _ _ _ _ He) as (Hid & Hok & Hpre).
    assert (same_reads ty db (snd (kv_save None e db))) as Hs.
    { eapply save_same_reads; [done..|]. injection Hid as -> _. apply Hty; by intros ->. }
    by destruct (kv_save None e db).
  - pose proof (Hty id Hg Hs). destruct id; try done; by apply remove_same_reads.
Qed.

Lemma provider_same_groups db db' : provider_calls db db' -> same_groups db db'.
Proof. apply provider_same_reads. by intros []. Qed.

(** Clearing the buffered messages of a conversation. *)
Lemma remove_pending_same_reads ty cid db :
  ty <> EntityType.MlsPendingMessage ->
  same_reads ty db (snd (remove_pending_messages_by_conversation_id cid db)).
Proof.
  intros Hty. destruct (remove_pending_messages_by_conversation_id cid db) as [r db'] eqn:Hr. cbn [snd].
  destruct (with_transaction_keeps _ _ _ _ Hr) as (H1 & H2 & H3).
  split; [do 3 (split; [done|]); intros Hi; eapply db_inv_step; [exact Hi|by eapply step_remove_pending]|].
  intros (_ & Htx & _) pk Hpk. unfold remove_pending_messages_by_conversation_id, with_transaction in Hr.
  destruct (transaction db) as [tx|] eqn:Ht; [|by injection Hr as _ <-]. specialize (Htx tx eq_refl).
  pose proof (tx_remove_pending_messages_preserves cid tx) as Hpres.
  rewrite tx_remove_pending_messages_eq in Hr, Hpres by done. cbn in Hr. injection Hr as _ <-. cbn.
  unfold get. cbn. rewrite Ht. cbn. rewrite !tx_get_eq by (done || by eapply Hpres). cbn zeta.
  rewrite tx_cached_remove_pending. cbn [deleted].
  rewrite (decide_False (P := EntityId.typ _ = _)) by done.
  rewrite (decide_ext (EntityId.MkId ty (pk_bytes pk) ∈ _) (EntityId.MkId ty (pk_bytes pk) ∈ deleted tx)); [done|].
  rewrite elem_of_union, elem_of_singleton. split; [|by right]. intros [[= Heq _]|?]; done.
Qed.

(** Persisting and deleting a group while a transaction is in progress. *)
Lemma persist_stored id state parent db :
  in_transaction db ->
  exists db', mls_group_persist id state parent db = (Ok (), db') /\ keeps_database db db' /\
    forall id', stored_group id' db' = if decide (id' = id) then deser_group state else stored_group id' db.
Proof.
  intros Hin.
  set (e := Entity.PersistedMlsGroup {| group_id := id; group_state := state; group_parent_id := parent |}).
  destruct (kv_save_total (inv := in_transaction) None e db None e Hin I I eq_refl) as (d & Hs & _ & Hget).
  pose proof (mls_group_persist_keeps id state parent db) as Hk. unfold mls_group_persist in *. fold e in Hk |- *.
  rewrite Hs in *. exists d. split; [done|]. split; [done|]. intros id'. unfold stored_group. rewrite Hget by done.
  destruct (decide (id' = id)) as [->|Hne].
  - by rewrite decide_True by done.
  - rewrite decide_False; [done|]. by intros [= ?].
Qed.

Lemma delete_stored id db :
  in_transaction db ->
  exists db', mls_group_delete id db = (Ok (), db') /\ keeps_database db db' /\
    forall id', stored_group id' db' = if decide (id' = id) then None else stored_group id' db.
Proof.
  intros Hin.
  destruct (kv_remove_total (inv := in_transaction) EntityType.PersistedMlsGroup (vec_key_of id) db Hin)
    as (d & Hs & _ & Hget).
  pose proof (kv_remove_keeps EntityType.PersistedMlsGroup (vec_key_of id) db) as Hk.
  unfold mls_group_delete. rewrite Hs in *. exists d. split; [done|]. split; [done|].
  intros id'. unfold stored_group. rewrite Hget by done. destruct (decide (id' = id)) as [->|Hne].
  - by rewrite decide_True by done.
  - rewrite decide_False; [done|]. by intros [= ?].
Qed.

Lemma keeps_persisted db db' : keeps_database db db' -> persisted db' = persisted db.
Proof. intros (_ & _ & Hc & _). unfold persisted. by rewrite Hc. Qed.

Lemma stored_group_commit db db' id :
  db_inv db -> commit_transaction db = (Ok (), db') -> stored_group id db' = stored_group id db.
Proof.
  intros Hdb Hc. unfold stored_group. cbn.
  by rewrite (commit_transaction_get db db' EntityType.PersistedMlsGroup (vec_key_of id) Hdb Hc).
Qed.

(** Without a transaction, readers see the persisted tables. *)
Lemma stored_group_idle db id : transaction db = None -> stored_group id db = stored_group id (persisted db).
Proof. intros Ht. unfold stored_group, persisted. cbn. unfold get. by rewrite Ht. Qed.
End stored_groups.

Section coherence.
Context `{X : Externals, !ExternalsLaws X, O : OpenMls, !OpenMlsLaws O}.
Context {M : Type} `{!LruMap M nat, !LruMapLaws M nat}.
Abbreviation World := (World M).
Abbreviation CoreCrypto := (CoreCrypto M).
Abbreviation CacheState := (CacheState (M := M)).
Abbreviation same_groups := (same_reads EntityType.PersistedMlsGroup).

(** The handle of a conversation that is stored under the id, with the same group
    unless the group is flagged as changed since it was persisted. *)
Definition current (id : bytes) (h : nat) (hp : list Conversation) (db : Database) : Prop :=
  exists c g, hp !! h = Some c /\ conv_id c = id /\ stored_group id db = Some g /\
    (state_changed (conv_group c) = Persisted -> same_group g (conv_group c)).

(** The conversations that were changed through a guard which no longer was the cached one: it
    had been evicted and loaded a second time while the guard was held. *)
Context (stale : gset bytes).

(** Every other cached conversation is the stored one. *)
Definition coherent (m : M) (hp : list Conversation) (db : Database) : Prop :=
  forall id h, id ∉ stale -> lru_peek id m = Some h -> current id h hp db.

(** Conversations carry the id of their group. *)
Definition heap_ok (hp : list Conversation) : Prop :=
  Forall (fun c => group_group_id (conv_group c) = conv_id c) hp.

Definition stores_ok (hp : list Conversation) (db : Database) : Prop :=
  db_inv db /\ groups_ok db /\ groups_ok (persisted db) /\ heap_ok hp.

Definition cs_inv (cs : CacheState) : Prop :=
  stores_ok (cs_heap cs) (cs_database cs) /\ coherent (cs_cache cs) (cs_heap cs) (cs_database cs).

(** The invariant of a context and its core. *)
Definition cache_inv (w : World) : Prop :=
  (context w <> Invalid -> transaction (database (core w)) <> None) /\
  stores_ok (heap (core w)) (database (core w)) /\
  forall s, mls (core w) = Some s -> coherent (conversation_cache s) (heap (core w)) (database (core w)).

Lemma current_app id h hp c db : current id h hp db -> current id h (hp ++ [c]) db.
Proof. intros (c0 & g & Hc & Hr). exists c0, g. split; [by apply lookup_app_l_Some|done]. Qed.

Lemma current_db id h hp db db' :
  stored_group id db' = stored_group id db -> current id h hp db -> current id h hp db'.
Proof. intros Heq (c & g & H1 & H2 & H3 & H4). exists c, g. by rewrite Heq. Qed.

Lemma stores_ok_same_groups hp db db' : same_groups db db' -> stores_ok hp db -> stores_ok hp db'.
Proof.
  intros Hsg (Hdb & Hg & Hp & Hh). pose proof (proj1 Hsg) as Hk. split; [by apply Hk|]. split; [|split; [|done]].
  - intros id g. rewrite (same_groups_stored _ _ _ Hsg Hdb). apply Hg.
  - by rewrite (keeps_persisted _ _ Hk).
Qed.

Lemma coherent_same_groups m hp db db' :
  db_inv db -> same_groups db db' -> coherent m hp db -> coherent m hp db'.
Proof. intros Hdb Hs Hc id h Hst Hp. eapply current_db; [by apply same_groups_stored|by apply Hc]. Qed.

(** Storing a group of a conversation. *)
Lemma stores_ok_persist hp db db' id state :
  stores_ok hp db -> keeps_database db db' -> (forall g, deser_group state = Some g -> group_group_id g = id) ->
  (forall id', stored_group id' db' = if decide (id' = id) then deser_group state else stored_group id' db) ->
  stores_ok hp db'.
Proof.
  intros (Hdb & Hg & Hp & Hh) Hk Hid Hs. split; [by apply Hk|]. split; [|split; [|done]].
  - intros id' g. rewrite Hs. destruct (decide (id' = id)) as [->|]; [apply Hid|apply Hg].
  - by rewrite (keeps_persisted _ _ Hk).
Qed.

Lemma stores_ok_delete hp db db' id :
  stores_ok hp db -> keeps_database db db' ->
  (forall id', stored_group id' db' = if decide (id' = id) then None else stored_group id' db) ->
  stores_ok hp db'.
Proof.
  intros (Hdb & Hg & Hp & Hh) Hk Hs. split; [by apply Hk|]. split; [|split; [|done]].
  - intros id' g. rewrite Hs. by destruct (decide (id' = id)) as [->|]; [|apply Hg].
  - by rewrite (keeps_persisted _ _ Hk).
Qed.

Lemma heap_ok_app hp c : heap_ok hp -> group_group_id (conv_group c) = conv_id c -> heap_ok (hp ++ [c]).
Proof. intros. apply Forall_app. by repeat constructor. Qed.

(** Inserting the conversation that is stored. *)
Lemma coherent_insert m hp db c g :
  coherent m hp db \/ (forall id h, id ∉ stale -> lru_peek id m = Some h -> id <> conv_id c -> current id h hp db) ->
  stored_group (conv_id c) db = Some g -> same_group g (conv_group c) ->
  coherent (lru_insert (conv_id c) (length hp) m) (hp ++ [c]) db /\ current (conv_id c) (length hp) (hp ++ [c]) db.
Proof.
  intros Hco Hs Hg.
  assert (current (conv_id c) (length hp) (hp ++ [c]) db) as Hnew.
  { exists c, g. split; [by rewrite lookup_app_r, Nat.sub_diag|done]. }
  split; [|done]. intros id h Hns [[-> ->]|[Hne Hp]]%lru_peek_insert; [done|].
  apply current_app. destruct Hco as [Hco|Hco]; [by apply Hco|by apply Hco].
Qed.

Lemma load_stored id db c :
  load id db = Ok (Some c) ->
  stored_group id db = Some (conv_group c) /\ group_group_id (conv_group c) = conv_id c.
Proof.
  unfold load, stored_group. destruct (kv_get EntityType.PersistedMlsGroup (vec_key_of id) db) as [[e|]|e|];
    [destruct e|..]; try discriminate. cbn. unfold from_serialized_state.
  match goal with |- context [deser_group ?b] => destruct (deser_group b) as [g|] end; [|discriminate].
  by intros [= <-].
Qed.

Lemma get_or_fetch_inv id cs r cs' :
  cs_inv cs -> transaction (cs_database cs) <> None -> get_or_fetch id cs = (r, cs') ->
  cs_inv cs' /\ forall h, r = Ok (Some h) -> id ∉ stale -> current id h (cs_heap cs') (cs_database cs').
Proof.
  intros [Hok Hco] Htx. unfold get_or_fetch.
  pose proof (lru_get_peek id (cs_cache cs)) as Hget.
  pose proof (fun id' => lru_peek_get id id' (cs_cache cs)) as Hpeek.
  destruct (lru_get id (cs_cache cs)) as [entry cache]. cbn in Hget, Hpeek.
  assert (coherent cache (cs_heap cs) (cs_database cs)) as Hco'.
  { intros id' h Hns Hp. apply Hco; [done|]. by rewrite <- Hpeek. }
  destruct entry as [h0|]; cbn [cs_database cs_heap cs_cache].
  { intros [= <- <-]. split; [done|]. intros h [= <-] Hns. by apply Hco. }
  destruct (load id (cs_database cs)) as [[c|]|e|] eqn:Hload;
    [|intros [= <- <-]; (split; [by split|by intros h [=]])..].
  destruct (load_stored _ _ _ Hload) as [Hs Hcid].
  assert (conv_id c = id) as Hid by (rewrite <- Hcid; by apply (proj1 (proj2 Hok))).
  destruct (group_is_active (conv_group c)).
  - intros [= <- <-]. rewrite <- Hid in Hs |- *.
    destruct (coherent_insert cache (cs_heap cs) (cs_database cs) c (conv_group c) (or_introl Hco') Hs)
      as [Hins Hcur]; [done|].
    split; [split; [|done]|by intros h [= <-]].
    destruct Hok as (Hdb & Hg & Hp & Hh). do 3 (split; [done|]). by apply heap_ok_app.
  - destruct (delete_stored id (cs_database cs)) as (db & Hd & Hk & Hst).
    { split; [apply Hok|done]. }
    unfold mls_group_delete in Hd. rewrite Hd. intros [= <- <-]. split; [|discriminate].
    split; [by eapply stores_ok_delete|]. intros id' h Hns Hp. cbn in *. eapply current_db; [|by apply Hco'].
    rewrite Hst, decide_False; [done|]. intros ->. rewrite Hpeek in Hp. congruence.
Qed.
(** ** Operations of a context *)

Lemma set_database_id (w : World) : set_core (set_database (database (core w)) (core w)) w = w.
Proof. by destruct w as [[]]. Qed.

Lemma with_groups_run {A} (f : st CacheState CoreError A) (w : World) r w' :
  with_groups f w = (r, w') ->
  (exists e, r = Err e /\ w' = w) \/
  exists s r0 cs', context w <> Invalid /\ mls (core w) = Some s /\
    f (MkCacheState (conversation_cache s) (heap (core w)) (database (core w))) = (r0, cs') /\
    r = map_err (fun e => TxRecursive (Root e)) r0 /\
    w' = set_core (set_mls (Some (set_cache (cs_cache cs') s))
           (set_heap (cs_heap cs') (set_database (cs_database cs') (core w)))) w.
Proof.
  unfold with_groups, session, valid, st_lift, st_of, mbind, st_bind.
  destruct (context w) as [ch|]; [|intros [= <- <-]; left; eauto].
  destruct (mls (core w)) as [s|]; [|intros [= <- <-]; left; eauto]. cbn.
  match goal with |- context [f ?cs] => destruct (f cs) as [r0 cs'] eqn:Hf end.
  intros [= <- <-]. right. by exists s, r0, cs'.
Qed.

Lemma with_groups_inv {A} (f : st CacheState CoreError A) w r w' (Q : A -> CacheState -> Prop) :
  cache_inv w -> with_groups f w = (r, w') ->
  (forall cs r0 cs', cs_inv cs -> transaction (cs_database cs) <> None ->
     f cs = (r0, cs') ->
     cs_inv cs' /\ keeps_database (cs_database cs) (cs_database cs') /\ forall a, r0 = Ok a -> Q a cs') ->
  cache_inv w' /\ forall a, r = Ok a -> exists m, Q a (MkCacheState m (heap (core w')) (database (core w'))).
Proof.
  intros Hinv Hrun Hf. destruct (with_groups_run f w r w' Hrun) as [(e & -> & ->)|(s & r0 & cs' & Hc & Hs & Hfc & -> & ->)];
    [split; [done|discriminate]|].
  destruct Hinv as (Htx & Hok & Hco). specialize (Htx Hc).
  apply Hf in Hfc as ([Hok' Hco'] & (Ht & _) & HQ); [|by split; [|apply Hco]|done].
  cbn in *.
  split; [split; [cbn; tauto|split; [done|by intros s' [= <-]]]|].
  intros a Ha. destruct r0; try discriminate. injection Ha as ->. exists (cs_cache cs').
  destruct cs'. by apply HQ.
Qed.

Lemma pending_conversation_state id (w : World) : snd (pending_conversation id w) = w.
Proof.
  unfold pending_conversation, read_database, with_database, valid, on_database, st_map_err, st_lift, mbind, st_bind.
  destruct (context w) as [ch|]; [|done]. cbn. rewrite set_database_id.
  destruct (get EntityType.PersistedMlsPendingGroup (vec_key_of id) (database (core w))) as [[e|]|e|];
    [destruct e|..]; done.
Qed.

Lemma conversation_inv id (w : World) r w' :
  cache_inv w -> conversation id w = (r, w') ->
  cache_inv w' /\ forall h, r = Ok h -> id ∉ stale -> current id h (heap (core w')) (database (core w')).
Proof.
  intros Hinv. unfold conversation at 1. unfold mbind at 1, st_bind at 1.
  destruct (valid w) as [[[]|e|] w0] eqn:Hv;
    [|intros [= <- <-]; injection Hv as _ <-; split; [done|discriminate]..].
  assert (w0 = w) as -> by (unfold valid, st_lift in Hv; congruence). clear Hv.
  unfold mbind at 1, st_bind at 1. destruct (session w) as [[s|e|] w0] eqn:Hs;
    (assert (w0 = w) as -> by (revert Hs; unfold session, valid, st_lift, mbind, st_bind;
       destruct (context w); cbn; congruence)); [|intros [= <- <-]; split; [done|discriminate]..].
  unfold mbind at 1, st_bind at 1. destruct (with_groups (get_or_fetch id) w) as [r1 w1] eqn:Hg.
  destruct (with_groups_inv _ w r1 w1 (fun o cs => forall h, o = Some h -> id ∉ stale -> current id h (cs_heap cs) (cs_database cs))
    Hinv Hg) as [Hinv1 Hcur].
  { intros cs r0 cs' Hcs Htx Hf. pose proof (get_or_fetch_keeps id cs) as Hk. rewrite Hf in Hk.
    destruct (get_or_fetch_inv id cs r0 cs' Hcs Htx Hf) as [Hcs' Hh]. split; [done|]. split; [done|].
    intros o -> h ->. by apply Hh. }
  destruct r1 as [[h|]|e|]; [| |intros [= <- <-]; by split..].
  - intros [= <- <-]. split; [done|]. intros h' [= <-].
    destruct (Hcur (Some h) eq_refl) as [m Hm]. by apply Hm.
  - pose proof (pending_conversation_state id w1) as Hst. unfold mbind, st_bind.
    destruct (pending_conversation id w1) as [[p|e|] w2]; cbn in Hst; subst w2;
      intros [= <- <-]; split; done.
Qed.
Lemma valid_run (w : World) : context w <> Invalid -> valid w = (Ok (), w).
Proof. unfold valid, st_lift. by destruct (context w). Qed.

Lemma session_run (w : World) :
  (exists s, context w <> Invalid /\ mls (core w) = Some s /\ session w = (Ok s, w)) \/
  (exists e, session w = (Err e, w)).
Proof.
  unfold session, valid, st_lift, mbind, st_bind. destruct (context w) as [ch|]; [|right; by eexists].
  destruct (mls (core w)) as [s|]; cbn; [left; by exists s|right; by eexists].
Qed.

Lemma persist_conversation_inv g cfg (w : World) r w' :
  cache_inv w -> persist_conversation_from_mls_group g cfg w = (r, w') ->
  cache_inv w' /\ forall h, r = Ok h -> current (group_group_id g) h (heap (core w')) (database (core w')).
Proof.
  intros Hinv. unfold persist_conversation_from_mls_group, with_groups, with_database.
  unfold mbind, st_bind, st_map_err.
  destruct (session_run w) as [(s & Hc & Hs & ->)|[e ->]]; [|intros [= <- <-]; by split]. cbn [map_err].
  rewrite valid_run by done. unfold st_lift. destruct (ser_group g) as [state|] eqn:Hser;
    [|intros [= <- <-]; by split]. cbn [ok_or]. rewrite valid_run by done.
  destruct Hinv as (Htx & Hok & Hco). specialize (Htx Hc).
  destruct (persist_stored (group_group_id g) state None (database (core w))) as (db & Hp & Hk & Hst);
    [split; [apply Hok|done]|].
  unfold on_database. rewrite Hp. cbn [map_err].
  destruct (deser_ser_group g state Hser) as (g' & Hd & Hsame).
  match goal with |- context [session ?w1] => assert (session w1 = (Ok s, w1)) as -> end.
  { unfold session, valid, st_lift, mbind, st_bind. cbn. by destruct (context w); [rewrite Hs|]. }
  unfold st_of, cache_insert, alloc. intros [= <- <-]. cbn.
  set (c := MkConversation (group_group_id g) (set_state Persisted g) cfg).
  assert (stores_ok (heap (core w)) db) as Hok1.
  { eapply stores_ok_persist; [done|done| |exact Hst]. intros g0 Hg0. rewrite Hd in Hg0. injection Hg0 as <-.
    by apply same_group_id. }
  destruct (coherent_insert (conversation_cache s) (heap (core w)) db c g') as [Hins Hcur].
  { right. intros id h Hns Hpk Hne. eapply current_db; [|by apply (Hco s Hs)]. by rewrite Hst, decide_False. }
  { rewrite Hst. by rewrite decide_True. }
  { etrans; [exact Hsame|]. symmetry. apply same_group_set_state. }
  split; [|by intros h [= <-]]. split; [cbn; intros _; destruct Hk; tauto|].
  split; [|by intros s' [= <-]]. destruct Hok1 as (Hd1 & Hg1 & Hp1 & Hh1). do 3 (split; [done|]).
  apply heap_ok_app; [done|]. apply group_id_set_state.
Qed.

(** ** Guards *)

(** A closure that only touches its group through OpenMLS: it writes no group to
    the keystore, keeps the id, and flags the group as changed if it changes it,
    even when it fails. *)
Definition well_behaved {T} (op : Database -> MlsGroup -> bytes -> res ConversationError T * (Database * MlsGroup)) : Prop :=
  forall db g id r db' g', op db g id = (r, (db', g')) ->
    same_groups db db' /\ group_group_id g' = group_group_id g /\ flagged g g'.

(** The guard holds the cached conversation, or its conversation is not cached, or counts as
    stale. *)
Definition guard_current (h : nat) (w : World) : Prop :=
  forall s c, mls (core w) = Some s -> heap (core w) !! h = Some c -> conv_id c ∉ stale ->
    lru_peek (conv_id c) (conversation_cache s) = Some h \/ lru_peek (conv_id c) (conversation_cache s) = None.

(** The part of the invariant a failing closure keeps. *)
Definition stores_inv (w : World) : Prop :=
  (context w <> Invalid -> transaction (database (core w)) <> None) /\
  stores_ok (heap (core w)) (database (core w)).

Lemma heap_ok_alter h c g hp :
  heap_ok hp -> hp !! h = Some c -> group_group_id g = group_group_id (conv_group c) ->
  heap_ok (alter (fun cv => MkConversation (conv_id cv) g (conv_configuration cv)) h hp).
Proof.
  intros Hh Hc Hg. apply Forall_alter; [done|]. intros c' Hc' Hid. cbn in *.
  rewrite Hc in Hc'. injection Hc' as <-. congruence.
Qed.

Lemma stores_inv_update h db g c w :
  stores_inv w -> heap (core w) !! h = Some c -> group_group_id g = group_group_id (conv_group c) ->
  stores_ok (heap (core w)) db -> (transaction db = None <-> transaction (database (core w)) = None) ->
  stores_inv (update h db g w).
Proof.
  intros [Htx _] Hc Hg (Hdb & Hgs & Hp & Hh) Ht. split; [cbn; tauto|]. do 3 (split; [done|]).
  by eapply heap_ok_alter.
Qed.
(** The cache after the group of a guard was replaced, in memory and in the
    keystore, by the same group. *)
Lemma coherent_update h c g m (w : World) db g' :
  coherent m (heap (core w)) (database (core w)) -> heap (core w) !! h = Some c ->
  (conv_id c ∉ stale -> lru_peek (conv_id c) m = Some h \/ lru_peek (conv_id c) m = None) ->
  (forall id, id <> conv_id c -> stored_group id db = stored_group id (database (core w))) ->
  (lru_peek (conv_id c) m = Some h -> stored_group (conv_id c) db = Some g' /\
     (state_changed g = Persisted -> same_group g' g)) ->
  coherent m (heap (core (update h db g w))) db.
Proof.
  intros Hco Hc Hcur Hother Hown id h' Hns Hp. cbn. destruct (Hco id h' Hns Hp) as (c' & g0 & Hc' & Hid & Hst & Hsame).
  destruct (decide (id = conv_id c)) as [Heq|Hne].
  - rewrite Heq in *. assert (h' = h) as -> by (destruct (Hcur Hns); congruence).
    rewrite Hc in Hc'. injection Hc' as <-. destruct Hown as [Hs Hg]; [done|].
    eexists _, g'. rewrite list_lookup_alter_eq, Hc. by repeat split.
  - exists c', g0. rewrite Hother by done. split; [|done].
    rewrite list_lookup_alter_ne; [done|]. intros <-. congruence.
Qed.

(** A group that was not persisted. *)
Lemma unpersisted_inv h c g db w :
  cache_inv w -> heap (core w) !! h = Some c -> stores_inv (update h db g w) ->
  same_groups (database (core w)) db -> flagged (conv_group c) g -> cache_inv (update h db g w).
Proof.
  intros (_ & Hok & Hco) Hh [Htx' Hok'] Hsame Hflag. do 2 (split; [done|]).
  intros s Hs. pose proof (fun id => same_groups_stored _ _ id Hsame (proj1 Hok)) as Hsg.
  intros id h' Hns Hp. cbn [update core heap]. destruct (Hco s Hs id h' Hns Hp) as (c' & g0 & Hc' & Hid & Hst0 & Hs0).
  destruct (decide (h' = h)) as [->|Hne].
  - rewrite Hh in Hc'. injection Hc' as <-. eexists _, g0. cbn. rewrite list_lookup_alter_eq, Hh. split; [done|].
    split; [done|]. rewrite Hsg. split; [done|]. destruct Hflag as [-> | Hch]; [done|]. cbn. rewrite Hch. discriminate.
  - exists c', g0. cbn. rewrite list_lookup_alter_ne by done. by rewrite Hsg.
Qed.

Lemma mutate_group_run {T} h (op : Database -> MlsGroup -> bytes -> res ConversationError T * (Database * MlsGroup)) w r w' :
  stores_inv w -> well_behaved op -> mutate_group h op w = (r, w') ->
  stores_inv w' /\ (cache_inv w -> guard_current h w -> cache_inv w').
Proof.
  intros Hst Hop. unfold mutate_group, in_context, st_map_err, mbind, st_bind.
  destruct (decide (context w = Invalid)) as [Hinv|Hc].
  { unfold valid, st_lift. rewrite Hinv. cbn. intros [= <- <-]. by split. }
  rewrite valid_run by done. cbn [map_err]. unfold st_of.
  destruct (heap (core w) !! h) as [c|] eqn:Hh; [|intros [= <- <-]; by split].
  destruct (op (database (core w)) (conv_group c) (conv_id c)) as [r0 [db g]] eqn:Ho.
  destruct (Hop _ _ _ _ _ _ Ho) as (Hsg & Hgid & Hflag).
  assert (conv_id c = group_group_id (conv_group c)) as Hcid.
  { destruct Hst as (_ & _ & _ & _ & Hheap). symmetry. by eapply Forall_lookup_1 in Hheap. }
  assert (stores_ok (heap (core w)) db) as Hok by (eapply stores_ok_same_groups; [done|apply Hst]).
  pose proof (proj1 (proj1 Hsg)) as Ht.
  assert (stores_inv (update h db g w) /\ (cache_inv w -> guard_current h w -> cache_inv (update h db g w))) as Hfail.
  { assert (stores_inv (update h db g w)) as Hst' by by eapply stores_inv_update.
    split; [done|]. intros Hinv Hg. by eapply unpersisted_inv. }
  destruct r0 as [t|e|]; [|by intros [= <- <-]..].
  destruct (decide (state_changed g = Changed)) as [Hch|Hun].
  - destruct (ser_group g) as [state|] eqn:Hser; [|by intros [= <- <-]].
    destruct (persist_stored (conv_id c) state None db) as (db2 & -> & Hk2 & Hst2).
    { split; [apply Hok|]. destruct Hst as [Htx _]. specialize (Htx Hc). tauto. }
    destruct (deser_ser_group g state Hser) as (g' & Hd & Hsame).
    assert (stores_ok (heap (core w)) db2) as Hok2.
    { eapply stores_ok_persist; [exact Hok|done| |exact Hst2]. intros g0 Hg0. rewrite Hd in Hg0.
      injection Hg0 as <-. rewrite (same_group_id _ _ Hsame), Hgid. done. }
    assert (stores_inv (update h db2 (set_state Persisted g) w)) as Hdone.
    { eapply stores_inv_update; [done|done|by rewrite group_id_set_state|done|]. destruct Hk2; tauto. }
    intros [= <- <-]. split; [done|]. intros (_ & _ & Hco) Hg. split; [apply Hdone|]. split; [apply Hdone|].
    intros s Hs. eapply coherent_update; [by apply Hco|done|by eapply Hg| |].
    + intros id Hne. rewrite Hst2, decide_False by done. apply same_groups_stored; [done|apply Hst].
    + intros _. rewrite Hst2, decide_True by done. split; [exact Hd|].
      intros _. etrans; [exact Hsame|]. symmetry. apply same_group_set_state.
  - by intros [= <- <-].
Qed.
(** ** The closures of the code *)

Lemma foldl_remove_same_reads keys db :
  same_groups db (foldl (fun db ek => snd (kv_remove EntityType.EncryptionKeyPair (vec_key_of ek) db)) db keys).
Proof.
  revert db. induction keys as [|k keys IH]; intros db; [done|]. cbn [foldl].
  etrans; [|apply IH]. by apply remove_same_reads.
Qed.

Lemma commit_accepted_well_behaved : well_behaved commit_accepted_operation.
Proof.
  intros db g id r db' g'. unfold commit_accepted_operation.
  destruct (merge_pending_commit_of g db) as [[] [g1 db1]] eqn:Hm; intros [= <- <- <-];
    (split; [|split; [by eapply merge_pending_commit_group_id|]]).
  - etrans; [by eapply provider_same_groups, merge_pending_commit_provider|apply foldl_remove_same_reads].
  - by eapply merge_pending_commit_changed.
  - by eapply provider_same_groups, merge_pending_commit_provider.
  - by eapply merge_pending_commit_changed.
Qed.

Lemma clear_pending_commit_well_behaved : well_behaved clear_pending_commit_operation.
Proof.
  intros db g id r db' g'. unfold clear_pending_commit_operation.
  destruct (pending_commit g) eqn:Hp; intros [= <- <- <-]; (split; [done|]).
  - split; [apply clear_pending_commit_group_id|apply clear_pending_commit_changed].
  - by split.
Qed.

Lemma remove_proposals_well_behaved ps db g r db' g' :
  remove_proposals ps db g = (r, (db', g')) ->
  same_groups db db' /\ group_group_id g' = group_group_id g /\ flagged g g'.
Proof.
  revert db g. induction ps as [|p ps IH]; intros db g; cbn.
  { by intros [= <- <- <-]. }
  destruct (remove_pending_proposal_of g p db) as [[] [g1 db1]] eqn:Hr.
  - intros (Hs & Hid & Hch)%IH. split; [|split].
    + etrans; [by eapply provider_same_groups, remove_pending_proposal_provider|done].
    + rewrite Hid. by eapply remove_pending_proposal_group_id.
    + etrans; [by eapply remove_pending_proposal_changed|done].
  - intros [= <- <- <-]. split; [by eapply provider_same_groups, remove_pending_proposal_provider|].
    split; [by eapply remove_pending_proposal_group_id|by eapply remove_pending_proposal_changed].
Qed.

Lemma wipe_well_behaved : well_behaved wipe_operation.
Proof.
  intros db g id r db' g' (Hs & Hid & Hch)%remove_proposals_well_behaved.
  split; [|by split].
  etrans; [|exact Hs]. apply provider_same_groups, delete_previous_epoch_keypairs_provider.
Qed.

(** ** Ends of transactions *)

Lemma cache_inv_empty (w : World) : stores_inv w -> cache_empty (core w) -> cache_inv w.
Proof.
  intros [Htx Hok] He. do 2 (split; [done|]). intros s Hs id h _ Hp. rewrite He in Hp by done. discriminate.
Qed.

Lemma commit_stores_ok hp db db' :
  stores_ok hp db -> commit_transaction db = (Ok (), db') -> stores_ok hp db'.
Proof.
  intros (Hdb & Hg & Hp & Hh) Hc. pose proof (fun id => stored_group_commit db db' id Hdb Hc) as Hs.
  destruct (commit_transaction_Ok _ _ Hc) as (tx & k & k' & _ & _ & _ & _ & Hnone).
  split; [by eapply commit_transaction_inv|]. split; [|split; [|done]].
  - intros id g. rewrite Hs. apply Hg.
  - intros id g. rewrite <- stored_group_idle, Hs by done. apply Hg.
Qed.

Lemma finish_inv (w : World) : cache_inv w -> cache_inv (snd (finish w)).
Proof.
  intros Hinv. destruct (context w) as [ch|] eqn:Hc; [|unfold finish; by rewrite Hc].
  pose proof Hinv as (Htx & Hok & Hco). destruct (finish w) as [r w'] eqn:Hf. cbn.
  destruct r as [[]|e|].
  - unfold finish in Hf. rewrite Hc in Hf.
    destruct (commit_transaction (database (core w))) as [[[]|e|] db] eqn:Hcom; [|discriminate..].
    assert (stores_ok (heap (core w)) db) as Hok' by by eapply commit_stores_ok.
    assert (forall s, mls (core w) = Some s -> coherent (conversation_cache s) (heap (core w)) db) as Hco'.
    { intros s Hs id h Hns Hp. eapply current_db; [|by apply (Hco s Hs)]. eapply stored_group_commit; [apply Hok|done]. }
    injection Hf as <-. cbn. destruct (mls (core w)) as [s|] eqn:Hs; [rewrite notify_all; destruct (epoch_observer s)|];
      (split; [done|]; split; [done|]); cbn; by rewrite ?Hs.
  - destruct (finish_err w ch e w' (proj1 Hok) Hc Hf) as (Hd & Hi & _ & He).
    apply cache_inv_empty; [|done]. split; [by rewrite Hi|]. rewrite Hd.
    unfold finish in Hf. rewrite Hc in Hf.
    destruct (commit_transaction (database (core w))) as [[[]|e'|] db]; try discriminate.
    injection Hf as _ <-. cbn. destruct (mls (core w)); exact Hok.
  - unfold finish in Hf. rewrite Hc in Hf.
    destruct (commit_transaction (database (core w))) as [[[]|e'|] db] eqn:Hcom; try discriminate.
    injection Hf as <-. destruct (commit_transaction_inv _ _ _ (proj1 Hok) Hcom) as [_ ->]; [|done].
    rewrite <- Hc. by destruct w as [[]].
Qed.
Lemma abort_inv (w : World) : stores_inv w -> context w <> Invalid -> cache_inv (snd (abort w)).
Proof.
  intros (Htx & Hdb & Hg & Hp & Hh) Hc. specialize (Htx Hc).
  destruct (context w) as [ch|] eqn:Hctx; [|done].
  destruct (abort_ok w ch Htx Hctx) as (w' & Ha & Hi & Hd & _ & He). rewrite Ha. cbn.
  apply cache_inv_empty; [|done]. split; [by rewrite Hi|]. rewrite Hd.
  assert (heap (core w') = heap (core w)) as ->.
  { unfold abort in Ha. rewrite Hctx in Ha. destruct (mls (core w)); cbn in Ha;
      destruct (rollback_transaction (database (core w))); by injection Ha as _ <-. }
  split; [|split; [|split; [exact Hp|done]]].
  - eapply db_inv_step; [exact Hdb|]. apply (step_rollback _ (Ok ())). unfold rollback_transaction.
    by destruct (transaction (database (core w))).
  - intros id g. rewrite stored_group_idle by done. apply Hp.
Qed.

(** ** Operations through a guard *)

(** The invariant while a guard of a valid context is held. *)
Definition guard_inv (h : nat) (w : World) : Prop :=
  context w <> Invalid /\ cache_inv w /\ guard_current h w.

Definition keeps_guard (h : nat) (w w' : World) : Prop := guard_inv h w -> guard_inv h w'.

#[export] Instance keeps_guard_preorder h : PreOrder (keeps_guard h).
Proof. split; [intros w Hw; exact Hw|]. intros a b c Hab Hbc Ha. by apply Hbc, Hab. Qed.

Lemma guard_current_update h db g w : guard_current h w -> guard_current h (update h db g w).
Proof.
  intros Hg s c Hs Hc. cbn in Hs, Hc. rewrite list_lookup_alter_eq in Hc.
  destruct (heap (core w) !! h) as [c0|] eqn:Hh; [|discriminate]. injection Hc as <-. by apply (Hg s c0).
Qed.

Lemma mutate_group_shape {T} h (op : Database -> MlsGroup -> bytes -> res ConversationError T * (Database * MlsGroup)) (w : World) r w' :
  mutate_group h op w = (r, w') -> w' = w \/ exists db g, w' = update h db g w.
Proof.
  unfold mutate_group, in_context, st_map_err, mbind, st_bind, st_of.
  destruct (decide (context w = Invalid)) as [Hw|Hw].
  - unfold valid, st_lift. rewrite Hw. cbn. intros [= _ <-]. by left.
  - rewrite valid_run by done. cbn. destruct (heap (core w) !! h) as [c|]; [|intros [= _ <-]; by left].
    destruct (op _ _ _) as [[t|e|] [db g]]; cbn; [destruct (decide _), (ser_group g)|..];
      try (destruct (mls_group_persist _ _ _ _) as [[]]); intros [= _ <-]; right; by eexists _, _.
Qed.

Lemma mutate_group_guard {T} h (op : Database -> MlsGroup -> bytes -> res ConversationError T * (Database * MlsGroup)) :
  well_behaved op -> st_frame (keeps_guard h) (mutate_group h op).
Proof.
  intros Hop w (Hc & Hinv & Hg). destruct (mutate_group h op w) as [r w'] eqn:Hm.
  destruct (mutate_group_run h op w r w' (conj (proj1 Hinv) (proj1 (proj2 Hinv))) Hop Hm) as [_ H].
  destruct (mutate_group_shape h op w r w' Hm) as [-> | (db & g & ->)]; [done|].
  split; [done|]. split; [by apply H|by apply guard_current_update].
Qed.

Lemma unchanged_guard {E A} h (m : st World E A) : (forall w, snd (m w) = w) -> st_frame (keeps_guard h) m.
Proof. intros Hm w. by rewrite Hm. Qed.

Lemma valid_guard h : st_frame (keeps_guard h) valid.
Proof. by apply unchanged_guard. Qed.

Lemma session_guard h : st_frame (keeps_guard h) session.
Proof. apply unchanged_guard. intros w. by destruct (session_run w) as [(s & _ & _ & ->)|[e ->]]. Qed.

Lemma queue_guard h id epoch : st_frame (keeps_guard h) (queue_epoch_changed id epoch).
Proof.
  intros w (Hc & (Htx & Hok & Hco) & Hg). unfold queue_epoch_changed.
  destruct (context w) as [ch|]; [|done]. split; [done|]. split; [|done]. split; [|by split].
  intros _. by apply Htx.
Qed.

Lemma on_database_guard {A} h (f : Database -> kres A * Database) :
  (forall db, same_groups db (snd (f db))) -> st_frame (keeps_guard h) (on_database f).
Proof.
  intros Hf w (Hc & (Htx & Hok & Hco) & Hg). unfold on_database.
  specialize (Hf (database (core w))). destruct (f (database (core w))) as [r db]. cbn in Hf |- *.
  split; [done|]. split; [|exact Hg]. split; [|split].
  - cbn. intros _. destruct Hf as [[Ht _] _]. specialize (Htx Hc). tauto.
  - by eapply stores_ok_same_groups.
  - intros s Hs. eapply coherent_same_groups; [apply Hok|done|by apply Hco].
Qed.

Lemma read_on_database_guard {A} h (f : Database -> kres A) :
  st_frame (keeps_guard h) (on_database (fun db => (f db, db))).
Proof. by apply on_database_guard. Qed.

(** The end of [wipe]: the group is deleted and forgotten. *)
Lemma forget_guard h id :
  st_frame (keeps_guard h) (
    _ ← st_map_err ConvKeystore (on_database (mls_group_delete id));
    in_context (with_groups (fun cs : CacheState =>
      (Ok (), MkCacheState (cache_remove id (cs_cache cs)) (cs_heap cs) (cs_database cs))))).
Proof.
  intros w (Hc & (Htx & Hok & Hco) & Hg). specialize (Htx Hc).
  destruct (delete_stored id (database (core w))) as (db & Hd & Hk & Hst); [split; [apply Hok|done]|].
  assert (stores_ok (heap (core w)) db) as Hok' by by eapply stores_ok_delete.
  assert (transaction db <> None) as Htx' by (destruct Hk; tauto).
  unfold mbind, st_bind, st_map_err, on_database, in_context. rewrite Hd. cbn [map_err].
  set (w1 := set_core (set_database db (core w)) w).
  unfold st_map_err. destruct (with_groups _ w1) as [r w'] eqn:Hw. cbn [snd].
  unfold with_groups, mbind, st_bind in Hw.
  destruct (session_run w1) as [(s & _ & Hs & Hr)|[e Hr]]; rewrite Hr in Hw; cbn in Hw.
  - injection Hw as _ <-. cbn in Hs. split; [done|]. split; [split; [done|split; [done|]]|].
    + intros s1 [= <-] id' h' Hns [Hne Hpk]%lru_peek_remove. cbn.
      eapply current_db; [|by apply (Hco s Hs)]. by rewrite Hst, decide_False.
    + intros s1 c [= <-] Hh Hns. cbn in Hh |- *.
      destruct (lru_peek (conv_id c) (cache_remove id (conversation_cache s))) as [h'|] eqn:Hp; [|by right].
      apply lru_peek_remove in Hp as [_ Hp]. left. destruct (Hg s c Hs Hh Hns); congruence.
  - injection Hw as _ <-. split; [done|]. split; [|done]. split; [done|]. split; [done|].
    intros s Hs. exfalso. cbn in Hs. revert Hr. unfold session, valid, st_lift, mbind, st_bind. cbn.
    destruct (context w); [|done]. cbn. by rewrite Hs.
Qed.

Lemma guarded_guard h h' : st_frame (keeps_guard h) (guarded h').
Proof. by apply unchanged_guard. Qed.
End coherence.

#[export] Hint Resolve valid_guard session_guard queue_guard mutate_group_guard on_database_guard
  read_on_database_guard forget_guard guarded_guard
  commit_accepted_well_behaved clear_pending_commit_well_behaved wipe_well_behaved : frame.

Section guards.
Context `{X : Externals, !ExternalsLaws X, O : OpenMls, !OpenMlsLaws O}.
Context {M : Type} `{!LruMap M nat, !LruMapLaws M nat}.

Lemma crypto_provider_guard stale (h : nat) : st_frame (keeps_guard (M := M) stale h) crypto_provider.
Proof. unfold crypto_provider. solve_keeps. Qed.

Lemma wipe_guard stale (h : nat) : st_frame (keeps_guard (M := M) stale h) (wipe h).
Proof.
  unfold wipe, in_context, crypto_provider.
  repeat first [apply forget_guard | apply st_frame_bind; [apply _|solve [solve_keeps]|intros ?]].
Qed.
End guards.

#[export] Hint Resolve crypto_provider_guard wipe_guard : frame.
