(* ===== verification/CommitDelay.v ===== *)
(** * Delays before committing pending proposals

    [crypto/src/mls/conversation/immutable/commit_delay.rs]: every member of a group
    computes, from its leaf index, how long to wait before it commits the pending
    proposals, so that normally a single member does.  Arithmetic is on [u64]. *)

From S2P Require Import Prelude.
From Stdlib Require Import Lia ZArith.

Local Open Scope Z_scope.

Definition DELAY_RAMP_UP_SUB : Z := 106.
Definition DELAY_POS_LINEAR_INCR : Z := 15.
Definition DELAY_POS_LINEAR_RANGE (p : Z) : bool := (1 <=? p) && (p <=? 3).

Definition u64 (z : Z) : Z := z mod 2 ^ 64.
Definition saturating_sub (a b : Z) : Z := Z.max 0 (a - b).

(** The proposals that matter: removals of a leaf, and the others. *)
Inductive Proposal : Type := Remove (removed : Z) | OtherProposal.

(** What the computation reads of a group; members are given by their leaf index,
    in tree order. *)
Record GroupView : Type := MkView {
  pending_proposals : list Proposal;
  own_leaf_index : Z;
  epoch : Z;
  members : list Z;
}.

(** [position] of [calculate_delay]. *)
Definition delay_position (self_index epoch nb_members : Z) : Z :=
  if 0 <? nb_members then
    u64 (u64 ((epoch mod nb_members) + (self_index mod nb_members)) mod nb_members + 1)
  else 1.

Definition removed_indices (g : GroupView) : gset Z :=
  list_to_set (omap (fun p => match p with Remove i => Some i | OtherProposal => None end)
                 (pending_proposals g)).

Section commit_delay.
(** [((position as f32).ln() * DELAY_RAMP_UP_MULTIPLIER) as u64], of the standard
    library's floating point. *)
Context (ln_ramp : Z -> Z).

(** [Conversation::calculate_delay]. *)
Definition calculate_delay (self_index epoch nb_members : Z) : Z :=
  let position := delay_position self_index epoch nb_members in
  if DELAY_POS_LINEAR_RANGE position then u64 (saturating_sub position 1 * DELAY_POS_LINEAR_INCR)
  else saturating_sub (ln_ramp position) DELAY_RAMP_UP_SUB.

(** Members removed to the left of the own leaf, and the own index and the number
    of members after the removals. *)
Definition left_tree_diff (g : GroupView) : Z :=
  Z.of_nat (length (filter (fun i => i ∈ removed_indices g)
                      (firstn (Z.to_nat (own_leaf_index g)) (members g)))).

Definition next_own_index (g : GroupView) : Z := saturating_sub (own_leaf_index g) (left_tree_diff g).

Definition next_nb_members (g : GroupView) : Z :=
  saturating_sub (Z.of_nat (length (members g))) (Z.of_nat (size (removed_indices g))).

(** [Conversation::compute_next_commit_delay]. *)
Definition compute_next_commit_delay (g : GroupView) : option Z :=
  match pending_proposals g with
  | [] => None
  | _ =>
      if decide (own_leaf_index g ∈ removed_indices g) then None
      else Some (calculate_delay (next_own_index g) (epoch g) (next_nb_members g))
  end.
End commit_delay.

(** ** A single member commits at once *)

Section immediate_committer.
Context (ln_ramp : Z -> Z).
(** The natural logarithm of 4 is above 1.38, and the ramp starts there. *)
Hypothesis ln_ramp_late : forall p, 4 <= p -> 106 < ln_ramp p.

Lemma delay_position_eq i e nb :
  0 < nb <= 2 ^ 32 -> delay_position i e nb = (e + i) mod nb + 1.
Proof.
  intros Hnb. unfold delay_position, u64. rewrite (proj2 (Z.ltb_lt 0 nb)) by lia.
  pose proof (Z.mod_pos_bound e nb). pose proof (Z.mod_pos_bound i nb).
  rewrite (Z.mod_small (e mod nb + i mod nb)) by lia. rewrite <- Z.add_mod by lia.
  pose proof (Z.mod_pos_bound (e + i) nb). apply Z.mod_small. lia.
Qed.

Lemma calculate_delay_zero i e nb :
  0 < nb <= 2 ^ 32 -> calculate_delay ln_ramp i e nb = 0 <-> (e + i) mod nb = 0.
Proof.
  intros Hnb. unfold calculate_delay. rewrite delay_position_eq by done.
  pose proof (Z.mod_pos_bound (e + i) nb) as Hp. set (p := (e + i) mod nb) in *.
  unfold DELAY_POS_LINEAR_RANGE, saturating_sub, DELAY_POS_LINEAR_INCR, DELAY_RAMP_UP_SUB, u64.
  destruct ((1 <=? p + 1) && (p + 1 <=? 3)) eqn:Hr.
  - apply andb_true_iff in Hr as [_ Hr%Z.leb_le]. rewrite Z.mod_small by lia. lia.
  - apply andb_false_iff in Hr as [Hr%Z.leb_gt|Hr%Z.leb_gt]; [lia|].
    pose proof (ln_ramp_late (p + 1)). lia.
Qed.

(** A group without blank leaves, and the members that stay. *)
Context (n : nat) (ps : list Proposal) (e : Z).
Hypothesis n_bound : Z.of_nat n <= 2 ^ 32.
Hypothesis pending : ps <> [].

Definition dense_members : list Z := seqZ 0 (Z.of_nat n).
Definition view (i : Z) : GroupView := MkView ps i e dense_members.
Definition removed_set : gset Z := removed_indices (view 0).
Definition staying : list Z := filter (fun i => i ∉ removed_set) dense_members.

Hypothesis removed_members : forall i, i ∈ removed_set -> i ∈ dense_members.
Hypothesis someone_stays : staying <> [].

Lemma staying_NoDup : NoDup staying.
Proof. apply NoDup_filter, NoDup_seqZ. Qed.

Lemma filter_length {A} (P : A -> Prop) `{!forall x, Decision (P x)} (l : list A) :
  (length (filter P l) + length (filter (fun x => ~ P x) l) = length l)%nat.
Proof.
  induction l as [|x l IH]; [done|]. rewrite !filter_cons. destruct (decide (P x)), (decide (~ P x)); cbn; try done; lia.
Qed.

Lemma length_staying : next_nb_members (view 0) = Z.of_nat (length staying).
Proof.
  unfold next_nb_members, saturating_sub. fold removed_set.
  assert (size removed_set = length (filter (fun i => i ∈ removed_set) dense_members)) as ->.
  { rewrite <- (size_list_to_set (C := gset Z)) by apply NoDup_filter, NoDup_seqZ. f_equal.
    apply set_eq. intros i. rewrite elem_of_list_to_set, list_elem_of_filter. naive_solver. }
  pose proof (filter_length (fun i => i ∈ removed_set) dense_members) as Hl. cbn [members view].
  unfold staying. lia.
Qed.

(** The index of a staying member after the removals is its rank among them. *)
Lemma rank_staying k i : staying !! k = Some i -> next_own_index (view i) = Z.of_nat k.
Proof.
  intros Hk. assert (i ∈ staying) as Hi by by eapply list_elem_of_lookup_2.
  apply list_elem_of_filter in Hi as [Hkeep Hi]. apply elem_of_seqZ in Hi.
  unfold next_own_index, left_tree_diff, saturating_sub. cbn [own_leaf_index members view].
  change (removed_indices (view i)) with removed_set.
  pose proof (filter_length (fun j => j ∈ removed_set) (firstn (Z.to_nat i) dense_members)) as Hl.
  assert (length (firstn (Z.to_nat i) dense_members) = Z.to_nat i) as Hlen.
  { rewrite length_firstn. unfold dense_members. rewrite length_seqZ. lia. }
  assert (length (filter (fun j => j ∉ removed_set) (firstn (Z.to_nat i) dense_members)) = k) as Hrank; [|lia].
  assert (dense_members !! Z.to_nat i = Some i) as Hat.
  { unfold dense_members. apply lookup_seqZ. lia. }
  eapply NoDup_lookup; [apply staying_NoDup| |exact Hk].
  unfold staying. rewrite <- (take_drop_middle _ _ _ Hat) at 2.
  rewrite filter_app, filter_cons_True by done. by rewrite list_lookup_middle.
Qed.

(** C40: in a group without blank leaves, whatever removals are pending, exactly
    one of the members that stay gets delay zero and commits at once. *)
Theorem one_immediate_committer :
  exists i, i ∈ staying /\ compute_next_commit_delay ln_ramp (view i) = Some 0 /\
    forall j, j ∈ staying -> compute_next_commit_delay ln_ramp (view j) = Some 0 -> j = i.
Proof.
  set (nb := Z.of_nat (length staying)).
  assert (0 < nb <= 2 ^ 32) as Hnb.
  { assert (length staying <> 0%nat) by by rewrite length_zero_iff_nil.
    pose proof (length_filter (fun i => i ∉ removed_set) dense_members) as Hle.
    unfold dense_members in Hle. rewrite length_seqZ in Hle. fold dense_members staying in Hle. lia. }
  assert (forall k j, staying !! k = Some j ->
    compute_next_commit_delay ln_ramp (view j) = Some 0 <-> (e + Z.of_nat k) mod nb = 0) as Hdelay.
  { intros k j Hk. assert (j ∈ staying) as [Hj _]%list_elem_of_filter by by eapply list_elem_of_lookup_2.
    unfold compute_next_commit_delay. cbn [pending_proposals own_leaf_index view].
    assert (forall A (x y : A), match ps with [] => x | _ :: _ => y end = y) as -> by (intros A x y; by destruct ps).
    change (removed_indices (view j)) with removed_set. rewrite decide_False by done.
    change (next_nb_members (view j)) with (next_nb_members (view 0)).
    rewrite (rank_staying k j Hk), length_staying. cbn [epoch view].
    rewrite <- (calculate_delay_zero _ e nb Hnb). split; [by intros [= ?]|intros Hz; f_equal; exact Hz]. }
  set (k := Z.to_nat ((- e) mod nb)). pose proof (Z.mod_pos_bound (- e) nb) as Hk.
  destruct (lookup_lt_is_Some_2 staying k) as [i Hi]; [lia|]. exists i.
  split; [by eapply list_elem_of_lookup_2|]. split.
  - apply (Hdelay k i Hi). unfold k. rewrite Z2Nat.id by lia. rewrite Z.add_mod_idemp_r by lia.
    by rewrite Z.add_opp_diag_r, Z.mod_0_l by lia.
  - intros j [k' Hj]%list_elem_of_lookup_1 Hz. apply (Hdelay k' j Hj) in Hz.
    assert (k' = k) as ->; [|congruence]. apply lookup_lt_Some in Hj.
    assert ((- e) mod nb = Z.of_nat k') as Hk'; [|unfold k; rewrite Hk'; lia].
    apply Z.mod_divide in Hz as [q Hq]; [|lia]. symmetry. apply (Z.mod_unique_pos _ _ (- q)); lia.
Qed.
End immediate_committer.

Lemma one_immediate_committer_witness :
  exists i, i ∈ staying 3 [Remove 1] 5 /\
    compute_next_commit_delay (fun p => 40 * p) (view 3 [Remove 1] 5 i) = Some 0 /\
    forall j, j ∈ staying 3 [Remove 1] 5 ->
      compute_next_commit_delay (fun p => 40 * p) (view 3 [Remove 1] 5 j) = Some 0 -> j = i.
Proof.
  refine (one_immediate_committer (fun p => 40 * p) _ 3 [Remove 1] 5 _ _ _ _).
  - intros p Hp. lia.
  - lia.
  - discriminate.
  - intros i Hi. change (i ∈@{gset Z} {[1]} ∪ ∅) in Hi.
    apply elem_of_union in Hi as [Hi|Hi]; [apply elem_of_singleton in Hi; subst i|by apply elem_of_empty in Hi].
    unfold dense_members. rewrite elem_of_seqZ. lia.
  - vm_compute. discriminate.
Defined.

(** With a blank leaf the delays are no longer staggered: in a group whose
    leaf 1 is blank, the members at leaves 0 and 2 both commit at once. *)
Theorem blank_leaf_shares_delay ln_ramp :
  compute_next_commit_delay ln_ramp (MkView [OtherProposal] 0 0 [0; 2]) = Some 0 /\
  compute_next_commit_delay ln_ramp (MkView [OtherProposal] 2 0 [0; 2]) = Some 0.
Proof. split; vm_compute; reflexivity. Qed.
