(* ===== verification/ClientIds.v ===== *)
(** * Client ids

    [crypto/src/mls/session/id.rs] and [user_id.rs]: printing and parsing
    [<user-id>:<device-id>@<domain>], and the member listings of a conversation that
    parse ids ([crypto/src/mls/conversation/immutable/clients.rs], [credential.rs]
    and [e2ei.rs]). *)

From S2P Require Import Prelude Entities Sql KeystoreErrors CryptoErrors.
From Stdlib Require Import Lia ZArith.

(** The [uuid] crate: an identifier and its hyphenated form. *)
Class UuidLib : Type := {
  Uuid : Type;
  uuid_eq_dec :: EqDecision Uuid;
  hyphenated : Uuid -> bytes;
  uuid_try_parse : bytes -> option Uuid;
}.

(** The characters of a hyphenated identifier: lower case hexadecimal digits and
    hyphens. *)
Definition uuid_char (b : byte) : bool := in_range 48 57 b || in_range 97 102 b || in_range 45 45 b.

Class UuidLaws (U : UuidLib) : Prop := {
  uuid_parse_print u : uuid_try_parse (hyphenated u) = Some u;
  uuid_chars u : forallb uuid_char (hyphenated u) = true;
}.

Definition COLON : byte := x3a.
Definition AT : byte := x40.
Definition HISTORY_CLIENT_ID_PREFIX : bytes := bstr "history-client".

(** [str::split_once] at a one-byte separator. *)
Fixpoint split_once (d : byte) (s : bytes) : option (bytes * bytes) :=
  match s with
  | [] => None
  | b :: s => if decide (b = d) then Some ([], s)
              else '(l, r) ← split_once d s; Some (b :: l, r)
  end.

(** ** Hexadecimal numbers *)

Definition hex_digit (z : Z) : byte := byte_of_Z (if (z <? 10)%Z then 48 + z else 87 + z).

(** [{:x}] of a [u64], which has at most 16 digits. *)
Fixpoint hex_digits (fuel : nat) (z : Z) : bytes :=
  match fuel with
  | O => []
  | S f => if (z <? 16)%Z then [hex_digit z] else hex_digits f (z / 16) ++ [hex_digit (z mod 16)]
  end.

Definition lower_hex (z : Z) : bytes := hex_digits 16 z.

(** [char::to_digit(16)]. *)
Definition hex_value (b : byte) : option Z :=
  if in_range 48 57 b then Some (byte_to_Z b - 48)%Z
  else if in_range 97 102 b then Some (byte_to_Z b - 87)%Z
  else if in_range 65 70 b then Some (byte_to_Z b - 55)%Z
  else None.

Definition hex_step (acc : Z) (b : byte) : option Z :=
  d ← hex_value b;
  let v := (acc * 16 + d)%Z in
  if (v <? 2 ^ 64)%Z then Some v else None.

Fixpoint parse_hex (acc : Z) (s : bytes) : option Z :=
  match s with
  | [] => Some acc
  | b :: s => acc ← hex_step acc b; parse_hex acc s
  end.

(** [u64::from_str_radix(s, 16)]: empty strings are refused, a leading [+] is
    skipped. *)
Definition from_str_radix16 (s : bytes) : option Z :=
  match s with
  | [] => None
  | [b] => if decide (b = x2b) then None else parse_hex 0 s
  | b :: s' => if decide (b = x2b) then parse_hex 0 s' else parse_hex 0 s
  end.

Section client_ids.
Context `{U : UuidLib}.

(** [ClientId::new]. *)
Definition client_id_new (user_id : Uuid) (device_id : Z) (domain : bytes) : bytes :=
  hyphenated user_id ++ [COLON] ++ lower_hex device_id ++ [AT] ++ domain.

(** [ClientId::new_ephemeral], for the generated identifier. *)
Definition new_ephemeral (user_id : Uuid) : bytes :=
  HISTORY_CLIENT_ID_PREFIX ++ [COLON] ++ hyphenated user_id.

(** [ClientId::parse_user_id] and [parse_device_id]. *)
Definition parse_user_id (user_id : bytes) : res SessionError Uuid :=
  ok_or (uuid_try_parse user_id) InvalidQualifiedClientId.

Definition parse_device_id (device_id : bytes) : res SessionError Z :=
  ok_or (from_str_radix16 device_id) InvalidQualifiedClientId.

(** [ClientId::try_parse_bytes]. *)
Definition try_parse_bytes (bs : bytes) : res SessionError (Uuid * Z * bytes) :=
  client_id ← (if utf8_valid bs then Ok bs else Err InvalidQualifiedClientId);
  '(user_id, rest) ← ok_or (split_once COLON client_id) InvalidQualifiedClientId;
  user_id ← parse_user_id user_id;
  '(device_id, domain) ← ok_or (split_once AT rest) InvalidQualifiedClientId;
  device_id ← parse_device_id device_id;
  Ok (user_id, device_id, domain).

(** [ClientId::new_from_bytes] and [TryFrom<&[u8]>]. *)
Definition client_id_from_bytes (bs : bytes) : res SessionError bytes :=
  _ ← try_parse_bytes bs; Ok bs.

(** [ClientId::deserialize]. *)
Definition client_id_deserialize (id : bytes) : res SessionError (Uuid * Z * bytes) :=
  match try_parse_bytes id with Ok parts => Ok parts | _ => Panic end.

(** [UserId::try_from]. *)
Definition user_id_try_from (id : bytes) : res SessionError bytes :=
  let found := match split_once COLON id with Some (l, _) => l | None => id end in
  if decide (length found = length id) then Err InvalidUserId else Ok found.

(** ** Members *)

(** A member of a group: its leaf index, identity and credential with key. *)
Context {Cred : Type}.
Record Member : Type := MkMember {
  member_index : Z;
  member_identity : bytes;
  member_credential : Cred;
}.

Definition starts_with (prefix s : bytes) : bool := bool_decide (firstn (length prefix) s = prefix).

Definition parse_identity (m : Member) : res ConversationError bytes :=
  map_err (fun e => ConvRecursive (RecMlsClient e)) (client_id_from_bytes (member_identity m)).

(** [Conversation::get_client_ids]. *)
Definition get_client_ids (ms : list Member) : res ConversationError (list bytes) :=
  mapM parse_identity
    (filter (fun m => starts_with HISTORY_CLIENT_ID_PREFIX (member_identity m) = false) ms).

(** [Conversation::get_history_client_ids]. *)
Definition get_history_client_ids (ms : list Member) : list bytes :=
  map member_identity
    (filter (fun m => starts_with HISTORY_CLIENT_ID_PREFIX (member_identity m) = true) ms).

(** [Conversation::members_in_next_epoch]; the result is collected in a set. *)
Definition members_in_next_epoch (pending_removals : list Z) (ms : list Member) :
    res ConversationError (gset bytes) :=
  list_to_set <$> mapM parse_identity (filter (fun m => member_index m ∉ pending_removals) ms).

(** [Conversation::members_with_key]. *)
Definition members_with_key (ms : list Member) : res ConversationError (gmap bytes Cred) :=
  l ← mapM (fun m => pair (member_identity m) <$> ((fun _ => member_credential m) <$> parse_identity m)) ms;
  Ok (foldl (fun acc kv => <[kv.1 := kv.2]> acc) ∅ l).

(** Extracting the identity of a credential. *)
Context {Identity : Type} (extract_identity : Cred -> res ConversationError Identity).

(** [Conversation::get_device_identities]; the order is the one of the map. *)
Definition get_device_identities (device_ids : list bytes) (ms : list Member) :
    res ConversationError (list Identity) :=
  match device_ids with
  | [] => Err (ConvCallerError "This function accepts a list of IDs as a parameter, but that list was empty.")
  | _ =>
      members ← members_with_key ms;
      mapM (fun kv => extract_identity kv.2)
        (filter (fun kv => kv.1 ∈ device_ids) (map_to_list members))
  end.

(** [Conversation::get_user_identities], as pairs of a user and an identity. *)
Definition get_user_identities (user_ids : list Uuid) (ms : list Member) :
    res ConversationError (list (Uuid * Identity)) :=
  match user_ids with
  | [] => Err (ConvCallerError "This function accepts a list of IDs as a parameter, but that list was empty.")
  | _ =>
      members ← members_with_key ms;
      for_each (fun kv acc =>
        '(user_id, _, _) ← match client_id_deserialize kv.1 with Ok p => Ok p | _ => Panic end;
        if decide (user_id ∈ user_ids)
        then identity ← extract_identity kv.2; Ok (acc ++ [(user_id, identity)])
        else Ok acc) (map_to_list members) []
  end.
End client_ids.
Arguments Member : clear implicits.

(** ** Round trip *)

Definition ascii (b : byte) : bool := in_range 0 127 b.

Lemma utf8_valid_ascii_app l r : forallb ascii l = true -> utf8_valid (l ++ r) = utf8_valid r.
Proof.
  induction l as [|b l IH]; [done|]. intros [Hb Hl]%andb_true_iff. cbn -[in_range].
  unfold ascii in Hb. rewrite Hb. by apply IH.
Qed.

Lemma split_once_app d l r : d ∉ l -> split_once d (l ++ d :: r) = Some (l, r).
Proof.
  induction l as [|b l IH]; intros Hd; cbn [app split_once].
  - by rewrite decide_True.
  - apply not_elem_of_cons in Hd as [Hne Hd]. rewrite decide_False by done. by rewrite IH.
Qed.

Lemma split_once_none d s : d ∉ s -> split_once d s = None.
Proof.
  induction s as [|b s IH]; intros Hd; cbn [split_once]; [done|].
  apply not_elem_of_cons in Hd as [Hne Hd]. rewrite decide_False by done. by rewrite IH.
Qed.

(** No byte that satisfies [p] is [d]. *)
Lemma forallb_not_elem (p : byte -> bool) d l : p d = false -> forallb p l = true -> d ∉ l.
Proof. intros Hp Hl Hd. rewrite forallb_forall in Hl. rewrite (Hl d) in Hp; [done|by apply list_elem_of_In]. Qed.

Lemma forallb_impl (p q : byte -> bool) l :
  (forall b, p b = true -> q b = true) -> forallb p l = true -> forallb q l = true.
Proof. rewrite !forallb_forall. auto. Qed.

Lemma uuid_char_ascii b : uuid_char b = true -> ascii b = true.
Proof. by destruct b. Qed.

(** The digits [lower_hex] prints. *)
Definition hex_char (b : byte) : bool := in_range 48 57 b || in_range 97 102 b.

Lemma hex_char_ascii b : hex_char b = true -> ascii b = true.
Proof. by destruct b. Qed.

Lemma hex_digit_ok z : (0 <= z < 16)%Z -> hex_value (hex_digit z) = Some z /\ hex_char (hex_digit z) = true.
Proof.
  intros Hz. assert (z ∈ seqZ 0 16) as Hin by (apply elem_of_seqZ; lia).
  assert (forallb (fun z => bool_decide (hex_value (hex_digit z) = Some z) && hex_char (hex_digit z)) (seqZ 0 16) = true)
    as Hall by (vm_compute; reflexivity).
  rewrite forallb_forall in Hall. specialize (Hall z (proj1 (list_elem_of_In _ _) Hin)).
  apply andb_true_iff in Hall as [H1%bool_decide_eq_true H2]. done.
Qed.

Lemma hex_digits_chars fuel z : (0 <= z)%Z -> forallb hex_char (hex_digits fuel z) = true.
Proof.
  revert z. induction fuel as [|f IH]; intros z Hz; [done|]. cbn -[hex_digit hex_char].
  destruct (Z.ltb_spec z 16).
  - cbn -[hex_digit hex_char]. rewrite andb_true_r. apply hex_digit_ok. lia.
  - rewrite forallb_app, IH by (apply Z.div_pos; lia). cbn -[hex_digit hex_char]. rewrite andb_true_r.
    apply hex_digit_ok. apply Z.mod_pos_bound. lia.
Qed.

Lemma parse_hex_app acc s b : parse_hex acc (s ++ [b]) = parse_hex acc s ≫= fun a => hex_step a b.
Proof.
  revert acc. induction s as [|c s IH]; intros acc; cbn -[hex_step].
  - by destruct (hex_step acc b).
  - destruct (hex_step acc c); cbn -[hex_step]; [apply IH|done].
Qed.

Lemma hex_step_digit a z :
  (0 <= z < 16)%Z -> (a * 16 + z < 2 ^ 64)%Z -> hex_step a (hex_digit z) = Some (a * 16 + z)%Z.
Proof.
  intros Hz Hlt. unfold hex_step. rewrite (proj1 (hex_digit_ok z Hz)). cbn [mbind option_bind].
  by rewrite (proj2 (Z.ltb_lt _ _) Hlt).
Qed.

Lemma parse_hex_digits fuel z :
  (0 <= z < 16 ^ Z.of_nat fuel)%Z -> (z < 2 ^ 64)%Z -> parse_hex 0 (hex_digits fuel z) = Some z.
Proof.
  revert z. induction fuel as [|f IH]; intros z Hz Hlt; [cbn in *; f_equal; lia|].
  cbn -[hex_digit parse_hex]. destruct (Z.ltb_spec z 16).
  - cbn [parse_hex]. rewrite hex_step_digit by lia. cbn [mbind option_bind parse_hex]; f_equal; lia.
  - rewrite parse_hex_app, IH.
    + cbn -[hex_digit hex_step]. pose proof (Z.mod_pos_bound z 16). pose proof (Z.div_mod z 16).
      rewrite hex_step_digit by lia. f_equal. lia.
    + split; [apply Z.div_pos; lia|]. apply Z.div_lt_upper_bound; [lia|].
      rewrite <- Z.pow_succ_r by lia. rewrite <- Nat2Z.inj_succ. apply Hz.
    + apply Z.div_lt_upper_bound; lia.
Qed.

Lemma from_str_radix16_lower_hex z : (0 <= z < 2 ^ 64)%Z -> from_str_radix16 (lower_hex z) = Some z.
Proof.
  intros Hz. assert (parse_hex 0 (lower_hex z) = Some z) as Hp by (apply parse_hex_digits; [exact Hz|lia]).
  assert (x2b ∉ lower_hex z) as Hplus.
  { eapply (forallb_not_elem hex_char); [done|]. apply hex_digits_chars. lia. }
  unfold from_str_radix16. destruct (lower_hex z) as [|b [|b' s]] eqn:Hh.
  - exfalso. unfold lower_hex in Hh. cbn -[hex_digit Z.div] in Hh. destruct (z <? 16)%Z; [done|].
    by apply app_nil in Hh as [_ ?].
  - rewrite decide_False; [done|]. set_solver.
  - rewrite decide_False; [done|]. set_solver.
Qed.

Section client_id_properties.
Context `{U : UuidLib, !UuidLaws U}.

Lemma hyphenated_no b u : uuid_char b = false -> b ∉ hyphenated u.
Proof. intros Hb. eapply forallb_not_elem; [exact Hb|]. apply uuid_chars. Qed.

Lemma hyphenated_ascii u : forallb ascii (hyphenated u) = true.
Proof. eapply forallb_impl; [|apply uuid_chars]. apply uuid_char_ascii. Qed.

(** Parsing a client id gives back the user, the device and the domain it was
    built from, and the user id cut out of its bytes is the user's. *)
Theorem client_id_roundtrip u d domain :
  (0 <= d < 2 ^ 64)%Z -> utf8_valid domain = true ->
  try_parse_bytes (client_id_new u d domain) = Ok (u, d, domain) /\
  client_id_from_bytes (client_id_new u d domain) = Ok (client_id_new u d domain) /\
  user_id_try_from (client_id_new u d domain) = Ok (hyphenated u).
Proof.
  intros Hd Hdom.
  assert (split_once COLON (client_id_new u d domain) = Some (hyphenated u, lower_hex d ++ AT :: domain)) as Hsplit.
  { unfold client_id_new. cbn [app]. by apply split_once_app, hyphenated_no. }
  assert (try_parse_bytes (client_id_new u d domain) = Ok (u, d, domain)) as Hparse.
  { unfold try_parse_bytes.
    assert (utf8_valid (client_id_new u d domain) = true) as ->.
    { unfold client_id_new. rewrite utf8_valid_ascii_app by apply hyphenated_ascii.
      rewrite (utf8_valid_ascii_app [COLON]) by done. rewrite utf8_valid_ascii_app.
      - by rewrite (utf8_valid_ascii_app [AT]) by done.
      - eapply forallb_impl; [apply hex_char_ascii|]. apply hex_digits_chars. lia. }
    cbn [mbind res_bind]. rewrite Hsplit. cbn [ok_or mbind res_bind]. unfold parse_user_id. rewrite uuid_parse_print. cbn [mbind res_bind ok_or].
    rewrite split_once_app.
    - unfold parse_device_id. cbn [mbind res_bind ok_or]. by rewrite from_str_radix16_lower_hex.
    - eapply (forallb_not_elem hex_char); [done|]. apply hex_digits_chars. lia. }
  split; [done|]. split; [unfold client_id_from_bytes; by rewrite Hparse|].
  unfold user_id_try_from. rewrite Hsplit. rewrite decide_False; [done|].
  unfold client_id_new. rewrite !length_app. cbn. lia.
Qed.

Lemma ephemeral_rejected u : try_parse_bytes (new_ephemeral u) = Err InvalidQualifiedClientId.
Proof.
  unfold try_parse_bytes. destruct (utf8_valid (new_ephemeral u)); [|done]. cbn [mbind res_bind].
  assert (split_once COLON (new_ephemeral u) = Some (HISTORY_CLIENT_ID_PREFIX, hyphenated u)) as ->.
  { unfold new_ephemeral. cbn [app]. apply split_once_app. vm_compute. set_solver. }
  cbn [ok_or mbind res_bind]. unfold parse_user_id. destruct (uuid_try_parse HISTORY_CLIENT_ID_PREFIX); [|done].
  cbn [ok_or mbind res_bind]. by rewrite split_once_none by (by apply hyphenated_no).
Qed.

Lemma try_parse_bytes_error bs r : try_parse_bytes bs = r -> match r with Err e => e = InvalidQualifiedClientId | Panic => False | _ => True end.
Proof.
  intros <-. unfold try_parse_bytes. destruct (utf8_valid bs); [|done]. cbn [mbind res_bind].
  destruct (split_once COLON bs) as [[l r]|]; [|done]. cbn [ok_or mbind res_bind]. unfold parse_user_id.
  destruct (uuid_try_parse l); [|done]. cbn [ok_or mbind res_bind].
  destruct (split_once AT r) as [[l' r']|]; [|done]. cbn [ok_or mbind res_bind]. unfold parse_device_id.
  by destruct (from_str_radix16 l').
Qed.

Context {Cred Identity : Type} (extract_identity : Cred -> res ConversationError Identity).

Definition invalid_id : ConversationError := ConvRecursive (RecMlsClient InvalidQualifiedClientId).

Lemma parse_identity_cases (m : Member Cred) :
  parse_identity m = Ok (member_identity m) \/ parse_identity m = Err invalid_id.
Proof.
  unfold parse_identity, client_id_from_bytes.
  pose proof (try_parse_bytes_error (member_identity m) _ eq_refl) as He.
  destruct (try_parse_bytes (member_identity m)) as [p|e|]; [by left|subst e; by right|done].
Qed.

(** Parsing a list of members fails when one of them does. *)
Lemma mapM_fails {B} (g : Member Cred -> res ConversationError B) ms m :
  m ∈ ms -> g m = Err invalid_id -> (forall x, (exists b, g x = Ok b) \/ g x = Err invalid_id) ->
  mapM g ms = Err invalid_id.
Proof.
  intros Hin Hm Hg. induction ms as [|m' ms IH]; [by apply elem_of_nil in Hin|].
  cbn. destruct (Hg m') as [[b Hb]|Hb]; rewrite Hb; cbn; [|done].
  apply elem_of_cons in Hin as [->|Hin]; [congruence|]. by rewrite IH.
Qed.

Lemma mapM_all_ok {A B} (g : A -> res ConversationError B) (h : A -> B) l :
  (forall x, x ∈ l -> g x = Ok (h x)) -> mapM g l = Ok (map h l).
Proof.
  induction l as [|x l IH]; intros Hg; [done|]. cbn. rewrite (Hg x) by set_solver. cbn.
  rewrite IH; [done|]. intros y Hy. apply Hg. set_solver.
Qed.

(** Once a history client has joined a conversation, the listings that parse
    every member's id fail: the members of the next epoch, the members with their
    keys, and the identities of devices.  Only [get_client_ids] skips history
    clients. *)
Theorem history_client_breaks_listings (ms : list (Member Cred)) m u removals devices users :
  m ∈ ms -> member_identity m = new_ephemeral u -> member_index m ∉ removals -> devices <> [] -> users <> [] ->
  members_in_next_epoch removals ms = Err invalid_id /\ members_with_key ms = Err invalid_id /\
  get_device_identities extract_identity devices ms = Err invalid_id /\
  get_user_identities extract_identity users ms = Err invalid_id /\
  ((forall m', m' ∈ ms -> starts_with HISTORY_CLIENT_ID_PREFIX (member_identity m') = false ->
      is_ok (client_id_from_bytes (member_identity m')) = true) ->
   get_client_ids ms = Ok (map member_identity
     (filter (fun m => starts_with HISTORY_CLIENT_ID_PREFIX (member_identity m) = false) ms))).
Proof.
  intros Hm Hid Hrem Hdev Husers.
  assert (parse_identity m = Err invalid_id) as Hp.
  { unfold parse_identity, client_id_from_bytes. by rewrite Hid, ephemeral_rejected. }
  assert (members_with_key ms = Err invalid_id) as Hkeys.
  { unfold members_with_key. rewrite (mapM_fails _ ms m Hm); [done|by rewrite Hp|].
    intros x. destruct (parse_identity_cases x) as [->| ->]; cbn; eauto. }
  split; [|split; [done|split; [|split]]].
  - unfold members_in_next_epoch. rewrite (mapM_fails _ _ m); [done|by apply list_elem_of_filter|done|].
    intros x. destruct (parse_identity_cases x) as [->| ->]; eauto.
  - unfold get_device_identities. destruct devices; [done|]. by rewrite Hkeys.
  - unfold get_user_identities. destruct users; [done|]. by rewrite Hkeys.
  - intros Hok. apply mapM_all_ok. intros x [Hx Hin]%list_elem_of_filter. specialize (Hok x Hin Hx).
    destruct (parse_identity_cases x) as [->|Hbad]; [done|]. unfold parse_identity in Hbad.
    by destruct (client_id_from_bytes (member_identity x)).
Qed.
End client_id_properties.

(** ** A run of the model *)

#[export] Instance toy_uuid : UuidLib := {|
  Uuid := bool;
  hyphenated b := if b : bool then bstr "0-1" else bstr "0-0";
  uuid_try_parse s :=
    if decide (s = bstr "0-1") then Some true else if decide (s = bstr "0-0") then Some false else None;
|}.

#[export] Instance toy_uuid_laws : UuidLaws toy_uuid.
Proof. split; by intros []. Qed.

Definition demo_uuid : Uuid (UuidLib := toy_uuid) := true.

Lemma client_id_roundtrip_witness :
  try_parse_bytes (client_id_new demo_uuid 48879 (bstr "wire.com")) = Ok (demo_uuid, 48879%Z, bstr "wire.com") /\
  client_id_from_bytes (client_id_new demo_uuid 48879 (bstr "wire.com")) = Ok (client_id_new demo_uuid 48879 (bstr "wire.com")) /\
  user_id_try_from (client_id_new demo_uuid 48879 (bstr "wire.com")) = Ok (hyphenated demo_uuid).
Proof. apply (client_id_roundtrip demo_uuid 48879 (bstr "wire.com")); [lia|reflexivity]. Defined.

Definition demo_history_member : Member unit := MkMember 1 (new_ephemeral demo_uuid) ().

Lemma history_client_breaks_listings_witness :
  members_with_key [demo_history_member] = Err invalid_id.
Proof.
  refine (proj1 (proj2 (history_client_breaks_listings (fun c => Ok c) [demo_history_member] demo_history_member
    demo_uuid [] [bstr "d"] [demo_uuid] _ eq_refl _ _ _))).
  - apply list_elem_of_here.
  - apply not_elem_of_nil.
  - discriminate.
  - discriminate.
Defined.
