(* ===== verification/E2eiState.v ===== *)
(** * End-to-end identity of a conversation

    [crypto/src/mls/session/e2e_identity.rs]: whether the members of a conversation
    are verified.  Parsing and validating certificates is the X.509 library's and
    the PKI environment's; the loop over the members is verified here. *)

From S2P Require Import Prelude Entities Sql KeystoreErrors CryptoErrors.

(** [E2eiConversationState]. *)
Inductive E2eiConversationState : Type := Verified | NotVerified | NotEnabled.

(** [CredentialType], of a stored credential. *)
Inductive CredentialType : Type := Basic | X509.

#[export] Instance CredentialType_eq_dec : EqDecision CredentialType.
Proof. solve_decision. Defined.

Lemma existsb_perm {A} (p : A -> bool) l l' : l ≡ₚ l' -> existsb p l = existsb p l'.
Proof. induction 1; cbn; [done|congruence|by destruct (p x), (p y)|congruence]. Qed.

Lemma forallb_perm {A} (p : A -> bool) l l' : l ≡ₚ l' -> forallb p l = forallb p l'.
Proof. induction 1; cbn; [done|congruence|by destruct (p x), (p y)|congruence]. Qed.

Section e2ei_state.
Context {Credential Cert Env : Type}.
(** [credential.parse_leaf_cert()]: a certificate, none, or an error. *)
Context (parse_leaf_cert : Credential -> res () (option Cert)).
(** [cert.extract_identity(env, ..).is_ok()], [cert.is_time_valid().unwrap_or(false)]
    and [env.validate_cert(cert).is_ok()]. *)
Context (extracts_identity : Env -> Cert -> bool) (is_time_valid : Cert -> bool) (validates : Env -> Cert -> bool).

(** The loop of [compute_conversation_state]: [is_e2ei] and [state] after it. *)
Fixpoint conversation_state_loop (env : Env) (credentials : list Credential) (is_e2ei : bool)
    (state : E2eiConversationState) : bool * E2eiConversationState :=
  match credentials with
  | [] => (is_e2ei, state)
  | credential :: credentials =>
      match parse_leaf_cert credential with
      | Ok (Some cert) =>
          let invalid_identity := negb (extracts_identity env cert) in
          let is_time_invalid := negb (is_time_valid cert) in
          let is_revoked_or_invalid := negb (validates env cert) in
          if invalid_identity || is_time_invalid || is_revoked_or_invalid then (true, NotVerified)
          else conversation_state_loop env credentials true state
      | _ =>
          if is_e2ei then (is_e2ei, NotVerified)
          else conversation_state_loop env credentials is_e2ei NotVerified
      end
  end.

(** [Session::compute_conversation_state]. *)
Definition compute_conversation_state (pki_env : option Env) (credentials : list Credential) :
    E2eiConversationState :=
  match pki_env with
  | None => NotEnabled
  | Some env =>
      let '(is_e2ei, state) := conversation_state_loop env credentials false Verified in
      if is_e2ei then state else NotEnabled
  end.

(** [Session::e2ei_is_enabled], on the types of the credentials found. *)
Definition e2ei_is_enabled (credentials : list CredentialType) : res SessionError bool :=
  if existsb (fun ty => bool_decide (ty = X509)) credentials then Ok true
  else if negb (bool_decide (credentials = [])) then Ok false
  else Err NoCredentialWithType.

(** ** What the state means *)

Definition has_cert (c : Credential) : bool :=
  match parse_leaf_cert c with Ok (Some _) => true | _ => false end.

Definition verified_member (env : Env) (c : Credential) : bool :=
  match parse_leaf_cert c with
  | Ok (Some cert) => extracts_identity env cert && is_time_valid cert && validates env cert
  | _ => false
  end.

(** The state as a function of the set of members. *)
Definition conversation_state_spec (env : Env) (credentials : list Credential) : E2eiConversationState :=
  if negb (existsb has_cert credentials) then NotEnabled
  else if forallb (verified_member env) credentials then Verified else NotVerified.

Lemma conversation_state_loop_spec env credentials is_e2ei state :
  state = Verified \/ state = NotVerified ->
  let '(e, s) := conversation_state_loop env credentials is_e2ei state in
  e = (is_e2ei || existsb has_cert credentials)%bool /\
  (e = true -> s = if forallb (verified_member env) credentials then state else NotVerified).
Proof.
  revert is_e2ei state. induction credentials as [|c cs IH]; intros is_e2ei state Hst; cbn.
  { by rewrite orb_false_r. }
  unfold has_cert at 1, verified_member at 1. destruct (parse_leaf_cert c) as [[cert|]|err|].
  { destruct (extracts_identity env cert), (is_time_valid cert), (validates env cert); cbn;
      try (by rewrite orb_true_r).
    specialize (IH true state Hst). destruct (conversation_state_loop env cs true state) as [e s].
    by rewrite orb_true_r. }
  all: destruct is_e2ei; [done|]; specialize (IH false NotVerified (or_intror eq_refl));
    destruct (conversation_state_loop env cs false NotVerified) as [e s]; cbn in *;
    destruct IH as [-> Hs]; split; [done|]; intros He; rewrite (Hs He); by destruct (forallb _ _).
Qed.

(** The loop with its early exits computes a property of the set of members:
    without a PKI environment or a certificate end-to-end identity is not enabled,
    a conversation is verified exactly when every member has a certificate that
    passes all checks, and the order of the members does not matter. *)
Theorem conversation_state_correct pki_env credentials credentials' :
  compute_conversation_state pki_env credentials =
    match pki_env with
    | None => NotEnabled
    | Some env => conversation_state_spec env credentials
    end /\
  (credentials ≡ₚ credentials' ->
   compute_conversation_state pki_env credentials = compute_conversation_state pki_env credentials').
Proof.
  assert (forall cs, compute_conversation_state pki_env cs =
    match pki_env with None => NotEnabled | Some env => conversation_state_spec env cs end) as Hspec.
  { intros cs. unfold compute_conversation_state, conversation_state_spec. destruct pki_env as [env|]; [|done].
    pose proof (conversation_state_loop_spec env cs false Verified (or_introl eq_refl)) as Hl.
    destruct (conversation_state_loop env cs false Verified) as [e s]. cbn in Hl. destruct Hl as [-> Hs].
    destruct (existsb has_cert cs); [by apply Hs|done]. }
  split; [apply Hspec|]. intros Hperm. rewrite !Hspec. destruct pki_env as [env|]; [|done].
  unfold conversation_state_spec. clear Hspec.
  by rewrite (existsb_perm _ _ _ Hperm), (forallb_perm _ _ _ Hperm).
Qed.
End e2ei_state.
