(* ===== verification/ProteusPrekeys.v ===== *)
(** * Proteus prekeys

    [keystore/src/entities/proteus/prekey.rs] (choice of a free id) and
    [crypto/src/proteus/prekey.rs] (creation of prekeys and of the last resort
    prekey), against the interface of the keystore.  Key generation and
    serialization are the Proteus library's. *)

From S2P Require Import Prelude Keys EntityTypes Entities ToyExternals Sql KeystoreErrors EntityStore Store Transaction TransactionInvariant TransactionCommit Database DatabaseProps EntityKV KeystoreMls CryptoErrors.
From Stdlib Require Import Lia ZArith.

Local Open Scope Z_scope.

Section prekeys.
Context `{X : Externals} {D : Type} `{!EntityKV D}.

Definition U16_MAX : Z := 65535.

Definition get_prekey (id : Z) (d : D) : kres (option Entity.t) :=
  kv_get EntityType.ProteusPrekey (PkU16 (MkUInt id)) d.

(** The [while] loop of [ProteusPrekey::get_free_id], with one unit of fuel for
    each id it may look at. *)
Fixpoint free_id_loop (fuel : nat) (id : Z) (d : D) : kres Z :=
  match fuel with
  | O => Panic
  | S fuel =>
      if id =? U16_MAX then Err KeystoreError.NoFreePrekeyId
      else
        o ← get_prekey id d;
        match o with
        | None => Ok id
        | Some _ => free_id_loop fuel (id + 1) d
        end
  end.

(** [ProteusPrekey::get_free_id]. *)
Definition get_free_id (d : D) : kres Z := free_id_loop (Z.to_nat U16_MAX) 1 d.

(** The Proteus library: generated keys, their serialization, and the bundle made
    of a key and the public identity. *)
Context {PreKey : Type} (prekey_new : Z -> PreKey) (prekey_last_resort : PreKey)
  (prekey_serialise : PreKey -> option bytes) (prekey_deserialise : bytes -> option PreKey)
  (bundle_serialise : PreKey -> option bytes).

Definition wrap {A} (r : kres A) : res CoreError A := map_err CoreKeystore r.

(** [ProteusCentral::new_prekey]. *)
Definition new_prekey (id : Z) (d : D) : res CoreError bytes * D :=
  let prekey := prekey_new id in
  match prekey_serialise prekey with
  | None => (Err (CoreProteus ProteusLibraryError), d)
  | Some keystore_prekey =>
      match bundle_serialise prekey with
      | None => (Err (CoreProteus ProteusLibraryError), d)
      | Some bundle =>
          let '(r, d) := kv_save None (Entity.ProteusPrekey (proteus_prekey_from_raw id keystore_prekey)) d in
          (wrap ((fun _ => bundle) <$> r), d)
      end
  end.

(** [ProteusCentral::new_prekey_auto]. *)
Definition new_prekey_auto (d : D) : res CoreError (Z * bytes) * D :=
  match get_free_id d with
  | Ok id => let '(r, d) := new_prekey id d in (pair id <$> r, d)
  | Err e => (Err (CoreKeystore e), d)
  | Panic => (Panic, d)
  end.

(** [ProteusCentral::last_resort_prekey_id] and [last_resort_prekey]. *)
Definition last_resort_prekey_id : Z := U16_MAX.

Definition last_resort_prekey (d : D) : res CoreError bytes * D :=
  let finish (last_resort : PreKey) (d : D) :=
    (ok_or (bundle_serialise last_resort) (CoreProteus ProteusLibraryError), d) in
  match get_prekey last_resort_prekey_id d with
  | Ok (Some (Entity.ProteusPrekey p)) =>
      match prekey_deserialise (prekey_prekey p) with
      | Some last_resort => finish last_resort d
      | None => (Err (CoreProteus ProteusLibraryError), d)
      end
  | Ok _ =>
      match prekey_serialise prekey_last_resort with
      | None => (Err (CoreProteus ProteusLibraryError), d)
      | Some raw =>
          match proteus_store_prekey last_resort_prekey_id raw d with
          | (Ok _, d) => finish prekey_last_resort d
          | (Err e, d) => (Err (CoreKeystore e), d)
          | (Panic, d) => (Panic, d)
          end
      end
  | Err e => (Err (CoreKeystore e), d)
  | Panic => (Panic, d)
  end.
End prekeys.

Section prekey_properties.
Context `{X : Externals} {D : Type} `{!EntityKV D} (inv : D -> Prop) `{!EntityKVLaws D inv}.
Context {PreKey : Type} (prekey_new : Z -> PreKey) (prekey_last_resort : PreKey)
  (prekey_serialise : PreKey -> option bytes) (prekey_deserialise : bytes -> option PreKey)
  (bundle_serialise : PreKey -> option bytes).

Definition taken (id : Z) (d : D) : Prop := exists e, get_prekey id d = Ok (Some e).

Lemma free_id_loop_spec fuel id d :
  1 <= id <= U16_MAX -> U16_MAX - id < Z.of_nat fuel ->
  (forall j, id <= j < U16_MAX -> exists o, get_prekey j d = Ok o) ->
  (exists r, free_id_loop fuel id d = Ok r /\ id <= r < U16_MAX /\ get_prekey r d = Ok None /\
     forall j, id <= j < r -> taken j d) \/
  (free_id_loop fuel id d = Err KeystoreError.NoFreePrekeyId /\ forall j, id <= j < U16_MAX -> taken j d).
Proof.
  unfold U16_MAX. revert id. induction fuel as [|fuel IH]; intros id Hid Hf Hget; [lia|]. cbn -[get_prekey].
  destruct (Z.eqb_spec id U16_MAX) as [->|Hne]; [right; split; [done|unfold U16_MAX; lia]|].
  unfold U16_MAX in Hne. destruct (Hget id ltac:(lia)) as [[e|] Hg]; rewrite Hg; cbn -[get_prekey].
  - destruct (IH (id + 1)) as [(r & Hr & Hb & Hn & Ht)|[Hr Ht]]; [lia..|intros j Hj; apply Hget; lia| |].
    + left. exists r. split; [done|]. split; [lia|]. split; [done|]. intros j Hj.
      destruct (decide (j = id)) as [->|]; [by exists e|]. apply Ht. lia.
    + right. split; [done|]. intros j Hj. destruct (decide (j = id)) as [->|]; [by exists e|]. apply Ht. lia.
  - left. exists id. split; [done|]. split; [lia|]. split; [done|]. lia.
Qed.
(** Distinct ids are distinct keys. *)
Lemma prekey_key_inj i j raw :
  0 <= i < 65536 -> 0 <= j < 65536 ->
  EntityId.MkId EntityType.ProteusPrekey (pk_bytes (PkU16 (MkUInt i))) =
    EntityId.of_entity (Entity.ProteusPrekey (proteus_prekey_from_raw j raw)) <-> i = j.
Proof.
  intros Hi Hj. split; [|by intros ->]. intros Heq.
  apply (f_equal (fun x => match x with EntityId.MkId _ b => b end)) in Heq.
  assert (forall z, 0 <= z < 65536 -> key_from_bytes (key_bytes (MkUInt (w := 2) z)) = Some (MkUInt (w := 2) z)) as Hrt.
  { intros z Hz. apply (key_round_trip (K := UInt 2)). split; cbn; lia. }
  pose proof (Hrt i Hi) as Hri. pose proof (Hrt j Hj) as Hrj.
  change (key_bytes (MkUInt (w := 2) i) = key_bytes (MkUInt (w := 2) j)) in Heq. rewrite Heq in Hri. congruence.
Qed.

(** Saving a prekey. *)
Lemma save_prekey id raw d :
  inv d -> 0 <= id < 65536 ->
  exists d', kv_save None (Entity.ProteusPrekey (proteus_prekey_from_raw id raw)) d = (Ok None, d') /\ inv d' /\
    forall j, 0 <= j < 65536 -> get_prekey j d' =
      if decide (j = id) then Ok (Some (Entity.ProteusPrekey (proteus_prekey_from_raw id raw))) else get_prekey j d.
Proof.
  intros Hinv Hid. set (e := Entity.ProteusPrekey (proteus_prekey_from_raw id raw)).
  destruct (kv_save_total (inv := inv) None e d None e) as (d' & Hs & Hinv' & Hget); [done|done|by split|done|].
  exists d'. split; [done|]. split; [done|]. intros j Hj. unfold get_prekey.
  rewrite Hget by (split; cbn; lia). pose proof (prekey_key_inj j id raw Hj Hid) as Hiff.
  destruct (decide (j = id)) as [Heq|Hne].
  - rewrite decide_True; [done|]. by apply Hiff.
  - rewrite decide_False; [done|]. intros Hk. by apply Hne, Hiff.
Qed.

(** A prekey with an automatic id gets the lowest free id from 1 to 65534:
    no existing prekey is overwritten, the last resort id 65535 is never handed
    out, and the call fails only when every id is taken, changing nothing. *)
Theorem new_prekey_auto_fresh d :
  inv d -> (forall j, 1 <= j < 65535 -> exists o, get_prekey j d = Ok o) ->
  (forall p, is_Some (prekey_serialise p)) -> (forall p, is_Some (bundle_serialise p)) ->
  (exists id bundle d', new_prekey_auto prekey_new prekey_serialise bundle_serialise d = (Ok (id, bundle), d') /\
     1 <= id < 65535 /\ get_prekey id d = Ok None /\ (forall j, 1 <= j < id -> taken j d) /\
     inv d' /\ taken id d' /\ forall j, 0 <= j < 65536 -> j <> id -> get_prekey j d' = get_prekey j d) \/
  (new_prekey_auto prekey_new prekey_serialise bundle_serialise d =
     (Err (CoreKeystore KeystoreError.NoFreePrekeyId), d) /\ forall j, 1 <= j < 65535 -> taken j d).
Proof.
  intros Hinv Hreads Hser Hbundle.
  destruct (free_id_loop_spec (Z.to_nat U16_MAX) 1 d) as [(id & Hr & Hid & Hfree & Htaken)|[Hr Hall]];
    [unfold U16_MAX; lia|unfold U16_MAX; lia|done| |].
  - left. destruct (Hser (prekey_new id)) as [raw Hraw], (Hbundle (prekey_new id)) as [bundle Hb].
    unfold U16_MAX in Hid. destruct (save_prekey id raw d Hinv ltac:(lia)) as (d' & Hs & Hinv' & Hget).
    exists id, bundle, d'. unfold new_prekey_auto, get_free_id. rewrite Hr. unfold new_prekey.
    rewrite Hraw, Hb, Hs. split; [done|]. split; [lia|]. split; [done|]. split; [done|]. split; [done|]. split.
    + eexists. rewrite Hget by lia. by rewrite decide_True.
    + intros j Hj Hne. rewrite Hget by done. by rewrite decide_False.
  - right. split; [|done]. unfold new_prekey_auto, get_free_id. by rewrite Hr.
Qed.

(** The last resort prekey is created once: later calls return the same
    bundle and change nothing. *)
Theorem last_resort_prekey_stable d bundle d' :
  inv d -> (forall p raw, prekey_serialise p = Some raw -> prekey_deserialise raw = Some p) ->
  last_resort_prekey prekey_last_resort prekey_serialise prekey_deserialise bundle_serialise d = (Ok bundle, d') ->
  last_resort_prekey prekey_last_resort prekey_serialise prekey_deserialise bundle_serialise d' = (Ok bundle, d').
Proof.
  intros Hinv Hrt. unfold last_resort_prekey at 1.
  destruct (get_prekey last_resort_prekey_id d) as [o|err|] eqn:Hg; [|discriminate..].
  assert (forall p, o = Some (Entity.ProteusPrekey p) ->
    (match prekey_deserialise (prekey_prekey p) with
     | Some lr => (ok_or (bundle_serialise lr) (CoreProteus ProteusLibraryError), d) | None => (Err (CoreProteus ProteusLibraryError), d) end) = (Ok bundle, d') ->
    last_resort_prekey prekey_last_resort prekey_serialise prekey_deserialise bundle_serialise d' = (Ok bundle, d')) as Hold.
  { intros p -> Hp. assert (d' = d) as -> by (destruct (prekey_deserialise _); congruence).
    unfold last_resort_prekey. by rewrite Hg. }
  assert ((match prekey_serialise prekey_last_resort with
     | None => (Err (CoreProteus ProteusLibraryError), d)
     | Some raw =>
         match proteus_store_prekey last_resort_prekey_id raw d with
         | (Ok _, d) => (ok_or (bundle_serialise prekey_last_resort) (CoreProteus ProteusLibraryError), d)
         | (Err e, d) => (Err (CoreKeystore e), d)
         | (Panic, d) => (Panic, d)
         end
     end) = (Ok bundle, d') ->
    last_resort_prekey prekey_last_resort prekey_serialise prekey_deserialise bundle_serialise d' = (Ok bundle, d')) as Hnew.
  { destruct (prekey_serialise prekey_last_resort) as [raw|] eqn:Hser; [|discriminate].
    unfold last_resort_prekey_id, proteus_store_prekey.
    destruct (save_prekey U16_MAX raw d Hinv) as (d1 & Hs & _ & Hget); [unfold U16_MAX; lia|].
    rewrite Hs. cbn. intros [= Hb <-]. unfold last_resort_prekey, last_resort_prekey_id.
    rewrite Hget by (unfold U16_MAX; lia). rewrite decide_True by done. cbn.
    rewrite (Hrt _ _ Hser). by rewrite Hb. }
  destruct o as [e|]; [destruct e|]; eauto.
Qed.
End prekey_properties.

(** ** A run of the model *)

Definition demo_prekey_auto : Database -> res CoreError (Z * bytes) * Database :=
  new_prekey_auto (to_le_bytes 2) (Some (A := bytes)) (Some (A := bytes)).

Lemma demo_prekeys_readable j : exists o, get_prekey j demo_started = Ok o.
Proof. exists None. vm_compute. reflexivity. Qed.

Lemma new_prekey_auto_fresh_witness :
  (exists id bundle d', demo_prekey_auto demo_started = (Ok (id, bundle), d') /\
     1 <= id < 65535 /\ get_prekey id demo_started = Ok None /\ (forall j, 1 <= j < id -> taken j demo_started) /\
     in_transaction d' /\ taken id d' /\
     forall j, 0 <= j < 65536 -> j <> id -> get_prekey j d' = get_prekey j demo_started) \/
  (demo_prekey_auto demo_started = (Err (CoreKeystore KeystoreError.NoFreePrekeyId), demo_started) /\
   forall j, 1 <= j < 65535 -> taken j demo_started).
Proof.
  refine (new_prekey_auto_fresh in_transaction (to_le_bytes 2) (Some (A := bytes)) (Some (A := bytes)) demo_started
    demo_started_in_transaction (fun j _ => demo_prekeys_readable j) _ _); intros p; by exists p.
Defined.

Definition demo_last_resort : Database -> res CoreError bytes * Database :=
  last_resort_prekey (bstr "lr") (Some (A := bytes)) (Some (A := bytes)) (Some (A := bytes)).

Lemma last_resort_prekey_stable_witness :
  demo_last_resort (snd (demo_last_resort demo_started)) = (Ok (bstr "lr"), snd (demo_last_resort demo_started)).
Proof.
  refine (last_resort_prekey_stable in_transaction (bstr "lr") (Some (A := bytes)) (Some (A := bytes))
    (Some (A := bytes)) demo_started (bstr "lr") (snd (demo_last_resort demo_started))
    demo_started_in_transaction _ _).
  - intros p raw [= ->]. reflexivity.
  - transitivity (fst (demo_last_resort demo_started), snd (demo_last_resort demo_started)); [apply surjective_pairing|].
    apply (f_equal (fun r => (r, snd (demo_last_resort demo_started)))). vm_compute. reflexivity.
Defined.
