(* ===== verification/MlsMessages.v ===== *)
(** * Messages of OpenMLS

    The messages and staged commits of the library, with what the crypto crate
    reads of them, and the operations of a group that consume them. *)

From S2P Require Import Prelude Keys EntityTypes Entities ToyExternals Sql KeystoreErrors EntityStore Store Transaction Database DatabaseProps EntityKV KeystoreMls CryptoErrors OpenMls CommitDelay.
From Stdlib Require Import Lia ZArith.

(** [ContentType], in the order of its values. *)
Inductive ContentType : Type := Application | ProposalType | Commit.

#[export] Instance ContentType_eq_dec : EqDecision ContentType.
Proof. solve_decision. Defined.

(** [content_type as u8]. *)
Definition content_type_u8 (c : ContentType) : Z :=
  match c with Application => 1 | ProposalType => 2 | Commit => 3 end.

(** [Sender]. *)
Inductive Sender : Type :=
  | Member (index : Z)
  | ExternalSender
  | NewMemberProposal
  | NewMemberCommit.

#[export] Instance Sender_eq_dec : EqDecision Sender.
Proof. solve_decision. Defined.

(** [FramedContentBodyIn], over the proposals of the library. *)
Inductive FramedContentBodyIn (P : Type) : Type :=
  | ApplicationBody
  | ProposalBody (p : P)
  | CommitBody.
Arguments ApplicationBody {P}.
Arguments ProposalBody {P} p.
Arguments CommitBody {P}.

Definition body_content_type {P} (b : FramedContentBodyIn P) : ContentType :=
  match b with ApplicationBody => Application | ProposalBody _ => ProposalType | CommitBody => Commit end.

(** [PublicMessageIn]: the parts the crate reads, and the rest as bytes. *)
Record PublicMessageIn (P : Type) : Type := MkPublic {
  public_epoch : Z;
  public_sender : Sender;
  public_body : FramedContentBodyIn P;
  public_confirmation_tag : option bytes;
  public_rest : bytes;
}.
Arguments MkPublic {P}.
Arguments public_epoch {P}.
Arguments public_sender {P}.
Arguments public_body {P}.
Arguments public_confirmation_tag {P}.
Arguments public_rest {P}.

(** [PrivateMessageIn]. *)
Record PrivateMessageIn : Type := MkPrivate {
  private_epoch : Z;
  private_content_type : ContentType;
  private_rest : bytes;
}.

(** [MlsMessageInBody]; the other bodies are not messages of a group. *)
Inductive MlsMessageIn (P : Type) : Type :=
  | PublicMessage (m : PublicMessageIn P)
  | PrivateMessage (m : PrivateMessageIn)
  | OtherMessage.
Arguments PublicMessage {P} m.
Arguments PrivateMessage {P} m.
Arguments OtherMessage {P}.

(** [ProtocolMessage]. *)
Inductive ProtocolMessage (P : Type) : Type :=
  | PublicProtocol (m : PublicMessageIn P)
  | PrivateProtocol (m : PrivateMessageIn).
Arguments PublicProtocol {P} m.
Arguments PrivateProtocol {P} m.

Definition protocol_epoch {P} (m : ProtocolMessage P) : Z :=
  match m with PublicProtocol m => public_epoch m | PrivateProtocol m => private_epoch m end.

Definition protocol_content_type {P} (m : ProtocolMessage P) : ContentType :=
  match m with
  | PublicProtocol m => body_content_type (public_body m)
  | PrivateProtocol m => private_content_type m
  end.

(** [ProcessedMessageContent], over queued proposals and staged commits. *)
Inductive ProcessedMessageContent (Q S : Type) : Type :=
  | ApplicationMessage (app_msg : bytes)
  | ProposalMessage (proposal : Q)
  | ExternalJoinProposalMessage (proposal : Q)
  | StagedCommitMessage (staged_commit : S).
Arguments ApplicationMessage {Q S} app_msg.
Arguments ProposalMessage {Q S} proposal.
Arguments ExternalJoinProposalMessage {Q S} proposal.
Arguments StagedCommitMessage {Q S} staged_commit.

Class MlsMessages (O : OpenMls) : Type := {
  MlsProposal : Type;
  MlsProposal_eq_dec :: EqDecision MlsProposal;
  QueuedProposal : Type;
  StagedCommit : Type;
  (** Its namesake of the library, and the identity its credential carries. *)
  CredentialWithKey : Type;
  credential_identity : CredentialWithKey -> bytes;
  (** [MlsMessageIn::tls_deserialize]. *)
  deserialize_message : bytes -> option (MlsMessageIn MlsProposal);
  (** [process_message(provider, message)]: the credential of the sender and the
      content, or an error; the group and the key store afterwards. *)
  process_message_of : MlsGroup -> ProtocolMessage MlsProposal -> Database ->
    res ProcessMessageError (CredentialWithKey * ProcessedMessageContent QueuedProposal StagedCommit) *
    (MlsGroup * Database);
  store_pending_proposal_of : QueuedProposal -> MlsGroup -> MlsGroup;
  merge_staged_commit_of : StagedCommit -> MlsGroup -> Database -> bool * (MlsGroup * Database);
  (** [staged_context().epoch()]. *)
  staged_epoch : StagedCommit -> Z;
  (** [compute_confirmation_tag(provider)]. *)
  confirmation_tag_of : MlsGroup -> option bytes;
  (** [pending_commit().get_confirmation_tag()]. *)
  pending_commit_tag : MlsGroup -> option bytes;
  pending_proposals_of : MlsGroup -> list MlsProposal;
  own_leaf_index_of : MlsGroup -> Z;
  own_leaf_credential : MlsGroup -> option CredentialWithKey;
  (** What the commit delay is computed from. *)
  delay_view : MlsGroup -> GroupView;
}.

(** What the crypto crate relies on. *)
Class MlsMessagesLaws `{X : Externals} {O : OpenMls} (Ms : MlsMessages O) : Prop := {
  process_provider g m db r g' db' :
    process_message_of g m db = (r, (g', db')) -> provider_calls db db';
  process_group_id g m db r g' db' :
    process_message_of g m db = (r, (g', db')) -> group_group_id g' = group_group_id g;
  process_flagged g m db r g' db' :
    process_message_of g m db = (r, (g', db')) -> flagged g g';
  (** The epoch is checked before anything else. *)
  process_wrong_epoch g m db g' db' :
    process_message_of g m db = (Err WrongEpoch, (g', db')) -> g' = g /\ db' = db;
  process_never_panics g m db : fst (process_message_of g m db) <> Panic;
  (** Commits, and only they, are staged. *)
  process_commit g m db cred content g' db' :
    process_message_of g m db = (Ok (cred, content), (g', db')) ->
    protocol_content_type m = Commit <-> exists sc, content = StagedCommitMessage sc;
  (** Only commits refer to proposals, and only public commits of our leaf are
      recognized as our own. *)
  process_missing_proposal g m db g' db' :
    process_message_of g m db = (Err MissingProposal, (g', db')) -> protocol_content_type m = Commit;
  process_own_commit g m db g' db' :
    process_message_of g m db = (Err OwnCommit, (g', db')) ->
    exists p, m = PublicProtocol p /\ public_body p = CommitBody /\
      public_sender p = Member (own_leaf_index_of g') ;
  store_proposal_group_id p g : group_group_id (store_pending_proposal_of p g) = group_group_id g;
  store_proposal_flagged p g : flagged g (store_pending_proposal_of p g);
  merge_staged_provider c g db ok g' db' :
    merge_staged_commit_of c g db = (ok, (g', db')) -> provider_calls db db';
  merge_staged_group_id c g db ok g' db' :
    merge_staged_commit_of c g db = (ok, (g', db')) -> group_group_id g' = group_group_id g;
  merge_staged_flagged c g db ok g' db' :
    merge_staged_commit_of c g db = (ok, (g', db')) -> flagged g g';
}.

(** ** Concrete messages

    A message is a kind, an epoch and a payload: [x01] an application message,
    [x02] a proposal, [x03] a commit, [x04] a commit of a pending proposal, [x05]
    a commit that removes us, [x06] an application message that does not decrypt
    and [x07] a commit of ours. *)
Definition toy_next (e : byte) : byte := byte_of_Z (byte_to_Z e + 1).

Definition toy_public (kind e : byte) (sender : Sender) (body : FramedContentBodyIn bytes) (rest : bytes) :
    MlsMessageIn bytes :=
  PublicMessage (MkPublic (byte_to_Z e) sender body (Some [toy_next e]) (kind :: rest)).

Definition toy_deserialize (b : bytes) : option (MlsMessageIn bytes) :=
  match b with
  | x01 :: e :: rest => Some (PrivateMessage (MkPrivate (byte_to_Z e) Application (x01 :: rest)))
  | x06 :: e :: rest => Some (PrivateMessage (MkPrivate (byte_to_Z e) Application (x06 :: rest)))
  | x02 :: e :: rest => Some (toy_public x02 e (Member 1) (ProposalBody rest) rest)
  | x07 :: e :: rest => Some (toy_public x07 e (Member 0) CommitBody rest)
  | kind :: e :: rest => Some (toy_public kind e (Member 1) CommitBody rest)
  | _ => None
  end.

Definition toy_process (g : ToyGroup) (m : ProtocolMessage bytes) (db : Database) :
    res ProcessMessageError (bytes * ProcessedMessageContent bytes (bool * Z)) * (ToyGroup * Database) :=
  if decide (protocol_epoch m = byte_to_Z (toy_epoch g)) then
    let next := (byte_to_Z (toy_epoch g) + 1)%Z in
    match m with
    | PrivateProtocol p =>
        if bool_decide (private_content_type p = Application /\ head (private_rest p) = Some x01)
        then (Ok (bstr "bob", ApplicationMessage (tail (private_rest p))), (g, db))
        else (Err AeadError, (g, db))
    | PublicProtocol p =>
        match public_body p with
        | ApplicationBody => (Err OtherProcessMessageError, (g, db))
        | ProposalBody q => (Ok (bstr "bob", ProposalMessage q), (g, db))
        | CommitBody =>
            if bool_decide (public_sender p = Member 0) then (Err OwnCommit, (g, db))
            else if bool_decide (head (public_rest p) = Some x04) && negb (toy_proposed g)
            then (Err MissingProposal, (g, db))
            else (Ok (bstr "bob", StagedCommitMessage
                        (negb (bool_decide (head (public_rest p) = Some x05)), next)), (g, db))
        end
    end
  else (Err WrongEpoch, (g, db)).

#[export] Instance toy_messages : MlsMessages toy_openmls := {|
  MlsProposal := bytes;
  QueuedProposal := bytes;
  StagedCommit := bool * Z;
  CredentialWithKey := bytes;
  credential_identity c := c;
  deserialize_message := toy_deserialize;
  process_message_of := toy_process;
  store_pending_proposal_of _ g :=
    MkToyGroup (toy_id g) (toy_epoch g) (toy_active g) (toy_pending g) true Changed;
  merge_staged_commit_of c g db := (true, (toy_advance (fst c) g, db));
  staged_epoch := snd;
  confirmation_tag_of g := Some [toy_epoch g];
  pending_commit_tag g := if toy_pending g then Some [toy_next (toy_epoch g)] else None;
  pending_proposals_of _ := [];
  own_leaf_index_of _ := 0%Z;
  own_leaf_credential _ := Some (bstr "me");
  delay_view g := MkView [] 0 (byte_to_Z (toy_epoch g)) [0%Z; 1%Z];
|}.

Lemma toy_process_state g m db r g' db' : toy_process g m db = (r, (g', db')) -> g' = g /\ db' = db.
Proof.
  unfold toy_process. intros H. repeat case_match; by simplify_eq.
Qed.

#[export] Instance toy_messages_laws : MlsMessagesLaws toy_messages.
Proof.
  split; cbn.
  - intros g m db r g' db' [_ ->]%toy_process_state. constructor.
  - by intros g m db r g' db' [-> _]%toy_process_state.
  - intros g m db r g' db' [-> _]%toy_process_state. by left.
  - by intros g m db g' db' H%toy_process_state.
  - intros g m db. unfold toy_process. by repeat case_match.
  - intros g m db cred content g' db'. unfold toy_process. intros H.
    repeat (case_bool_decide || case_match); simplify_eq/=;
      repeat match goal with Hb : public_body _ = _ |- _ => rewrite Hb end;
      (split; [intros; first [discriminate|destruct_and?; congruence|by eexists]|by intros [sc ?]]).
  - intros g m db g' db'. unfold toy_process. intros H.
    repeat (case_bool_decide || case_match); simplify_eq/=;
      by match goal with Hb : public_body _ = _ |- _ => rewrite Hb end.
  - intros g m db g' db'. unfold toy_process. intros H.
    repeat (case_bool_decide || case_match); simplify_eq/=; eauto.
  - done.
  - by right.
  - intros c g db ok g' db' [= _ _ <-]. constructor.
  - by intros c g db ok g' db' [= _ <- _].
  - intros c g db ok g' db' [= _ <- _]. by right.
Qed.
