(* ===== verification/GuardFrames.v ===== *)
(** * What the operations of a guard do to the state

    A guard works on its group through OpenMLS and queues epoch notifications.  A
    relation between states that these steps keep is kept by everything built from
    them.  Contexts that can work on a conversation are kept so by the operations of its guard,
    which change its group as OpenMLS does. *)

From S2P Require Import Prelude Keys EntityTypes Entities ToyExternals Sql KeystoreErrors EntityStore Store Transaction TransactionInvariant Database DatabaseProps EntityKV KeystoreMls CryptoErrors OpenMls ConversationCache TransactionContext TransactionContextProps ConversationMut CacheCoherence.
From Stdlib Require Import Lia ZArith.

Section operations.
Context `{X : Externals, O : OpenMls}.

(** A closure that works on its group through OpenMLS only: the key store sees
    calls of the provider, the group keeps its id, and it is flagged if it changes,
    even when the closure fails. *)
Definition openmls_operation {T}
    (op : Database -> MlsGroup -> bytes -> res ConversationError T * (Database * MlsGroup)) : Prop :=
  forall db g id r db' g', op db g id = (r, (db', g')) ->
    provider_calls db db' /\ group_group_id g' = group_group_id g /\ flagged g g'.

Lemma provider_calls_trans db db' db'' :
  provider_calls db db' -> provider_calls db' db'' -> provider_calls db db''.
Proof.
  induction 1 as [|V ser id k v db db' _ IH|id k db db' Hg Hs _ IH]; intros Hc; [done| |].
  - eapply (provider_store ser id k v). by apply IH.
  - apply (provider_delete id k); [done..|]. by apply IH.
Qed.

Context `{!OpenMlsLaws O}.

Lemma commit_accepted_openmls : openmls_operation commit_accepted_operation.
Proof.
  intros db g id r db' g'. unfold commit_accepted_operation.
  destruct (merge_pending_commit_of g db) as [ok [g1 db1]] eqn:Hm.
  assert (provider_calls db db1) as Hp by by eapply merge_pending_commit_provider.
  destruct ok; intros [= <- <- <-];
    (split; [|split; [by eapply merge_pending_commit_group_id|by eapply merge_pending_commit_changed]]); [|done].
  eapply provider_calls_trans; [exact Hp|]. generalize (own_leaf_keys g). intros keys. clear. revert db1.
  induction keys as [|k keys IH]; intros db1; [constructor|]. cbn [foldl].
  by apply (provider_delete IdEncryptionKeyPair k).
Qed.

Lemma clear_pending_openmls : openmls_operation clear_pending_commit_operation.
Proof.
  intros db g id r db' g'. unfold clear_pending_commit_operation. destruct (pending_commit g); intros [= _ <- <-].
  - split; [constructor|]. split; [apply clear_pending_commit_group_id|apply clear_pending_commit_changed].
  - split; [constructor|]. split; [done|by left].
Qed.
End operations.

#[export] Hint Resolve commit_accepted_openmls clear_pending_openmls : frame.

(** The steps of the guard [h]. *)
Class GuardFrame `{X : Externals, O : OpenMls} {M : Type} `{!LruMap M nat}
    (h : nat) (R : World M -> World M -> Prop) : Prop := {
  gf_preorder :: PreOrder R;
  gf_mutate {T} (op : Database -> MlsGroup -> bytes -> res ConversationError T * (Database * MlsGroup)) :
    openmls_operation op -> st_frame R (mutate_group h op);
  gf_queue id epoch : st_frame R (queue_epoch_changed id epoch);
}.

Section frames.
Context `{X : Externals, O : OpenMls, !OpenMlsLaws O} {M : Type} `{!LruMap M nat}.
Abbreviation World := (World M).
Context (R : World -> World -> Prop) `{!PreOrder R}.

Lemma unchanged_frame {E A} (m : st World E A) : (forall w, snd (m w) = w) -> st_frame R m.
Proof. intros Hm w. by rewrite Hm. Qed.

Lemma valid_frame : st_frame R valid.
Proof. by apply unchanged_frame. Qed.

Lemma session_frame : st_frame R session.
Proof.
  apply unchanged_frame. intros w. unfold session, valid, st_lift, mbind, st_bind. by destruct (context w).
Qed.

Lemma guarded_frame h' : st_frame R (guarded h').
Proof. by apply unchanged_frame. Qed.

Lemma read_frame {A} (f : Database -> kres A) : st_frame R (on_database (fun db => (f db, db))).
Proof. apply unchanged_frame. by intros [[] ?]. Qed.
Lemma crypto_provider_frame : st_frame R crypto_provider.
Proof. pose proof session_frame. unfold crypto_provider. solve_keeps. Qed.

Lemma in_context_frame {A} (m : st World TransactionError A) : st_frame R m -> st_frame R (in_context m).
Proof. apply st_frame_map_err. Qed.
End frames.

#[export] Hint Resolve crypto_provider_frame in_context_frame valid_frame session_frame guarded_frame read_frame gf_mutate gf_queue : frame.
#[export] Hint Extern 1 (PreOrder _) => apply _ : frame.
#[export] Hint Extern 1 (GuardFrame _ _) => typeclasses eauto : frame.

Section guard_frames.
Context `{X : Externals, O : OpenMls, !OpenMlsLaws O} {M : Type} `{!LruMap M nat}.
Context (h : nat) (R : World M -> World M -> Prop) `{!GuardFrame h R}.

Lemma clear_pending_commit_frame : st_frame R (clear_pending_commit h).
Proof. unfold clear_pending_commit. solve_keeps. Qed.

Lemma ensure_no_pending_commit_frame : st_frame R (ensure_no_pending_commit h).
Proof. pose proof clear_pending_commit_frame. unfold ensure_no_pending_commit. solve_keeps. Qed.

Lemma merge_commit_frame : st_frame R (merge_commit h).
Proof. unfold merge_commit, commit_accepted, crypto_provider, in_context. solve_keeps. Qed.
End guard_frames.

#[export] Hint Resolve clear_pending_commit_frame ensure_no_pending_commit_frame merge_commit_frame : frame.

(** ** Contexts that can work on a conversation *)

Section guard_ready.
Context `{X : Externals, !ExternalsLaws X, O : OpenMls, !OpenMlsLaws O}.
Context {M : Type} `{!LruMap M nat, !LruMapLaws M nat}.
Abbreviation World := (World M).

(** A valid context of session [s], with a transaction on an open connection. *)
Definition working (s : Session M) (w : World) : Prop :=
  context w <> Invalid /\ mls (core w) = Some s /\ in_transaction (database (core w)) /\
  conn (database (core w)) <> None.

Lemma working_session s w : working s w -> session w = (Ok s, w).
Proof.
  intros (Hc & Hs & _). unfold session, mbind, st_bind. rewrite valid_run by done. unfold st_lift. by rewrite Hs.
Qed.

Lemma working_valid s w : working s w -> valid w = (Ok (), w).
Proof. intros (Hc & _). by apply valid_run. Qed.

Lemma working_provider s w : working s w -> crypto_provider w = (Ok (), w).
Proof. intros Hw. unfold crypto_provider, mbind, st_bind. by rewrite (working_session s). Qed.

(** A database written in the transaction. *)
Lemma working_database s (w : World) db :
  working s w -> keeps_database (database (core w)) db -> working s (set_core (set_database db (core w)) w).
Proof.
  intros (Hc & Hs & [Hdb Ht] & Hconn) (Hn & _ & Hcn & Hi). split; [done|]. split; [done|]. cbn.
  split; [split; [by apply Hi|tauto]|by rewrite Hcn].
Qed.

(** A group operation only writes records of OpenMLS and the group. *)
Lemma mutate_group_reads {T} ty h (op : Database -> MlsGroup -> bytes -> res ConversationError T * (Database * MlsGroup))
    (w : World) :
  (forall id, id <> GroupState -> id <> SignatureKeyPair -> mls_type id <> ty) ->
  ty <> EntityType.PersistedMlsGroup -> openmls_operation op ->
  same_reads ty (database (core w)) (database (core (snd (mutate_group h op w)))).
Proof.
  intros Hty Hg Hop. unfold mutate_group, in_context, st_map_err, mbind, st_bind, st_of.
  unfold valid, st_lift. destruct (context w) as [ch|]; cbn; [|done].
  destruct (heap (core w) !! h) as [c|]; [|done].
  destruct (op _ _ _) as [r [db g]] eqn:Ho. apply Hop in Ho as (Hp%(provider_same_reads ty) & _ & _); [|done].
  destruct r as [t|e|]; [|done..]. destruct (decide (state_changed g = Changed)); [|done].
  destruct (ser_group g) as [state|]; [|done].
  assert (same_reads ty db (snd (mls_group_persist (conv_id c) state None db))) as Hs.
  { set (entity := Entity.PersistedMlsGroup {| group_id := conv_id c; group_state := state; group_parent_id := None |}).
    assert (same_reads ty db (snd (kv_save None entity db))) as Hs by by eapply save_same_reads.
    unfold mls_group_persist. fold entity. by destruct (kv_save None entity db). }
  destruct (mls_group_persist (conv_id c) state None db) as [[[]|e'|] db']; cbn in *; by etrans.
Qed.

(** A valid context with a session, and a transaction on an open connection. *)
Definition ready (h : nat) (c : Conversation) (w : World) : Prop :=
  context w <> Invalid /\ is_Some (mls (core w)) /\ heap (core w) !! h = Some c /\
  db_inv (database (core w)) /\ transaction (database (core w)) <> None /\ conn (database (core w)) <> None.

Lemma ready_provider h c w : ready h c w -> in_context crypto_provider w = (Ok (), w).
Proof.
  intros (Hc & [s Hs] & _). unfold in_context, crypto_provider, session, st_map_err, mbind, st_bind.
  rewrite valid_run by done. unfold st_lift. by rewrite Hs.
Qed.

Lemma ready_guarded h c w : ready h c w -> guarded h w = (Ok c, w).
Proof. intros (_ & _ & Hh & _). unfold guarded, st_lift. by rewrite Hh. Qed.

Lemma update_same h c (w : World) : heap (core w) !! h = Some c -> update h (database (core w)) (conv_group c) w = w.
Proof.
  intros Hh. unfold update, set_group, set_core, set_heap, set_database. destruct w as [[db pki s hp obs] ctx].
  cbn in *. do 2 f_equal. apply list_eq. intros i. destruct (decide (i = h)) as [->|Hne].
  - rewrite list_lookup_alter_eq, Hh. by destruct c.
  - by rewrite list_lookup_alter_ne.
Qed.

(** What the operations keep. *)
Definition keeps_ready (h : nat) (w w' : World) : Prop :=
  forall c, ready h c w ->
    exists c', ready h c' w' /\ conv_id c' = conv_id c /\ conn (database (core w')) = conn (database (core w)).

#[export] Instance keeps_ready_preorder h : PreOrder (keeps_ready h).
Proof.
  split; [intros w c Hr; by exists c|]. intros w1 w2 w3 H12 H23 c (c2 & Hr2 & Hid2 & Hc2)%H12.
  destruct (H23 c2 Hr2) as (c3 & Hr3 & Hid3 & Hc3). exists c3. split; [done|]. split; congruence.
Qed.

Lemma ready_database h (w : World) db :
  keeps_database (database (core w)) db -> keeps_ready h w (set_core (set_database db (core w)) w).
Proof.
  intros (Ht & _ & Hc & Hi) c (Hctx & Hs & Hh & Hdb & Htx & Hconn). exists c. split; [|done].
  do 3 (split; [done|]). cbn. split; [by apply Hi|]. split; [tauto|by rewrite Hc].
Qed.

#[export] Instance keeps_ready_guard h : GuardFrame h (keeps_ready h).
Proof.
  split.
  - apply _.
  - intros T op Hop w. destruct (mutate_group h op w) as [r w'] eqn:Hm.
    pose proof (mutate_group_reads EntityType.StoredBufferedCommit h op w) as [(Ht & _ & Hc & Hi) _]; [by intros []|done..|].
    rewrite Hm in Ht, Hc, Hi. cbn in *.
    destruct (mutate_group_shape h op w r w' Hm) as [-> | (db & g & ->)]; [done|]. cbn in *.
    intros c (Hctx & Hs & Hh & Hdb & Htx & Hconn).
    exists (MkConversation (conv_id c) g (conv_configuration c)). split; [|done].
    split; [done|]. split; [done|]. split; [cbn; by rewrite list_lookup_alter_eq, Hh|]. cbn.
    split; [by apply Hi|]. split; [tauto|by rewrite Hc].
  - intros id epoch w c (Hctx & Hr). unfold queue_epoch_changed. destruct (context w); [|done]. by exists c.
Qed.

Lemma frame_ready {E A} h c (m : st World E A) (w : World) r w' :
  st_frame (keeps_ready h) m -> ready h c w -> m w = (r, w') ->
  exists c', ready h c' w' /\ conv_id c' = conv_id c.
Proof.
  intros Hf Hr Hm. destruct (Hf w c Hr) as (c' & Hr' & Hid & _). rewrite Hm in Hr'. by exists c'.
Qed.
(** ** Changes that succeed *)

(** The conversation in memory after a change of its group. *)
Definition regrouped (c : Conversation) (g : MlsGroup) (c' : Conversation) : Prop :=
  conv_id c' = conv_id c /\ conv_configuration c' = conv_configuration c /\ same_group (conv_group c') g /\
  state_changed (conv_group c') = Persisted.

(** The group the key store reads back under an id is this one. *)
Definition stored_as (id : bytes) (g : MlsGroup) (w : World) : Prop :=
  exists stored, stored_group id (database (core w)) = Some stored /\ same_group stored g.

Lemma mls_group_persist_run id state db g :
  in_transaction db -> ser_group g = Some state ->
  exists db' stored, mls_group_persist id state None db = (Ok (), db') /\
    stored_group id db' = Some stored /\ same_group stored g.
Proof.
  intros Hin Hs. destruct (deser_ser_group g state Hs) as (stored & Hd & Hsame).
  destruct (persist_stored id state None db Hin) as (db' & Hrun & _ & Hstored).
  exists db', stored. split; [done|]. split; [|done]. by rewrite Hstored, decide_True.
Qed.

(** A change of the group that OpenMLS flags reaches the key store. *)
Lemma mutate_group_ready {T} h c (w : World) (op : Database -> MlsGroup -> bytes -> res ConversationError T * (Database * MlsGroup)) t db g :
  ready h c w -> openmls_operation op ->
  op (database (core w)) (conv_group c) (conv_id c) = (Ok t, (db, g)) -> is_Some (ser_group g) ->
  exists c' w', mutate_group h op w = (Ok t, w') /\ ready h c' w' /\ regrouped c g c' /\ context w' = context w /\
    (g <> conv_group c -> stored_as (conv_id c) g w').
Proof.
  intros Hr Hop Ho [state Hs]. pose proof Hr as (Hctx & _ & Hh & Hdb & Ht & _).
  pose proof (Hop _ _ _ _ _ _ Ho) as (Hp & _ & Hflagged).
  assert (in_transaction db) as Hin.
  { apply provider_same_groups in Hp as [(Hn & _ & _ & Hi) _]. split; [by apply Hi|tauto]. }
  assert (exists db' g', mutate_group h op w = (Ok t, update h db' g' w) /\ same_group g' g /\
    state_changed g' = Persisted /\
    (g <> conv_group c -> exists stored, stored_group (conv_id c) db' = Some stored /\ same_group stored g))
    as (db' & g' & Hm & Hsame & Hflag & Hstored).
  { unfold mutate_group, in_context, st_map_err, mbind, st_bind, st_of. rewrite valid_run by done. cbn [map_err].
    rewrite Hh, Ho. destruct (decide (state_changed g = Changed)) as [Hc|Hc].
    - rewrite Hs. destruct (mls_group_persist_run (conv_id c) state db g Hin Hs) as (db' & stored & -> & Hst).
      exists db', (set_state Persisted g). split; [done|]. split; [apply same_group_set_state|].
      split; [apply state_changed_set_state|]. intros _. by exists stored.
    - exists db, g. split; [done|]. split; [done|]. split; [by destruct (state_changed g)|].
      intros Hne. destruct Hflagged as [Heq | Hf]; [by destruct Hne|by destruct (Hc Hf)]. }
  destruct (frame_ready h c _ w _ _ (gf_mutate (h := h) op Hop) Hr Hm) as (c' & Hr' & Hid).
  exists c', (update h db' g' w). split; [done|]. split; [done|]. split; [|by split].
  destruct Hr' as (_ & _ & Hh' & _). cbn in Hh'. rewrite list_lookup_alter_eq, Hh in Hh'. by injection Hh' as <-.
Qed.

(** A closure that fails and changes nothing. *)
Lemma mutate_group_refused {T} h c (w : World) (op : Database -> MlsGroup -> bytes -> res ConversationError T * (Database * MlsGroup)) e :
  ready h c w ->
  op (database (core w)) (conv_group c) (conv_id c) = (Err e, (database (core w), conv_group c)) ->
  mutate_group h op w = (Err e, w).
Proof.
  intros (Hctx & _ & Hh & _) Ho. unfold mutate_group, in_context, st_map_err, mbind, st_bind, st_of.
  rewrite valid_run by done. cbn [map_err]. rewrite Hh, Ho. by rewrite update_same.
Qed.

(** Clearing and merging a pending commit. *)
Lemma other_pending g g' : pending_commit g = false -> pending_commit g' = true -> g <> g'.
Proof. intros Hg Hg' ->. by rewrite Hg in Hg'. Qed.

Lemma clear_pending_commit_run h c (w : World) :
  ready h c w -> pending_commit (conv_group c) = true -> is_Some (ser_group (clear_pending_commit_of (conv_group c))) ->
  exists c' w', clear_pending_commit h w = (Ok (), w') /\ ready h c' w' /\
    regrouped c (clear_pending_commit_of (conv_group c)) c' /\ context w' = context w /\
    stored_as (conv_id c) (clear_pending_commit_of (conv_group c)) w'.
Proof.
  intros Hr Hp Hs.
  destruct (mutate_group_ready h c w clear_pending_commit_operation () (database (core w)) (clear_pending_commit_of (conv_group c)))
    as (c' & w' & Hrun & Hr' & Hc' & Hctx & Hst); [done|apply clear_pending_openmls| |done|].
  - unfold clear_pending_commit_operation. by rewrite Hp.
  - exists c', w'. do 4 (split; [done|]). apply Hst. apply other_pending; [apply clear_pending_commit_none|done].
Qed.

Lemma merge_commit_run h c (w : World) g db changes :
  ready h c w -> context w = Valid changes ->
  merge_pending_commit_of (conv_group c) (database (core w)) = (true, (g, db)) -> is_Some (ser_group g) ->
  exists c' w', merge_commit h w = (Ok (), w') /\ ready h c' w' /\ regrouped c g c' /\
    context w' = Valid (changes ++ [(conv_id c, group_epoch g)]) /\
    (pending_commit (conv_group c) = true -> stored_as (conv_id c) g w').
Proof.
  intros Hr Hctx Hm Hs. pose proof (commit_accepted_openmls (O := O)) as Hop.
  destruct (commit_accepted_operation (database (core w)) (conv_group c) (conv_id c)) as [r [db' g']] eqn:Ho.
  pose proof Ho as Ho'. unfold commit_accepted_operation in Ho'. rewrite Hm in Ho'. injection Ho' as <- Hdb' <-.
  destruct (mutate_group_ready h c w _ () db' g Hr Hop Ho Hs) as (c' & w' & Hrun & Hr' & Hc' & Hctx' & Hst).
  exists c', (MkWorld (core w') (Valid (changes ++ [(conv_id c, group_epoch g)]))).
  split; [|split; [by destruct Hr' as (_ & Hrest)|split; [done|split; [done|]]]].
  - unfold merge_commit, commit_accepted, mbind, st_bind. rewrite (ready_provider h c w Hr), Hrun.
    rewrite (ready_guarded h c' w' Hr'). unfold in_context, st_map_err, queue_epoch_changed. rewrite Hctx', Hctx. cbn.
    destruct Hc' as (-> & _ & Hg & _). by rewrite (same_group_epoch _ _ Hg).
  - intros Hp. apply Hst, other_pending; [by eapply merge_pending_commit_none|done].
Qed.
End guard_ready.
