(* ===== verification/Credentials.v ===== *)
(** * Credentials

    [crypto/src/mls/credential]: the credential of a client, references to stored
    credentials, and their persistence; the credential operations of a
    transaction ([crypto/src/transaction_context/credential/mod.rs]). *)

From S2P Require Import Prelude Keys EntityTypes Entities ToyExternals Sql KeystoreErrors EntityStore Store Transaction Database EntityKV KeystoreMls CryptoErrors OpenMls ConversationCache TransactionContext ClientIds MlsMessages.
From Stdlib Require Import Lia ZArith.

(** The credential types of the library, and those the crate supports. *)
Inductive MlsCredentialType : Type := MlsBasic | MlsX509 | MlsUnknown (value : Z).
Inductive CredentialType : Type := Basic | X509.

#[export] Instance CredentialType_eq_dec : EqDecision CredentialType.
Proof. solve_decision. Defined.

(** [u16::from(MlsCredentialType)]. *)
Definition mls_credential_type_u16 (ty : MlsCredentialType) : Z :=
  match ty with MlsBasic => 1 | MlsX509 => 2 | MlsUnknown v => v end.

(** [TryFrom<MlsCredentialType> for CredentialType]. *)
Definition credential_type_try_from (value : MlsCredentialType) : res CredentialError CredentialType :=
  match value with
  | MlsBasic => Ok Basic
  | MlsX509 => Ok X509
  | MlsUnknown _ => Err (UnsupportedCredentialType (mls_credential_type_u16 value))
  end.

(** [From<CredentialType> for MlsCredentialType] and [for u16]. *)
Definition mls_credential_type_from (ty : CredentialType) : MlsCredentialType :=
  match ty with Basic => MlsBasic | X509 => MlsX509 end.

Definition credential_type_u16 (ty : CredentialType) : Z :=
  mls_credential_type_u16 (mls_credential_type_from ty).

(** [PartialEq<MlsCredentialType> for CredentialType]. *)
Definition credential_type_eq (ty : CredentialType) (other : MlsCredentialType) : bool :=
  (credential_type_u16 ty =? mls_credential_type_u16 other)%Z.

(** ** The library *)

(** The credentials of OpenMLS and the cipher suites it knows. *)
Class MlsCredentials : Type := {
  MlsCredential : Type;
  MlsCredential_eq_dec :: EqDecision MlsCredential;
  new_basic : bytes -> MlsCredential;
  mls_identity : MlsCredential -> bytes;
  mls_credential_kind : MlsCredential -> MlsCredentialType;
  serialize_credential : MlsCredential -> option bytes;
  (** [tls_deserialize], which stops after the credential, and
      [tls_deserialize_exact]. *)
  deserialize_credential : bytes -> option MlsCredential;
  deserialize_credential_exact : bytes -> option MlsCredential;
  (** [MlsCiphersuite::try_from] succeeds, and [signature_algorithm]. *)
  ciphersuite_known : Z -> bool;
  signature_algorithm : Z -> Z;
}.

Class MlsCredentialsLaws (Mc : MlsCredentials) : Prop := {
  basic_identity id : mls_identity (new_basic id) = id;
  basic_type id : mls_credential_kind (new_basic id) = MlsBasic;
  deserialize_serialize c b : serialize_credential c = Some b -> deserialize_credential b = Some c;
  deserialize_exact_serialize c b :
    serialize_credential c = Some b -> deserialize_credential_exact b = Some c;
}.

(** The parts of [CredentialWithKey], the credential of a leaf. *)
Class LeafCredentials {O : OpenMls} (Ms : MlsMessages O) (Mc : MlsCredentials) : Type := {
  leaf_credential : CredentialWithKey -> MlsCredential;
  leaf_signature_key : CredentialWithKey -> bytes;
}.

Section credentials.
Context `{X : Externals, Mc : MlsCredentials}.

(** [SignatureKeyPair]. *)
Record SignatureKeys : Type := MkKeys {
  key_scheme : Z;
  key_private : bytes;
  key_public : bytes;
}.

(** [Credential]. *)
Record Credential : Type := MkCredential {
  credential_cipher_suite : Z;
  credential_type : CredentialType;
  mls_credential : MlsCredential;
  signature_key_pair : SignatureKeys;
  earliest_validity : Z;
}.

(** [TryFrom<&StoredCredential> for Credential]. *)
Definition credential_try_from (stored : StoredCredential) : res CredentialError Credential :=
  mls_credential ← ok_or (deserialize_credential (cred_credential stored)) CredTlsDeserialize;
  cipher_suite ← (if ciphersuite_known (cred_ciphersuite stored) then Ok (cred_ciphersuite stored)
                  else Err (CredRecursive (RecMls UnknownCipherSuite)));
  let signature_key_pair :=
    MkKeys (signature_algorithm cipher_suite) (cred_private_key stored) (cred_public_key stored) in
  credential_type ← map_err (fun e => CredRecursive (RecMlsCredential e))
                      (credential_type_try_from (mls_credential_kind mls_credential));
  Ok (MkCredential cipher_suite credential_type mls_credential signature_key_pair
        (cred_created_at stored)).

(** [Credential::basic], for the keys the library generates. *)
Definition credential_basic (signature_key_gen : Z -> option (bytes * bytes)) (cipher_suite : Z)
    (client_id : bytes) : res CredentialError Credential :=
  let signature_scheme := signature_algorithm cipher_suite in
  '(private_key, public_key) ← ok_or (signature_key_gen signature_scheme) CredOpenMls;
  Ok (MkCredential cipher_suite Basic (new_basic client_id)
        (MkKeys signature_scheme private_key public_key) 0).

(** [Credential::client_id]. *)
Definition credential_client_id (c : Credential) : bytes := mls_identity (mls_credential c).

(** [PartialEq for Credential]. *)
Definition credential_eq (a b : Credential) : bool :=
  bool_decide (mls_credential a = mls_credential b) &&
  (earliest_validity a =? earliest_validity b)%Z &&
  (key_scheme (signature_key_pair a) =? key_scheme (signature_key_pair b))%Z &&
  bool_decide (key_public (signature_key_pair a) = key_public (signature_key_pair b)).

(** ** References *)

(** [CredentialRef]. *)
Record CredentialRef : Type := MkRef {
  ref_client_id : bytes;
  ref_public_key_hash : Sha256Hash;
  ref_type : CredentialType;
  ref_cipher_suite : Z;
  ref_earliest_validity : Z;
}.

(** [CredentialRef::from_credential]. *)
Definition ref_from_credential (c : Credential) : CredentialRef :=
  MkRef (credential_client_id c) (hash_from (key_public (signature_key_pair c))) (credential_type c)
    (credential_cipher_suite c) (earliest_validity c).

(** The stored credential under a hash of its public key. *)
Definition stored_credential (hash : Sha256Hash) (db : Database) : kres (option StoredCredential) :=
  o ← kv_get EntityType.StoredCredential (PkSha256 hash) db;
  Ok (e ← o; match e with Entity.StoredCredential c => Some c | _ => None end).

(** [CredentialRef::load]. *)
Definition ref_load (r : CredentialRef) (db : Database) : res CredentialRefError Credential :=
  o ← map_err RefKeystore (stored_credential (ref_public_key_hash r) db);
  stored ← ok_or o RefCredentialNotFound;
  map_err (fun e => RefRecursive (RecMlsCredential e)) (credential_try_from stored).

(** [CredentialRef::public_key]. *)
Definition ref_public_key (r : CredentialRef) (db : Database) : res CredentialRefError bytes :=
  o ← map_err RefKeystore (stored_credential (ref_public_key_hash r) db);
  match o with
  | Some stored => Ok (cred_public_key stored)
  | None => Err (RefRecursive (RecMlsCredentialRef RefCredentialNotFound))
  end.

(** [FindFilters]. *)
Record FindFilters : Type := MkFilters {
  find_client_id : option bytes;
  find_public_key_hash : option Sha256Hash;
  find_cipher_suite : option Z;
  find_credential_type : option CredentialType;
  find_earliest_validity : option Z;
}.

Definition default_filters : FindFilters := MkFilters None None None None None.

Context `{U : UuidLib}.

(** The loop of [CredentialRef::find] over the records found. *)
Fixpoint find_loop (credential_type : option CredentialType) (found : list StoredCredential) :
    res CredentialRefError (list CredentialRef) :=
  match found with
  | [] => Ok []
  | stored :: found =>
      mls_credential ← ok_or (deserialize_credential_exact (cred_credential stored)) RefTlsDeserialize;
      if is_none_or credential_type (fun ty => credential_type_eq ty (mls_credential_kind mls_credential)) then
        match credential_type_try_from (mls_credential_kind mls_credential) with
        | Ok ty =>
            if ciphersuite_known (cred_ciphersuite stored) then
              client_id ← map_err (fun e => RefRecursive (RecMlsClient e))
                            (client_id_from_bytes (cred_session_id stored));
              out ← find_loop credential_type found;
              Ok (MkRef client_id (hash_from (cred_public_key stored)) ty (cred_ciphersuite stored)
                    (cred_created_at stored) :: out)
            else find_loop credential_type found
        | _ => find_loop credential_type found
        end
      else find_loop credential_type found
  end.

(** [CredentialRef::find]. *)
Definition ref_find (f : FindFilters) (db : Database) : res CredentialRefError (list CredentialRef) :=
  found ← map_err RefKeystore (search_credentials
    {| filter_hash := find_public_key_hash f; filter_public_key := None;
       filter_session_id := find_client_id f; filter_ciphersuite := find_cipher_suite f;
       filter_earliest_validity := find_earliest_validity f |} db);
  find_loop (find_credential_type f)
    (omap (fun e => match e with Entity.StoredCredential c => Some c | _ => None end) found).

(** [CredentialRef::get_all]. *)
Definition ref_get_all : Database -> res CredentialRefError (list CredentialRef) :=
  ref_find default_filters.

(** ** Persistence *)

(** [Credential::find_by_public_key]. *)
Definition find_by_public_key (public_key : bytes) (db : Database) : res CredentialError Credential :=
  o ← map_err CredKeystore (stored_credential (hash_from public_key) db);
  stored ← ok_or o (CredentialNotFound public_key);
  credential_try_from stored.

(** [Credential::get_all]. *)
Definition credential_get_all (db : Database) : res CredentialError (list Credential) :=
  found ← map_err CredKeystore (kv_load_all EntityType.StoredCredential db);
  mapM credential_try_from
    (omap (fun e => match e with Entity.StoredCredential c => Some c | _ => None end) found).

(** [Credential::save], with the clock of the machine: the reference, and the
    credential with the time the keystore gave it. *)
Definition credential_save (clock : option Z) (c : Credential) (db : Database) :
    res CredentialError (CredentialRef * Credential) * Database :=
  match serialize_credential (mls_credential c) with
  | None => (Err CredTlsSerialize, db)
  | Some credential_data =>
      let '(r, db) := kv_save clock (Entity.StoredCredential
        {| cred_session_id := credential_client_id c; cred_credential := credential_data;
           cred_created_at := 0; cred_ciphersuite := credential_cipher_suite c;
           cred_private_key := key_private (signature_key_pair c);
           cred_public_key := key_public (signature_key_pair c) |}) db in
      (created_at ← map_err CredKeystore r;
       created_at ← expect created_at;
       let c := MkCredential (credential_cipher_suite c) (credential_type c) (mls_credential c)
                  (signature_key_pair c) created_at in
       Ok (ref_from_credential c, c), db)
  end.

(** [Credential::delete]. *)
Definition credential_delete (c : Credential) (db : Database) : res CredentialError () * Database :=
  let '(r, db) := kv_remove EntityType.StoredCredential
                    (PkSha256 (hash_from (key_public (signature_key_pair c)))) db in
  (map_err CredKeystore r, db).
End credentials.

(** ** Concrete credentials: an identity, of the basic type. *)
#[export] Instance toy_credentials : MlsCredentials := {|
  MlsCredential := bytes;
  new_basic id := id;
  mls_identity c := c;
  mls_credential_kind _ := MlsBasic;
  serialize_credential := Some;
  deserialize_credential := Some;
  deserialize_credential_exact := Some;
  ciphersuite_known cs := (1 <=? cs)%Z && (cs <=? 7)%Z;
  signature_algorithm cs := cs;
|}.

#[export] Instance toy_credentials_laws : MlsCredentialsLaws toy_credentials.
Proof. by split; intros; simplify_eq/=. Qed.

#[export] Instance toy_leaves : LeafCredentials toy_messages toy_credentials := {|
  leaf_credential c := c;
  leaf_signature_key c := c;
|}.
