(* ===== verification/Commits.v ===== *)
(** * Commits of a conversation

    [crypto/src/mls/conversation/mutable/commit.rs], [proposal.rs], [encrypt.rs]
    and [history_sharing.rs]: building commits, sending them over the transport of
    the application and merging them, and the history client of a conversation
    that shares its history.  Encryption is modelled in the release build, without
    its debug assertions. *)

From S2P Require Import Prelude Keys EntityTypes Entities ToyExternals Sql KeystoreErrors EntityStore Store Transaction Database EntityKV KeystoreMls CryptoErrors OpenMls ConversationCache TransactionContext ConversationMut ClientIds MlsMessages Credentials.
From Stdlib Require Import Lia ZArith.

(** ** The library *)

(** What [MlsGroup::add_members] fails with, as far as the code tells. *)
Inductive AddMembersError : Type := DuplicateSignatureKey | OtherAddMembersError.

(** The calls of OpenMLS that create a commit: [remove_members],
    [explicit_self_update] with the credential and key of the new leaf,
    [commit_to_pending_proposals] and [commit_to_inline_proposals]. *)
Inductive CommitRequest (C P : Type) : Type :=
  | RemoveMembers (members : list Z)
  | ExplicitSelfUpdate (leaf_node : option (C * bytes))
  | CommitToPendingProposals
  | CommitToInlineProposals (proposals : list P).
Arguments RemoveMembers {C P} members.
Arguments ExplicitSelfUpdate {C P} leaf_node.
Arguments CommitToPendingProposals {C P}.
Arguments CommitToInlineProposals {C P} proposals.

(** The calls that create a proposal. *)
Inductive ProposeRequest (K : Type) : Type :=
  | ProposeAddMember (key_package : K)
  | ProposeRemoveMember (member : Z).
Arguments ProposeAddMember {K} key_package.
Arguments ProposeRemoveMember {K} member.

Class MlsCommits {O : OpenMls} (Ms : MlsMessages O) (Mc : MlsCredentials) : Type := {
  MlsMessageOut : Type;
  GroupInfo : Type;
  KeyPackageIn : Type;
  kpin_signature_key : KeyPackageIn -> bytes;
  kpin_identity : KeyPackageIn -> bytes;
  (** [MlsMessageOut::from(group_info).tls_serialize_detached()] and [to_bytes]. *)
  serialize_group_info : GroupInfo -> option bytes;
  message_to_bytes : MlsMessageOut -> option bytes;
  (** The members of a group with their credentials. *)
  group_members : MlsGroup -> list (ClientIds.Member CredentialWithKey);
  (** The leaves the pending commit removes, and all its proposals. *)
  pending_commit_removed : MlsGroup -> list Z;
  pending_commit_proposals : MlsGroup -> list MlsProposal;
  (** The pending proposals with their senders, and the leaf of an update. *)
  sent_proposals : MlsGroup -> list (Sender * MlsProposal);
  update_proposal_leaf : MlsProposal -> option CredentialWithKey;
  add_members_of : SignatureKeys -> list KeyPackageIn -> MlsGroup -> Database ->
    res AddMembersError (MlsMessageOut * MlsMessageOut * option GroupInfo) * (MlsGroup * Database);
  create_commit_of : SignatureKeys -> CommitRequest MlsCredential MlsProposal -> MlsGroup -> Database ->
    option (MlsMessageOut * option MlsMessageOut * option GroupInfo) * (MlsGroup * Database);
  propose_of : SignatureKeys -> ProposeRequest KeyPackageIn -> MlsGroup -> Database ->
    option MlsMessageOut * (MlsGroup * Database);
  create_message_of : SignatureKeys -> bytes -> MlsGroup -> option MlsMessageOut * MlsGroup;
}.

(** What the crypto crate relies on: as for the other operations of a group, and a
    commit that is created is pending. *)
Class MlsCommitsLaws `{X : Externals} {O : OpenMls} {Ms : MlsMessages O} {Mc : MlsCredentials}
    (Mm : MlsCommits Ms Mc) : Prop := {
  add_members_step sk kps g db r g' db' :
    add_members_of sk kps g db = (r, (g', db')) ->
    provider_calls db db' /\ group_group_id g' = group_group_id g /\ flagged g g';
  add_members_pending sk kps g db r g' db' :
    add_members_of sk kps g db = (Ok r, (g', db')) -> pending_commit g' = true;
  create_commit_step sk q g db r g' db' :
    create_commit_of sk q g db = (r, (g', db')) ->
    provider_calls db db' /\ group_group_id g' = group_group_id g /\ flagged g g';
  create_commit_pending sk q g db r g' db' :
    create_commit_of sk q g db = (Some r, (g', db')) -> pending_commit g' = true;
  propose_step sk q g db r g' db' :
    propose_of sk q g db = (r, (g', db')) ->
    provider_calls db db' /\ group_group_id g' = group_group_id g /\ flagged g g';
  create_message_step sk m g r g' :
    create_message_of sk m g = (r, g') ->
    group_group_id g' = group_group_id g /\ flagged g g' /\ group_epoch g' = group_epoch g;
}.

(** ** Bundles *)

(** [GroupInfoEncryptionType], [RatchetTreeType] and [GroupInfoPayload]. *)
Inductive GroupInfoEncryptionType : Type := EncryptionPlaintext | JweEncrypted.
Inductive RatchetTreeType : Type := Full | Delta | ByRef.
Inductive GroupInfoPayload : Type := PlaintextPayload (payload : bytes).

(** [GroupInfoBundle]. *)
Record GroupInfoBundle : Type := MkGroupInfo {
  encryption_type : GroupInfoEncryptionType;
  ratchet_tree_type : RatchetTreeType;
  gi_payload : GroupInfoPayload;
}.

Section commits.
Context `{X : Externals, O : OpenMls, Ms : !MlsMessages O, Mc : MlsCredentials, !LeafCredentials Ms Mc}.
Context `{Mm : !MlsCommits Ms Mc, U : UuidLib} {M : Type} `{!LruMap M nat}.
Abbreviation conv A := (st (World M) ConversationError A).
Abbreviation group_operation T :=
  (Database -> MlsGroup -> bytes -> res ConversationError T * (Database * MlsGroup)).

(** [CommitBundle]. *)
Record CommitBundle : Type := MkBundle {
  bundle_welcome : option MlsMessageOut;
  bundle_commit : MlsMessageOut;
  bundle_group_info : GroupInfoBundle;
  encrypted_message : option bytes;
}.

(** [HistorySecret], with the key package of its client. *)
Record HistorySecret : Type := MkSecret {
  secret_client_id : bytes;
  secret_key_package : KeyPackageIn;
}.

(** [GroupInfoBundle::try_new_full_plaintext]. *)
Definition try_new_full_plaintext (gi : GroupInfo) : res ConversationError GroupInfoBundle :=
  payload ← ok_or (serialize_group_info gi) ConvTlsSerialize;
  Ok (MkGroupInfo EncryptionPlaintext Full (PlaintextPayload payload)).

(** [ConversationMut::group_info]. *)
Definition group_info (gi : option GroupInfo) : res ConversationError GroupInfoBundle :=
  gi ← ok_or gi (ConvLeaf MissingGroupInfo);
  try_new_full_plaintext gi.

(** ** The credential of a conversation *)

(** [Conversation::extract_own_updated_node_from_proposals]. *)
Definition extract_own_updated_node_from_proposals (own_index : Z)
    (pending_proposals : list (Sender * MlsProposal)) : option CredentialWithKey :=
  last (omap (fun p => match p.1 with
                       | Member index => if (index =? own_index)%Z then update_proposal_leaf p.2 else None
                       | _ => None end) pending_proposals).

(** [Conversation::find_current_credential]. *)
Definition find_current_credential (c : Conversation) (db : Database) : res ConversationError Credential :=
  let group := conv_group c in
  own_leaf ← ok_or
    (match extract_own_updated_node_from_proposals (own_leaf_index_of group) (sent_proposals group) with
     | Some leaf => Some leaf
     | None => own_leaf_credential group
     end) (ConvLeaf InternalMlsError);
  map_err (fun e => ConvRecursive (RecMlsClient (SessionRecursive (RecMlsCredential e))))
    (find_by_public_key (leaf_signature_key own_leaf) db).

(** [ConversationMut::credential]. *)
Definition guard_credential (h : nat) : conv Credential :=
  c ← guarded h;
  st_lift (fun w => map_err (fun _ => IdentityInitializationError)
                      (find_current_credential c (database (core w)))).

(** ** Creating commits *)

(** [ConversationMut::clients_with_duplicate_signature_keys]. *)
Definition duplicate_step (key_package : KeyPackageIn) (acc : gmap bytes bytes * list (bytes * bytes)) :
    res ConversationError (gmap bytes bytes * list (bytes * bytes)) :=
  let '(seen_signature_keys, duplicate_pairs) := acc in
  let signature_key := kpin_signature_key key_package in
  client_id ← map_err (fun e => ConvRecursive (RecMlsClient e))
                (client_id_from_bytes (kpin_identity key_package));
  Ok (<[signature_key := client_id]> seen_signature_keys,
      match seen_signature_keys !! signature_key with
      | Some previous_client_id => duplicate_pairs ++ [(previous_client_id, client_id)]
      | None => duplicate_pairs
      end).

Definition clients_with_duplicate_signature_keys (key_packages : list KeyPackageIn) :
    res ConversationError (list (bytes * bytes)) :=
  snd <$> for_each duplicate_step key_packages (∅, []).

(** The closure of [add_members_inner]. *)
Definition add_members_operation (signer : SignatureKeys) (key_packages : list KeyPackageIn) :
    group_operation CommitBundle := fun db group _ =>
  let '(r, (group, db)) := add_members_of signer key_packages group db in
  (match r with
   | Ok (commit, welcome, gi) =>
       gi ← group_info gi; Ok (MkBundle (Some welcome) commit gi None)
   | Err DuplicateSignatureKey =>
       affected_clients ← clients_with_duplicate_signature_keys key_packages;
       Err (DuplicateSignature affected_clients)
   | Err OtherAddMembersError => Err (ConvOpenMls OtherOpenMlsError)
   | Panic => Panic
   end, (db, group)).

(** [ConversationMut::add_members_inner]. *)
Definition add_members_inner (h : nat) (key_packages : list KeyPackageIn) : conv CommitBundle :=
  _ ← ensure_no_pending_commit h;
  _ ← in_context crypto_provider;
  credential ← guard_credential h;
  mutate_group h (add_members_operation (signature_key_pair credential) key_packages).

(** A closure that makes OpenMLS create a commit. *)
Definition create_commit_operation (signer : SignatureKeys)
    (request : MlsGroup -> CommitRequest MlsCredential MlsProposal) :
    group_operation (MlsMessageOut * option MlsMessageOut * option GroupInfo) := fun db group _ =>
  let '(r, (group, db)) := create_commit_of signer (request group) group db in
  (ok_or r (ConvOpenMls OtherOpenMlsError), (db, group)).

(** The members of a group whose identity is among those given. *)
Definition leaf_indices (clients : list bytes) (group : MlsGroup) : list Z :=
  omap (fun m => if decide (member_identity m ∈ clients) then Some (member_index m) else None)
    (group_members group).

(** The closure of [set_credential_inner]. *)
Definition set_credential_operation (credential : Credential) : group_operation CommitBundle := fun db group id =>
  match own_leaf_credential group with
  | None => (Err (ConvLeaf InternalMlsError), (db, group))
  | Some leaf_node =>
      let updated_leaf_node :=
        if decide (leaf_credential leaf_node = mls_credential credential) then None
        else Some (mls_credential credential, key_public (signature_key_pair credential)) in
      let '(r, (group, db)) :=
        create_commit_of (signature_key_pair credential) (ExplicitSelfUpdate updated_leaf_node) group db in
      ('(commit, welcome, gi) ← ok_or r (ConvOpenMls OtherOpenMlsError);
       gi ← ok_or gi (ConvLeaf MissingGroupInfo);
       gi ← try_new_full_plaintext gi;
       Ok (MkBundle welcome commit gi None), (db, group))
  end.

(** [ConversationMut::set_credential_inner]. *)
Definition set_credential_inner (h : nat) (credential : Credential) : conv CommitBundle :=
  _ ← ensure_no_pending_commit h;
  _ ← in_context crypto_provider;
  mutate_group h (set_credential_operation credential).

(** The bundle of a commit whose group info is expected. *)
Definition expect_bundle (created : MlsMessageOut * option MlsMessageOut * option GroupInfo) :
    res ConversationError (option CommitBundle) :=
  let '(commit, welcome, gi) := created in
  gi ← expect gi;
  gi ← try_new_full_plaintext gi;
  Ok (Some (MkBundle welcome commit gi None)).

(** [ConversationMut::commit_pending_proposals_inner]. *)
Definition commit_pending_proposals_inner (h : nat) : conv (option CommitBundle) :=
  c ← guarded h;
  match pending_proposals_of (conv_group c) with
  | [] => mret None
  | _ =>
      _ ← in_context crypto_provider;
      credential ← guard_credential h;
      created ← mutate_group h (create_commit_operation (signature_key_pair credential)
                                  (fun _ => CommitToPendingProposals));
      st_lift (fun _ => expect_bundle created)
  end.

(** [ConversationMut::commit_inline_proposals]. *)
Definition commit_inline_proposals (h : nat) (proposals : list MlsProposal) : conv (option CommitBundle) :=
  match proposals with
  | [] => mret None
  | _ =>
      _ ← in_context crypto_provider;
      credential ← guard_credential h;
      created ← mutate_group h (create_commit_operation (signature_key_pair credential)
                                  (fun _ => CommitToInlineProposals proposals));
      st_lift (fun _ => expect_bundle created)
  end.

(** ** Proposals and messages *)

Definition propose_operation (signer : SignatureKeys) (request : ProposeRequest KeyPackageIn) :
    group_operation MlsMessageOut := fun db group _ =>
  let '(r, (group, db)) := propose_of signer request group db in
  (ok_or r (ConvOpenMls OtherOpenMlsError), (db, group)).

(** [ConversationMut::propose_add_member] and [propose_remove_member]. *)
Definition propose (h : nat) (request : ProposeRequest KeyPackageIn) : conv MlsMessageOut :=
  _ ← in_context crypto_provider;
  credential ← guard_credential h;
  mutate_group h (propose_operation (signature_key_pair credential) request).

Definition propose_add_member (h : nat) (key_package : KeyPackageIn) : conv MlsMessageOut :=
  propose h (ProposeAddMember key_package).
Definition propose_remove_member (h : nat) (member : Z) : conv MlsMessageOut :=
  propose h (ProposeRemoveMember member).

Definition encrypt_operation (signer : SignatureKeys) (message : bytes) : group_operation bytes := fun db group _ =>
  let '(r, group) := create_message_of signer message group in
  (encrypted ← ok_or r (ConvOpenMls OtherOpenMlsError);
   ok_or (message_to_bytes encrypted) (ConvOpenMls OtherOpenMlsError), (db, group)).

(** [ConversationMut::encrypt_message]. *)
Definition encrypt_message (h : nat) (message : bytes) : conv bytes :=
  _ ← in_context crypto_provider;
  credential ← guard_credential h;
  mutate_group h (encrypt_operation (signature_key_pair credential) message).
End commits.

(** ** Concrete commits

    A commit is the kind byte of a commit and the epoch; a group has two members,
    and the group [h] also a history client that its commits do not remove. *)
Definition toy_shares_history (g : ToyGroup) : bool := bool_decide (toy_id g = bstr "h").
Definition toy_commit (g : ToyGroup) : ToyGroup :=
  MkToyGroup (toy_id g) (toy_epoch g) (toy_active g) true (toy_proposed g) Changed.

#[export] Instance toy_commits : MlsCommits toy_messages toy_credentials := {|
  MlsMessageOut := bytes;
  GroupInfo := bytes;
  KeyPackageIn := bytes;
  kpin_signature_key kp := kp;
  kpin_identity kp := kp;
  serialize_group_info := Some;
  message_to_bytes := Some;
  group_members g :=
    [MkMember 0 (bstr "me") (bstr "me"); MkMember 1 (bstr "bob") (bstr "bob")] ++
    (if toy_shares_history g then [MkMember 2 (bstr "history-client:0") (bstr "history-client:0")] else []);
  pending_commit_removed g := if toy_shares_history g then [1%Z] else [];
  pending_commit_proposals _ := [];
  sent_proposals g := if toy_proposed g then [(Member 0, [x02])] else [];
  update_proposal_leaf _ := None;
  add_members_of _ kps g db :=
    (Ok ([x03; toy_epoch g], mjoin kps, Some [toy_epoch g]), (toy_commit g, db));
  create_commit_of _ _ g db := (Some ([x03; toy_epoch g], None, Some [toy_epoch g]), (toy_commit g, db));
  propose_of _ _ g db :=
    (Some [x02; toy_epoch g],
     (MkToyGroup (toy_id g) (toy_epoch g) (toy_active g) (toy_pending g) true Changed, db));
  create_message_of _ m g :=
    (Some (x01 :: toy_epoch g :: m),
     MkToyGroup (toy_id g) (toy_epoch g) (toy_active g) (toy_pending g) (toy_proposed g) Changed);
|}.

#[export] Instance toy_commits_laws : MlsCommitsLaws toy_commits.
Proof.
  split; cbn.
  - intros sk kps g db r g' db' [= _ <- <-]. split; [constructor|]. split; [done|by right].
  - by intros sk kps g db r g' db' [= _ <- _].
  - intros sk q g db r g' db' [= _ <- <-]. split; [constructor|]. split; [done|by right].
  - by intros sk q g db r g' db' [= _ <- _].
  - intros sk q g db r g' db' [= _ <- <-]. split; [constructor|]. split; [done|by right].
  - intros sk m g r g' [= _ <-]. split; [done|]. split; [by right|done].
Qed.
