(* ===== verification/HistorySharing.v ===== *)
(** * Sending commits, and sharing history

    The operations of [crypto/src/mls/conversation/mutable/commit.rs] and
    [history_sharing.rs] that talk to the application: commits are sent over its
    transport, and new history clients are announced to its observer. *)

From S2P Require Import Prelude Keys EntityTypes Entities ToyExternals Sql KeystoreErrors EntityStore Store Transaction Database EntityKV KeystoreMls CryptoErrors OpenMls ConversationCache TransactionContext ConversationMut ClientIds MlsMessages Credentials Commits.
From Stdlib Require Import Lia ZArith.

(** [HistoryClientUpdateOutcome]. *)
Inductive HistoryClientUpdateOutcome : Type := NoUpdateNeeded | CommitSentAndMerged.

#[export] Instance HistoryClientUpdateOutcome_eq_dec : EqDecision HistoryClientUpdateOutcome.
Proof. solve_decision. Defined.

Section history_sharing.
Context `{X : Externals, O : OpenMls, Ms : !MlsMessages O, Mc : MlsCredentials, !LeafCredentials Ms Mc}.
Context `{Mm : !MlsCommits Ms Mc, U : UuidLib} {M : Type} `{!LruMap M nat}.

(** The crate and what it has told the application: the bundles given to the
    transport, and the history secrets given to the observer. *)
Record Outside : Type := MkOutside {
  world : World M;
  sent : list CommitBundle;
  announced : list (bytes * HistorySecret);
}.

Abbreviation conv A := (st (World M) ConversationError A).
Abbreviation act A := (st Outside ConversationError A).

(** What the application and the machine contribute: the answers of the transport,
    the secrets generated from randomness, and the order in which a [HashSet] of
    leaf indices is visited. *)
Record Callbacks : Type := MkApp {
  send_commit_bundle : Outside -> CommitBundle -> res CoreError ();
  prepare_for_transport : Outside -> HistorySecret -> res CoreError bytes;
  new_history_secret : Outside -> Z -> res CoreError HistorySecret;
  hash_order : list Z -> list Z;
}.
Context (app : Callbacks).

(** A step of the crate alone. *)
Definition inside {A} (m : conv A) : act A := fun o =>
  let '(r, w) := m (world o) in (r, MkOutside w (sent o) (announced o)).

(** [ConversationMut::send_commit]. *)
Definition send_commit (commit : CommitBundle) : act () :=
  _ ← inside (in_context session);
  st_of (fun o => (map_err (fun e => ConvRecursive (Root e)) (send_commit_bundle app o commit),
                   MkOutside (world o) (sent o ++ [commit]) (announced o))).

(** [Session::notify_new_history_client]. *)
Definition notify_new_history_client (s : Session M) (id : bytes) (secret : HistorySecret) : act () :=
  st_of (fun o => (Ok (), MkOutside (world o) (sent o)
    (if history_observer s then announced o ++ [(id, secret)] else announced o))).

(** ** Sharing history *)

(** [Conversation::is_history_sharing_enabled]. *)
Definition is_history_sharing_enabled (c : Conversation) : bool :=
  match get_history_client_ids (group_members (conv_group c)) with [] => false | _ => true end.

(** [Conversation::generate_history_secret]. *)
Definition generate_history_secret (h : nat) : act HistorySecret :=
  c ← inside (guarded h);
  st_lift (fun o => map_err (fun e => ConvRecursive (Root e))
                      (new_history_secret app o (cipher_suite (conv_configuration c)))).

(** [ConversationMut::send_new_history_client_commit]. *)
Definition send_new_history_client_commit (h : nat) (commit : CommitBundle) (secret : HistorySecret) : act () :=
  _ ← inside (merge_commit h);
  _ ← inside (in_context session);
  data ← st_lift (fun o => map_err (fun e => ConvRecursive (Root e)) (prepare_for_transport app o secret));
  encrypted_secret ← inside (encrypt_message h data);
  let commit := MkBundle (bundle_welcome commit) (bundle_commit commit) (bundle_group_info commit)
                  (Some encrypted_secret) in
  c ← inside (guarded h);
  s ← inside (in_context session);
  _ ← notify_new_history_client s (conv_id c) secret;
  send_commit commit.

(** The checks of [update_history_client]: the history clients to replace. *)
Definition history_clients_to_replace (group : MlsGroup) : option (list Z) :=
  let removed_indices := pending_commit_removed group in
  let is_history m := starts_with HISTORY_CLIENT_ID_PREFIX (member_identity m) in
  let existing_history_clients := map member_index (filter (fun m => is_history m = true) (group_members group)) in
  let other_clients := map member_index (filter (fun m => is_history m = false) (group_members group)) in
  match removed_indices with
  | [] => None
  | _ =>
      if forallb (fun i => bool_decide (i ∈ removed_indices)) existing_history_clients then None
      else if negb (existsb (fun i => bool_decide (i ∈ removed_indices)) other_clients) then None
      else Some existing_history_clients
  end.

(** The proposals of a group that are ours. *)
Definition own_proposals (group : MlsGroup) : list MlsProposal :=
  (filter (fun p => p.1 = Member (own_leaf_index_of group)) (sent_proposals group)).*2.

Definition propose_all (h : nat) (requests : list (ProposeRequest KeyPackageIn)) : act (list MlsMessageOut) :=
  mapM (fun q => inside (propose h q)) requests.

(** [ConversationMut::update_history_client]. *)
Definition update_history_client (h : nat) : act HistoryClientUpdateOutcome :=
  c ← inside (guarded h);
  if negb (is_history_sharing_enabled c) then mret NoUpdateNeeded else
  let group := conv_group c in
  if negb (pending_commit group) then st_throw PendingCommitNotFound else
  match history_clients_to_replace group with
  | None => mret NoUpdateNeeded
  | Some existing_history_clients =>
      let proposals := pending_commit_proposals group in
      _ ← inside (clear_pending_commit h);
      secret ← generate_history_secret h;
      _ ← propose_all h (map ProposeRemoveMember (hash_order app existing_history_clients));
      _ ← inside (propose_add_member h (secret_key_package secret));
      c ← inside (guarded h);
      commit ← inside (commit_inline_proposals h (proposals ++ own_proposals (conv_group c)));
      commit ← st_lift (fun _ => expect commit);
      _ ← send_new_history_client_commit h commit secret;
      mret CommitSentAndMerged
  end.

(** ** Sending and merging *)

(** [ConversationMut::send_and_merge_commit]. *)
Definition send_and_merge_commit (h : nat) (commit : CommitBundle) : act () :=
  outcome ← update_history_client h;
  if decide (outcome = CommitSentAndMerged) then mret () else
  st_try (send_commit commit) (fun r =>
    match r with
    | Err e => _ ← inside (clear_pending_commit h); st_throw e
    | _ => inside (merge_commit h)
    end).

(** [ConversationMut::add_members]. *)
Definition add_members (h : nat) (key_packages : list KeyPackageIn) : act () :=
  commit ← inside (add_members_inner h key_packages);
  send_and_merge_commit h commit.

(** [ConversationMut::remove_members_or_history_clients], which is also
    [remove_members]. *)
Definition remove_members_or_history_clients (h : nat) (clients : list bytes) : act () :=
  _ ← inside (ensure_no_pending_commit h);
  _ ← inside (in_context crypto_provider);
  credential ← inside (guard_credential h);
  created ← inside (mutate_group h (create_commit_operation (signature_key_pair credential)
                                      (fun group => RemoveMembers (leaf_indices clients group))));
  let '(commit, welcome, gi) := created in
  gi ← st_lift (fun _ => group_info gi);
  send_and_merge_commit h (MkBundle welcome commit gi None).

(** [ConversationMut::update_key_material]. *)
Definition update_key_material (h : nat) : act () :=
  credential ← inside (guard_credential h);
  commit ← inside (set_credential_inner h credential);
  send_and_merge_commit h commit.

(** [ConversationMut::set_credential_by_ref]. *)
Definition set_credential_by_ref (h : nat) (r : CredentialRef) : act () :=
  _ ← inside (in_context valid);
  credential ← inside (st_lift (fun w => map_err (fun e => ConvRecursive (RecMlsCredentialRef e))
                                           (ref_load r (database (core w)))));
  commit ← inside (set_credential_inner h credential);
  send_and_merge_commit h commit.

(** [ConversationMut::commit_pending_proposals]. *)
Definition commit_pending_proposals (h : nat) : act () :=
  _ ← inside (ensure_no_pending_commit h);
  commit ← inside (commit_pending_proposals_inner h);
  match commit with
  | None => mret ()
  | Some commit => send_and_merge_commit h commit
  end.

(** [ConversationMut::enable_history_sharing]. *)
Definition enable_history_sharing (h : nat) : act () :=
  c ← inside (guarded h);
  if is_history_sharing_enabled c then mret () else
  secret ← generate_history_secret h;
  commit ← inside (add_members_inner h [secret_key_package secret]);
  send_new_history_client_commit h commit secret.

(** [ConversationMut::disable_history_sharing]. *)
Definition disable_history_sharing (h : nat) : act () :=
  c ← inside (guarded h);
  match get_history_client_ids (group_members (conv_group c)) with
  | [] => mret ()
  | history_client_ids => remove_members_or_history_clients h history_client_ids
  end.
End history_sharing.
