(* ===== verification/CommitFrames.v ===== *)
(** * What commits do to the state

    The operations that create, send and merge commits change the state of the
    crate only through the steps of their guard. *)

From S2P Require Import Prelude Keys EntityTypes Entities ToyExternals Sql KeystoreErrors EntityStore Store Transaction Database DatabaseProps EntityKV KeystoreMls CryptoErrors OpenMls ConversationCache TransactionContext TransactionContextProps ConversationMut ClientIds MlsMessages GuardFrames Credentials Commits HistorySharing.
From Stdlib Require Import Lia ZArith.

Section commit_frames.
Context `{X : Externals, O : OpenMls, !OpenMlsLaws O, Ms : !MlsMessages O, Mc : MlsCredentials, !LeafCredentials Ms Mc}.
Context `{Mm : !MlsCommits Ms Mc, !MlsCommitsLaws Mm, U : UuidLib} {M : Type} `{!LruMap M nat}.
Abbreviation World := (World M).
Abbreviation Outside := (Outside (M := M)).

(** ** The closures *)

Lemma add_members_openmls sk kps : openmls_operation (add_members_operation sk kps).
Proof.
  intros db g id r db' g'. unfold add_members_operation.
  destruct (add_members_of sk kps g db) as [r0 [g1 db1]] eqn:Hc. intros [= _ <- <-]. by eapply add_members_step.
Qed.

Lemma create_commit_openmls sk request : openmls_operation (create_commit_operation sk request).
Proof.
  intros db g id r db' g'. unfold create_commit_operation.
  destruct (create_commit_of sk (request g) g db) as [r0 [g1 db1]] eqn:Hc. intros [= _ <- <-].
  by eapply create_commit_step.
Qed.

Lemma set_credential_openmls c : openmls_operation (set_credential_operation c).
Proof.
  intros db g id r db' g'. unfold set_credential_operation.
  destruct (own_leaf_credential g) as [leaf|]; [|intros [= _ <- <-]; split; [constructor|split; [done|by left]]].
  destruct (create_commit_of _ _ g db) as [r0 [g1 db1]] eqn:Hc. intros [= _ <- <-]. by eapply create_commit_step.
Qed.

Lemma propose_openmls sk q : openmls_operation (propose_operation sk q).
Proof.
  intros db g id r db' g'. unfold propose_operation. destruct (propose_of sk q g db) as [r0 [g1 db1]] eqn:Hc.
  intros [= _ <- <-]. by eapply propose_step.
Qed.

Lemma encrypt_openmls sk m : openmls_operation (encrypt_operation sk m).
Proof.
  intros db g id r db' g'. unfold encrypt_operation. destruct (create_message_of sk m g) as [r0 g1] eqn:Hc.
  intros [= _ <- <-]. split; [constructor|]. by destruct (create_message_step _ _ _ _ _ Hc) as (? & ? & _).
Qed.

Hint Resolve add_members_openmls create_commit_openmls set_credential_openmls propose_openmls encrypt_openmls : frame.

(** ** The operations *)

Context (h : nat) (R : World -> World -> Prop) `{!GuardFrame h R}.

Lemma guard_credential_frame : st_frame R (guard_credential h).
Proof. unfold guard_credential. solve_keeps. Qed.
Hint Resolve guard_credential_frame : frame.

Lemma add_members_inner_frame kps : st_frame R (add_members_inner h kps).
Proof. unfold add_members_inner. solve_keeps. Qed.

Lemma set_credential_inner_frame c : st_frame R (set_credential_inner h c).
Proof. unfold set_credential_inner. solve_keeps. Qed.

Lemma commit_pending_inner_frame : st_frame R (commit_pending_proposals_inner h).
Proof. unfold commit_pending_proposals_inner. solve_keeps. Qed.

Lemma commit_inline_frame ps : st_frame R (commit_inline_proposals h ps).
Proof. unfold commit_inline_proposals. solve_keeps. Qed.

Lemma propose_frame q : st_frame R (propose h q).
Proof. unfold propose. solve_keeps. Qed.

Lemma encrypt_message_frame m : st_frame R (encrypt_message h m).
Proof. unfold encrypt_message. solve_keeps. Qed.

Hint Resolve add_members_inner_frame set_credential_inner_frame commit_pending_inner_frame commit_inline_frame
  propose_frame encrypt_message_frame : frame.

(** ** With the application *)

Definition keeps_world (o o' : Outside) : Prop := R (world o) (world o').

#[local] Instance keeps_world_preorder : PreOrder keeps_world.
Proof. split; [intros o; unfold keeps_world; reflexivity|]. intros a b c. unfold keeps_world. by etrans. Qed.

Context (app : Callbacks (M := M)).

Lemma inside_frame {A} (m : st World ConversationError A) : st_frame R m -> st_frame keeps_world (inside m).
Proof. intros Hm o. specialize (Hm (world o)). unfold inside, keeps_world. by destruct (m (world o)). Qed.

Lemma outside_frame {A} (f : Outside -> res ConversationError A * Outside) :
  (forall o, world (snd (f o)) = world o) -> st_frame keeps_world (st_of f).
Proof. intros Hf o. unfold keeps_world, st_of. by rewrite Hf. Qed.

Hint Resolve inside_frame : frame.

Lemma mapM_act_frame {A B} (f : A -> st Outside ConversationError B) l :
  (forall a, st_frame keeps_world (f a)) -> st_frame keeps_world (mapM f l).
Proof. intros Hf. induction l as [|a l IH]; cbn; solve_keeps. Qed.

Lemma send_commit_frame b : st_frame keeps_world (send_commit app b).
Proof.
  unfold send_commit. solve_keeps; by apply outside_frame.
Qed.

Lemma generate_frame : st_frame keeps_world (generate_history_secret app h).
Proof. unfold generate_history_secret. solve_keeps. Qed.

Lemma send_new_history_frame b s :
  st_frame keeps_world (send_new_history_client_commit app h b s).
Proof.
  pose proof send_commit_frame. unfold send_new_history_client_commit, notify_new_history_client.
  solve_keeps; by apply outside_frame.
Qed.

Hint Resolve send_commit_frame generate_frame send_new_history_frame : frame.

Lemma update_history_client_frame :
  st_frame keeps_world (update_history_client app h).
Proof.
  unfold update_history_client, propose_all, propose_add_member. solve_keeps.
  apply mapM_act_frame. intros q. solve_keeps.
Qed.
Hint Resolve update_history_client_frame : frame.

Lemma send_and_merge_frame b :
  st_frame keeps_world (send_and_merge_commit app h b).
Proof. unfold send_and_merge_commit. solve_keeps. Qed.
Hint Resolve send_and_merge_frame : frame.

(** The operations of a guard that talk to the application, and encryption. *)
Inductive guard_action : st Outside ConversationError () -> Prop :=
  | act_add_members kps : guard_action (add_members app h kps)
  | act_remove_members clients : guard_action (remove_members_or_history_clients app h clients)
  | act_update_key_material : guard_action (update_key_material app h)
  | act_set_credential r : guard_action (set_credential_by_ref app h r)
  | act_commit_pending : guard_action (commit_pending_proposals app h)
  | act_enable : guard_action (enable_history_sharing app h)
  | act_disable : guard_action (disable_history_sharing app h)
  | act_encrypt m : guard_action (_ ← inside (encrypt_message h m); mret ()).

Lemma remove_members_frame clients :
  st_frame keeps_world (remove_members_or_history_clients app h clients).
Proof. unfold remove_members_or_history_clients. solve_keeps. Qed.

Lemma guard_action_frame m : guard_action m -> st_frame keeps_world m.
Proof.
  pose proof remove_members_frame. destruct 1;
    unfold add_members, update_key_material, set_credential_by_ref, commit_pending_proposals,
      enable_history_sharing, disable_history_sharing; solve_keeps.
Qed.
End commit_frames.
