(* ===== verification/Decrypt.v ===== *)
(** * Decrypting messages

    [crypto/src/mls/conversation/mutable/decrypt], [own_commit.rs] and
    [immutable/duplicate.rs]: what a guard does with an incoming message, the
    buffer of messages of the next epoch, and the buffered commit. *)

From S2P Require Import Prelude Keys EntityTypes Entities ToyExternals Sql KeystoreErrors EntityStore Store Transaction Database EntityKV KeystoreMls CryptoErrors OpenMls ConversationCache TransactionContext ConversationMut CommitDelay ClientIds MlsMessages.
From Stdlib Require Import Lia ZArith.

(** ** Sorting *)

Section sort_by_key.
Context {A : Type} (key : A -> Z).

(** [sort_by_key], a stable sort. *)
Fixpoint insert_by_key (x : A) (l : list A) : list A :=
  match l with
  | [] => [x]
  | y :: l' => if (key x <=? key y)%Z then x :: l else y :: insert_by_key x l'
  end.

Definition sort_by_key (l : list A) : list A := foldr insert_by_key [] l.
End sort_by_key.

(** ** Data *)

Section messages.
Context {Identity : Type}.

(** [BufferedDecryptedMessage]. *)
Record BufferedDecryptedMessage : Type := MkBuffered {
  buffered_app_msg : option bytes;
  buffered_is_active : bool;
  buffered_delay : option Z;
  buffered_sender_client_id : option bytes;
  buffered_identity : Identity;
}.

(** [DecryptedMessage]. *)
Record DecryptedMessage : Type := MkDecrypted {
  app_msg : option bytes;
  is_active : bool;
  delay : option Z;
  sender_client_id : option bytes;
  identity : Identity;
  buffered_messages : option (list BufferedDecryptedMessage);
}.

(** [BufferedDecryptedMessage::from]. *)
Definition buffered_from (d : DecryptedMessage) : BufferedDecryptedMessage :=
  MkBuffered (app_msg d) (is_active d) (delay d) (sender_client_id d) (identity d).
End messages.
Arguments BufferedDecryptedMessage Identity : clear implicits.
Arguments DecryptedMessage Identity : clear implicits.

(** [RecursionPolicy] and [MessageRestorePolicy]. *)
Inductive RecursionPolicy : Type := AsNecessary | NoRecursion.
Inductive MessageRestorePolicy : Type := DecryptAndClear | ClearOnly.

#[export] Instance RecursionPolicy_eq_dec : EqDecision RecursionPolicy.
Proof. solve_decision. Defined.
#[export] Instance MessageRestorePolicy_eq_dec : EqDecision MessageRestorePolicy.
Proof. solve_decision. Defined.

Section decrypt.
Context `{X : Externals, O : OpenMls, Ms : !MlsMessages O, U : UuidLib} {M : Type} `{!LruMap M nat}.
(** The logarithm of the commit delay, and [CredentialExt::extract_identity] with
    the PKI environment of the provider. *)
Context (ln_ramp : Z -> Z) {Identity : Type} (extract_identity : CredentialWithKey -> res CredentialError Identity).
Abbreviation conv A := (st (World M) ConversationError A).
Abbreviation Message := (MlsMessageIn MlsProposal).
Abbreviation Decrypted := (DecryptedMessage Identity).
Abbreviation Content := (ProcessedMessageContent QueuedProposal StagedCommit).

(** [ParsedMessage]. *)
Record ParsedMessage : Type := MkParsed {
  is_duplicate : bool;
  protocol_message : ProtocolMessage MlsProposal;
  content_type : ContentType;
}.

(** ** Duplicates *)

(** [Conversation::is_duplicate_message]. *)
Definition is_duplicate_message (h : nat) (msg : PublicMessageIn MlsProposal) : conv bool :=
  c ← guarded h;
  match body_content_type (public_body msg), public_sender msg with
  | Commit, (Member _ | NewMemberCommit) =>
      match public_confirmation_tag msg with
      | None => st_throw (MlsGroupInvalidState "a commit must have a ConfirmationTag")
      | Some msg_ct =>
          match confirmation_tag_of (conv_group c) with
          | None => st_throw (ConvOpenMls OtherOpenMlsError)
          | Some group_ct => mret (bool_decide (msg_ct = group_ct))
          end
      end
  | ProposalType, (Member _ | NewMemberProposal) =>
      match public_body msg with
      | ProposalBody proposal =>
          mret (existsb (fun p => bool_decide (p = proposal)) (pending_proposals_of (conv_group c)))
      | _ => st_throw (MlsGroupInvalidState "message body was not a proposal despite ContentType::Proposal")
      end
  | _, _ => mret false
  end.

(** [ConversationMut::parse_message]. *)
Definition parse_message (h : nat) (msg_in : Message) : conv ParsedMessage :=
  match msg_in with
  | PublicMessage m =>
      dup ← is_duplicate_message h m;
      mret (MkParsed dup (PublicProtocol m) (body_content_type (public_body m)))
  | PrivateMessage m => mret (MkParsed false (PrivateProtocol m) (private_content_type m))
  | OtherMessage => st_throw (ConvOpenMls (MlsMessageError IncompatibleWireFormat))
  end.

(** ** Processing *)

(** The [map_err] of [process_message]; epochs are [u64]. *)
Definition classify_process_error (dup : bool) (ct : ContentType) (msg_epoch group_epoch : Z)
    (e : ProcessMessageError) : ConversationError :=
  match e with
  | GenerationOutOfBound => DuplicateMessage
  | WrongEpoch =>
      if dup then DuplicateMessage
      else if (msg_epoch =? u64 (group_epoch + 1))%Z then BufferedFutureMessage msg_epoch
      else if (msg_epoch <? group_epoch)%Z then
        match ct with Application => StaleMessage | Commit => StaleCommit | ProposalType => StaleProposal end
      else UnbufferedFarFutureMessage
  | AeadError => DecryptionError
  | TooDistantInThePast => MessageEpochTooOld
  | _ => ConvOpenMls (MlsMessageError e)
  end.

(** [ConversationMut::process_message]. *)
Definition process_message_operation (p : ParsedMessage) (db : Database) (group : MlsGroup) (_ : bytes) :
    res ConversationError (CredentialWithKey * Content) * (Database * MlsGroup) :=
  let '(r, (group', db')) := process_message_of group (protocol_message p) db in
  (match r with
   | Err e => Err (classify_process_error (is_duplicate p) (content_type p)
                     (protocol_epoch (protocol_message p)) (group_epoch group) e)
   | Panic => Panic
   | Ok processed_msg => if is_duplicate p then Err DuplicateMessage else Ok processed_msg
   end, (db', group')).

Definition process_message (h : nat) (p : ParsedMessage) : conv (CredentialWithKey * Content) :=
  _ ← in_context crypto_provider;
  mutate_group h (process_message_operation p).

(** [Conversation::compute_next_commit_delay] of the group of a guard. *)
Definition next_commit_delay (h : nat) : conv (option Z) :=
  c ← guarded h; mret (compute_next_commit_delay ln_ramp (delay_view (conv_group c))).

(** [ConversationMut::validate_commit]: the state of the added credentials is
    computed and dropped. *)
Definition validate_commit (_ : StagedCommit) : conv () := in_context crypto_provider.

(** The closures given to [mutate_group]. *)
Definition store_proposal_operation (proposal : QueuedProposal) (db : Database) (group : MlsGroup) (_ : bytes) :
    res ConversationError () * (Database * MlsGroup) :=
  (Ok (), (db, store_pending_proposal_of proposal group)).

Definition merge_staged_operation (staged : StagedCommit) (db : Database) (group : MlsGroup) (_ : bytes) :
    res ConversationError bool * (Database * MlsGroup) :=
  match merge_staged_commit_of staged group db with
  | (false, (group, db)) => (Err (ConvOpenMls OtherOpenMlsError), (db, group))
  | (true, (group, db)) => (Ok (group_is_active group), (db, group))
  end.

(** ** Our own commits *)

(** [ConversationMut::extract_confirmation_tag_from_own_commit]. *)
Definition extract_confirmation_tag_from_own_commit (h : nat) (own_commit : Message) : conv bytes :=
  match own_commit with
  | PublicMessage msg =>
      c ← guarded h;
      if bool_decide (body_content_type (public_body msg) = Commit) &&
         match public_sender msg with Member i => (i =? own_leaf_index_of (conv_group c))%Z | _ => false end
      then st_lift (fun _ => ok_or (public_confirmation_tag msg)
                               (MlsMessageInvalidState "Message confirmation tag not present"))
      else st_of (fun w => (Panic, w))
  | _ => st_of (fun w => (Panic, w))
  end.

(** [extract_identity] of a credential. *)
Definition identity_of (credential : CredentialWithKey) : conv Identity :=
  st_lift (fun _ => map_err (fun e => ConvRecursive (RecMlsCredential e)) (extract_identity credential)).

(** [ConversationMut::merge_pending_commit]. *)
Definition merge_pending_commit (h : nat) : conv Decrypted :=
  _ ← commit_accepted h;
  c ← guarded h;
  own_leaf ← st_lift (fun _ => ok_or (own_leaf_credential (conv_group c)) (MlsGroupInvalidState "own_leaf is None"));
  _ ← in_context crypto_provider;
  identity ← identity_of own_leaf;
  delay ← next_commit_delay h;
  mret (MkDecrypted None (group_is_active (conv_group c)) delay None identity None).

(** [ConversationMut::handle_own_commit]. *)
Definition handle_own_commit (h : nat) (ct : bytes) : conv Decrypted :=
  c ← guarded h;
  if pending_commit (conv_group c) then
    if bool_decide (pending_commit_tag (conv_group c) = Some ct) then merge_pending_commit h
    else st_throw ClearingPendingCommitError
  else st_throw SelfCommitIgnored.
(** ** Buffers *)

(** [ConversationMut::buffer_future_message]. *)
Definition buffer_future_message (h : nat) (message : bytes) : conv () :=
  _ ← in_context valid;
  c ← guarded h;
  _ ← st_map_err ConvKeystore (on_database (kv_save None
        (Entity.MlsPendingMessage {| pm_foreign_id := conv_id c; pm_message := message |})));
  mret ().

(** [ConversationMut::clear_pending_messages]. *)
Definition clear_pending_messages (h : nat) : conv () :=
  _ ← in_context valid;
  c ← guarded h;
  st_map_err ConvKeystore (on_database (remove_pending_messages_by_conversation_id (conv_id c))).

(** [ConversationMut::buffer_commit]. *)
Definition buffer_commit (h : nat) (commit : bytes) : conv () :=
  c ← guarded h;
  _ ← in_context crypto_provider;
  _ ← st_map_err ConvKeystore (on_database (kv_save None
        (Entity.StoredBufferedCommit {| bc_conversation_id := conv_id c; bc_commit_data := commit |})));
  mret ().

(** [ConversationMut::retrieve_buffered_commit]. *)
Definition retrieve_buffered_commit (h : nat) : conv (option bytes) :=
  _ ← in_context valid;
  c ← guarded h;
  o ← st_map_err ConvKeystore (on_database (fun db =>
        (kv_get EntityType.StoredBufferedCommit (vec_key_of (conv_id c)) db, db)));
  mret (e ← o; match e with Entity.StoredBufferedCommit b => Some (bc_commit_data b) | _ => None end).

(** [ConversationMut::clear_buffered_commit]. *)
Definition clear_buffered_commit (h : nat) : conv () :=
  _ ← in_context valid;
  c ← guarded h;
  st_map_err ConvKeystore (on_database (kv_remove EntityType.StoredBufferedCommit (vec_key_of (conv_id c)))).

(** The closure of [restore_pending_messages]: a message with its content type. *)
Definition parse_pending (e : Entity.t) : res ConversationError (Z * Message) :=
  match e with
  | Entity.MlsPendingMessage m =>
      message ← ok_or (deserialize_message (pm_message m)) ConvTlsDeserialize;
      match message with
      | PublicMessage p => Ok (content_type_u8 (body_content_type (public_body p)), message)
      | PrivateMessage p => Ok (content_type_u8 (private_content_type p), message)
      | OtherMessage => Err InappropriateMessageBodyType
      end
  | _ => Panic
  end.

Section recursive.
(** [decrypt_message_inner], called recursively. *)
Context (decrypt_inner : Message -> RecursionPolicy -> conv Decrypted).

(** [ConversationMut::restore_pending_messages]. *)
Definition restore_pending_messages (h : nat) (policy : MessageRestorePolicy) :
    conv (option (list (BufferedDecryptedMessage Identity))) :=
  _ ← in_context valid;
  if decide (policy = ClearOnly) then _ ← clear_pending_messages h; mret None else
  c ← guarded h;
  found ← st_map_err ConvKeystore (on_database (fun db =>
            (find_pending_messages_by_conversation_id (conv_id c) db, db)));
  pending_messages ← st_lift (fun _ => mapM parse_pending found);
  decrypted_messages ←
    mapM (fun m => d ← decrypt_inner m NoRecursion; mret (buffered_from d))
      (sort_by_key fst pending_messages).*2;
  mret (match decrypted_messages with [] => None | _ => Some decrypted_messages end).

(** [ConversationMut::restore_and_clear_pending_messages]. *)
Definition restore_and_clear_pending_messages (h : nat) :
    conv (option (list (BufferedDecryptedMessage Identity))) :=
  pending_messages ← restore_pending_messages h DecryptAndClear;
  match pending_messages with
  | None => mret None
  | Some pending_messages => _ ← clear_pending_messages h; mret (Some pending_messages)
  end.

Definition restore_if (policy : RecursionPolicy) (h : nat) :
    conv (option (list (BufferedDecryptedMessage Identity))) :=
  if decide (policy = AsNecessary) then restore_and_clear_pending_messages h else mret None.

(** [ConversationMut::try_process_buffered_commit]. *)
Definition try_process_buffered_commit (commit : bytes) (policy : RecursionPolicy) : conv Decrypted :=
  message ← st_lift (fun _ => ok_or (deserialize_message commit) ConvTlsDeserialize);
  decrypt_inner message policy.

(** [RecursiveError::mls_conversation]. *)
Definition in_conversation {A} (m : conv A) : conv A :=
  st_map_err (fun e => ConvRecursive (RecMlsConversation e)) m.

(** The branch of [decrypt_message_inner] for our own commits. *)
Definition decrypt_own_commit (h : nat) (message : Message) (policy : RecursionPolicy) : conv Decrypted :=
  ct ← extract_confirmation_tag_from_own_commit h message;
  d ← handle_own_commit h ct;
  buffered ← restore_if policy h;
  mret (MkDecrypted (app_msg d) (is_active d) (delay d) (sender_client_id d) (identity d)
          (if decide (policy = AsNecessary) then buffered else buffered_messages d)).

(** The branch for proposals. *)
Definition decrypt_proposal (h : nat) (identity : Identity) (proposal : QueuedProposal)
    (policy : RecursionPolicy) : conv Decrypted :=
  _ ← mutate_group h (store_proposal_operation proposal);
  let proceed :=
    delay ← next_commit_delay h; mret (MkDecrypted None true delay None identity None) in
  commit ← in_conversation (retrieve_buffered_commit h);
  match commit with
  | None => proceed
  | Some commit =>
      st_try (try_process_buffered_commit commit policy) (fun process_result =>
        _ ← (if is_ok process_result then in_conversation (clear_buffered_commit h) else mret ());
        match process_result with
        | Err BufferedCommit => proceed
        | _ => in_conversation (st_lift (fun _ => process_result))
        end)
  end.

(** The branch for commits of others. *)
Definition decrypt_commit (h : nat) (identity : Identity) (staged : StagedCommit)
    (policy : RecursionPolicy) : conv Decrypted :=
  _ ← validate_commit staged;
  is_active ← mutate_group h (merge_staged_operation staged);
  delay ← next_commit_delay h;
  buffered ← restore_if policy h;
  c ← guarded h;
  _ ← in_context (queue_epoch_changed (conv_id c) (staged_epoch staged));
  mret (MkDecrypted None is_active delay None identity buffered).

(** What [decrypt_message_inner] does with a processed message. *)
Definition decrypt_content (h : nat) (credential : CredentialWithKey) (content : Content)
    (policy : RecursionPolicy) : conv Decrypted :=
  identity ← identity_of credential;
  match content with
  | ApplicationMessage app =>
      mret (MkDecrypted (Some app) true None
              (match client_id_from_bytes (credential_identity credential) with Ok i => Some i | _ => None end)
              identity None)
  | ProposalMessage proposal => decrypt_proposal h identity proposal policy
  | StagedCommitMessage staged => decrypt_commit h identity staged policy
  | ExternalJoinProposalMessage proposal =>
      _ ← mutate_group h (store_proposal_operation proposal);
      delay ← next_commit_delay h;
      mret (MkDecrypted None true delay None identity None)
  end.

(** One level of [ConversationMut::decrypt_message_inner]. *)
Definition decrypt_level (h : nat) (message : Message) (policy : RecursionPolicy) : conv Decrypted :=
  _ ← in_context crypto_provider;
  parsed ← parse_message h message;
  st_try (process_message h parsed) (fun message_result =>
    match message_result with
    | Err (ConvOpenMls (MlsMessageError OwnCommit)) => decrypt_own_commit h message policy
    | Err (ConvOpenMls (MlsMessageError MissingProposal)) => st_throw BufferedCommit
    | Err e => st_throw e
    | Panic => st_of (fun w => (Panic, w))
    | Ok (credential, content) => decrypt_content h credential content policy
    end).
End recursive.

(** [ConversationMut::decrypt_message_inner] calls itself without a bound.  Here [depth] levels
    of it are unfolded, and [beyond] stands for the calls nested deeper; [DecryptTermination]
    shows that with four levels there are none, whatever [beyond] is. *)
Fixpoint decrypt_nested (beyond : nat -> Message -> RecursionPolicy -> conv Decrypted) (depth : nat) (h : nat)
    (message : Message) (policy : RecursionPolicy) : conv Decrypted :=
  match depth with
  | 0 => beyond h message policy
  | S depth => decrypt_level (decrypt_nested beyond depth h) h message policy
  end.

(** [ConversationMut::decrypt_message], around a [decrypt_message_inner]. *)
Definition decrypt_message_with (inner : Message -> RecursionPolicy -> conv Decrypted) (h : nat) (message : bytes) : conv Decrypted :=
  mls_message_in ← st_lift (fun _ => ok_or (deserialize_message message) ConvTlsDeserialize);
  st_try (inner mls_message_in AsNecessary) (fun result =>
    _ ← match result with
        | Err (BufferedFutureMessage _) => buffer_future_message h message
        | _ => mret ()
        end;
    _ ← match result with Err BufferedCommit => buffer_commit h message | _ => mret () end;
    decrypted ← st_lift (fun _ => result);
    _ ← (if is_active decrypted then mret () else wipe h);
    mret decrypted).

(** Both, with a call that is nested too deep modelled as a panic. *)
Definition too_deep (h : nat) (message : Message) (policy : RecursionPolicy) : conv Decrypted := st_of (fun w => (Panic, w)).

Definition decrypt_message_inner (depth : nat) : nat -> Message -> RecursionPolicy -> conv Decrypted :=
  decrypt_nested too_deep depth.

Definition decrypt_message (depth : nat) (h : nat) (message : bytes) : conv Decrypted :=
  decrypt_message_with (decrypt_message_inner depth h) h message.

Lemma decrypt_inner_level depth h message policy :
  decrypt_message_inner (S depth) h message policy = decrypt_level (decrypt_message_inner depth h) h message policy.
Proof. done. Qed.
End decrypt.
