(* ===== verification/DecryptFrames.v ===== *)
(** * What decryption does to the state

    Decryption works on its group through OpenMLS, on the buffers of its
    conversation, and on the queue of epoch notifications.  A relation between
    states that each of these steps keeps is kept by all of it. *)

From S2P Require Import Prelude Keys EntityTypes Entities ToyExternals Sql KeystoreErrors EntityStore Store Transaction Database DatabaseProps EntityKV KeystoreMls CryptoErrors OpenMls ConversationCache TransactionContext TransactionContextProps ConversationMut GuardFrames CommitDelay ClientIds MlsMessages Decrypt.
From Stdlib Require Import Lia ZArith.

Section operations.
Context `{X : Externals, O : OpenMls, Ms : !MlsMessages O, !MlsMessagesLaws Ms}.

Lemma process_openmls p : openmls_operation (process_message_operation p).
Proof.
  intros db g id r db' g'. unfold process_message_operation.
  destruct (process_message_of g (protocol_message p) db) as [r0 [g1 db1]] eqn:Hp. intros [= _ <- <-].
  split; [by eapply process_provider|]. split; [by eapply process_group_id|by eapply process_flagged].
Qed.

Lemma store_proposal_openmls q : openmls_operation (store_proposal_operation q).
Proof.
  intros db g id r db' g' [= _ <- <-]. split; [constructor|].
  split; [apply store_proposal_group_id|apply store_proposal_flagged].
Qed.

Lemma merge_staged_openmls c : openmls_operation (merge_staged_operation c).
Proof.
  intros db g id r db' g'. unfold merge_staged_operation.
  destruct (merge_staged_commit_of c g db) as [[] [g1 db1]] eqn:Hm; intros [= _ <- <-];
    (split; [by eapply merge_staged_provider|];
     split; [by eapply merge_staged_group_id|by eapply merge_staged_flagged]).
Qed.
End operations.

#[export] Hint Resolve process_openmls store_proposal_openmls merge_staged_openmls : frame.

(** The steps of decryption through the guard [h]. *)
Class DecryptFrame `{X : Externals, O : OpenMls} {M : Type} `{!LruMap M nat}
    (h : nat) (R : World M -> World M -> Prop) : Prop := {
  df_guard :: GuardFrame h R;
  df_clear_buffered pk : st_frame R (on_database (kv_remove EntityType.StoredBufferedCommit pk));
  df_clear_pending id : st_frame R (on_database (remove_pending_messages_by_conversation_id id));
}.

Section frames.
Context `{X : Externals, O : OpenMls, !OpenMlsLaws O, Ms : !MlsMessages O, !MlsMessagesLaws Ms, U : UuidLib}.
Context {M : Type} `{!LruMap M nat} (ln_ramp : Z -> Z) {Identity : Type}.
Context (extract_identity : CredentialWithKey -> res CredentialError Identity).
Abbreviation World := (World M).
Context (h : nat) (R : World -> World -> Prop) `{!DecryptFrame h R}.

Hint Resolve df_clear_buffered df_clear_pending : frame.

Lemma clear_pending_messages_frame : st_frame R (clear_pending_messages h).
Proof. unfold clear_pending_messages, in_context. solve_keeps. Qed.

Lemma retrieve_buffered_commit_frame : st_frame R (retrieve_buffered_commit h).
Proof. unfold retrieve_buffered_commit, in_context. solve_keeps. Qed.

Lemma clear_buffered_commit_frame : st_frame R (clear_buffered_commit h).
Proof. unfold clear_buffered_commit, in_context. solve_keeps. Qed.

Lemma parse_message_frame m : st_frame R (parse_message h m).
Proof. unfold parse_message, is_duplicate_message. solve_keeps. Qed.

Lemma process_message_frame p : st_frame R (process_message h p).
Proof. unfold process_message, crypto_provider, in_context. solve_keeps. Qed.

Lemma next_commit_delay_frame : st_frame R (next_commit_delay ln_ramp h).
Proof. unfold next_commit_delay. solve_keeps. Qed.

Lemma handle_own_commit_frame ct : st_frame R (handle_own_commit ln_ramp extract_identity h ct).
Proof.
  unfold handle_own_commit, merge_pending_commit, commit_accepted, crypto_provider, in_context, identity_of.
  solve_keeps; apply next_commit_delay_frame.
Qed.

Lemma extract_tag_frame m : st_frame R (extract_confirmation_tag_from_own_commit h m).
Proof. unfold extract_confirmation_tag_from_own_commit. solve_keeps. Qed.

Lemma mapM_frame {A B} (f : A -> st World ConversationError B) l :
  (forall a, st_frame R (f a)) -> st_frame R (mapM f l).
Proof. intros Hf. induction l as [|a l IH]; cbn; solve_keeps. Qed.

Hint Resolve clear_pending_messages_frame retrieve_buffered_commit_frame clear_buffered_commit_frame
  parse_message_frame process_message_frame next_commit_delay_frame handle_own_commit_frame
  extract_tag_frame : frame.

Section recursive.
Context (inner : MlsMessageIn MlsProposal -> RecursionPolicy -> st World ConversationError (DecryptedMessage Identity)).
Context (inner_frame : forall m p, st_frame R (inner m p)).

Lemma restore_if_frame policy : st_frame R (restore_if inner policy h).
Proof.
  unfold restore_if, restore_and_clear_pending_messages, restore_pending_messages, in_context.
  solve_keeps; apply mapM_frame; intros m; solve_keeps.
Qed.

Lemma decrypt_level_frame m policy : st_frame R (decrypt_level ln_ramp extract_identity inner h m policy).
Proof.
  pose proof restore_if_frame as Hr.
  unfold decrypt_level, decrypt_own_commit, decrypt_content, decrypt_proposal, decrypt_commit,
    identity_of, validate_commit, try_process_buffered_commit, crypto_provider, in_conversation, in_context.
  solve_keeps.
Qed.
End recursive.

Lemma decrypt_inner_frame depth m policy :
  st_frame R (decrypt_message_inner ln_ramp extract_identity depth h m policy).
Proof.
  revert m policy. induction depth as [|depth IH]; intros m policy;
    [unfold decrypt_message_inner; cbn; unfold too_deep; solve_keeps|].
  rewrite decrypt_inner_level. by apply decrypt_level_frame.
Qed.
End frames.
