(* ===== verification/ConversationRuns.v ===== *)
(** * Runs over the conversations of an instance

    Every operation on conversations, decryption and commits included, keeps the
    cache in agreement with the keystore, whether it succeeds or fails. *)

From S2P Require Import Prelude Keys EntityTypes Entities ToyExternals Sql KeystoreErrors EntityStore Store Transaction TransactionInvariant TransactionCommit Database DatabaseProps EntityKV KeystoreMls CryptoErrors OpenMls ConversationCache TransactionContext TransactionContextProps ConversationMut CacheCoherence CommitDelay ClientIds MlsMessages GuardFrames Credentials Commits HistorySharing CommitFrames Decrypt DecryptFrames.
From Stdlib Require Import Lia ZArith.

Section decrypt_frames.
Context `{X : Externals, !ExternalsLaws X, O : OpenMls, !OpenMlsLaws O}.
Context `{Ms : !MlsMessages O, !MlsMessagesLaws Ms, U : UuidLib}.
Context `{Mc : MlsCredentials, !LeafCredentials Ms Mc, Mm : !MlsCommits Ms Mc, !MlsCommitsLaws Mm}.
Context {M : Type} `{!LruMap M nat, !LruMapLaws M nat}.
Context (ln_ramp : Z -> Z) {Identity : Type} (extract_identity : CredentialWithKey -> res CredentialError Identity).
Abbreviation World := (World M).
Context (app : Callbacks (M := M)).

Section frames.
Context (stale : gset bytes).
Abbreviation keeps_guard := (keeps_guard (M := M) stale).
Abbreviation guard_current := (guard_current stale).
Abbreviation cache_inv := (cache_inv stale).

(** ** Frames *)

Lemma openmls_well_behaved {T} (op : Database -> MlsGroup -> bytes -> res ConversationError T * (Database * MlsGroup)) :
  openmls_operation op -> well_behaved op.
Proof.
  intros Hop db g id r db' g' (Hp & Hid & Hf)%Hop. split; [by apply provider_same_groups|done].
Qed.

Lemma save_guard h e auto e' :
  entity_ok e -> pre_save None e = Ok (auto, e') -> Entity.typ e <> EntityType.PersistedMlsGroup ->
  st_frame (keeps_guard h) (on_database (kv_save None e)).
Proof. intros He Hp Hty. apply on_database_guard. intros db. by eapply save_same_reads. Qed.

#[export] Instance keeps_guard_decrypt h : DecryptFrame h (keeps_guard h).
Proof.
  split; [split|..].
  - apply _.
  - intros T op Hop. by apply mutate_group_guard, openmls_well_behaved.
  - apply queue_guard.
  - intros pk. apply on_database_guard. intros db. by apply remove_same_reads.
  - intros id. apply on_database_guard. intros db. by apply remove_pending_same_reads.
Qed.

Lemma decrypt_message_guard depth h m :
  st_frame (keeps_guard h) (decrypt_message ln_ramp extract_identity depth h m).
Proof.
  pose proof (decrypt_inner_frame ln_ramp extract_identity h (keeps_guard h) depth).
  unfold decrypt_message, decrypt_message_with, buffer_future_message, buffer_commit, in_context. solve_keeps; by eapply save_guard.
Qed.

(** A context that is no longer valid refuses to decrypt. *)
Lemma decrypt_message_invalid depth h m (w : World) :
  context w = Invalid -> snd (decrypt_message ln_ramp extract_identity depth h m w) = w.
Proof.
  intros Hc. unfold decrypt_message, decrypt_message_with, st_lift, mbind, st_bind.
  destruct (deserialize_message m) as [msg|]; [|done]. cbn [ok_or]. unfold st_try.
  destruct depth as [|depth]; [done|]. rewrite decrypt_inner_level.
  unfold decrypt_level, crypto_provider, session, valid, in_context, st_map_err, st_lift, mbind, st_bind.
  by rewrite Hc.
Qed.

(** A guard of a context that is no longer valid changes nothing. *)
Definition refusing_guard (h : nat) (w w' : World) : Prop :=
  (context w = Invalid -> w' = w) /\ keeps_guard h w w'.

#[local] Instance refusing_guard_frame h : GuardFrame h (refusing_guard h).
Proof.
  split.
  - split; [done|]. intros a b c [H1 H2] [H3 H4]. split; [|by etrans].
    intros Hc. rewrite H3; [by apply H1|]. by rewrite H1.
  - intros T op Hop w. split; [|by apply (gf_mutate (h := h) (R := keeps_guard h))]. intros Hc.
    unfold mutate_group, in_context, valid, st_map_err, st_lift, mbind, st_bind. by rewrite Hc.
  - intros id epoch w. split; [|by apply queue_guard]. intros Hc. unfold queue_epoch_changed. by rewrite Hc.
Qed.

Lemma guard_action_guard h m o :
  guard_action h app m -> refusing_guard h (world o) (world (snd (m o))).
Proof. intros Hm. apply (guard_action_frame h (refusing_guard h) app m Hm o). Qed.

Lemma new_context_cache_inv (w w' : World) :
  cache_inv w -> new_context (core w) = Some w' -> cache_inv w'.
Proof.
  intros (_ & (Hdb & Hg & Hp & Hh) & Hco) Hnew.
  destruct (new_context_inv _ _ Hdb Hnew) as (Hidle & Hdb' & Hsome & _ & _).
  unfold new_context, new_transaction in Hnew. destruct (decide (0 < permits (database (core w)))); [|discriminate].
  injection Hnew as <-. cbn in *.
  assert (forall id, stored_group id (set_transaction (Some tx_new) (acquire (database (core w)))) =
    stored_group id (database (core w))) as Hst.
  { intros id. unfold stored_group, kv_get, database_kv, get; cbn. rewrite Hidle. done. }
  split; [done|]. split.
  - split; [done|]. split; [|split; [exact Hp|done]]. intros id g. rewrite Hst. apply Hg.
  - intros s Hs id h Hns Hpk. eapply current_db; [apply Hst|by apply (Hco s Hs)].
Qed.

Lemma invalid_valid (w : World) : context w = Invalid -> valid w = (Err InvalidTransactionContext, w).
Proof. intros Hc. unfold valid, st_lift. by rewrite Hc. Qed.

(** An operation through a guard that an invalid context refuses. *)
Lemma guarded_step {E A} h (m : st World E A) (w : World) :
  st_frame (keeps_guard h) m -> (context w = Invalid -> snd (m w) = w) ->
  cache_inv w -> guard_current h w -> cache_inv (snd (m w)).
Proof.
  intros Hm Hrefuse Hinv Hg. destruct (decide (context w = Invalid)) as [Hc|Hc]; [by rewrite Hrefuse|].
  by apply Hm.
Qed.

End frames.

(** ** Runs *)

(** One call of the application on the core and its current context, with the guard it goes
    through; an operation on a conversation may succeed or fail. *)
Inductive conv_step : option nat -> World -> World -> Prop :=
  | conv_new w w' : context w = Invalid -> new_context (core w) = Some w' -> conv_step None w w'
  | conv_init id w : conv_step None w (snd (mls_init id w))
  | conv_queue id epoch w : conv_step None w (snd (queue_epoch_changed id epoch w))
  | conv_conversation id w : conv_step None w (snd (conversation id w))
  | conv_persist g cfg w : conv_step None w (snd (persist_conversation_from_mls_group g cfg w))
  | conv_provider db w :
      context w <> Invalid -> provider_calls (database (core w)) db ->
      conv_step None w (set_core (set_database db (core w)) w)
  | conv_mutate {T} h (op : Database -> MlsGroup -> bytes -> res ConversationError T * (Database * MlsGroup)) w :
      well_behaved op -> conv_step (Some h) w (snd (mutate_group h op w))
  | conv_decrypt depth h message w :
      conv_step (Some h) w (snd (decrypt_message ln_ramp extract_identity depth h message w))
  | conv_act h m o : guard_action h app m -> conv_step (Some h) (world o) (world (snd (m o)))
  | conv_wipe h w : conv_step (Some h) w (snd (wipe h w))
  | conv_finish w : conv_step None w (snd (finish w))
  | conv_abort w : conv_step None w (snd (abort w)).

(** The conversation of a guard, if another copy of it is cached: the one of the guard was
    evicted, and the conversation loaded again, while the guard was held. *)
Definition superseded (guard : option nat) (w : World) : gset bytes :=
  match guard with
  | Some h =>
      match mls (core w), heap (core w) !! h with
      | Some s, Some c =>
          match lru_peek (conv_id c) (conversation_cache s) with
          | Some h' => if decide (h' = h) then ∅ else {[conv_id c]}
          | None => ∅
          end
      | _, _ => ∅
      end
  | None => ∅
  end.

(** Runs, with the conversations that were used through a superseded guard. *)
Inductive conv_reach (w0 : World) : gset bytes -> World -> Prop :=
  | conv_refl : conv_reach w0 ∅ w0
  | conv_trans stale guard w w' :
      conv_reach w0 stale w -> conv_step guard w w' -> conv_reach w0 (stale ∪ superseded guard w) w'.

(** A step through no guard, or through one that is not superseded. *)
Lemma conv_next w0 stale guard w w' :
  conv_reach w0 stale w -> conv_step guard w w' -> superseded guard w = ∅ -> conv_reach w0 stale w'.
Proof. intros Hr Hs He. rewrite <- (union_empty_r_L stale), <- He. by eapply conv_trans. Qed.

Lemma superseded_current h stale (w : World) : guard_current (stale ∪ superseded (Some h) w) h w.
Proof.
  intros s c Hs Hc Hns. cbn in Hns. rewrite Hs, Hc in Hns.
  destruct (lru_peek (conv_id c) (conversation_cache s)) as [h'|]; [|by right].
  destruct (decide (h' = h)) as [->|Hne]; [by left|]. set_solver.
Qed.

Lemma cache_inv_stale stale stale' (w : World) :
  stale ⊆ stale' -> cache_inv stale w -> cache_inv stale' w.
Proof.
  intros Hsub (Htx & Hok & Hco). split; [done|]. split; [done|]. intros s Hs id h Hns. apply (Hco s Hs). set_solver.
Qed.

Lemma conv_step_inv stale guard w w' :
  cache_inv stale w -> conv_step guard w w' -> cache_inv (stale ∪ superseded guard w) w'.
Proof.
  intros Hinv0 Hstep. assert (cache_inv (stale ∪ superseded guard w) w) as Hinv
    by (apply (cache_inv_stale stale); [set_solver|done]). clear Hinv0. revert Hinv.
  destruct Hstep as [w w' Hi Hn|id w|id e w|id w|g cfg w|db w Hc Hp|T h op w Ho|d h m w|h m o Hm|h w|w|w];
    try pose proof (superseded_current h stale w) as Hg; try pose proof (superseded_current h stale (world o)) as Hg;
    match goal with |- cache_inv ?S _ -> _ => generalize dependent S end; intros S; intros;
    rename select (cache_inv S _) into Hinv.
  - by eapply new_context_cache_inv.
  - unfold mls_init, set_mls_session, valid, st_lift, mbind, st_bind, st_of. destruct (context w) eqn:Hc; [|done].
    cbn. destruct Hinv as (Htx & Hok & Hco). rewrite Hc in Htx. split; [cbn; intros _; by apply Htx|].
    split; [done|]. intros s [= <-] id' h _ Hp. cbn in Hp. unfold cache_new in Hp. by rewrite lru_peek_new in Hp.
  - unfold queue_epoch_changed. destruct (context w) eqn:Hc; [|done]. destruct Hinv as (Htx & Hok & Hco).
    rewrite Hc in Htx. split; [intros _; by apply Htx|done].
  - destruct (conversation id w) as [r w'] eqn:Hr. by apply (conversation_inv S id w r w' Hinv Hr).
  - destruct (persist_conversation_from_mls_group g cfg w) as [r w'] eqn:Hr.
    by apply (persist_conversation_inv S g cfg w r w' Hinv Hr).
  - apply provider_same_groups in Hp. destruct Hinv as (Htx & Hok & Hco). split; [|split].
    + cbn. intros _. destruct Hp as [[Ht _] _]. specialize (Htx Hc). tauto.
    + by eapply stores_ok_same_groups.
    + intros s Hs. eapply coherent_same_groups; [apply Hok|done|by apply Hco].
  - apply (guarded_step S h); [by apply mutate_group_guard| |done..]. intros Hc.
    unfold mutate_group, in_context, st_map_err, mbind, st_bind. by rewrite invalid_valid.
  - apply (guarded_step S h); [apply decrypt_message_guard|apply decrypt_message_invalid|done..].
  - destruct (guard_action_guard S h m o Hm) as [Hrefuse Hk].
    destruct (decide (context (world o) = Invalid)) as [Hc|Hc]; [by rewrite Hrefuse|]. by apply Hk.
  - apply (guarded_step S h); [apply wipe_guard| |done..]. intros Hc.
    unfold wipe, crypto_provider, session, in_context, st_map_err, mbind, st_bind. by rewrite invalid_valid.
  - by apply finish_inv.
  - destruct (decide (context w = Invalid)) as [Hi|Hc]; [unfold abort; by rewrite Hi|].
    apply abort_inv; [|done]. by destruct Hinv as (? & ? & _).
Qed.

Lemma conv_reach_inv m contents stale (w : World) :
  represents m contents -> keys_unique m -> groups_ok (open contents) ->
  conv_reach (MkWorld (core_new (open contents)) Invalid) stale w -> cache_inv stale w.
Proof.
  intros Hrep Hu Hg. induction 1 as [|stale guard w w' _ IH Hs]; [|by eapply conv_step_inv].
  split; [done|]. split; [|done]. split; [by eapply db_inv_open|].
  split; [exact Hg|]. split; [exact Hg|by apply Forall_nil].
Qed.

(** A change of a group that succeeds leaves it persisted. *)
Lemma mutate_group_persisted {T} h (op : Database -> MlsGroup -> bytes -> res ConversationError T * (Database * MlsGroup))
    (w : World) t w' :
  mutate_group h op w = (Ok t, w') ->
  exists c, heap (core w') !! h = Some c /\ state_changed (conv_group c) = Persisted.
Proof.
  unfold mutate_group, in_context, st_map_err, mbind, st_bind, st_of.
  destruct (valid w) as [[[]|e|] w0]; cbn; [|discriminate..].
  destruct (heap (core w0) !! h) as [c|] eqn:Hh; [|discriminate].
  destruct (op _ _ _) as [[t'|e|] [db g]]; [|discriminate..].
  destruct (decide (state_changed g = Changed)) as [Hc|Hc].
  - destruct (ser_group g) as [state|]; [|discriminate].
    destruct (mls_group_persist _ _ _ _) as [[[]|e|] db']; intros [= _ <-]. eexists.
    cbn. rewrite list_lookup_alter_eq, Hh. split; [reflexivity|]. apply state_changed_set_state.
  - intros [= _ <-]. eexists. cbn. rewrite list_lookup_alter_eq, Hh. split; [reflexivity|].
    cbn. by destruct (state_changed g).
Qed.

(** C3: along every run over the conversations of an instance, through any number of
    transactions, commits, failed commits and rollbacks, through operations on conversations
    that succeed or fail, decryption and every commit operation included, and with any guards:
    each cached conversation that was never used through a superseded guard is stored in the
    keystore, with the same group unless the group is flagged as changed; so is the one behind
    every guard [conversation] hands out for it; and a change of a group that succeeds clears
    the flag.  A guard is superseded when its conversation was evicted from the cache and loaded
    again while it was held. *)
Theorem cached_conversations_current m contents stale (w : World) :
  represents m contents -> keys_unique m -> groups_ok (open contents) ->
  conv_reach (MkWorld (core_new (open contents)) Invalid) stale w ->
  (forall s id h, id ∉ stale -> mls (core w) = Some s -> lru_peek id (conversation_cache s) = Some h ->
     current id h (heap (core w)) (database (core w))) /\
  (forall id h w', id ∉ stale -> conversation id w = (Ok h, w') ->
     current id h (heap (core w')) (database (core w'))) /\
  (forall T h (op : Database -> MlsGroup -> bytes -> res ConversationError T * (Database * MlsGroup)) t w',
     mutate_group h op w = (Ok t, w') ->
     exists c, heap (core w') !! h = Some c /\ state_changed (conv_group c) = Persisted).
Proof.
  intros Hrep Hu Hg Hr. pose proof (conv_reach_inv m contents stale w Hrep Hu Hg Hr) as Hinv.
  split; [|split; [intros id h w' Hns Hc; by apply (conversation_inv stale id w (Ok h) w' Hinv Hc)|]].
  - intros s id h Hns Hs. by apply Hinv.
  - intros T h op t w'. apply mutate_group_persisted.
Qed.

End decrypt_frames.

(** ** A run of the model

    A conversation is created, a message of the next epoch arrives before the
    commit that starts the epoch, and the transaction is committed. *)
Definition demo_decrypt (message : bytes) : st (World (ToyLru nat)) ConversationError (DecryptedMessage bytes) :=
  decrypt_message (fun p => 40 * p)%Z (Ok (A := bytes)) 4 0 message.

Definition demo_toy_group : MlsGroup := MkToyGroup (bstr "g") x00 true false false Changed.
Definition demo_start : World (ToyLru nat) := MkWorld (toy_core demo_open) Invalid.
Definition demo_session : World (ToyLru nat) := snd (mls_init (bstr "me") demo_world).
Definition demo_persisted : World (ToyLru nat) :=
  snd (persist_conversation_from_mls_group demo_toy_group (config_of_ciphersuite 1) demo_session).
Definition demo_early : World (ToyLru nat) := snd (demo_decrypt (x01 :: x01 :: bstr "hello") demo_persisted).
Definition demo_advanced : World (ToyLru nat) := snd (demo_decrypt [x03; x00] demo_early).
Definition demo_finished : World (ToyLru nat) := snd (finish demo_advanced).

Example demo_early_result :
  fst (demo_decrypt (x01 :: x01 :: bstr "hello") demo_persisted) = Err (BufferedFutureMessage 1).
Proof. vm_compute. reflexivity. Qed.

Example demo_advanced_result :
  fst (demo_decrypt [x03; x00] demo_early) =
  Ok (MkDecrypted None true None None (bstr "bob")
        (Some [MkBuffered (Some (bstr "hello")) true None None (bstr "bob")])).
Proof. vm_compute. reflexivity. Qed.

(** An application that accepts every commit. *)
Definition demo_app : Callbacks (M := ToyLru nat) :=
  MkApp (fun _ _ => Ok ()) (fun _ _ => Ok (bstr "secret"))
    (fun _ _ => Ok (MkSecret (bstr "history-client:1") (bstr "history-client:1"))) (fun l => l).

Abbreviation demo_reach := (conv_reach (fun p => 40 * p)%Z (Ok (A := bytes)) demo_app demo_start ∅).

Lemma demo_persisted_reach : demo_reach demo_persisted.
Proof.
  apply (conv_next _ _ _ _ _ None demo_session); [|exact (conv_persist _ _ _ _ _ _)|done].
  apply (conv_next _ _ _ _ _ None demo_world); [|exact (conv_init _ _ _ _ _)|done].
  apply (conv_next _ _ _ _ _ None demo_start); [apply conv_refl| |done]. by apply conv_new.
Qed.

Lemma demo_finished_reach : demo_reach demo_finished.
Proof.
  apply (conv_next _ _ _ _ _ None demo_advanced); [|exact (conv_finish _ _ _ _)|done].
  apply (conv_next _ _ _ _ _ (Some 0) demo_early); [|exact (conv_decrypt _ _ _ 4 0 [x03; x00] demo_early)|vm_compute; reflexivity].
  apply (conv_next _ _ _ _ _ (Some 0) demo_persisted); [exact demo_persisted_reach| |vm_compute; reflexivity].
  exact (conv_decrypt _ _ _ 4 0 (x01 :: x01 :: bstr "hello") demo_persisted).
Qed.

Lemma demo_groups_ok : groups_ok (open ∅).
Proof. intros id g. vm_compute. discriminate. Qed.

Lemma demo_persisted_inv : cache_inv ∅ demo_persisted.
Proof.
  exact (conv_reach_inv _ _ _ empty_store ∅ ∅ demo_persisted represents_empty demo_keys_unique demo_groups_ok
    demo_persisted_reach).
Qed.

Lemma cached_conversations_current_witness :
  current (bstr "g") 0 (heap (core demo_finished)) (database (core demo_finished)).
Proof.
  refine (proj1 (cached_conversations_current (fun p => 40 * p)%Z (Ok (A := bytes)) demo_app empty_store ∅ ∅ demo_finished
    represents_empty demo_keys_unique demo_groups_ok demo_finished_reach)
    (MkSession (bstr "me") (MkLru 200 [(bstr "g", 0)]) false false) (bstr "g") 0 (not_elem_of_empty _) _ _).
  - vm_compute. reflexivity.
  - vm_compute. reflexivity.
Defined.

(** ** A superseded guard

    The cache holds 200 conversations.  A guard of the first one is kept while 200 others are
    created; asking for the first one again loads a second copy, and a commit merged through the
    guard leaves the cached copy behind the keystore. *)
Definition demo_persist (w : World (ToyLru nat)) (id : bytes) : World (ToyLru nat) :=
  snd (persist_conversation_from_mls_group (MkToyGroup id x00 true false false Changed) (config_of_ciphersuite 1) w).
Definition demo_crowded : World (ToyLru nat) :=
  foldl demo_persist demo_persisted (map (fun k => [x6f; byte_of_Z (Z.of_nat k)]) (seq 0 200)).
Definition demo_reloaded : World (ToyLru nat) := snd (conversation (bstr "g") demo_crowded).
Definition demo_behind : World (ToyLru nat) := snd (mutate_group 0 (merge_staged_operation (true, 1%Z)) demo_reloaded).


Example demo_behind_keystore :
  fst (mutate_group 0 (merge_staged_operation (true, 1%Z)) demo_reloaded) = Ok true /\
  fst (conversation (bstr "g") demo_behind) = Ok 201 /\
  (group_epoch ∘ conv_group <$> heap (core demo_behind) !! 201) = Some 0%Z /\
  (state_changed ∘ conv_group <$> heap (core demo_behind) !! 201) = Some Persisted /\
  (group_epoch <$> stored_group (bstr "g") (database (core demo_behind))) = Some 1%Z.
Proof. split_and!; vm_compute; reflexivity. Qed.




