(* ===== verification/DecryptTermination.v ===== *)
(** * Decryption terminates

    [decrypt_message_inner] calls itself for the buffered messages and for the
    buffered commit; four levels are always enough. *)

From S2P Require Import Prelude Keys EntityTypes Entities ToyExternals Sql KeystoreErrors EntityStore Store Transaction Database DatabaseProps EntityKV KeystoreMls CryptoErrors OpenMls ConversationCache TransactionContext TransactionContextProps ConversationMut CacheCoherence CommitDelay ClientIds MlsMessages GuardFrames Credentials Commits HistorySharing CommitFrames Decrypt DecryptFrames ConversationRuns.
From Stdlib Require Import Lia ZArith.

(** Sequencing, when the continuations agree on what the first part yields. *)
Lemma st_bind_ext {S E A B} (m : st S E A) (f f' : A -> st S E B) s :
  (forall a s', m s = (Ok a, s') -> f a s' = f' a s') -> (m ≫= f) s = (m ≫= f') s.
Proof. intros Hf. unfold mbind, st_bind. destruct (m s) as [[a|e|] s']; [by apply Hf|done..]. Qed.

Lemma st_bind_head {S E A B} (m m' : st S E A) (f : A -> st S E B) s :
  m s = m' s -> (m ≫= f) s = (m' ≫= f) s.
Proof. intros Hm. unfold mbind, st_bind. by rewrite Hm. Qed.

Lemma st_try_ext {S E F A B} (m m' : st S E A) (k k' : res E A -> st S F B) s :
  m s = m' s -> (forall r s', m s = (r, s') -> r <> Panic -> k r s' = k' r s') ->
  st_try m k s = st_try m' k' s.
Proof.
  intros Hm Hk. unfold st_try. rewrite <- Hm. destruct (m s) as [[a|e|] s']; [by apply Hk..|done].
Qed.

Section termination.
Context `{X : Externals, !ExternalsLaws X, O : OpenMls, !OpenMlsLaws O}.
Context `{Ms : !MlsMessages O, !MlsMessagesLaws Ms, U : UuidLib}.
Context {M : Type} `{!LruMap M nat, !LruMapLaws M nat}.
Context (ln_ramp : Z -> Z) {Identity : Type} (extract_identity : CredentialWithKey -> res CredentialError Identity).
Abbreviation World := (World M).
Abbreviation Message := (MlsMessageIn MlsProposal).

Definition message_content_type (m : Message) : option ContentType :=
  match m with
  | PublicMessage p => Some (body_content_type (public_body p))
  | PrivateMessage p => Some (private_content_type p)
  | OtherMessage => None
  end.

Definition commit_message (m : Message) : Prop := message_content_type m = Some Commit.

(** What is buffered as a commit is one. *)
Definition buffered_commits_ok (db : Database) : Prop :=
  forall id b m,
    kv_get EntityType.StoredBufferedCommit (vec_key_of id) db = Ok (Some (Entity.StoredBufferedCommit b)) ->
    deserialize_message (bc_commit_data b) = Some m -> commit_message m.

Definition buffer_inv (w : World) : Prop :=
  db_inv (database (core w)) /\ buffered_commits_ok (database (core w)).

Definition keeps_buffer (w w' : World) : Prop := buffer_inv w -> buffer_inv w'.

#[local] Instance keeps_buffer_preorder : PreOrder keeps_buffer.
Proof. split; [intros w Hw; exact Hw|]. intros a b c Hab Hbc Ha. by apply Hbc, Hab. Qed.

(** ** The invariant of the buffered commit *)

Lemma buffer_inv_reads (w w' : World) :
  same_reads EntityType.StoredBufferedCommit (database (core w)) (database (core w')) -> keeps_buffer w w'.
Proof.
  intros [Hk Hr] [Hdb Hb]. split; [by apply Hk|]. intros id b m. rewrite Hr by done. apply Hb.
Qed.

Lemma on_database_buffer {A} (f : Database -> kres A * Database) :
  (forall db, same_reads EntityType.StoredBufferedCommit db (snd (f db))) ->
  st_frame keeps_buffer (on_database f).
Proof.
  intros Hf w. apply buffer_inv_reads. unfold on_database. specialize (Hf (database (core w))).
  by destruct (f (database (core w))).
Qed.

Lemma clear_buffered_keeps pk :
  st_frame keeps_buffer (on_database (kv_remove EntityType.StoredBufferedCommit pk)).
Proof.
  intros w [Hdb Hb]. unfold on_database. pose proof (kv_remove_keeps EntityType.StoredBufferedCommit pk (database (core w))) as Hk.
  destruct (kv_remove EntityType.StoredBufferedCommit pk (database (core w))) as [r db] eqn:Hr. cbn in Hk |- *.
  split; [by apply Hk|]. cbn. destruct (transaction (database (core w))) as [tx|] eqn:Ht.
  - assert (in_transaction (database (core w))) as Hin by (split; [done|by rewrite Ht]).
    destruct (kv_remove_total (inv := in_transaction) EntityType.StoredBufferedCommit pk _ Hin) as (d & Hd & _ & Hget).
    rewrite Hr in Hd. injection Hd as _ <-. intros id b m. rewrite Hget by done. case_decide; [done|]. apply Hb.
  - pose proof (remove_idle EntityType.StoredBufferedCommit pk _ Ht) as Hi. rewrite Hr in Hi. cbn in Hi. by subst.
Qed.

#[local] Instance keeps_buffer_decrypt h : DecryptFrame h keeps_buffer.
Proof.
  split; [split|..].
  - apply _.
  - intros T op Hop w. apply buffer_inv_reads, mutate_group_reads; [by intros []|done..].
  - intros id epoch w. apply buffer_inv_reads. unfold queue_epoch_changed. by destruct (context w).
  - apply clear_buffered_keeps.
  - intros id. apply on_database_buffer. intros db. by apply remove_pending_same_reads.
Qed.
(** ** Results of the parts *)

(** The result of a group operation is the closure's, or an error of its frame. *)
Lemma mutate_group_result {T} h (op : Database -> MlsGroup -> bytes -> res ConversationError T * (Database * MlsGroup))
    (w : World) r w' :
  mutate_group h op w = (r, w') ->
  (exists db g id s, op db g id = (r, s)) \/ (exists e, r = Err (ConvKeystore e)) \/
  (exists e, r = Err (ConvRecursive e)) \/ r = Panic.
Proof.
  unfold mutate_group, in_context, st_map_err, mbind, st_bind, st_of, valid, st_lift.
  destruct (context w) as [ch|]; cbn; [|intros [= <- _]; right; right; left; by eexists].
  destruct (heap (core w) !! h) as [c|]; [|intros [= <- _]; by do 3 right].
  destruct (op _ _ _) as [r0 [db g]] eqn:Ho. destruct r0 as [t|er|]; [|intros [= <- _]; left; by eexists _, _, _, _..].
  destruct (decide (state_changed g = Changed)); [|intros [= <- _]; left; by eexists _, _, _, _].
  destruct (ser_group g) as [state|]; [|intros [= <- _]; right; left; by eexists].
  destruct (mls_group_persist _ _ _ _) as [[[]|er|] db']; intros [= <- _];
    [left; by eexists _, _, _, _|right; left; by eexists|by do 3 right].
Qed.

Lemma parse_message_content h m (w : World) p w' :
  parse_message h m w = (Ok p, w') ->
  message_content_type m = Some (protocol_content_type (protocol_message p)).
Proof.
  destruct m as [m|m|]; cbn; [|by intros [= <- _]|discriminate].
  intros (dup & w1 & _ & [= <- _])%st_bind_Ok. done.
Qed.

Lemma process_message_content h p (w : World) r w' :
  process_message h p w = (r, w') ->
  match r with
  | Ok (_, content) =>
      protocol_content_type (protocol_message p) = Commit <-> exists sc, content = StagedCommitMessage sc
  | Err (ConvOpenMls (MlsMessageError (OwnCommit | MissingProposal))) =>
      protocol_content_type (protocol_message p) = Commit
  | Err BufferedCommit => False
  | _ => True
  end.
Proof.
  unfold process_message, mbind, st_bind. destruct (in_context crypto_provider w) as [[[]|e|] w1] eqn:Hc;
    [|intros [= <- _]..|by intros [= <- _]].
  2: { unfold in_context, st_map_err in Hc. by destruct (crypto_provider w) as [[]]; simplify_eq/=. }
  intros [(db & g & id & [db' g'] & Ho)|[[e ->]|[[e ->]| ->]]]%mutate_group_result; [|done..].
  revert Ho. unfold process_message_operation.
  destruct (process_message_of g (protocol_message p) db) as [[[cred content]|e|] [g1 db1]] eqn:Hp.
  - intros [= <- _ _]. destruct (is_duplicate p); [done|]. by eapply process_commit.
  - intros [= <- _ _]. destruct e; cbn; try done; [by repeat case_match| |by eapply process_missing_proposal].
    by destruct (process_own_commit _ _ _ _ _ Hp) as (q & -> & Hb & _); cbn; rewrite Hb.
  - by intros [= <- _ _].
Qed.

Lemma retrieve_buffered_commit_content h (w : World) b w' m :
  buffer_inv w -> retrieve_buffered_commit h w = (Ok (Some b), w') -> deserialize_message b = Some m ->
  commit_message m.
Proof.
  intros [_ Hb]. unfold retrieve_buffered_commit.
  intros (a0 & w0 & H0 & (c & w1 & H1 & (o & w2 & H2 & H3)%st_bind_Ok)%st_bind_Ok)%st_bind_Ok Hm.
  assert (w0 = w) as -> by (apply st_map_err_Ok in H0; unfold valid, st_lift in H0; congruence).
  assert (w1 = w) as -> by (unfold guarded, st_lift in H1; congruence).
  apply st_map_err_Ok in H2. injection H2 as H2 _. injection H3 as H3 _.
  destruct o as [e|]; [|discriminate]. destruct e; try discriminate. injection H3 as <-. by eapply Hb.
Qed.
(** ** One level *)

Section level.
Abbreviation inner_t := (Message -> RecursionPolicy -> st World ConversationError (DecryptedMessage Identity)).
Context (inner inner' : inner_t) (h : nat).
Context (inner_keeps : forall m p, st_frame keeps_buffer (inner m p)).

(** Both agree on a message, from states that satisfy the invariant. *)
Definition agree (m : Message) (p : RecursionPolicy) : Prop :=
  forall w, buffer_inv w -> inner m p w = inner' m p w.

Lemma frame_inv {E A} (m : st World E A) w r w' :
  st_frame keeps_buffer m -> buffer_inv w -> m w = (r, w') -> buffer_inv w'.
Proof. intros Hf Hw Hm. specialize (Hf w Hw). by rewrite Hm in Hf. Qed.

Lemma provider_inv : st_frame keeps_buffer (in_context crypto_provider).
Proof. unfold crypto_provider, in_context. solve_keeps; apply (session_frame keeps_buffer). Qed.

Lemma mapM_agree {A} (f f' : Message -> st World ConversationError A) l w :
  (forall m, st_frame keeps_buffer (f m)) -> (forall m w, buffer_inv w -> f m w = f' m w) ->
  buffer_inv w -> mapM f l w = mapM f' l w.
Proof.
  intros Hk Hf. revert w. induction l as [|m l IH]; intros w Hw; [done|]. cbn [mapM].
  unfold mbind, st_bind. rewrite <- Hf by done. destruct (f m w) as [[a|e|] w1] eqn:Hm; [|done..].
  rewrite IH; [done|]. eapply frame_inv; [apply Hk|exact Hw|exact Hm].
Qed.

Lemma restore_if_agree p w :
  (p = AsNecessary -> forall m, agree m NoRecursion) -> buffer_inv w ->
  restore_if inner p h w = restore_if inner' p h w.
Proof.
  intros Ha Hw. unfold restore_if. case_decide as Hp; [|done]. specialize (Ha Hp).
  unfold restore_and_clear_pending_messages. apply st_bind_head.
  unfold restore_pending_messages. rewrite (decide_False (P := DecryptAndClear = ClearOnly)) by done.
  apply st_bind_ext. intros [] w1 H1. apply st_bind_ext. intros c w2 H2.
  apply st_bind_ext. intros found w3 H3. apply st_bind_ext. intros pending w4 H4.
  assert (buffer_inv w4) as Hw4.
  { assert (w1 = w) as -> by (apply st_map_err_Ok in H1; unfold valid, st_lift in H1; congruence).
    assert (w2 = w) as -> by (unfold guarded, st_lift in H2; congruence).
    assert (w4 = w3) as -> by (unfold st_lift in H4; congruence).
    eapply (frame_inv _ w _ _ (st_frame_map_err _ _ _ (read_frame keeps_buffer _)) Hw), H3. }
  apply st_bind_head, mapM_agree; [| |done].
  - intros m. solve_keeps.
  - intros m w5 Hw5. unfold mbind, st_bind. by rewrite (Ha m w5 Hw5).
Qed.

Lemma decrypt_proposal_agree identity q p w :
  (forall m, commit_message m -> agree m p) -> buffer_inv w ->
  decrypt_proposal ln_ramp inner h identity q p w = decrypt_proposal ln_ramp inner' h identity q p w.
Proof.
  intros Ha Hw. unfold decrypt_proposal. apply st_bind_ext. intros [] w1 H1.
  apply frame_inv in H1; [|by apply gf_mutate, store_proposal_openmls|done].
  apply st_bind_ext. intros [commit|] w2 H2; [|done].
  apply st_map_err_Ok in H2. apply st_try_ext; [|done].
  unfold try_process_buffered_commit. apply st_bind_ext. intros m w3 Hm. unfold st_lift in Hm.
  destruct (deserialize_message commit) as [m'|] eqn:Hd; [|discriminate]. injection Hm as <- <-.
  apply Ha; [by eapply retrieve_buffered_commit_content|].
  by eapply (frame_inv _ w1 _ _ (retrieve_buffered_commit_frame h keeps_buffer)).
Qed.

Lemma decrypt_commit_agree identity c p w :
  (p = AsNecessary -> forall m, agree m NoRecursion) -> buffer_inv w ->
  decrypt_commit ln_ramp inner h identity c p w = decrypt_commit ln_ramp inner' h identity c p w.
Proof.
  intros Ha Hw. unfold decrypt_commit. apply st_bind_ext. intros [] w1 H1. apply st_bind_ext. intros act w2 H2.
  apply st_bind_ext. intros delay w3 H3. apply st_bind_head, restore_if_agree; [done|].
  apply frame_inv in H1; [|apply provider_inv|done].
  apply frame_inv in H2; [|by apply gf_mutate, merge_staged_openmls|done].
  by apply frame_inv in H3; [|apply (next_commit_delay_frame ln_ramp h keeps_buffer)|].
Qed.

Lemma decrypt_level_agree m p w :
  (p = AsNecessary -> forall m', agree m' NoRecursion) ->
  (~ commit_message m -> forall m', commit_message m' -> agree m' p) -> buffer_inv w ->
  decrypt_level ln_ramp extract_identity inner h m p w = decrypt_level ln_ramp extract_identity inner' h m p w.
Proof.
  intros Hany Hcommit Hw. unfold decrypt_level.
  apply st_bind_ext. intros [] w1 H1. apply frame_inv in H1; [|apply provider_inv|done].
  apply st_bind_ext. intros parsed w2 H2. pose proof (parse_message_content _ _ _ _ _ H2) as Hct.
  apply frame_inv in H2; [|apply (parse_message_frame h keeps_buffer)|done].
  apply st_try_ext; [done|]. intros r w3 H3 _. pose proof (process_message_content _ _ _ _ _ H3) as Hr.
  apply frame_inv in H3; [|apply (process_message_frame h keeps_buffer)|done].
  destruct r as [[cred content]|e|]; [| |done].
  - unfold decrypt_content. apply st_bind_ext. intros identity w4 [= _ <-].
    destruct content as [app|q|q|c]; [done| |done|by apply decrypt_commit_agree].
    apply decrypt_proposal_agree; [|done]. apply Hcommit. intros Hm. unfold commit_message in Hm.
    rewrite Hct in Hm. injection Hm as Hm. by apply Hr in Hm as [sc ?].
  - destruct e as [| | | | | | | | | | | | | | | | | | | | | | | | | | |k| | |]; try done.
    destruct k as [k|]; [|done]. destruct k; try done.
    unfold decrypt_own_commit. apply st_bind_ext. intros ct w4 H4.
    apply frame_inv in H4; [|apply (extract_tag_frame h keeps_buffer)|done].
    apply st_bind_ext. intros d w5 H5.
    apply frame_inv in H5; [|apply (handle_own_commit_frame ln_ramp extract_identity h keeps_buffer)|done].
    by apply st_bind_head, restore_if_agree.
Qed.
End level.
(** ** Four levels *)

Abbreviation inner n h := (decrypt_message_inner ln_ramp extract_identity n h).

Lemma inner_keeps n h m p : st_frame keeps_buffer (inner n h m p).
Proof. apply (decrypt_inner_frame ln_ramp extract_identity h keeps_buffer). Qed.

Abbreviation nested beyond n h := (decrypt_nested ln_ramp extract_identity beyond n h).

Lemma inner_agree beyond n k h m p :
  (p = AsNecessary -> forall m', agree (inner n h) (nested beyond k h) m' NoRecursion) ->
  (~ commit_message m -> forall m', commit_message m' -> agree (inner n h) (nested beyond k h) m' p) ->
  agree (inner (S n) h) (nested beyond (S k) h) m p.
Proof. intros H1 H2 w Hw. rewrite decrypt_inner_level. cbn. apply decrypt_level_agree; [apply inner_keeps|done..]. Qed.

(** Four levels make no deeper call. *)
Lemma inner_depth beyond n h m : agree (inner 4 h) (nested beyond (4 + n) h) m AsNecessary.
Proof.
  assert (forall k m, commit_message m -> agree (inner 1 h) (nested beyond (1 + k) h) m NoRecursion) as H1.
  { intros k m' Hm. by apply inner_agree. }
  assert (forall k m, agree (inner 2 h) (nested beyond (2 + k) h) m NoRecursion) as H2.
  { intros k m'. apply inner_agree; [done|]. intros _. apply H1. }
  assert (forall k m, agree (inner 3 h) (nested beyond (3 + k) h) m NoRecursion) as H2'.
  { intros k m'. apply inner_agree; [done|]. intros _ m'' _. apply H2. }
  assert (forall k m, commit_message m -> agree (inner 3 h) (nested beyond (3 + k) h) m AsNecessary) as H3.
  { intros k m' Hm. apply inner_agree; [intros _; apply H2|]. intros Hno. destruct (Hno Hm). }
  apply inner_agree; intros _; [apply H2'|apply H3].
Qed.

(** Only commits are reported as commits to buffer. *)
Definition never_buffers {A} (m : st World ConversationError A) : Prop :=
  forall w w', m w <> (Err BufferedCommit, w').

Lemma never_bind {A B} (m : st World ConversationError A) (f : A -> st World ConversationError B) :
  never_buffers m -> (forall a, never_buffers (f a)) -> never_buffers (m ≫= f).
Proof.
  intros Hm Hf w w'. unfold mbind, st_bind. specialize (Hm w). destruct (m w) as [[a|e|] w1]; [apply Hf| |done].
  intros [= ->]. by eapply Hm.
Qed.

Lemma never_map_err {E A} (f : E -> ConversationError) (m : st World E A) :
  (forall e, f e <> BufferedCommit) -> never_buffers (st_map_err f m).
Proof. intros Hf w w'. unfold st_map_err. destruct (m w) as [[a|e|] w1]; cbn; [done| |done]. intros [= H _]. by eapply Hf. Qed.

Lemma never_lift {A} (f : World -> res ConversationError A) :
  (forall w, f w <> Err BufferedCommit) -> never_buffers (st_lift f).
Proof. intros Hf w w' [= H]. by eapply Hf. Qed.

Lemma never_mutate {T} h (op : Database -> MlsGroup -> bytes -> res ConversationError T * (Database * MlsGroup)) :
  (forall db g id, fst (op db g id) <> Err BufferedCommit) -> never_buffers (mutate_group h op).
Proof.
  intros Hop w w' [(db & g & id & s & Ho)|[[e ?]|[[e ?]|?]]]%mutate_group_result; [|done..].
  apply (Hop db g id). by rewrite Ho.
Qed.
Lemma never_try {E A B} (m : st World E A) (k : res E A -> st World ConversationError B) :
  (forall r, never_buffers (k r)) -> never_buffers (st_try m k).
Proof. intros Hk w w'. unfold st_try. destruct (m w) as [[a|e|] w1]; [apply Hk..|done]. Qed.

Lemma never_guarded h : never_buffers (guarded h).
Proof. apply never_lift. intros w. by destruct (heap (core w) !! h). Qed.

Lemma never_delay h : never_buffers (next_commit_delay ln_ramp h).
Proof. by apply never_bind; [apply never_guarded|]. Qed.

Lemma never_parse h m : never_buffers (parse_message h m).
Proof.
  destruct m as [m|m|]; cbn; [|done|done]. apply never_bind; [|done]. apply never_bind; [apply never_guarded|].
  intros c. by repeat case_match.
Qed.

Lemma never_proposal inn h (identity : Identity) q p : never_buffers (decrypt_proposal ln_ramp inn h identity q p).
Proof.
  assert (never_buffers (delay ← next_commit_delay ln_ramp h;
    mret (MkDecrypted None true delay None identity None))) as Hproceed
    by by apply never_bind; [apply never_delay|].
  apply never_bind; [by apply never_mutate|]. intros _. apply never_bind; [by apply never_map_err|].
  intros [commit|]; [|done]. apply never_try. intros r. apply never_bind.
  - destruct (is_ok r); [by apply never_map_err|done].
  - intros _. destruct r as [d|e|]; [by apply never_map_err| |by apply never_map_err].
    destruct e; try by apply never_map_err. done.
Qed.

Lemma never_external h q : never_buffers (mutate_group h (store_proposal_operation q)).
Proof. by apply never_mutate. Qed.

(** A commit to buffer is a commit. *)
Lemma inner_buffers_commit n h m p (w w' : World) :
  inner n h m p w = (Err BufferedCommit, w') -> commit_message m.
Proof.
  destruct n as [|n]; cbn; [discriminate|]. unfold decrypt_level, mbind at 1, st_bind at 1.
  destruct (in_context crypto_provider w) as [[[]|e|] w1] eqn:H1;
    [|intros [= ->]; by apply never_map_err in H1|done].
  unfold mbind at 1, st_bind at 1. destruct (parse_message h m w1) as [[parsed|e|] w2] eqn:H2;
    [|intros [= ->]; by apply never_parse in H2|done].
  pose proof (parse_message_content _ _ _ _ _ H2) as Hct. unfold commit_message. rewrite Hct. unfold st_try.
  destruct (process_message h parsed w2) as [r w3] eqn:H3.
  apply process_message_content in H3. intros H. f_equal.
  destruct r as [[cred content]|e|]; [| |done].
  - revert H. unfold decrypt_content, mbind at 1, st_bind at 1, identity_of, st_lift.
    destruct (extract_identity cred) as [identity|e'|]; cbn [map_err]; [|done..].
    destruct content as [app|q|q|c]; [done|intros H; by apply never_proposal in H| |intros _; apply H3; by eexists].
    intros H. exfalso. revert H. apply never_bind; [apply never_external|]. intros _.
    by apply never_bind; [apply never_delay|].
  - destruct e as [| | | | | | | | | | | | | | | | | | | | | | | | | | |k| | |]; try done. destruct k as [k|]; [|done].
    by destruct k.
Qed.
(** ** The whole call *)

Lemma wipe_openmls : openmls_operation wipe_operation.
Proof.
  intros db g id r db' g'. unfold wipe_operation. generalize (pending_proposal_refs g). intros ps.
  assert (forall db0 g0, remove_proposals ps db0 g0 = (r, (db', g')) ->
    provider_calls db0 db' /\ group_group_id g' = group_group_id g0 /\ flagged g0 g') as H.
  { induction ps as [|p ps IH]; intros db0 g0; cbn; [intros [= <- <- <-]; repeat split; [constructor|by left]|].
    destruct (remove_pending_proposal_of g0 p db0) as [ok [g1 db1]] eqn:Hr.
    pose proof (remove_pending_proposal_provider _ _ _ _ _ _ Hr) as Hp.
    pose proof (remove_pending_proposal_group_id _ _ _ _ _ _ Hr) as Hid.
    pose proof (remove_pending_proposal_changed _ _ _ _ _ _ Hr) as Hf.
    destruct ok; [|by intros [= <- <- <-]]. intros (Hp' & Hid' & Hf')%IH.
    split; [by eapply provider_calls_trans|]. split; [congruence|by etrans]. }
  intros (Hp & Hid & Hf)%H. split; [|done].
  eapply provider_calls_trans; [apply delete_previous_epoch_keypairs_provider|exact Hp].
Qed.

Lemma wipe_keeps h : st_frame keeps_buffer (wipe h).
Proof.
  unfold wipe. apply st_frame_bind; [apply _|apply provider_inv|intros _].
  apply st_frame_bind; [apply _|apply st_frame_map_err, (session_frame keeps_buffer)|intros _].
  apply st_frame_bind; [apply _|apply gf_mutate, wipe_openmls|intros _].
  apply st_frame_bind; [apply _|apply (guarded_frame keeps_buffer)|intros c].
  apply st_frame_bind; [apply _| |intros _].
  - apply st_frame_map_err, on_database_buffer. intros db. by apply remove_same_reads.
  - apply st_frame_map_err. intros w. apply buffer_inv_reads.
    destruct (with_groups _ w) as [r w'] eqn:Hg. cbn.
    by destruct (with_groups_run _ _ _ _ Hg) as [(e & _ & ->)|(s & r0 & cs' & _ & _ & [= <- <-] & _ & ->)].
Qed.

Lemma buffer_commit_keeps h message m :
  deserialize_message message = Some m -> commit_message m -> st_frame keeps_buffer (buffer_commit h message).
Proof.
  intros Hd Hm. apply st_frame_bind; [apply _|apply (guarded_frame keeps_buffer)|intros c].
  apply st_frame_bind; [apply _|apply provider_inv|intros _].
  apply st_frame_bind; [apply _| |intros _; apply st_frame_ret, _]. apply st_frame_map_err.
  intros w [Hdb Hb]. unfold on_database.
  set (e := Entity.StoredBufferedCommit {| bc_conversation_id := conv_id c; bc_commit_data := message |}).
  destruct (transaction (database (core w))) as [tx|] eqn:Ht.
  - assert (in_transaction (database (core w))) as Hin by (split; [done|by rewrite Ht]).
    destruct (kv_save_total (inv := in_transaction) None e _ None e Hin I I eq_refl) as (d & -> & [Hd' _] & Hget).
    split; [done|]. intros id b m' Hg.
    change (kv_get EntityType.StoredBufferedCommit (vec_key_of id) d = Ok (Some (Entity.StoredBufferedCommit b))) in Hg.
    rewrite Hget in Hg by done. revert Hg. case_decide as Hid; [|apply Hb].
    intros [= <-]. cbn. rewrite Hd. by intros [= <-].
  - pose proof (save_idle None e _ Ht) as Hi. destruct (kv_save None e (database (core w))) as [r d].
    cbn in Hi. subst d. by split.
Qed.

Lemma buffer_future_message_keeps h message : st_frame keeps_buffer (buffer_future_message h message).
Proof.
  unfold buffer_future_message, in_context.
  solve_keeps.
  apply on_database_buffer. intros db. by eapply save_same_reads.
Qed.

(** C7: decrypting a message makes at most four nested calls of [decrypt_message_inner], as long
    as what is buffered as a commit of a conversation is a commit, and decryption keeps it so.
    What a fifth nested call would do, to the result or to the state, does not matter, however
    many levels are unfolded; so four levels are a solution of the recursive equation of the
    source. *)
Theorem decrypt_message_terminates beyond n h message (w : World) :
  buffer_inv w -> 4 <= n ->
  decrypt_message_with (nested beyond n h) h message w = decrypt_message ln_ramp extract_identity 4 h message w /\
  (forall m, decrypt_message_inner ln_ramp extract_identity 4 h m AsNecessary w =
     decrypt_level ln_ramp extract_identity (decrypt_message_inner ln_ramp extract_identity 4 h) h m AsNecessary w) /\
  buffer_inv (snd (decrypt_message ln_ramp extract_identity 4 h message w)).
Proof.
  intros Hw Hn. split; [|split].
  - replace n with (4 + (n - 4)) by lia. unfold decrypt_message, decrypt_message_with. apply st_bind_ext. intros m w1 [= _ <-].
    apply st_try_ext; [|done]. symmetry. by apply inner_depth.
  - intros m. by apply (inner_depth too_deep 1).
  - unfold decrypt_message, decrypt_message_with, mbind at 1, st_bind at 1, st_lift.
    destruct (deserialize_message message) as [m|] eqn:Hd; [|done]. cbn [ok_or]. unfold st_try at 1.
    destruct (inner 4 h m AsNecessary w) as [r w1] eqn:Hi.
    assert (buffer_inv w1) as Hw1 by by eapply frame_inv in Hi; [|apply inner_keeps|].
    destruct r as [d|e|]; [| |done].
    + cbn. unfold mbind, st_bind. destruct (is_active d); [done|]. pose proof (wipe_keeps h w1 Hw1) as Hk.
      cbn. by destruct (wipe h w1) as [[]].
    + destruct e; try done.
      * pose proof (buffer_commit_keeps h message m Hd (inner_buffers_commit _ _ _ _ _ _ Hi) w1 Hw1) as Hk.
        unfold mbind, st_bind. cbn [mret st_ret]. by destruct (buffer_commit h message w1) as [[[]| |]].
      * pose proof (buffer_future_message_keeps h message w1 Hw1) as Hk.
        unfold mbind, st_bind. by destruct (buffer_future_message h message w1) as [[[]| |]].
Qed.
End termination.

Lemma demo_buffer_inv : buffer_inv demo_persisted.
Proof.
  split; [apply demo_persisted_inv|]. intros id b m Hg _. exfalso. revert Hg. vm_compute. discriminate.
Qed.

Lemma decrypt_message_terminates_witness :
  decrypt_message_with (decrypt_nested (fun p => 40 * p)%Z (Ok (A := bytes)) (fun _ _ _ => st_throw Unauthorized) 9 0) 0
    [x03; x00] demo_persisted = demo_decrypt [x03; x00] demo_persisted.
Proof.
  refine (proj1 (decrypt_message_terminates (fun p => 40 * p)%Z (Ok (A := bytes)) (fun _ _ _ => st_throw Unauthorized) 9 0
    [x03; x00] demo_persisted demo_buffer_inv _)). lia.
Defined.
