(* ===== verification/DecryptProps.v ===== *)
(** * What decryption does

    Messages of another epoch, the replay of buffered messages, and commits whose
    replay fails. *)

From S2P Require Import Prelude Keys EntityTypes Entities ToyExternals Sql KeystoreErrors EntityStore Store Transaction TransactionInvariant Database DatabaseProps PendingMessages EntityKV KeystoreMls CryptoErrors OpenMls ConversationCache TransactionContext TransactionContextProps ConversationMut CacheCoherence CommitDelay ClientIds MlsMessages GuardFrames Credentials Commits HistorySharing CommitFrames Decrypt DecryptFrames ConversationRuns DecryptTermination.
From Stdlib Require Import Lia ZArith Sorting.

(** ** The sort *)

Section sort.
Context {A : Type} (key : A -> Z).

Lemma insert_by_key_perm x l : insert_by_key key x l ≡ₚ x :: l.
Proof.
  induction l as [|y l IH]; cbn; [done|]. destruct (key x <=? key y)%Z; [done|]. rewrite IH. apply perm_swap.
Qed.

Lemma sort_by_key_perm l : sort_by_key key l ≡ₚ l.
Proof. induction l as [|x l IH]; cbn; [done|]. by rewrite insert_by_key_perm, IH. Qed.

Lemma insert_by_key_sorted x l :
  StronglySorted (fun a b => key a <= key b)%Z l ->
  StronglySorted (fun a b => key a <= key b)%Z (insert_by_key key x l).
Proof.
  induction 1 as [|y l Hs IH Hy]; cbn; [by repeat constructor|].
  destruct (Z.leb_spec (key x) (key y)) as [Hle|Hlt].
  - constructor; [by constructor|]. constructor; [done|]. eapply Forall_impl; [exact Hy|]. cbn. lia.
  - constructor; [done|]. rewrite insert_by_key_perm. constructor; [lia|done].
Qed.

Lemma sort_by_key_sorted l : StronglySorted (fun a b => key a <= key b)%Z (sort_by_key key l).
Proof. induction l as [|x l IH]; cbn; [constructor|by apply insert_by_key_sorted]. Qed.

Lemma insert_by_key_stable x l k :
  filter (fun a => key a = k) (insert_by_key key x l) = filter (fun a => key a = k) (x :: l).
Proof.
  induction l as [|y l IH]; cbn [insert_by_key]; [done|].
  destruct (Z.leb_spec (key x) (key y)) as [Hle|Hlt]; [done|].
  rewrite filter_cons, IH, !filter_cons. repeat case_decide; done || lia.
Qed.

(** Elements with the same key keep their order. *)
Lemma sort_by_key_stable l k :
  filter (fun a => key a = k) (sort_by_key key l) = filter (fun a => key a = k) l.
Proof.
  induction l as [|x l IH]; [done|]. cbn [sort_by_key foldr]. rewrite insert_by_key_stable, !filter_cons.
  unfold sort_by_key in IH. by rewrite IH.
Qed.
End sort.

Section decrypt_props.
Context `{X : Externals, !ExternalsLaws X, O : OpenMls, !OpenMlsLaws O}.
Context `{Ms : !MlsMessages O, !MlsMessagesLaws Ms, U : UuidLib}.
Context {M : Type} `{!LruMap M nat, !LruMapLaws M nat}.
Context (ln_ramp : Z -> Z) {Identity : Type} (extract_identity : CredentialWithKey -> res CredentialError Identity).
Abbreviation World := (World M).
Abbreviation Message := (MlsMessageIn MlsProposal).

Lemma process_message_wrong_epoch h c (w : World) p g' db' :
  ready h c w ->
  process_message_of (conv_group c) (protocol_message p) (database (core w)) = (Err WrongEpoch, (g', db')) ->
  process_message h p w =
  (Err (classify_process_error (is_duplicate p) (content_type p) (protocol_epoch (protocol_message p))
          (group_epoch (conv_group c)) WrongEpoch), w).
Proof.
  intros Hr Hp. unfold process_message, mbind, st_bind. rewrite (ready_provider h c) by done.
  unfold mutate_group, in_context, st_map_err, mbind, st_bind, st_of. destruct Hr as (Hc & _ & Hh & _).
  rewrite valid_run by done. cbn [map_err]. rewrite Hh. unfold process_message_operation. rewrite Hp.
  destruct (process_wrong_epoch _ _ _ _ _ Hp) as [-> ->]. by rewrite update_same.
Qed.
(** A message that OpenMLS refuses because of its epoch. *)
Lemma decrypt_inner_wrong_epoch depth h c (w : World) m p g' db' policy :
  ready h c w -> parse_message h m w = (Ok p, w) ->
  process_message_of (conv_group c) (protocol_message p) (database (core w)) = (Err WrongEpoch, (g', db')) ->
  decrypt_message_inner ln_ramp extract_identity (S depth) h m policy w =
  (Err (classify_process_error (is_duplicate p) (content_type p) (protocol_epoch (protocol_message p))
          (group_epoch (conv_group c)) WrongEpoch), w).
Proof.
  intros Hr Hp Hw. rewrite decrypt_inner_level. unfold decrypt_level, mbind, st_bind.
  rewrite (ready_provider h c), Hp by done. unfold st_try. rewrite (process_message_wrong_epoch h c w p g' db') by done.
  cbn. by repeat case_match.
Qed.

(** Buffering a message of the next epoch. *)
Lemma buffer_future_message_run h c (w : World) message :
  ready h c w ->
  exists db, buffer_future_message h message w = (Ok (), set_core (set_database db (core w)) w) /\
    same_reads EntityType.PersistedMlsGroup (database (core w)) db /\
    exists found, find_pending_messages_by_conversation_id (conv_id c) db = Ok found /\
      Entity.MlsPendingMessage {| pm_foreign_id := conv_id c; pm_message := message |} ∈ found.
Proof.
  intros Hr. pose proof Hr as (Hc & _ & Hh & (_ & Htx & Hrep) & Ht & Hconn).
  set (pm := {| pm_foreign_id := conv_id c; pm_message := message |}).
  destruct (database (core w)) as [[contents|] [tx|] perm] eqn:Hd; [|done..]. cbn in *.
  destruct (Hrep contents eq_refl) as (m & Hm & _).
  destruct (save_pending_found m contents tx perm pm (Htx tx eq_refl) Hm) as (tx' & Hs & _ & Hf).
  exists (MkDatabase (Some contents) (Some tx') perm). split; [|split; [|exact Hf]].
  - unfold buffer_future_message, in_context, st_map_err, mbind, st_bind. rewrite valid_run by done. cbn [map_err].
    rewrite (ready_guarded h c w Hr). fold pm. unfold on_database. rewrite Hd. cbn [kv_save database_kv].
    rewrite Hs. done.
  - pose proof (save_same_reads EntityType.PersistedMlsGroup (Entity.MlsPendingMessage pm)
      (MkDatabase (Some contents) (Some tx) perm) None (Entity.MlsPendingMessage pm)) as Hsr.
    cbn [kv_save database_kv] in Hsr. rewrite Hs in Hsr. by apply Hsr.
Qed.

(** What becomes of a message that OpenMLS refuses because of its epoch.  A
    duplicate is reported as such; a message of the next epoch, and no other, is
    buffered, where it is found again, and no group is touched; an older message is
    reported as stale by its kind and a newer one as too far ahead, and nothing
    changes at all. *)
Theorem wrong_epoch_outcome depth h c (w : World) message m p g' db' :
  ready h c w -> (0 <= group_epoch (conv_group c) < 2 ^ 64 - 1)%Z ->
  deserialize_message message = Some m -> parse_message h m w = (Ok p, w) ->
  process_message_of (conv_group c) (protocol_message p) (database (core w)) = (Err WrongEpoch, (g', db')) ->
  let epoch := protocol_epoch (protocol_message p) in
  let run := decrypt_message ln_ramp extract_identity (S depth) h message w in
  (is_duplicate p = true -> run = (Err DuplicateMessage, w)) /\
  (is_duplicate p = false -> epoch = (group_epoch (conv_group c) + 1)%Z ->
     exists db, run = (Err (BufferedFutureMessage epoch), set_core (set_database db (core w)) w) /\
       (forall id, stored_group id db = stored_group id (database (core w))) /\
       exists found, find_pending_messages_by_conversation_id (conv_id c) db = Ok found /\
         Entity.MlsPendingMessage {| pm_foreign_id := conv_id c; pm_message := message |} ∈ found) /\
  (is_duplicate p = false -> (epoch < group_epoch (conv_group c))%Z ->
     run = (Err (match content_type p with
                 | Application => StaleMessage | ProposalType => StaleProposal | Commit => StaleCommit end), w)) /\
  (is_duplicate p = false -> (group_epoch (conv_group c) + 1 < epoch)%Z ->
     run = (Err UnbufferedFarFutureMessage, w)).
Proof.
  intros Hr Hb Hd Hp Hw epoch run.
  assert (forall e, classify_process_error (is_duplicate p) (content_type p) epoch (group_epoch (conv_group c)) WrongEpoch = e ->
    (forall k, e <> BufferedFutureMessage k) -> e <> BufferedCommit -> run = (Err e, w)) as Hplain.
  { intros e He Hnf Hnb. unfold run, decrypt_message, decrypt_message_with, st_lift, mbind, st_bind. rewrite Hd. cbn [ok_or]. unfold st_try.
    rewrite (decrypt_inner_wrong_epoch depth h c w m p g' db') by done. fold epoch. rewrite He.
    destruct e; try done. by destruct (Hnf message_epoch). }
  assert (u64 (group_epoch (conv_group c) + 1) = group_epoch (conv_group c) + 1)%Z as Hu by (apply Z.mod_small; lia).
  repeat split; intros Hdup; [|intros He..].
  - apply Hplain; [cbn; by rewrite Hdup|done..].
  - destruct (buffer_future_message_run h c w message Hr) as (db & Hrun & Hsame & Hfound).
    exists db. split; [|split; [|done]].
    + unfold run, decrypt_message, decrypt_message_with, st_lift, mbind, st_bind. rewrite Hd. cbn [ok_or]. unfold st_try.
      rewrite (decrypt_inner_wrong_epoch depth h c w m p g' db') by done. fold epoch. cbn.
      rewrite Hdup, Hu, He, Z.eqb_refl. by rewrite Hrun.
    + intros id. apply same_groups_stored; [done|apply Hr].
  - apply Hplain; [|by destruct (content_type p)..]. cbn. rewrite Hdup, Hu.
    rewrite (proj2 (Z.eqb_neq _ _)), (proj2 (Z.ltb_lt _ _)) by lia. by destruct (content_type p).
  - apply Hplain; [|done..]. cbn. rewrite Hdup, Hu.
    by rewrite (proj2 (Z.eqb_neq _ _)), (proj2 (Z.ltb_ge _ _)) by lia.
Qed.
(** ** Replaying the buffer *)

#[local] Instance keeps_ready_decrypt h : DecryptFrame h (keeps_ready h).
Proof.
  split; [apply _|..].
  - intros pk w. unfold on_database. pose proof (kv_remove_keeps EntityType.StoredBufferedCommit pk (database (core w))) as Hk.
    destruct (kv_remove EntityType.StoredBufferedCommit pk (database (core w))). by apply ready_database.
  - intros id w. unfold on_database.
    pose proof (remove_pending_same_reads EntityType.StoredBufferedCommit id (database (core w))) as [Hk _]; [done|].
    destruct (remove_pending_messages_by_conversation_id id (database (core w))). by apply ready_database.
Qed.

Abbreviation inner_t := (Message -> RecursionPolicy -> st World ConversationError (DecryptedMessage Identity)).

(** The buffered messages, one after the other. *)
Inductive replay (inner : inner_t) :
    list Message -> World -> list (BufferedDecryptedMessage Identity) -> World -> Prop :=
  | replay_nil w : replay inner [] w [] w
  | replay_cons m ms w d w1 l w2 :
      inner m NoRecursion w = (Ok d, w1) -> replay inner ms w1 l w2 ->
      replay inner (m :: ms) w (buffered_from d :: l) w2.

Lemma mapM_replay (inner : inner_t) ms (w : World) l w' :
  mapM (fun m => d ← inner m NoRecursion; mret (buffered_from d)) ms w = (Ok l, w') -> replay inner ms w l w'.
Proof.
  revert w l. induction ms as [|m ms IH]; intros w l; cbn; [intros [= <- <-]; constructor|].
  intros (b & w1 & (d & w2 & Hd & [= <- <-])%st_bind_Ok & (l' & w3 & Hl & [= <- <-])%st_bind_Ok)%st_bind_Ok.
  econstructor; [exact Hd|by apply IH].
Qed.

Lemma replay_length inner ms w l w' : replay inner ms w l w' -> length l = length ms.
Proof. induction 1; cbn; congruence. Qed.

Lemma mapM_parse_length (found : list Entity.t) (pending : list (Z * Message)) :
  mapM parse_pending found = Ok pending -> length pending = length found.
Proof.
  revert pending. induction found as [|e l IH]; intros pending; cbn; [by intros [= <-]|].
  intros (x & Hx & (l' & Hl & [= <-])%bind_Ok)%bind_Ok. cbn. f_equal. by apply IH.
Qed.

(** Clearing the buffer leaves persisted messages only. *)
Lemma clear_pending_messages_run h c (w : World) contents :
  ready h c w -> conn (database (core w)) = Some contents ->
  pending_message_find_all_matching (conv_id c) contents = Ok [] ->
  exists w', clear_pending_messages h w = (Ok (), w') /\
    find_pending_messages_by_conversation_id (conv_id c) (database (core w')) = Ok [].
Proof.
  intros Hr Hconn Hnone. pose proof Hr as (Hc & _ & Hh & (_ & Htx & Hrep) & Ht & _).
  unfold clear_pending_messages, in_context, st_map_err, mbind, st_bind. rewrite valid_run by done. cbn [map_err].
  rewrite (ready_guarded h c w Hr). unfold on_database.
  destruct (database (core w)) as [[k|] [tx|] perm]; [|done..]. cbn in Hconn, Htx, Hrep. injection Hconn as ->.
  destruct (Hrep contents eq_refl) as (m & Hm & _).
  destruct (remove_pending_found (conv_id c) m contents tx perm (Htx tx eq_refl) Hm) as (tx' & -> & _ & Hf).
  eexists. split; [reflexivity|]. cbn [core database set_core set_database]. rewrite Hf.
  rewrite (pending_message_find_eq _ m) in Hnone by done. injection Hnone as ->. done.
Qed.
(** The steps of a restore that succeeds up to the replay. *)
Lemma restore_pending_run (inner : inner_t) h c (w : World) r w' :
  ready h c w -> restore_pending_messages inner h DecryptAndClear w = (Ok r, w') ->
  exists found pending l,
    find_pending_messages_by_conversation_id (conv_id c) (database (core w)) = Ok found /\
    mapM parse_pending found = Ok pending /\
    replay inner (sort_by_key fst pending).*2 w l w' /\
    r = match l with [] => None | _ => Some l end.
Proof.
  intros Hr. unfold restore_pending_messages. rewrite (decide_False (P := DecryptAndClear = ClearOnly)) by done.
  intros (a0 & w0 & H0 & (c' & w1 & H1 & (found & w2 & H2 & (pending & w3 & H3 & (l & w4 & H4 & H5)%st_bind_Ok)%st_bind_Ok)%st_bind_Ok)%st_bind_Ok)%st_bind_Ok.
  assert (w0 = w) as -> by (apply st_map_err_Ok in H0; unfold valid, st_lift in H0; congruence).
  rewrite (ready_guarded h c w Hr) in H1. injection H1 as <- <-.
  apply st_map_err_Ok in H2. unfold on_database in H2. injection H2 as Hf <-. rewrite set_database_id in H3.
  unfold st_lift in H3. injection H3 as Hp <-. injection H5 as <- <-.
  exists found, pending, l. split; [done|]. split; [done|]. split; [by apply mapM_replay|done].
Qed.

Lemma replay_keeps_ready depth h ms (w : World) l w' :
  replay (decrypt_message_inner ln_ramp extract_identity depth h) ms w l w' -> keeps_ready h w w'.
Proof.
  induction 1 as [w|m ms w d w1 l w2 Hd _ IH]; [done|]. etrans; [|exact IH].
  pose proof (decrypt_inner_frame ln_ramp extract_identity h (keeps_ready h) depth m NoRecursion w) as Hw.
  by rewrite Hd in Hw.
Qed.

(** C8: when the messages buffered for a conversation are restored, all of them are
    decrypted, application messages first, then proposals, then commits, those of a
    kind in the order in which they were found; one result is returned for each.
    The buffer is empty afterwards if none of the messages of the conversation had been
    persisted before the transaction began; of a buffer with messages that were, nothing
    is said. *)
Theorem restore_replays_buffer depth h c (w : World) r w' :
  ready h c w ->
  restore_and_clear_pending_messages (decrypt_message_inner ln_ramp extract_identity depth h) h w = (Ok r, w') ->
  exists found pending w1 l,
    find_pending_messages_by_conversation_id (conv_id c) (database (core w)) = Ok found /\
    mapM parse_pending found = Ok pending /\ length pending = length found /\
    replay (decrypt_message_inner ln_ramp extract_identity depth h) (sort_by_key fst pending).*2 w l w1 /\
    sort_by_key fst pending ≡ₚ pending /\
    StronglySorted (fun a b => a.1 <= b.1)%Z (sort_by_key fst pending) /\
    (forall k, filter (fun a => a.1 = k) (sort_by_key fst pending) = filter (fun a => a.1 = k) pending) /\
    length l = length found /\ r = match l with [] => None | _ => Some l end /\
    (forall contents, conn (database (core w)) = Some contents ->
       pending_message_find_all_matching (conv_id c) contents = Ok [] ->
       find_pending_messages_by_conversation_id (conv_id c) (database (core w')) = Ok []).
Proof.
  intros Hr (r1 & w1 & H1 & H2)%st_bind_Ok.
  destruct (restore_pending_run _ h c w r1 w1 Hr H1) as (found & pending & l & Hf & Hp & Hl & ->).
  pose proof (mapM_parse_length _ _ Hp) as Hlen. pose proof (replay_length _ _ _ _ _ Hl) as Hll.
  rewrite length_fmap, (Permutation_length (sort_by_key_perm fst pending)), Hlen in Hll.
  pose proof (replay_keeps_ready _ _ _ _ _ _ Hl) as Hk.
  exists found, pending, w1, l. do 4 (split; [done|]).
  split; [apply sort_by_key_perm|]. split; [apply sort_by_key_sorted|]. split; [apply sort_by_key_stable|].
  split; [done|]. destruct (Hk c Hr) as (c1 & Hr1 & Hid & Hconn1).
  destruct l as [|b l].
  - injection H2 as <- <-. split; [done|]. intros contents _ _.
    destruct found; [|discriminate]. destruct pending; [|discriminate]. inversion Hl. by subst.
  - apply st_bind_Ok in H2 as (a & w2 & H2 & [= <- <-]). split; [done|]. intros contents Hc Hnone.
    rewrite <- Hid in *. rewrite <- Hconn1 in Hc.
    destruct (clear_pending_messages_run h c1 w1 contents Hr1 Hc Hnone) as (w3 & H3 & Hempty). congruence.
Qed.
(** ** Commits whose replay fails *)

(** Buffering a commit: it is retrieved afterwards. *)
Lemma buffer_commit_run h c (w : World) commit :
  ready h c w ->
  exists w', buffer_commit h commit w = (Ok (), w') /\ context w' = context w /\ heap (core w') = heap (core w) /\
    retrieve_buffered_commit h w' = (Ok (Some commit), w').
Proof.
  intros Hr. pose proof Hr as (Hc & _ & Hh & Hdb & Ht & _).
  set (e := Entity.StoredBufferedCommit {| bc_conversation_id := conv_id c; bc_commit_data := commit |}).
  destruct (kv_save_total (inv := in_transaction) None e _ None e (conj Hdb Ht) I I eq_refl)
    as (d & Hs & _ & Hget).
  exists (set_core (set_database d (core w)) w). split; [|split; [done|split; [done|]]].
  - unfold buffer_commit, mbind, st_bind. rewrite (ready_guarded h c w Hr), (ready_provider h c w Hr). fold e.
    unfold st_map_err, on_database. by rewrite Hs.
  - unfold retrieve_buffered_commit, in_context, st_map_err, mbind, st_bind. rewrite valid_run by done. cbn [map_err].
    unfold guarded, st_lift. cbn [heap core set_core set_database]. rewrite Hh. cbn [expect].
    unfold on_database. cbn [database core set_core set_database]. rewrite Hget by done.
    rewrite decide_True by done. done.
Qed.

(** The part of decrypting a commit before the restore. *)
Lemma decrypt_commit_until_restore depth h c (w : World) m p cred sc identity w0 act w1 :
  ready h c w -> parse_message h m w = (Ok p, w) ->
  process_message h p w = (Ok (cred, StagedCommitMessage sc), w0) -> extract_identity cred = Ok identity ->
  mutate_group h (merge_staged_operation sc) w0 = (Ok act, w1) ->
  exists c1 delay, ready h c1 w1 /\ conv_id c1 = conv_id c /\
    decrypt_message_inner ln_ramp extract_identity (S depth) h m AsNecessary w =
    (buffered ← restore_and_clear_pending_messages (decrypt_message_inner ln_ramp extract_identity depth h) h;
     c ← guarded h;
     _ ← in_context (queue_epoch_changed (conv_id c) (staged_epoch sc));
     mret (MkDecrypted None act delay None identity buffered)) w1.
Proof.
  intros Hr Hp Hproc Hid Hmerge.
  destruct (frame_ready h c _ _ _ _ (process_message_frame h (keeps_ready h) p) Hr Hproc) as (c0 & Hr0 & Hc0).
  destruct (frame_ready h c0 _ _ _ _ (gf_mutate _ (merge_staged_openmls sc)) Hr0 Hmerge) as (c1 & Hr1 & Hc1).
  exists c1, (compute_next_commit_delay ln_ramp (delay_view (conv_group c1))).
  split; [done|]. split; [congruence|].
  rewrite decrypt_inner_level. unfold decrypt_level, mbind at 1 2, st_bind at 1 2.
  rewrite (ready_provider h c), Hp by done. unfold st_try. rewrite Hproc.
  unfold decrypt_content, identity_of, st_lift, mbind at 1, st_bind at 1. rewrite Hid. cbn [ok_or].
  unfold decrypt_commit, validate_commit, mbind at 1 2 3, st_bind at 1 2 3.
  rewrite (ready_provider h c0), Hmerge by done.
  unfold next_commit_delay, mbind at 1, st_bind at 1. rewrite (ready_guarded h c1) by done. cbn [mret st_ret].
  unfold restore_if. by rewrite decide_True.
Qed.

Lemma restore_ready depth h c (w : World) r w' :
  ready h c w ->
  restore_and_clear_pending_messages (decrypt_message_inner ln_ramp extract_identity depth h) h w = (r, w') ->
  exists c', ready h c' w' /\ conv_id c' = conv_id c.
Proof.
  intros Hr. apply frame_ready; [|done].
  pose proof (restore_if_frame h (keeps_ready h) _ (decrypt_inner_frame ln_ramp extract_identity h (keeps_ready h) depth)
    AsNecessary) as Hf. unfold restore_if in Hf. by rewrite decide_True in Hf.
Qed.

(** A commit that is accepted and merged, but after which restoring the
    buffered messages fails, is reported as failed with the error of the restore;
    its epoch is not announced.  If the failure is that a buffered commit misses a
    proposal, then it is the merged commit, not the buffered one, that is stored as
    the commit to retry. *)
Theorem failed_restore_after_merge depth h c (w : World) message m p cred sc identity w0 act w1 e w2 :
  ready h c w -> deserialize_message message = Some m -> parse_message h m w = (Ok p, w) ->
  process_message h p w = (Ok (cred, StagedCommitMessage sc), w0) -> extract_identity cred = Ok identity ->
  mutate_group h (merge_staged_operation sc) w0 = (Ok act, w1) ->
  restore_and_clear_pending_messages (decrypt_message_inner ln_ramp extract_identity depth h) h w1 = (Err e, w2) ->
  exists w', decrypt_message ln_ramp extract_identity (S depth) h message w = (Err e, w') /\
    context w' = context w2 /\ heap (core w') = heap (core w2) /\
    ((forall k, e <> BufferedFutureMessage k) -> e <> BufferedCommit -> w' = w2) /\
    (e = BufferedCommit -> retrieve_buffered_commit h w' = (Ok (Some message), w')).
Proof.
  intros Hr Hd Hp Hproc Hid Hmerge Hrest.
  destruct (decrypt_commit_until_restore depth h c w m p cred sc identity w0 act w1 Hr Hp Hproc Hid Hmerge)
    as (c1 & delay & Hr1 & _ & Hinner).
  destruct (restore_ready depth h c1 w1 _ w2 Hr1 Hrest) as (c2 & Hr2 & _).
  unfold mbind at 1, st_bind at 1 in Hinner. rewrite Hrest in Hinner.
  unfold decrypt_message, decrypt_message_with, mbind, st_bind, st_lift. rewrite Hd. cbn [ok_or]. unfold st_try. rewrite Hinner.
  destruct e; try (eexists; split; [reflexivity|done]).
  - destruct (buffer_commit_run h c2 w2 message Hr2) as (w' & Hb & Hc & Hh & Hget).
    exists w'. cbn. rewrite Hb. by repeat split.
  - destruct (buffer_future_message_run h c2 w2 message Hr2) as (db & Hb & _).
    eexists. rewrite Hb. split; [reflexivity|]. do 2 (split; [done|]). split; [|done].
    intros Hne. by destruct (Hne message_epoch).
Qed.
(** A commit that is merged, and after which the restore succeeds, leaves us in
    the conversation if the commit itself does: the conversation is not wiped then,
    even when a restored commit has removed us from the group; and the epoch of the
    commit is announced after the later epochs of the restored commits. *)
Theorem restored_commits_outcome depth h c (w : World) message m p cred sc identity w0 w1 buffered w2 changes :
  ready h c w -> deserialize_message message = Some m -> parse_message h m w = (Ok p, w) ->
  process_message h p w = (Ok (cred, StagedCommitMessage sc), w0) -> extract_identity cred = Ok identity ->
  mutate_group h (merge_staged_operation sc) w0 = (Ok true, w1) ->
  restore_and_clear_pending_messages (decrypt_message_inner ln_ramp extract_identity depth h) h w1 = (Ok buffered, w2) ->
  context w2 = Valid changes ->
  exists delay, decrypt_message ln_ramp extract_identity (S depth) h message w =
    (Ok (MkDecrypted None true delay None identity buffered),
     MkWorld (core w2) (Valid (changes ++ [(conv_id c, staged_epoch sc)]))).
Proof.
  intros Hr Hd Hp Hproc Hid Hmerge Hrest Hctx.
  destruct (decrypt_commit_until_restore depth h c w m p cred sc identity w0 true w1 Hr Hp Hproc Hid Hmerge)
    as (c1 & delay & Hr1 & Hc1 & Hinner).
  destruct (restore_ready depth h c1 w1 _ w2 Hr1 Hrest) as (c2 & Hr2 & Hc2).
  exists delay. unfold decrypt_message, decrypt_message_with, mbind, st_bind, st_lift. rewrite Hd. cbn [ok_or]. unfold st_try.
  rewrite Hinner. unfold mbind, st_bind. rewrite Hrest, (ready_guarded h c2 w2 Hr2).
  unfold in_context, st_map_err, queue_epoch_changed. rewrite Hctx. cbn. by rewrite Hc2, Hc1.
Qed.
End decrypt_props.

(** ** Runs of the model *)

Definition demo_conversation (g : ToyGroup) : Conversation := MkConversation (bstr "g") g (config_of_ciphersuite 1).
Definition demo_group (e : byte) : ToyGroup := MkToyGroup (bstr "g") e true false false Persisted.

Lemma demo_ready (w : World (ToyLru nat)) g :
  cache_inv ∅ w -> context w = Valid [] -> is_Some (mls (core w)) ->
  heap (core w) !! 0 = Some (demo_conversation g) -> conn (database (core w)) = Some ∅ ->
  ready 0 (demo_conversation g) w.
Proof.
  intros (Htx & Hok & _) Hc Hm Hh Hconn. rewrite Hc in Htx. split; [by rewrite Hc|]. split; [done|].
  split; [done|]. split; [apply Hok|]. split; [by apply Htx|by rewrite Hconn].
Qed.

Lemma demo_persisted_ready : ready 0 (demo_conversation (demo_group x00)) demo_persisted.
Proof.
  apply demo_ready; [exact demo_persisted_inv|reflexivity|eexists; reflexivity|vm_compute; reflexivity|].
  vm_compute. reflexivity.
Qed.

Lemma wrong_epoch_outcome_witness :
  exists db, demo_decrypt (x01 :: x01 :: bstr "hello") demo_persisted =
    (Err (BufferedFutureMessage 1), set_core (set_database db (core demo_persisted)) demo_persisted).
Proof.
  destruct (wrong_epoch_outcome (Ms := toy_messages) (fun p => 40 * p)%Z (Ok (A := bytes)) 3 0 (demo_conversation (demo_group x00))
    demo_persisted (x01 :: x01 :: bstr "hello") (PrivateMessage (MkPrivate 1 Application (x01 :: bstr "hello")))
    (MkParsed false (PrivateProtocol (MkPrivate 1 Application (x01 :: bstr "hello"))) Application)
    (demo_group x00) (database (core demo_persisted)) demo_persisted_ready) as (_ & H & _).
  - vm_compute. split; [discriminate|reflexivity].
  - reflexivity.
  - reflexivity.
  - reflexivity.
  - destruct (H eq_refl eq_refl) as (db & Hrun & _). exists db. exact Hrun.
Defined.

(** The commit of epoch 0 is merged while a message of epoch 1 is buffered. *)
Definition demo_merging : World (ToyLru nat) := snd (mutate_group 0 (merge_staged_operation (true, 1%Z)) demo_early).
Definition demo_restore : st (World (ToyLru nat)) ConversationError (option (list (BufferedDecryptedMessage bytes))) :=
  restore_and_clear_pending_messages (decrypt_message_inner (fun p => 40 * p)%Z (Ok (A := bytes)) 3 0) 0.

(** A step through the guard of the demonstration. *)
Lemma demo_step_inv guard w w' :
  cache_inv ∅ w -> conv_step (Ms := toy_messages) (fun p => 40 * p)%Z (Ok (A := bytes)) demo_app guard w w' ->
  superseded guard w = ∅ -> cache_inv ∅ w'.
Proof. intros Hinv Hs He. apply (conv_step_inv _ _ _ ∅) in Hs; [|exact Hinv]. by rewrite He, union_empty_r_L in Hs. Qed.

Lemma demo_decrypt_inv message : cache_inv ∅ (snd (demo_decrypt message demo_persisted)).
Proof.
  apply (demo_step_inv (Some 0) demo_persisted); [exact demo_persisted_inv| |vm_compute; reflexivity].
  exact (conv_decrypt _ _ _ 4 0 message demo_persisted).
Qed.

Lemma demo_decrypt_ready message g (w := snd (demo_decrypt message demo_persisted)) :
  context w = Valid [] -> is_Some (mls (core w)) -> heap (core w) !! 0 = Some (demo_conversation g) ->
  conn (database (core w)) = Some ∅ -> ready 0 (demo_conversation g) w.
Proof. apply demo_ready, demo_decrypt_inv. Qed.

Lemma demo_merging_ready : ready 0 (demo_conversation (demo_group x01)) demo_merging.
Proof.
  apply demo_ready; [|vm_compute; reflexivity|eexists; vm_compute; reflexivity|vm_compute; reflexivity|
    vm_compute; reflexivity].
  apply (demo_step_inv (Some 0) demo_early); [apply (demo_decrypt_inv (x01 :: x01 :: bstr "hello"))| |vm_compute; reflexivity].
  refine (conv_mutate _ _ _ 0 (merge_staged_operation (true, 1%Z)) demo_early _).
  apply openmls_well_behaved, merge_staged_openmls.
Qed.

Lemma restore_replays_buffer_witness :
  fst (demo_restore demo_merging) = Ok (Some [MkBuffered (Some (bstr "hello")) true None None (bstr "bob")]) /\
  find_pending_messages_by_conversation_id (bstr "g") (database (core (snd (demo_restore demo_merging)))) = Ok [].
Proof.
  assert (fst (demo_restore demo_merging) =
    Ok (Some [MkBuffered (Some (bstr "hello")) true None None (bstr "bob")])) as Hr by (vm_compute; reflexivity).
  split; [exact Hr|].
  destruct (restore_replays_buffer (Ms := toy_messages) (fun p => 40 * p)%Z (Ok (A := bytes)) 3 0
    (demo_conversation (demo_group x01)) demo_merging
    (Some [MkBuffered (Some (bstr "hello")) true None None (bstr "bob")]) (snd (demo_restore demo_merging))
    demo_merging_ready) as (found & pending & w1 & l & H).
  - rewrite <- Hr. apply surjective_pairing.
  - apply (proj2 (proj2 (proj2 (proj2 (proj2 (proj2 (proj2 (proj2 (proj2 H)))))))) ∅); vm_compute; reflexivity.
Defined.

(** A commit of epoch 1 that refers to a proposal arrives before the proposal and
    before the commit of epoch 0. *)
Definition demo_early_commit : World (ToyLru nat) := snd (demo_decrypt [x04; x01] demo_persisted).
Definition demo_parsed : ParsedMessage :=
  MkParsed false (PublicProtocol (MkPublic 0 (Member 1) CommitBody (Some [x01]) [x03])) Commit.
Definition demo_processed : World (ToyLru nat) := snd (process_message 0 demo_parsed demo_early_commit).
Definition demo_merged : World (ToyLru nat) := snd (mutate_group 0 (merge_staged_operation (true, 1%Z)) demo_processed).

Lemma demo_early_commit_ready : ready 0 (demo_conversation (demo_group x00)) demo_early_commit.
Proof.
  apply (demo_decrypt_ready [x04; x01]); [vm_compute; reflexivity|eexists; vm_compute; reflexivity|vm_compute; reflexivity..].
Qed.

Lemma failed_restore_after_merge_witness :
  exists w', demo_decrypt [x03; x00] demo_early_commit = (Err BufferedCommit, w') /\
    retrieve_buffered_commit 0 w' = (Ok (Some [x03; x00]), w').
Proof.
  destruct (failed_restore_after_merge (Ms := toy_messages) (fun p => 40 * p)%Z (Ok (A := bytes)) 3 0
    (demo_conversation (demo_group x00)) demo_early_commit [x03; x00]
    (PublicMessage (MkPublic 0 (Member 1) CommitBody (Some [x01]) [x03])) demo_parsed (bstr "bob") (true, 1%Z)
    (bstr "bob") demo_processed true demo_merged BufferedCommit (snd (demo_restore demo_merged))
    demo_early_commit_ready) as (w' & Hrun & _ & _ & _ & Hget).
  - reflexivity.
  - unfold parse_message, is_duplicate_message, mbind, st_bind.
    rewrite (ready_guarded 0 (demo_conversation (demo_group x00)) demo_early_commit demo_early_commit_ready).
    reflexivity.
  - transitivity (fst (process_message 0 demo_parsed demo_early_commit), demo_processed); [apply surjective_pairing|].
    apply (f_equal (fun r => (r, demo_processed))). vm_compute. reflexivity.
  - reflexivity.
  - transitivity (fst (mutate_group 0 (merge_staged_operation (true, 1%Z)) demo_processed), demo_merged);
      [apply surjective_pairing|].
    apply (f_equal (fun r => (r, demo_merged))). vm_compute. reflexivity.
  - transitivity (fst (demo_restore demo_merged), snd (demo_restore demo_merged)); [apply surjective_pairing|].
    apply (f_equal (fun r => (r, snd (demo_restore demo_merged)))). vm_compute. reflexivity.
  - exists w'. split; [exact Hrun|by apply Hget].
Defined.

(** A commit of epoch 1 that removes us is buffered before the commit of epoch 0
    arrives. *)
Definition demo_early_removal : World (ToyLru nat) := snd (demo_decrypt [x05; x01] demo_persisted).
Definition demo_processed_removal : World (ToyLru nat) := snd (process_message 0 demo_parsed demo_early_removal).
Definition demo_merged_removal : World (ToyLru nat) :=
  snd (mutate_group 0 (merge_staged_operation (true, 1%Z)) demo_processed_removal).
Definition demo_removed : World (ToyLru nat) := snd (demo_restore demo_merged_removal).

Lemma demo_early_removal_ready : ready 0 (demo_conversation (demo_group x00)) demo_early_removal.
Proof.
  apply (demo_decrypt_ready [x05; x01]); [vm_compute; reflexivity|eexists; vm_compute; reflexivity|vm_compute; reflexivity..].
Qed.

Definition demo_removal_result : option (list (BufferedDecryptedMessage bytes)) :=
  Some [MkBuffered None false None None (bstr "bob")].

Lemma restored_commits_outcome_witness :
  (exists delay, demo_decrypt [x03; x00] demo_early_removal =
    (Ok (MkDecrypted None true delay None (bstr "bob") demo_removal_result),
     MkWorld (core demo_removed) (Valid [(bstr "g", 2%Z); (bstr "g", 1%Z)]))) /\
  (exists g, stored_group (bstr "g") (database (core demo_removed)) = Some g /\ group_is_active g = false).
Proof.
  split; [|eexists; split; vm_compute; reflexivity].
  refine (restored_commits_outcome (Ms := toy_messages) (fun p => 40 * p)%Z (Ok (A := bytes)) 3 0
    (demo_conversation (demo_group x00)) demo_early_removal [x03; x00]
    (PublicMessage (MkPublic 0 (Member 1) CommitBody (Some [x01]) [x03])) demo_parsed (bstr "bob") (true, 1%Z)
    (bstr "bob") demo_processed_removal demo_merged_removal demo_removal_result demo_removed
    [(bstr "g", 2%Z)] demo_early_removal_ready eq_refl _ _ eq_refl _ _ _).
  - unfold parse_message, is_duplicate_message, mbind, st_bind.
    rewrite (ready_guarded 0 (demo_conversation (demo_group x00)) demo_early_removal demo_early_removal_ready).
    reflexivity.
  - transitivity (fst (process_message 0 demo_parsed demo_early_removal), demo_processed_removal);
      [apply surjective_pairing|].
    apply (f_equal (fun r => (r, demo_processed_removal))). vm_compute. reflexivity.
  - transitivity (fst (mutate_group 0 (merge_staged_operation (true, 1%Z)) demo_processed_removal), demo_merged_removal);
      [apply surjective_pairing|].
    apply (f_equal (fun r => (r, demo_merged_removal))). vm_compute. reflexivity.
  - transitivity (fst (demo_restore demo_merged_removal), demo_removed); [apply surjective_pairing|].
    apply (f_equal (fun r => (r, demo_removed))). vm_compute. reflexivity.
  - vm_compute. reflexivity.
Defined.
