(* ===== verification/KeyPackages.v ===== *)
(** * Key packages

    [crypto/src/mls/key_package.rs], [crypto/src/mls/session/key_package.rs],
    [crypto/src/transaction_context/key_package.rs] and the credential operations
    of a transaction ([crypto/src/transaction_context/credential/mod.rs]), which
    remove the key packages of a credential with it. *)

From S2P Require Import Prelude Keys EntityTypes Entities ToyExternals Sql KeystoreErrors EntityStore Store Transaction Database EntityKV KeystoreMls CryptoErrors OpenMls ConversationCache TransactionContext ClientIds MlsMessages Credentials.
From Stdlib Require Import Lia ZArith.

(** The key packages of the library. *)
Class KeyPackageLib : Type := {
  Keypackage : Type;
  Lifetime : Type;
  deser_keypackage : bytes -> option Keypackage;
  (** [hash_ref(crypto)]. *)
  kp_hash_ref : Keypackage -> option bytes;
  kp_ciphersuite : Keypackage -> Z;
  (** Parts of the leaf node. *)
  kp_credential_type : Keypackage -> MlsCredentialType;
  kp_lifetime : Keypackage -> option Lifetime;
  kp_signature_key : Keypackage -> bytes;
  kp_encryption_key : Keypackage -> bytes;
  kp_hpke_init_key : Keypackage -> bytes;
  (** [has_acceptable_range] and [is_valid], at the time of the call. *)
  has_acceptable_range : Lifetime -> bool;
  lifetime_is_valid : Z -> Lifetime -> bool;
}.

Section key_packages.
Context `{X : Externals, O : OpenMls, Ms : !MlsMessages O, Mc : MlsCredentials, !LeafCredentials Ms Mc}.
Context `{U : UuidLib, Kl : KeyPackageLib} {M : Type} `{!LruMap M nat}.
Abbreviation tx A := (st (World M) TransactionError A).

(** ** References *)

(** [KeypackageRef]. *)
Record KeypackageRef : Type := MkKpRef {
  hash_ref : bytes;
  kpref_cipher_suite : Z;
  kpref_credential_type : CredentialType;
  kpref_lifetime : option Lifetime;
}.

(** [KeypackageExt::make_ref]; [credential_type] expects a supported type. *)
Definition make_ref (kp : Keypackage) : res () KeypackageRef :=
  hash_ref ← ok_or (kp_hash_ref kp) ();
  credential_type ← match credential_type_try_from (kp_credential_type kp) with
                    | Ok ty => Ok ty | _ => Panic end;
  Ok (MkKpRef hash_ref (kp_ciphersuite kp) credential_type (kp_lifetime kp)).

(** [is_valid] of a key package and of a reference. *)
Definition lifetime_ok (now : Z) (lifetime : option Lifetime) : bool :=
  is_none_or lifetime (fun l => has_acceptable_range l && lifetime_is_valid now l).

Definition kp_is_valid (now : Z) (kp : Keypackage) : bool := lifetime_ok now (kp_lifetime kp).
Definition kpref_is_valid (now : Z) (r : KeypackageRef) : bool := lifetime_ok now (kpref_lifetime r).

(** ** Of a session *)

(** [from_stored]. *)
Definition from_stored (stored : StoredKeypackage) : res SessionError Keypackage :=
  ok_or (deser_keypackage (keypackage stored)) (SessionKeystore KeystoreError.KeyStoreValueTransformError).

Definition readable_keypackage (e : Entity.t) : option Keypackage :=
  match e with
  | Entity.StoredKeypackage s => match from_stored s with Ok kp => Some kp | _ => None end
  | _ => None
  end.

(** [Session::get_key_packages]: what does not deserialize is skipped. *)
Definition get_key_packages (db : Database) : res SessionError (list Keypackage) :=
  stored ← map_err SessionKeystore (kv_load_all EntityType.KeyPackage db);
  Ok (omap readable_keypackage (stored : list Entity.t)).

(** [Session::get_keypackage_refs]. *)
Definition get_keypackage_refs (db : Database) : res SessionError (list KeypackageRef) :=
  kps ← get_key_packages db;
  mapM (fun kp => map_err (fun _ => SessionOpenMls) (make_ref kp)) kps.

(** [Session::load_key_package]. *)
Definition load_key_package (r : KeypackageRef) (db : Database) : res SessionError (option Keypackage) :=
  o ← map_err SessionKeystore (kv_get EntityType.KeyPackage (vec_key_of (hash_ref r)) db);
  match o with
  | Some (Entity.StoredKeypackage s) => Some <$> from_stored s
  | _ => Ok None
  end.

(** ** Of a transaction *)

(** A call on the session, which reads the database of the core. *)
Definition with_session {A} (f : Database -> res SessionError A) : tx A :=
  _ ← session;
  st_lift (fun w => map_err (fun e => TxRecursive (RecMlsClient e)) (f (database (core w)))).

(** [credential_ref.load(&*database)] with the errors of a transaction. *)
Definition load_ref (r : CredentialRef) : tx Credential :=
  st_lift (fun w => map_err (fun e => TxRecursive (RecMlsCredentialRef e)) (ref_load r (database (core w)))).

(** [KEYPACKAGE_DEFAULT_LIFETIME], in seconds. *)
Definition KEYPACKAGE_DEFAULT_LIFETIME : Z := 60 * 60 * 24 * 28 * 3.

(** [TransactionContext::generate_key_package]; [build] is the builder of the
    library with the default capabilities, given the lifetime, the cipher suite,
    the keys and the credential, which stores what it generates. *)
Definition generate_key_package
    (build : Z -> Z -> SignatureKeys -> MlsCredential -> Database -> option Keypackage * Database)
    (r : CredentialRef) (lifetime : option Z) : tx Keypackage :=
  let lifetime := default KEYPACKAGE_DEFAULT_LIFETIME lifetime in
  _ ← valid;
  credential ← load_ref r;
  _ ← crypto_provider;
  o ← st_of (fun w =>
        let '(o, db) := build lifetime (credential_cipher_suite credential)
                          (signature_key_pair credential) (mls_credential credential) (database (core w)) in
        (Ok o, set_core (set_database db (core w)) w));
  match o with Some kp => mret kp | None => st_throw KeypackageNew end.

(** [TransactionContext::get_key_package_refs]. *)
Definition get_key_package_refs : tx (list KeypackageRef) := with_session get_keypackage_refs.

(** [TransactionContext::remove_key_package]. *)
Definition remove_key_package (r : KeypackageRef) : tx () :=
  o ← with_session (load_key_package r);
  match o with
  | None => mret ()
  | Some kp =>
      _ ← valid;
      _ ← st_map_err TxKeystore (on_database (kv_remove EntityType.KeyPackage (vec_key_of (hash_ref r))));
      _ ← st_map_err TxKeystore (on_database (kv_remove EntityType.HpkePrivateKey (vec_key_of (kp_hpke_init_key kp))));
      st_map_err TxKeystore (on_database (kv_remove EntityType.EncryptionKeyPair (vec_key_of (kp_encryption_key kp))))
  end.

(** The loop of [remove_key_packages_for], which keeps the first error. *)
Fixpoint remove_key_packages (kps : list Keypackage) (first_err : option TransactionError) : tx () :=
  match kps with
  | [] => match first_err with None => mret () | Some err => st_throw err end
  | kp :: kps =>
      let retain err := remove_key_packages kps (Some (default err first_err)) in
      match make_ref kp with
      | Panic => st_of (fun w => (Panic, w))
      | Err _ => retain TxOpenMls
      | Ok kp_ref =>
          st_try (remove_key_package kp_ref) (fun result =>
            match result with
            | Err err => retain err
            | _ => remove_key_packages kps first_err
            end)
      end
  end.

(** [TransactionContext::remove_key_packages_for]. *)
Definition remove_key_packages_for (r : CredentialRef) : tx () :=
  _ ← valid;
  credential ← load_ref r;
  let signature_public_key := key_public (signature_key_pair credential) in
  kps ← with_session get_key_packages;
  remove_key_packages (filter (fun kp => kp_signature_key kp = signature_public_key) kps) None.

(** ** Credentials of a transaction *)

(** [TransactionContext::add_credential_without_clientid_check]. *)
Definition add_credential_without_clientid_check (clock : option Z) (c : Credential) : tx Credential :=
  _ ← valid;
  st_of (fun w =>
    let '(r, db) := credential_save clock c (database (core w)) in
    (map_err (fun e => TxRecursive (RecMlsCredential e)) (snd <$> r), set_core (set_database db (core w)) w)).

(** [TransactionContext::add_credential_producing_arc]. *)
Definition add_credential_producing_arc (clock : option Z) (c : Credential) : tx Credential :=
  s ← session;
  if decide (credential_client_id c = session_client_id s)
  then add_credential_without_clientid_check clock c
  else st_throw WrongCredential.

(** [TransactionContext::add_credential]. *)
Definition add_credential (clock : option Z) (c : Credential) : tx CredentialRef :=
  c ← add_credential_producing_arc clock c; mret (ref_from_credential c).

(** [Conversation::own_mls_credential]. *)
Definition own_mls_credential (c : Conversation) : res ConversationError MlsCredential :=
  leaf ← ok_or (own_leaf_credential (conv_group c))
           (MlsGroupInvalidState "own_leaf_node not present in group");
  Ok (leaf_credential leaf).

(** The loop of [remove_credential] over the conversations. *)
Fixpoint ensure_not_in_use (c : Credential) (conversations : list (bytes * Conversation)) :
    res TransactionError () :=
  match conversations with
  | [] => Ok ()
  | (id, conversation) :: conversations =>
      used ← map_err (fun e => TxRecursive (RecMlsConversation e)) (own_mls_credential conversation);
      if decide (mls_credential c = used) then Err (CredentialStillInUse id)
      else ensure_not_in_use c conversations
  end.

(** The order in which a [HashMap] of conversations is visited. *)
Context (hash_order : gmap bytes Conversation -> list (bytes * Conversation)).

(** [TransactionContext::remove_credential]. *)
Definition remove_credential (r : CredentialRef) : tx () :=
  s ← session;
  if decide (ref_client_id r = session_client_id s) then
    _ ← valid;
    credential ← load_ref r;
    _ ← session;
    conversations ← st_lift (fun w => map_err (fun e => TxRecursive (RecMlsConversation e))
                                        (load_all_conversations (database (core w))));
    _ ← st_lift (fun _ => ensure_not_in_use credential (hash_order conversations));
    _ ← remove_key_packages_for r;
    st_of (fun w =>
      let '(r, db) := credential_delete credential (database (core w)) in
      (map_err (fun e => TxRecursive (RecMlsCredential e)) r, set_core (set_database db (core w)) w))
  else st_throw WrongCredential.
End key_packages.

(** ** Concrete key packages: a byte, then the key that signs it. *)
#[export] Instance toy_keypackages : KeyPackageLib := {|
  Keypackage := bytes;
  Lifetime := unit;
  deser_keypackage := Some;
  kp_hash_ref := Some;
  kp_ciphersuite _ := 1%Z;
  kp_credential_type _ := MlsBasic;
  kp_lifetime _ := None;
  kp_signature_key kp := tail kp;
  kp_encryption_key kp := kp;
  kp_hpke_init_key kp := kp;
  has_acceptable_range _ := true;
  lifetime_is_valid _ _ := true;
|}.
