(* ===== verification/CredentialProps.v ===== *)
(** * Credentials are stored, found and removed

    What adding a credential stores, and what removing one removes with it. *)

From S2P Require Import Prelude Keys EntityTypes Entities ToyExternals Sql KeystoreErrors EntityStore Store Transaction TransactionInvariant Database DatabaseProps EntityKV KeystoreMls CryptoErrors OpenMls ConversationCache TransactionContext TransactionContextProps CacheCoherence ClientIds MlsMessages GuardFrames Credentials KeyPackages.
From Stdlib Require Import Lia ZArith.

Section credential_props.
Context `{X : Externals, !ExternalsLaws X, O : OpenMls, Ms : !MlsMessages O}.
Context `{Mc : MlsCredentials, !MlsCredentialsLaws Mc, !LeafCredentials Ms Mc, Kl : KeyPackageLib}.
Context {M : Type} `{!LruMap M nat}.
Abbreviation World := (World M).

Abbreviation with_db db w := (set_core (set_database db (core w)) w).

(** ** Adding *)

(** What the Rust types and constructors guarantee of a credential: its type is
    that of its MLS credential, its suite is a known 16-bit number, and its keys
    are for the scheme of the suite. *)
Definition credential_ok (c : Credential) : Prop :=
  credential_type_try_from (mls_credential_kind (mls_credential c)) = Ok (credential_type c) /\
  (0 <= credential_cipher_suite c < 65536)%Z /\ ciphersuite_known (credential_cipher_suite c) = true /\
  key_scheme (signature_key_pair c) = signature_algorithm (credential_cipher_suite c).

Lemma credential_basic_ok gen cs id c :
  (0 <= cs < 65536)%Z -> ciphersuite_known cs = true -> credential_basic gen cs id = Ok c ->
  credential_ok c /\ credential_client_id c = id.
Proof.
  intros Hcs Hk. unfold credential_basic. destruct (gen _) as [[sk pk]|]; [|done]. intros [= <-].
  split; [|apply basic_identity]. split; [cbn; by rewrite basic_type|done].
Qed.

(** The credential with the time the keystore stamps on it. *)
Definition stamped (t : Z) (c : Credential) : Credential :=
  MkCredential (credential_cipher_suite c) (credential_type c) (mls_credential c) (signature_key_pair c) t.

Definition stored_of (t : Z) (data : bytes) (c : Credential) : StoredCredential :=
  {| cred_session_id := credential_client_id c; cred_credential := data; cred_created_at := t;
     cred_ciphersuite := credential_cipher_suite c; cred_private_key := key_private (signature_key_pair c);
     cred_public_key := key_public (signature_key_pair c) |}.

Lemma credential_try_from_stored t data c :
  credential_ok c -> serialize_credential (mls_credential c) = Some data ->
  credential_try_from (stored_of t data c) = Ok (stamped t c).
Proof.
  intros (Hty & _ & Hk & Hs) Hd. unfold credential_try_from. cbn.
  rewrite (deserialize_serialize _ _ Hd). cbn. rewrite Hk. cbn. rewrite Hty. cbn. rewrite <- Hs.
  unfold stamped. by destruct (signature_key_pair c).
Qed.

Lemma credential_save_run t data c db :
  in_transaction db -> clock_ok (Some t) -> credential_ok c ->
  serialize_credential (mls_credential c) = Some data ->
  exists db', credential_save (Some t) c db = (Ok (ref_from_credential (stamped t c), stamped t c), db') /\
    in_transaction db' /\
    forall ty pk, pk_ok ty pk ->
      kv_get ty pk db' =
      if decide (EntityId.MkId ty (pk_bytes pk) = EntityId.of_entity (Entity.StoredCredential (stored_of t data c)))
      then Ok (Some (Entity.StoredCredential (stored_of t data c))) else kv_get ty pk db.
Proof.
  intros Hin Ht (Hty & Hcs & _) Hd.
  destruct (kv_save_total (inv := in_transaction) (Some t) (Entity.StoredCredential (stored_of 0 data c)) db (Some t)
    (Entity.StoredCredential (stored_of t data c)) Hin Ht) as (db' & Hs & Hin' & Hget); [by split; [done|]|done|].
  exists db'. split; [|split; [done|exact Hget]].
  unfold credential_save. rewrite Hd. fold (stored_of 0 data c). rewrite Hs. done.
Qed.

(** C36: a credential added to the session of its client is found again: its
    reference and its public key load it, whatever was stored under that key before,
    with the time at which the keystore saved it as its creation time, whichever kind of
    credential it is and whatever time it had; every other record is as it was. *)
Theorem add_credential_loads s (w : World) t data c :
  working s w -> credential_client_id c = session_client_id s -> clock_ok (Some t) -> credential_ok c ->
  serialize_credential (mls_credential c) = Some data ->
  exists db', add_credential (Some t) c w = (Ok (ref_from_credential (stamped t c)), with_db db' w) /\
    in_transaction db' /\
    ref_load (ref_from_credential (stamped t c)) db' = Ok (stamped t c) /\
    find_by_public_key (key_public (signature_key_pair c)) db' = Ok (stamped t c) /\
    forall ty pk, pk_ok ty pk -> (ty, pk) <> (EntityType.StoredCredential, PkSha256 (hash_from (key_public (signature_key_pair c)))) ->
      kv_get ty pk db' = kv_get ty pk (database (core w)).
Proof.
  intros Hw Hid Ht Hc Hd. pose proof Hw as (_ & _ & Hin & _).
  destruct (credential_save_run t data c _ Hin Ht Hc Hd) as (db' & Hs & Hin' & Hget). exists db'.
  assert (stored_credential (hash_from (key_public (signature_key_pair c))) db' = Ok (Some (stored_of t data c))) as Hst.
  { unfold stored_credential. rewrite Hget by apply sha256_digest_length. rewrite decide_True by done. done. }
  split; [|split; [done|split; [|split]]].
  - unfold add_credential, add_credential_producing_arc, mbind, st_bind. rewrite (working_session s) by done.
    rewrite decide_True by done. unfold add_credential_without_clientid_check, mbind, st_bind.
    rewrite (working_valid s) by done. unfold st_of. by rewrite Hs.
  - unfold ref_load. cbn [ref_public_key_hash ref_from_credential stamped signature_key_pair]. rewrite Hst. cbn.
    by rewrite credential_try_from_stored.
  - unfold find_by_public_key. rewrite Hst. cbn. by apply credential_try_from_stored.
  - intros ty pk Hpk Hne. rewrite Hget by done. rewrite decide_False; [done|]. intros [= Hty Hb]. subst ty.
    apply Hne. f_equal. apply (pk_bytes_inj EntityType.StoredCredential); [done|apply sha256_digest_length|done].
Qed.
(** ** Removing key packages *)

(** The records that go with a key package. *)
Definition keypackage_type (ty : EntityType.t) : Prop :=
  ty = EntityType.KeyPackage \/ ty = EntityType.HpkePrivateKey \/ ty = EntityType.EncryptionKeyPair.

(** A run that only removes records of the types [T]. *)
Definition only_removes (T : EntityType.t -> Prop) (db db' : Database) : Prop :=
  in_transaction db' /\ conn db' = conn db /\
  forall ty pk, pk_ok ty pk ->
    kv_get ty pk db' = kv_get ty pk db \/ (T ty /\ kv_get ty pk db' = Ok None).

Lemma only_removes_refl T db : in_transaction db -> only_removes T db db.
Proof. split; [done|]. split; [done|]. by left. Qed.

Lemma only_removes_trans T db1 db2 db3 :
  only_removes T db1 db2 -> only_removes T db2 db3 -> only_removes T db1 db3.
Proof.
  intros (_ & Hc & H1) (H2 & Hc' & H3). split; [done|]. split; [congruence|]. intros ty pk Hpk.
  destruct (H3 ty pk Hpk) as [-> |]; [by apply H1|by right].
Qed.

Lemma kv_remove_run (T : EntityType.t -> Prop) ty pk db :
  in_transaction db -> T ty ->
  exists db', kv_remove ty pk db = (Ok (), db') /\ only_removes T db db' /\
    (pk_ok ty pk -> kv_get ty pk db' = Ok None).
Proof.
  intros Hin HT. destruct (kv_remove_total (inv := in_transaction) ty pk db Hin) as (db' & Hr & Hin' & Hget).
  exists db'. split; [done|]. split; [|by intros Hpk; rewrite Hget by done; rewrite decide_True by done].
  split; [done|]. split.
  - cbn in Hr. unfold remove, with_transaction in Hr. destruct (transaction db); [|done].
    destruct (tx_remove ty pk _); cbn in Hr; by simplify_eq.
  - intros ty' pk' Hpk'. rewrite Hget by done. case_decide as Heq; [|by left]. right. injection Heq as -> _. done.
Qed.

Lemma working_with_db s (w : World) T db' :
  working s w -> only_removes T (database (core w)) db' -> working s (with_db db' w).
Proof. intros (Hc & Hs & Hin & Hconn) (Hin' & Hc' & _). by rewrite <- Hc' in Hconn. Qed.

Lemma with_db_with_db db db' (w : World) : with_db db' (with_db db w) = with_db db' w.
Proof. done. Qed.

Lemma with_db_same (w : World) : with_db (database (core w)) w = w.
Proof. by destruct w as [[]]. Qed.

(** Removing one record in a run. *)
Lemma on_database_remove (T : EntityType.t -> Prop) ty pk s (w : World) :
  working s w -> T ty ->
  exists db', st_map_err TxKeystore (on_database (kv_remove ty pk)) w = (Ok (), with_db db' w) /\
    only_removes T (database (core w)) db' /\ (pk_ok ty pk -> kv_get ty pk db' = Ok None).
Proof.
  intros (_ & _ & Hin & _) HT. destruct (kv_remove_run T ty pk _ Hin HT) as (db' & Hr & Hd).
  exists db'. split; [|done]. unfold st_map_err, on_database. by rewrite Hr.
Qed.

Lemma load_key_package_removed r db db' :
  only_removes keypackage_type db db' -> load_key_package r db = Ok None -> load_key_package r db' = Ok None.
Proof.
  intros (_ & _ & Hget) Hl. unfold load_key_package in *.
  destruct (Hget EntityType.KeyPackage (vec_key_of (hash_ref r)) I) as [-> | [_ ->]]; done.
Qed.

Lemma remove_key_package_run s (w : World) r w' :
  working s w -> remove_key_package r w = (Ok (), w') ->
  exists db', w' = with_db db' w /\ only_removes keypackage_type (database (core w)) db' /\
    load_key_package r db' = Ok None.
Proof.
  intros Hw. unfold remove_key_package, with_session, mbind at 1, st_bind at 1, mbind at 1, st_bind at 1.
  rewrite (working_session s) by done. unfold st_lift at 1.
  destruct (load_key_package r _) as [[kp|]|e|] eqn:Hl; cbn [map_err]; [| |done..].
  - unfold mbind at 1, st_bind at 1. rewrite (working_valid s) by done.
    destruct (on_database_remove keypackage_type EntityType.KeyPackage (vec_key_of (hash_ref r)) s w Hw)
      as (db1 & H1 & O1 & Hnone); [by left|].
    unfold mbind at 1, st_bind at 1. rewrite H1. pose proof (working_with_db s w _ db1 Hw O1) as Hw1.
    destruct (on_database_remove keypackage_type EntityType.HpkePrivateKey (vec_key_of (kp_hpke_init_key kp)) s _ Hw1)
      as (db2 & H2 & O2 & _); [by right; left|].
    unfold mbind at 1, st_bind at 1. rewrite H2. rewrite with_db_with_db.
    pose proof (working_with_db s _ _ db2 Hw1 O2) as Hw2. rewrite with_db_with_db in Hw2.
    destruct (on_database_remove keypackage_type EntityType.EncryptionKeyPair (vec_key_of (kp_encryption_key kp)) s _ Hw2)
      as (db3 & H3 & O3 & _); [by right; right|].
    rewrite H3, with_db_with_db. intros [= <-]. exists db3. split; [done|].
    pose proof (only_removes_trans _ _ _ _ O2 O3) as O23. split; [by eapply only_removes_trans|].
    eapply load_key_package_removed; [exact O23|]. unfold load_key_package. cbn [core set_core database set_database]. by rewrite Hnone.
  - intros [= <-]. exists (database (core w)). rewrite with_db_same. split; [done|].
    split; [|done]. apply only_removes_refl, Hw.
Qed.

Lemma remove_key_packages_failed kps e (w : World) :
  fst (remove_key_packages kps (Some e) w) <> Ok ().
Proof.
  revert w. induction kps as [|kp kps IH]; intros w; cbn [remove_key_packages]; [done|].
  destruct (make_ref kp) as [r| |]; [|apply IH|done]. unfold st_try.
  destruct (remove_key_package r w) as [[[]| |] w1]; [apply IH|apply IH|done].
Qed.

Lemma remove_key_packages_run kps s (w : World) w' :
  working s w -> remove_key_packages kps None w = (Ok (), w') ->
  exists db', w' = with_db db' w /\ only_removes keypackage_type (database (core w)) db' /\
    forall kp, kp ∈ kps -> exists r, make_ref kp = Ok r /\ load_key_package r db' = Ok None.
Proof.
  revert w. induction kps as [|kp kps IH]; intros w Hw; cbn [remove_key_packages].
  - intros [= <-]. exists (database (core w)). rewrite with_db_same. split; [done|].
    split; [apply only_removes_refl, Hw|]. by intros kp ?%not_elem_of_nil.
  - destruct (make_ref kp) as [r| |] eqn:Hr; [|intros H; destruct (remove_key_packages_failed kps TxOpenMls w); cbn in H; by rewrite H|done].
    unfold st_try. destruct (remove_key_package r w) as [[[]|e|] w1] eqn:H1; [| |done].
    + destruct (remove_key_package_run s w r w1 Hw H1) as (db1 & -> & O1 & Hl). intros H2.
      destruct (IH _ (working_with_db _ _ _ _ Hw O1) H2) as (db2 & -> & O2 & Hall).
      exists db2. split; [done|]. split; [by eapply only_removes_trans|].
      intros kp' [-> |Hin]%elem_of_cons; [|by apply Hall]. exists r. split; [done|].
      by eapply load_key_package_removed.
    + intros H. destruct (remove_key_packages_failed kps e w1). cbn in H. by rewrite H.
Qed.
(** OpenMLS files a key package under its hash reference. *)
Definition keypackages_filed (db : Database) : Prop :=
  forall s kp, kv_get EntityType.KeyPackage (vec_key_of (keypackage_ref s)) db = Ok (Some (Entity.StoredKeypackage s)) ->
    deser_keypackage (keypackage s) = Some kp -> kp_hash_ref kp = Some (keypackage_ref s).

(** The readable key packages are those stored. *)
Lemma get_key_packages_elem db :
  in_transaction db -> conn db <> None ->
  exists kps, get_key_packages db = Ok kps /\
    forall kp, kp ∈ kps <-> exists s, deser_keypackage (keypackage s) = Some kp /\
      kv_get EntityType.KeyPackage (vec_key_of (keypackage_ref s)) db = Ok (Some (Entity.StoredKeypackage s)).
Proof.
  intros [Hdb Htx] Hconn. destruct (load_all_elem db EntityType.KeyPackage) as (l & Hl & Hel); [done..|].
  unfold get_key_packages. cbn [kv_load_all database_kv]. rewrite Hl. cbn. eexists. split; [reflexivity|].
  intros kp. rewrite list_elem_of_omap. split.
  - intros (e & He & Hr). apply Hel in He as (Hty & _ & Hg). destruct e as [| |s| | | | | | | | | | | | | | |]; try discriminate.
    exists s. split; [|exact Hg]. cbn in Hr. unfold from_stored in Hr.
    destruct (deser_keypackage _); cbn in Hr; congruence.
  - intros (s & Hd & Hg). exists (Entity.StoredKeypackage s). split; [by apply Hel|].
    cbn. unfold from_stored. by rewrite Hd.
Qed.

(** No stored key package is signed with a key. *)
Definition no_keypackage_of (public_key : bytes) (db : Database) : Prop :=
  forall s kp, kv_get EntityType.KeyPackage (vec_key_of (keypackage_ref s)) db = Ok (Some (Entity.StoredKeypackage s)) ->
    deser_keypackage (keypackage s) = Some kp -> kp_signature_key kp <> public_key.

(** What is found after removals was there before. *)
Lemma only_removes_found T db db' ty pk e :
  only_removes T db db' -> pk_ok ty pk -> kv_get ty pk db' = Ok (Some e) -> kv_get ty pk db = Ok (Some e).
Proof. intros (_ & _ & Hget) Hpk Hg. destruct (Hget ty pk Hpk) as [<- | [_ Hn]]; congruence. Qed.

Lemma remove_key_packages_for_run s (w : World) r c w' :
  working s w -> ref_load r (database (core w)) = Ok c -> keypackages_filed (database (core w)) ->
  remove_key_packages_for r w = (Ok (), w') ->
  exists db', w' = with_db db' w /\ only_removes keypackage_type (database (core w)) db' /\
    no_keypackage_of (key_public (signature_key_pair c)) db'.
Proof.
  intros Hw Hl Hf. pose proof Hw as (_ & _ & Hin & Hconn).
  destruct (get_key_packages_elem _ Hin Hconn) as (kps & Hk & Hel).
  unfold remove_key_packages_for, with_session, mbind, st_bind. rewrite (working_valid s) by done.
  unfold load_ref, st_lift. rewrite Hl. cbn [map_err]. rewrite (working_session s) by done. rewrite Hk. cbn [map_err].
  intros Hrun. destruct (remove_key_packages_run _ s w w' Hw Hrun) as (db' & -> & Ho & Hall).
  exists db'. do 2 (split; [done|]). intros sk kp Hg Hd Hsig.
  pose proof (only_removes_found _ _ _ EntityType.KeyPackage (vec_key_of (keypackage_ref sk)) _ Ho I Hg) as Hg0.
  destruct (Hall kp) as (kr & Hr & Hnone); [apply list_elem_of_filter; split; [done|]; apply Hel; by exists sk|].
  assert (hash_ref kr = keypackage_ref sk) as Hkr.
  { unfold make_ref in Hr. rewrite (Hf sk kp Hg0 Hd) in Hr. cbn in Hr. destruct (credential_type_try_from _); cbn in Hr; by simplify_eq/=. }
  unfold load_key_package in Hnone. rewrite Hkr, Hg in Hnone. cbn in Hnone. unfold from_stored in Hnone. by rewrite Hd in Hnone.
Qed.

(** ** Removing credentials *)

Context (hash_order : gmap bytes Conversation -> list (bytes * Conversation)).
Context (hash_order_all : forall m, hash_order m ≡ₚ map_to_list m).

Lemma ensure_not_in_use_Ok c l :
  ensure_not_in_use c l = Ok () ->
  forall id conv, (id, conv) ∈ l -> exists used, own_mls_credential conv = Ok used /\ used <> mls_credential c.
Proof.
  induction l as [|[id conv] l IH]; cbn [ensure_not_in_use]; [by intros _ ? ? ?%not_elem_of_nil|].
  destruct (own_mls_credential conv) as [used| |] eqn:Hu; cbn; [|done..].
  destruct (decide (mls_credential c = used)); [done|]. intros Hl id' conv' [[= -> ->]|Hin]%elem_of_cons; [|by eapply IH].
  exists used. split; [done|congruence].
Qed.

(** The hash a reference loads from is that of the key of the credential. *)
Lemma ref_load_hash r db c :
  db_inv db -> hash_ok (ref_public_key_hash r) -> ref_load r db = Ok c ->
  ref_public_key_hash r = hash_from (key_public (signature_key_pair c)).
Proof.
  intros Hdb Hh. unfold ref_load, stored_credential.
  destruct (kv_get EntityType.StoredCredential (PkSha256 (ref_public_key_hash r)) db) as [[e|]| |] eqn:Hg; cbn; [|done..].
  destruct (get_filed db EntityType.StoredCredential (PkSha256 (ref_public_key_hash r)) e Hdb eq_refl Hh Hg) as (Hty & _ & Hpk).
  destruct e as [| | | | | |sc| | | | | | | | | | |]; try discriminate. cbn.
  unfold credential_try_from. destruct (deserialize_credential _) as [mc|]; [|done]. cbn.
  destruct (ciphersuite_known _); [|done]. cbn. destruct (credential_type_try_from _); [|done..]. cbn.
  intros [= <-]. cbn in *. congruence.
Qed.

Lemma remove_credential_run s (w : World) r w' :
  working s w -> hash_ok (ref_public_key_hash r) -> keypackages_filed (database (core w)) ->
  remove_credential hash_order r w = (Ok (), w') ->
  exists db1 db' c conversations,
    w' = with_db db' w /\ ref_load r (database (core w)) = Ok c /\
    load_all_conversations (database (core w)) = Ok conversations /\
    ensure_not_in_use c (hash_order conversations) = Ok () /\
    only_removes keypackage_type (database (core w)) db1 /\
    no_keypackage_of (key_public (signature_key_pair c)) db1 /\
    kv_remove EntityType.StoredCredential (PkSha256 (ref_public_key_hash r)) db1 = (Ok (), db').
Proof.
  intros Hw Hh Hf. pose proof Hw as (_ & _ & [Hdb Htx] & Hconn). unfold remove_credential, mbind, st_bind.
  rewrite (working_session s) by done. destruct (decide _) as [Hid|]; [|done]. rewrite (working_valid s) by done.
  unfold load_ref, st_lift at 1. destruct (ref_load r (database (core w))) as [c| |] eqn:Hl; cbn [map_err]; [|done..].
  rewrite (working_session s) by done. unfold st_lift at 1.
  destruct (load_all_conversations (database (core w))) as [convs| |] eqn:Hconvs; cbn [map_err]; [|done..].
  unfold st_lift. destruct (ensure_not_in_use c (hash_order convs)) as [[]| |] eqn:Hnot; [|done..].
  destruct (remove_key_packages_for r w) as [[[]| |] w1] eqn:Hrem; [|done..].
  destruct (remove_key_packages_for_run s w r c w1 Hw Hl Hf Hrem) as (db1 & -> & Ho & Hk).
  unfold credential_delete, st_of. cbn [core set_core database set_database].
  rewrite <- (ref_load_hash r _ c Hdb Hh Hl).
  destruct (kv_remove _ _ db1) as [[[]| |] db2] eqn:Hr; cbn [map_err]; intros [= <-].
  exists db1, db2, c, convs. do 6 (split; [done|]). done.
Qed.

(** C37: a credential that is removed is gone, and so are the key packages signed
    with its key; no stored conversation uses it, and no other credential and no
    group is touched. *)
Theorem remove_credential_removes s (w : World) r w' :
  working s w -> hash_ok (ref_public_key_hash r) -> keypackages_filed (database (core w)) ->
  remove_credential hash_order r w = (Ok (), w') ->
  exists db' c kps conversations,
    w' = with_db db' w /\ in_transaction db' /\ ref_load r (database (core w)) = Ok c /\
    ref_load r db' = Err RefCredentialNotFound /\
    get_key_packages db' = Ok kps /\
    (forall kp, kp ∈ kps -> kp_signature_key kp <> key_public (signature_key_pair c)) /\
    load_all_conversations (database (core w)) = Ok conversations /\
    (forall id conv, conversations !! id = Some conv ->
       exists used, own_mls_credential conv = Ok used /\ used <> mls_credential c) /\
    (forall hash, hash_ok hash -> hash <> ref_public_key_hash r ->
       stored_credential hash db' = stored_credential hash (database (core w))) /\
    (forall id, kv_get EntityType.PersistedMlsGroup (vec_key_of id) db' =
                kv_get EntityType.PersistedMlsGroup (vec_key_of id) (database (core w))).
Proof.
  intros Hw Hh Hf Hrun. pose proof Hw as (_ & _ & _ & Hconn).
  destruct (remove_credential_run s w r w' Hw Hh Hf Hrun)
    as (db1 & db' & c & convs & -> & Hl & Hconvs & Hnot & Ho & Hk & Hr).
  pose proof Ho as (Hin1 & Hc1 & Hget1).
  destruct (kv_remove_total (inv := in_transaction) EntityType.StoredCredential (PkSha256 (ref_public_key_hash r)) db1 Hin1)
    as (db2 & Hr2 & Hin2 & Hget2). rewrite Hr in Hr2. injection Hr2 as <-.
  destruct (kv_remove_run (fun ty => ty = EntityType.StoredCredential) EntityType.StoredCredential
    (PkSha256 (ref_public_key_hash r)) db1 Hin1 eq_refl) as (db2 & Hr2 & Ho2 & Hnone). rewrite Hr in Hr2. injection Hr2 as <-.
  destruct (get_key_packages_elem db' Hin2) as (kps & Hkps & Hel); [by destruct Ho2 as (_ & -> & _); rewrite Hc1|].
  exists db', c, kps, convs. do 3 (split; [done|]). split.
  { unfold ref_load, stored_credential. by rewrite Hnone. }
  split; [done|]. split.
  { intros kp (sk & Hd & Hg)%Hel. apply (Hk sk); [|done].
    by apply (only_removes_found _ _ _ EntityType.KeyPackage (vec_key_of (keypackage_ref sk)) _ Ho2 I). }
  split; [done|]. split.
  { intros id conv Hconv. apply (ensure_not_in_use_Ok _ _ Hnot id). rewrite hash_order_all. by apply elem_of_map_to_list. }
  split.
  - intros hash Hok Hne. unfold stored_credential. rewrite Hget2, decide_False by (done || by intros [= H]; destruct hash, (ref_public_key_hash r); cbn in *; congruence).
    destruct (Hget1 EntityType.StoredCredential (PkSha256 hash) Hok) as [-> | [[|[|]] _]]; done.
  - intros id. rewrite Hget2, decide_False by done.
    destruct (Hget1 EntityType.PersistedMlsGroup (vec_key_of id) I) as [-> | [[|[|]] _]]; done.
Qed.
Lemma ensure_not_in_use_used c l id conv :
  (id, conv) ∈ l -> own_mls_credential conv = Ok (mls_credential c) ->
  (forall id' conv', (id', conv') ∈ l -> exists used, own_mls_credential conv' = Ok used) ->
  exists id', ensure_not_in_use c l = Err (CredentialStillInUse id').
Proof.
  intros Hin Hu. induction l as [|[id' conv'] l IH]; [by apply not_elem_of_nil in Hin|]. intros Hall.
  destruct (Hall id' conv') as [used Hused]; [by left|]. cbn [ensure_not_in_use]. rewrite Hused. cbn.
  case_decide; [by eexists|]. apply elem_of_cons in Hin as [[= -> ->]|Hin]; [congruence|].
  apply IH; [done|]. intros id'' conv'' Hin''. eapply Hall. by right.
Qed.

(** A basic credential cannot be removed while some conversation has a basic
    credential of the same client, although the conversation is signed with another
    key: the check compares the credentials, which for basic ones are the client
    ids. *)
Theorem same_client_blocks_removal s (w : World) r c client conversations id conv leaf :
  working s w -> ref_client_id r = session_client_id s ->
  ref_load r (database (core w)) = Ok c -> mls_credential c = new_basic client ->
  load_all_conversations (database (core w)) = Ok conversations ->
  (forall id' conv', conversations !! id' = Some conv' -> exists leaf', own_leaf_credential (conv_group conv') = Some leaf') ->
  conversations !! id = Some conv -> own_leaf_credential (conv_group conv) = Some leaf ->
  leaf_credential leaf = new_basic client -> leaf_signature_key leaf <> key_public (signature_key_pair c) ->
  exists id', remove_credential hash_order r w = (Err (CredentialStillInUse id'), w).
Proof.
  intros Hw Hid Hl Hc Hconvs Hall Hconv Hleaf Hbasic _.
  destruct (ensure_not_in_use_used c (hash_order conversations) id conv) as [id' Hused].
  - rewrite hash_order_all. by apply elem_of_map_to_list.
  - unfold own_mls_credential. rewrite Hleaf. cbn. congruence.
  - intros id' conv' Hin. rewrite hash_order_all in Hin. apply elem_of_map_to_list in Hin.
    destruct (Hall id' conv' Hin) as [leaf' Hleaf']. unfold own_mls_credential. rewrite Hleaf'. by eexists.
  - exists id'. unfold remove_credential, mbind, st_bind. rewrite (working_session s) by done.
    rewrite decide_True by done. rewrite (working_valid s) by done. unfold load_ref, st_lift at 1. rewrite Hl. cbn [map_err].
    rewrite (working_session s) by done. unfold st_lift at 1. rewrite Hconvs. cbn [map_err]. unfold st_lift. by rewrite Hused.
Qed.
End credential_props.

(** ** Runs of the model *)
Definition demo_session : Session (ToyLru nat) := session_new (bstr "me").
Definition demo_key (pk : string) : Credential :=
  MkCredential 1 Basic (new_basic (bstr "me")) (MkKeys 1 (bstr "sk") (bstr pk)) 0.
Definition demo_at (db : Database) : World (ToyLru nat) := MkWorld (MkCore db None (Some demo_session) [] []) (Valid []).

Lemma demo_working db : in_transaction db -> conn db <> None -> working demo_session (demo_at db).
Proof. by split. Qed.

Lemma add_credential_loads_witness :
  exists db, add_credential (Some 1700000000%Z) (demo_key "pk") (demo_at demo_started) =
    (Ok (ref_from_credential (stamped 1700000000 (demo_key "pk"))), demo_at db) /\
    ref_load (ref_from_credential (stamped 1700000000 (demo_key "pk"))) db = Ok (stamped 1700000000 (demo_key "pk")).
Proof.
  destruct (add_credential_loads demo_session (demo_at demo_started) 1700000000 (bstr "me") (demo_key "pk"))
    as (db & Hrun & _ & Hload & _).
  - by apply demo_working; [apply demo_started_in_transaction|].
  - done.
  - by split.
  - by repeat split.
  - done.
  - by exists db.
Defined.

(** A stored credential with a key package. *)
Definition demo_package : StoredKeypackage :=
  {| keypackage_ref := x01 :: bstr "pk"; keypackage := x01 :: bstr "pk" |}.
Definition demo_added : Database := snd (credential_save (Some 1700000000%Z) (demo_key "pk") demo_started).
Definition demo_stocked : Database := snd (kv_save None (Entity.StoredKeypackage demo_package) demo_added).

Lemma demo_added_facts :
  in_transaction demo_added /\ forall k, kv_get EntityType.KeyPackage (vec_key_of k) demo_added = Ok None.
Proof.
  destruct (credential_save_run 1700000000 (bstr "me") (demo_key "pk") demo_started demo_started_in_transaction)
    as (db & Hs & Hin & Hget); [by split|by repeat split|done|].
  unfold demo_added. rewrite Hs. split; [done|]. intros k. cbn [snd]. by rewrite Hget.
Qed.

Lemma demo_stocked_facts : in_transaction demo_stocked /\ keypackages_filed demo_stocked.
Proof.
  destruct demo_added_facts as [Hin Hnone].
  destruct (kv_save_total (inv := in_transaction) None (Entity.StoredKeypackage demo_package) demo_added None
    (Entity.StoredKeypackage demo_package) Hin I I eq_refl) as (db & Hs & Hin' & Hget).
  unfold demo_stocked. rewrite Hs. split; [done|]. intros s kp. cbn [snd]. rewrite Hget by done.
  case_decide; [|by rewrite Hnone]. intros [= <-] [= <-]. done.
Qed.

Definition demo_ref : CredentialRef := ref_from_credential (stamped 1700000000 (demo_key "pk")).

Lemma remove_credential_removes_witness :
  exists db, remove_credential map_to_list demo_ref (demo_at demo_stocked) = (Ok (), demo_at db) /\
    get_key_packages demo_stocked = Ok [x01 :: bstr "pk"] /\ get_key_packages db = Ok [] /\
    ref_load demo_ref db = Err RefCredentialNotFound.
Proof.
  destruct (remove_credential map_to_list demo_ref (demo_at demo_stocked)) as [r w'] eqn:Hrun.
  assert (r = Ok ()) as -> by (apply (f_equal fst) in Hrun; vm_compute in Hrun; by symmetry).
  assert (get_key_packages (database (core w')) = Ok []) as Hempty.
  { apply (f_equal snd) in Hrun. cbn [snd] in Hrun. rewrite <- Hrun. vm_compute. reflexivity. }
  destruct (remove_credential_removes map_to_list (fun m => reflexivity _) demo_session (demo_at demo_stocked) demo_ref w')
    as (db & c & kps & convs & -> & _ & Hc & Hgone & Hkps & Hnot & _).
  - apply demo_working; [apply demo_stocked_facts|done].
  - done.
  - apply demo_stocked_facts.
  - done.
  - exists db. split; [done|]. split; [vm_compute; reflexivity|]. by split.
Defined.

(** A conversation signed with another key of the client. *)
Definition demo_used : Database :=
  snd (mls_group_persist (bstr "g") (default [] (ser_group (MkToyGroup (bstr "g") x03 true false false Persisted)))
    None demo_added).

Lemma demo_used_in_transaction : in_transaction demo_used.
Proof.
  destruct demo_added_facts as [Hin _]. unfold demo_used, mls_group_persist.
  set (e := Entity.PersistedMlsGroup _).
  destruct (kv_save_total (inv := in_transaction) None e demo_added None e Hin I I eq_refl) as (db & -> & Hin' & _). done.
Qed.

Lemma same_client_blocks_removal_witness :
  exists id, remove_credential map_to_list demo_ref (demo_at demo_used) =
    (Err (CredentialStillInUse id), demo_at demo_used).
Proof.
  refine (same_client_blocks_removal map_to_list (fun m => reflexivity _) demo_session (demo_at demo_used) demo_ref
    (stamped 1700000000 (demo_key "pk")) (bstr "me")
    {[bstr "g" := MkConversation (bstr "g") (MkToyGroup (bstr "g") x03 true false false Persisted) (config_of_ciphersuite 1)]}
    (bstr "g") (MkConversation (bstr "g") (MkToyGroup (bstr "g") x03 true false false Persisted) (config_of_ciphersuite 1))
    (bstr "me" : CredentialWithKey) _ _ _ _ _ _ _ _ _ _).
  - by apply demo_working; [apply demo_used_in_transaction|].
  - done.
  - vm_compute. reflexivity.
  - done.
  - vm_compute. reflexivity.
  - intros id' conv' _. by eexists.
  - done.
  - done.
  - done.
  - done.
Defined.
