(* ===== verification/CommitProps.v ===== *)
(** * What becomes of a commit

    The outcome of sending a commit, when the history client of a conversation is
    replaced, and what the application is told. *)

From S2P Require Import Prelude Keys EntityTypes Entities ToyExternals Sql KeystoreErrors EntityStore Store Transaction TransactionInvariant Database DatabaseProps EntityKV KeystoreMls CryptoErrors OpenMls ConversationCache TransactionContext TransactionContextProps ConversationMut CacheCoherence CommitDelay ClientIds MlsMessages GuardFrames Credentials Commits HistorySharing CommitFrames Decrypt DecryptFrames ConversationRuns.
From Stdlib Require Import Lia ZArith.

Section commit_props.
Context `{X : Externals, !ExternalsLaws X, O : OpenMls, !OpenMlsLaws O, Ms : !MlsMessages O}.
Context `{Mc : MlsCredentials, !LeafCredentials Ms Mc, Mm : !MlsCommits Ms Mc, !MlsCommitsLaws Mm, U : UuidLib}.
Context {M : Type} `{!LruMap M nat, !LruMapLaws M nat}.
Abbreviation World := (World M).
Abbreviation Outside := (Outside (M := M)).
Context (app : Callbacks (M := M)).

(** ** Sending and merging *)

Lemma inside_eta (o : Outside) : MkOutside (world o) (sent o) (announced o) = o.
Proof. by destruct o. Qed.

Lemma inside_run {A} (m : st World ConversationError A) (o : Outside) r w :
  m (world o) = (r, w) -> inside m o = (r, MkOutside w (sent o) (announced o)).
Proof. intros Hm. unfold inside. by rewrite Hm. Qed.

Lemma ready_session h c (w : World) : ready h c w -> exists s, mls (core w) = Some s /\ in_context session w = (Ok s, w).
Proof.
  intros (Hc & [s Hs] & _). exists s. split; [done|]. unfold in_context, session, st_map_err, mbind, st_bind.
  rewrite valid_run by done. unfold st_lift. by rewrite Hs.
Qed.

Lemma send_commit_run h c (o : Outside) commit :
  ready h c (world o) ->
  send_commit app commit o =
  (map_err (fun e => ConvRecursive (Root e)) (send_commit_bundle app o commit),
   MkOutside (world o) (sent o ++ [commit]) (announced o)).
Proof.
  intros Hr. destruct (ready_session h c _ Hr) as (s & _ & Hs). unfold send_commit, mbind, st_bind, st_of.
  rewrite (inside_run _ _ _ _ Hs). by rewrite inside_eta.
Qed.

(** No history client has to be replaced. *)
Definition keeps_history_client (c : Conversation) : Prop :=
  is_history_sharing_enabled c = false \/ history_clients_to_replace (conv_group c) = None.

Lemma update_history_client_none h c (o : Outside) :
  ready h c (world o) -> pending_commit (conv_group c) = true -> keeps_history_client c ->
  update_history_client app h o = (Ok NoUpdateNeeded, o).
Proof.
  intros Hr Hp Hk. unfold update_history_client, mbind, st_bind.
  rewrite (inside_run _ _ _ _ (ready_guarded h c _ Hr)), inside_eta, Hp. cbn [negb].
  destruct Hk as [-> | ->]; [done|]. by destruct (is_history_sharing_enabled c).
Qed.

(** C15: the outcome of sending a commit that keeps the history client.  The bundle
    is handed to the transport once.  If the delivery service accepts it, the group
    is the one OpenMLS merges, in memory and read back from the key store alike,
    without a pending commit, and its epoch is queued for the observers; if it does
    not, the group is the one without the pending commit, in memory and in the key
    store, no epoch is queued, and the error is reported. *)
Theorem send_and_merge_outcome h c (o : Outside) commit changes :
  ready h c (world o) -> context (world o) = Valid changes ->
  pending_commit (conv_group c) = true -> keeps_history_client c ->
  (forall g db, send_commit_bundle app o commit = Ok () ->
     merge_pending_commit_of (conv_group c) (database (core (world o))) = (true, (g, db)) -> is_Some (ser_group g) ->
     exists c' w', send_and_merge_commit app h commit o = (Ok (), MkOutside w' (sent o ++ [commit]) (announced o)) /\
       ready h c' w' /\ regrouped c g c' /\ stored_as (conv_id c) g w' /\ pending_commit g = false /\
       context w' = Valid (changes ++ [(conv_id c, group_epoch g)])) /\
  (forall e, send_commit_bundle app o commit = Err e -> is_Some (ser_group (clear_pending_commit_of (conv_group c))) ->
     exists c' w', send_and_merge_commit app h commit o =
         (Err (ConvRecursive (Root e)), MkOutside w' (sent o ++ [commit]) (announced o)) /\
       ready h c' w' /\ regrouped c (clear_pending_commit_of (conv_group c)) c' /\
       stored_as (conv_id c) (clear_pending_commit_of (conv_group c)) w' /\
       pending_commit (clear_pending_commit_of (conv_group c)) = false /\ context w' = Valid changes).
Proof.
  intros Hr Hctx Hp Hk.
  assert (send_and_merge_commit app h commit o =
    st_try (send_commit app commit) (fun r =>
      match r with
      | Err e => _ ← inside (clear_pending_commit h); st_throw e
      | _ => inside (merge_commit h)
      end) o) as Hrun.
  { unfold send_and_merge_commit, mbind at 1, st_bind at 1. by rewrite (update_history_client_none h c). }
  rewrite Hrun. unfold st_try. rewrite (send_commit_run h c) by done. split.
  - intros g db -> Hm Hs. cbn [map_err].
    destruct (merge_commit_run h c (world o) g db changes Hr Hctx Hm Hs)
      as (c' & w' & Hmerge & Hr' & Hc' & Hctx' & Hst).
    exists c', w'. unfold inside. cbn [world sent announced]. rewrite Hmerge. do 3 (split; [done|]).
    split; [by apply Hst|]. split; [by eapply merge_pending_commit_none|done].
  - intros e -> Hs. cbn [map_err].
    destruct (clear_pending_commit_run h c (world o) Hr Hp Hs) as (c' & w' & Hclear & Hr' & Hc' & Hctx' & Hst).
    exists c', w'. unfold mbind, st_bind, inside. cbn [world sent announced]. rewrite Hclear.
    do 4 (split; [done|]). split; [apply clear_pending_commit_none|by rewrite Hctx'].
Qed.

(** ** History clients *)

Abbreviation is_history m := (starts_with HISTORY_CLIENT_ID_PREFIX (member_identity m)).

Lemma existsb_elem {A} (f : A -> bool) l : existsb f l = true <-> exists x, x ∈ l /\ f x = true.
Proof. rewrite existsb_exists. split; intros (x & Hx & Hf); exists x; (split; [by apply list_elem_of_In|done]). Qed.

Lemma forallb_elem {A} (f : A -> bool) l : forallb f l = false <-> exists x, x ∈ l /\ f x = false.
Proof.
  induction l as [|x l IH]; cbn; [split; [done|by intros (? & ?%not_elem_of_nil & _)]|].
  rewrite andb_false_iff, IH. setoid_rewrite elem_of_cons. naive_solver.
Qed.

(** The indices of some members. *)
Lemma member_indices (P : ClientIds.Member CredentialWithKey -> bool) b (Q : Z -> Prop) ms :
  (exists i, i ∈ map member_index (filter (fun m => P m = b) ms) /\ Q i) <->
  exists m, m ∈ ms /\ P m = b /\ Q (member_index m).
Proof.
  split.
  - intros (i & (m & -> & [Hp Hm]%list_elem_of_filter)%list_elem_of_fmap & Hq). by exists m.
  - intros (m & Hm & Hp & Hq). exists (member_index m). split; [|done].
    by apply list_elem_of_fmap_2, list_elem_of_filter.
Qed.

(** The history client of a conversation is replaced exactly when the pending
    commit removes some member that is not a history client while some history
    client stays; all history clients are replaced then. *)
Theorem history_client_replaced_when group l :
  history_clients_to_replace group = Some l <->
  l = map member_index (filter (fun m => is_history m = true) (group_members group)) /\
  (exists m, m ∈ group_members group /\ is_history m = false /\ member_index m ∈ pending_commit_removed group) /\
  (exists m, m ∈ group_members group /\ is_history m = true /\ member_index m ∉ pending_commit_removed group).
Proof.
  unfold history_clients_to_replace. generalize (pending_commit_removed group). intros removed.
  rewrite <- (member_indices (fun m => is_history m) false (fun i => i ∈ removed)).
  rewrite <- (member_indices (fun m => is_history m) true (fun i => i ∉ removed)).
  set (history := map member_index (filter (fun m => is_history m = true) (group_members group))).
  set (others := map member_index (filter (fun m => is_history m = false) (group_members group))).
  pose proof (existsb_elem (fun i => bool_decide (i ∈ removed)) others) as Hothers.
  pose proof (forallb_elem (fun i => bool_decide (i ∈ removed)) history) as Hhistory.
  setoid_rewrite bool_decide_eq_true in Hothers. setoid_rewrite bool_decide_eq_false in Hhistory.
  rewrite <- Hothers, <- Hhistory.
  destruct removed as [|i removed]; [|by destruct (forallb _ history), (existsb _ others); cbn; naive_solver].
  split; [done|]. intros (_ & (i & _ & ?%bool_decide_eq_true%not_elem_of_nil)%existsb_elem & _). done.
Qed.
(** What a step inside the crate tells the application: nothing. *)
Definition quiet (o o' : Outside) : Prop := sent o' = sent o /\ announced o' = announced o.

#[local] Instance quiet_preorder : PreOrder quiet.
Proof. split; [done|]. intros a b c [H1 H2] [H3 H4]. split; congruence. Qed.

Lemma inside_quiet {A} (m : st World ConversationError A) : st_frame quiet (inside m).
Proof. intros o. unfold inside. by destruct (m (world o)). Qed.

Lemma quiet_Ok {A} (m : st Outside ConversationError A) o a o' :
  st_frame quiet m -> m o = (Ok a, o') -> quiet o o'.
Proof. intros Hm Hr. specialize (Hm o). by rewrite Hr in Hm. Qed.

Lemma propose_all_quiet h qs : st_frame quiet (propose_all h qs).
Proof.
  unfold propose_all. induction qs as [|q qs IH]; cbn; [apply st_frame_ret; apply _|].
  apply st_frame_bind; [apply _|apply inside_quiet|intros a].
  apply st_frame_bind; [apply _|exact IH|intros l]. apply st_frame_ret; apply _.
Qed.

Lemma inside_session (o : Outside) s o' :
  inside (in_context session) o = (Ok s, o') -> o' = o /\ mls (core (world o)) = Some s.
Proof.
  unfold inside, in_context, session, valid, st_map_err, st_lift, mbind, st_bind.
  destruct (context (world o)); cbn; [|done]. destruct (mls (core (world o))); cbn; [|done].
  intros [= -> <-]. by rewrite inside_eta.
Qed.

Lemma send_new_history_Ok h commit secret (o o' : Outside) :
  send_new_history_client_commit app h commit secret o = (Ok (), o') ->
  exists c (s : Session M) message o1 bundle,
    mls (core (world o1)) = Some s /\ bundle = MkBundle (bundle_welcome commit) (bundle_commit commit) (bundle_group_info commit) (Some message) /\
    send_commit_bundle app o1 bundle = Ok () /\ sent o' = sent o ++ [bundle] /\
    announced o' = if history_observer s then announced o ++ [(conv_id c, secret)] else announced o.
Proof.
  unfold send_new_history_client_commit.
  intros (? & o1 & H1 & (? & o2 & H2 & (data & o3 & H3 & (message & o4 & H4 & H)%st_bind_Ok)%st_bind_Ok)%st_bind_Ok)%st_bind_Ok.
  apply st_bind_Ok in H as (c & o5 & H5 & (s & o6 & H6 & (? & o7 & [= _ <-] & H)%st_bind_Ok)%st_bind_Ok).
  apply quiet_Ok in H1 as [S1 A1], H2 as [S2 A2], H4 as [S4 A4], H5 as [S5 A5]; [|apply inside_quiet..].
  injection H3 as _ <-. apply inside_session in H6 as [-> Hs].
  apply st_bind_Ok in H as (s' & o8 & H8 & H). apply inside_session in H8 as [-> _].
  unfold st_of in H. destruct (send_commit_bundle app _ _) as [[]| |] eqn:Hsend; cbn in H; [|discriminate..].
  injection H as <-. eexists c, s, message, _, _. split; [|split; [reflexivity|split; [exact Hsend|]]]; [done|].
  cbn. split; [congruence|]. destruct (history_observer s); congruence.
Qed.

(** When the history client is replaced, the commit given to
    [send_and_merge_commit] is not sent at all: exactly one bundle is, which was
    accepted and which carries the encrypted history secret, and the secret is
    announced to the history observer, if there is one. *)
Theorem rotation_sends_one_commit h (o o' : Outside) commit :
  update_history_client app h o = (Ok CommitSentAndMerged, o') ->
  send_and_merge_commit app h commit o = (Ok (), o') /\
  exists c (s : Session M) secret message o1 bundle,
    sent o' = sent o ++ [bundle] /\ encrypted_message bundle = Some message /\
    send_commit_bundle app o1 bundle = Ok () /\ mls (core (world o1)) = Some s /\
    announced o' = if history_observer s then announced o ++ [(conv_id c, secret)] else announced o.
Proof.
  intros Hrun. split; [unfold send_and_merge_commit, mbind, st_bind; by rewrite Hrun|].
  unfold update_history_client in Hrun. apply st_bind_Ok in Hrun as (c & o1 & H1 & Hrun).
  apply quiet_Ok in H1 as [S1 A1]; [|apply inside_quiet].
  destruct (is_history_sharing_enabled c); cbn [negb] in Hrun; [|discriminate].
  destruct (pending_commit (conv_group c)); cbn [negb] in Hrun; [|discriminate].
  destruct (history_clients_to_replace (conv_group c)) as [l|]; [|discriminate].
  apply st_bind_Ok in Hrun as (? & o2 & H2 & (secret & o3 & H3 & (? & o4 & H4 & (? & o5 & H5 & Hrun)%st_bind_Ok)%st_bind_Ok)%st_bind_Ok).
  apply st_bind_Ok in Hrun as (c' & o6 & H6 & (b & o7 & H7 & (b' & o8 & H8 & Hrun)%st_bind_Ok)%st_bind_Ok).
  apply st_bind_Ok in Hrun as ([] & o9 & H9 & [= <-]). injection H8 as _ <-.
  apply quiet_Ok in H2 as [S2 A2], H4 as [S4 A4], H5 as [S5 A5], H6 as [S6 A6], H7 as [S7 A7];
    [|apply inside_quiet || apply propose_all_quiet..].
  apply st_bind_Ok in H3 as (c3 & o10 & H10 & H3). apply quiet_Ok in H10 as [S10 A10]; [|apply inside_quiet].
  injection H3 as _ <-.
  destruct (send_new_history_Ok h b' secret o7 o9 H9) as (c4 & s & message & o11 & bundle & Hs & -> & Hok & Hsent & Han).
  eexists c4, s, secret, message, o11, _. split; [|split; [|split; [exact Hok|]]]; [congruence|done|].
  split; [done|]. destruct (history_observer s); congruence.
Qed.
(** ** Merging before sending *)

Lemma encrypt_message_Ok h c (w : World) m message w' :
  ready h c w -> encrypt_message h m w = (Ok message, w') ->
  exists c', ready h c' w' /\ conv_id c' = conv_id c /\ group_epoch (conv_group c') = group_epoch (conv_group c) /\
    state_changed (conv_group c') = Persisted /\ context w' = context w.
Proof.
  intros Hr Hrun. destruct (frame_ready h c _ w _ _ (encrypt_message_frame h (keeps_ready h) m) Hr Hrun) as (c' & Hr' & Hid).
  exists c'. split; [done|]. split; [done|].
  apply st_bind_Ok in Hrun as (? & w1 & H1 & Hrun). rewrite (ready_provider h c w Hr) in H1. injection H1 as _ <-.
  apply st_bind_Ok in Hrun as (cred & w1 & H1 & Hrun).
  assert (w1 = w) as -> by (unfold guard_credential, mbind, st_bind in H1; rewrite (ready_guarded h c w Hr) in H1; by injection H1 as _ <-).
  destruct (mutate_group_persisted h _ w message w' Hrun) as (c2 & Hh2 & Hp).
  pose proof Hr' as (_ & _ & Hh' & _). rewrite Hh' in Hh2. injection Hh2 as <-.
  pose proof Hr as (Hctx & _ & Hh & _).
  unfold mutate_group, in_context, st_map_err, mbind, st_bind, st_of in Hrun. rewrite valid_run in Hrun by done.
  cbn [map_err] in Hrun. rewrite Hh in Hrun. unfold encrypt_operation in Hrun.
  destruct (create_message_of _ m (conv_group c)) as [r g] eqn:Hc. apply create_message_step in Hc as (_ & _ & He).
  assert (exists db g', w' = update h db g' w /\ group_epoch g' = group_epoch g) as (db & g' & -> & Hg').
  { destruct (_ ≫= _); [|by injection Hrun..]. destruct (decide _); [|injection Hrun as _ <-; by eexists _, _].
    destruct (ser_group g); [|by injection Hrun].
    destruct (mls_group_persist _ _ _ _) as [[[]| |] db]; [|discriminate..]. injection Hrun as _ <-.
    eexists _, _. split; [reflexivity|]. apply epoch_set_state. }
  cbn in Hh'. rewrite list_lookup_alter_eq, Hh in Hh'. injection Hh' as <-. cbn in *. split; [congruence|done].
Qed.

(** The commit of a new history client is merged before it is sent.  Whatever
    the delivery service answers, also when it refuses the commit, the group is in
    the next epoch and persisted, the epoch is queued for the observers and the
    secret has been announced; the answer is only reported. *)
Theorem history_commit_merged_first h c (o : Outside) commit secret changes g db w1 data message w2 s :
  ready h c (world o) -> context (world o) = Valid changes ->
  merge_pending_commit_of (conv_group c) (database (core (world o))) = (true, (g, db)) -> is_Some (ser_group g) ->
  merge_commit h (world o) = (Ok (), w1) ->
  prepare_for_transport app (MkOutside w1 (sent o) (announced o)) secret = Ok data ->
  encrypt_message h data w1 = (Ok message, w2) -> mls (core w2) = Some s ->
  let o2 := MkOutside w2 (sent o) (if history_observer s then announced o ++ [(conv_id c, secret)] else announced o) in
  let bundle := MkBundle (bundle_welcome commit) (bundle_commit commit) (bundle_group_info commit) (Some message) in
  send_new_history_client_commit app h commit secret o =
    (map_err (fun e => ConvRecursive (Root e)) (send_commit_bundle app o2 bundle),
     MkOutside w2 (sent o ++ [bundle]) (announced o2)) /\
  context w2 = Valid (changes ++ [(conv_id c, group_epoch g)]) /\
  exists c2, ready h c2 w2 /\ conv_id c2 = conv_id c /\ group_epoch (conv_group c2) = group_epoch g /\
    state_changed (conv_group c2) = Persisted.
Proof.
  intros Hr Hctx Hm Hser H1 Hd H2 Hs o2 bundle.
  destruct (merge_commit_run h c (world o) g db changes Hr Hctx Hm Hser) as (c1 & w1' & H1' & Hr1 & Hc1 & Hctx1 & _).
  rewrite H1 in H1'. injection H1' as <-. destruct Hc1 as (Hid1 & _ & Hg1 & _).
  destruct (encrypt_message_Ok h c1 w1 data message w2 Hr1 H2) as (c2 & Hr2 & Hid2 & He2 & Hp2 & Hctx2).
  split; [|split; [by rewrite Hctx2|exists c2; split; [done|]; rewrite He2, (same_group_epoch _ _ Hg1); split; [congruence|done]]].
  destruct (ready_session h c1 w1 Hr1) as (s1 & _ & Hs1).
  destruct (ready_session h c2 w2 Hr2) as (s2 & Hs2 & Hs2'). rewrite Hs in Hs2. injection Hs2 as <-.
  unfold send_new_history_client_commit, mbind, st_bind, inside. rewrite H1. cbn [world sent announced]. rewrite Hs1.
  unfold st_lift. rewrite Hd. cbn [map_err world sent announced]. rewrite H2. cbn [world sent announced].
  rewrite (ready_guarded h c2 w2 Hr2). cbn [world sent announced]. rewrite Hs2'.
  unfold notify_new_history_client, st_of. cbn [world sent announced]. rewrite Hid2, Hid1. fold o2.
  by rewrite (send_commit_run h c2 o2).
Qed.

(** ** Changing the credential *)

Lemma ensure_no_pending_commit_none h c (w : World) :
  ready h c w -> pending_commit (conv_group c) = false -> ensure_no_pending_commit h w = (Ok (), w).
Proof.
  intros Hr Hp. unfold ensure_no_pending_commit, clear_pending_commit, st_try.
  rewrite (mutate_group_refused h c w _ PendingCommitNotFound Hr); [done|].
  unfold clear_pending_commit_operation. by rewrite Hp.
Qed.

(** Setting a credential that has the same MLS credential as our leaf but
    another key, such as another basic credential of the client, does not put its
    key into the leaf: OpenMLS is asked for an update without a new leaf, signed with
    the new key. *)
Theorem same_client_key_not_installed h c (w : World) credential leaf commit welcome gi payload g db :
  ready h c w -> pending_commit (conv_group c) = false ->
  own_leaf_credential (conv_group c) = Some leaf -> leaf_credential leaf = mls_credential credential ->
  leaf_signature_key leaf <> key_public (signature_key_pair credential) ->
  create_commit_of (signature_key_pair credential) (ExplicitSelfUpdate None) (conv_group c) (database (core w)) =
    (Some (commit, welcome, Some gi), (g, db)) ->
  serialize_group_info gi = Some payload -> is_Some (ser_group g) ->
  exists c' w', set_credential_inner h credential w =
      (Ok (MkBundle welcome commit (MkGroupInfo EncryptionPlaintext Full (PlaintextPayload payload)) None), w') /\
    ready h c' w' /\ regrouped c g c' /\ pending_commit (conv_group c') = true.
Proof.
  intros Hr Hp Hleaf Heq _ Hc Hgi Hser. unfold set_credential_inner, mbind, st_bind.
  rewrite (ensure_no_pending_commit_none h c w Hr Hp), (ready_provider h c w Hr).
  destruct (mutate_group_ready h c w (set_credential_operation credential)
    (MkBundle welcome commit (MkGroupInfo EncryptionPlaintext Full (PlaintextPayload payload)) None) db g)
    as (c' & w' & Hm & Hr' & Hc' & _); [done|apply set_credential_openmls| |done|].
  - unfold set_credential_operation. rewrite Hleaf, decide_True by done. rewrite Hc. cbn.
    unfold try_new_full_plaintext. by rewrite Hgi.
  - exists c', w'. do 3 (split; [done|]). destruct Hc' as (_ & _ & Hg & _).
    rewrite (same_group_pending _ _ Hg). by eapply create_commit_pending.
Qed.
End commit_props.

(** ** Runs of the model *)

(** Our credential is stored, and a conversation is open. *)
Definition demo_credentials : Database :=
  snd (kv_save (Some 1700000000%Z) (Entity.StoredCredential
    {| cred_session_id := bstr "me"; cred_credential := bstr "me"; cred_created_at := 0; cred_ciphersuite := 1;
       cred_private_key := bstr "sk"; cred_public_key := bstr "me" |}) demo_started).

Lemma demo_credentials_in_transaction : in_transaction demo_credentials.
Proof.
  unfold demo_credentials. set (e := Entity.StoredCredential _).
  destruct (kv_save_total (inv := in_transaction) (Some 1700000000%Z) e demo_started (Some 1700000000%Z)
    (Entity.StoredCredential
      {| cred_session_id := bstr "me"; cred_credential := bstr "me"; cred_created_at := 1700000000; cred_ciphersuite := 1;
         cred_private_key := bstr "sk"; cred_public_key := bstr "me" |})) as (db & -> & Hin & _);
    [apply demo_started_in_transaction|by split|by split|done|done].
Qed.

Definition demo_member (id : string) (pending : bool) : ToyGroup := MkToyGroup (bstr id) x00 true pending false Persisted.
Definition demo_in (g : ToyGroup) : Conversation := MkConversation (toy_id g) g (config_of_ciphersuite 1).
Definition demo_outside (g : ToyGroup) : Outside (M := ToyLru nat) :=
  MkOutside (MkWorld (MkCore demo_credentials None (Some (MkSession (bstr "me") (MkLru 200 []) true true))
                        [demo_in g] []) (Valid [])) [] [].
Definition demo_bundle : CommitBundle := MkBundle None [x03; x00] (MkGroupInfo EncryptionPlaintext Full (PlaintextPayload [])) None.
Definition demo_refusing : Callbacks (M := ToyLru nat) :=
  MkApp (fun _ _ => Err (ErrorDuringMlsTransport "409")) (fun _ _ => Ok (bstr "secret"))
    (fun _ _ => Ok (MkSecret (bstr "history-client:1") (bstr "history-client:1"))) (fun l => l).

Lemma demo_outside_ready g : ready 0 (demo_in g) (world (demo_outside g)).
Proof.
  destruct demo_credentials_in_transaction as [Hdb Ht]. split; [done|]. split; [by eexists|]. split; [done|].
  split; [exact Hdb|]. split; [exact Ht|done].
Qed.

Lemma send_and_merge_outcome_witness :
  (exists w, send_and_merge_commit demo_app 0 demo_bundle (demo_outside (demo_member "g" true)) =
     (Ok (), MkOutside w [demo_bundle] []) /\ context w = Valid [(bstr "g", 1%Z)] /\
     stored_as (bstr "g") (toy_advance true (demo_member "g" true)) w) /\
  (exists w, send_and_merge_commit demo_refusing 0 demo_bundle (demo_outside (demo_member "g" true)) =
     (Err (ConvRecursive (Root (ErrorDuringMlsTransport "409"))), MkOutside w [demo_bundle] []) /\ context w = Valid [] /\
     stored_as (bstr "g") (demo_member "g" false) w).
Proof.
  split.
  - destruct (proj1 (send_and_merge_outcome demo_app 0 (demo_in (demo_member "g" true)) (demo_outside (demo_member "g" true))
      demo_bundle [] (demo_outside_ready _) eq_refl eq_refl (or_introl eq_refl))
      (toy_advance true (demo_member "g" true)) demo_credentials eq_refl eq_refl (ex_intro _ _ eq_refl))
      as (c' & w' & Hrun & _ & _ & Hst & _ & Hctx).
    by exists w'.
  - destruct (proj2 (send_and_merge_outcome demo_refusing 0 (demo_in (demo_member "g" true)) (demo_outside (demo_member "g" true))
      demo_bundle [] (demo_outside_ready _) eq_refl eq_refl (or_introl eq_refl))
      (ErrorDuringMlsTransport "409") eq_refl (ex_intro _ _ eq_refl))
      as (c' & w' & Hrun & _ & _ & Hst & _ & Hctx).
    by exists w'.
Defined.

Definition demo_rotated : Outside (M := ToyLru nat) :=
  snd (update_history_client demo_app 0 (demo_outside (demo_member "h" true))).

Lemma rotation_sends_one_commit_witness :
  send_and_merge_commit demo_app 0 demo_bundle (demo_outside (demo_member "h" true)) = (Ok (), demo_rotated) /\
  exists bundle message, sent demo_rotated = [bundle] /\ encrypted_message bundle = Some message /\
    map fst (announced demo_rotated) = [bstr "h"].
Proof.
  destruct (update_history_client demo_app 0 (demo_outside (demo_member "h" true))) as [r o'] eqn:Hrun.
  assert (r = Ok CommitSentAndMerged) as -> by (apply (f_equal fst) in Hrun; vm_compute in Hrun; by symmetry).
  assert (o' = demo_rotated) as -> by (unfold demo_rotated; by rewrite Hrun).
  destruct (rotation_sends_one_commit demo_app 0 _ demo_rotated demo_bundle Hrun)
    as (Hsend & c & s & secret & message & o1 & bundle & Hsent & Hmsg & _).
  split; [exact Hsend|]. exists bundle, message. split; [exact Hsent|]. split; [exact Hmsg|]. vm_compute. reflexivity.
Defined.

Definition demo_secret : HistorySecret (Mm := toy_commits) := MkSecret (bstr "history-client:1") (bstr "kp").
Definition demo_merged : World (ToyLru nat) := snd (merge_commit 0 (world (demo_outside (demo_member "h" true)))).
Definition demo_encrypted : World (ToyLru nat) := snd (encrypt_message 0 (bstr "secret") demo_merged).

Lemma history_commit_merged_first_witness :
  fst (send_new_history_client_commit demo_refusing 0 demo_bundle demo_secret
         (demo_outside (demo_member "h" true))) = Err (ConvRecursive (Root (ErrorDuringMlsTransport "409"))) /\
  context demo_encrypted = Valid [(bstr "h", 1%Z)].
Proof.
  destruct (history_commit_merged_first demo_refusing 0 (demo_in (demo_member "h" true)) (demo_outside (demo_member "h" true))
    demo_bundle demo_secret [] (toy_advance true (demo_member "h" true)) demo_credentials
    demo_merged (bstr "secret") (x01 :: x01 :: bstr "secret") demo_encrypted (MkSession (bstr "me") (MkLru 200 []) true true))
    as (Hrun & Hctx & _).
  - apply demo_outside_ready.
  - done.
  - done.
  - by eexists.
  - unfold demo_merged. rewrite (surjective_pairing (merge_commit _ _)) at 1. by f_equal.
  - done.
  - unfold demo_encrypted. rewrite (surjective_pairing (encrypt_message _ _ _)) at 1. by f_equal.
  - reflexivity.
  - rewrite Hrun. split; [reflexivity|]. rewrite Hctx. vm_compute. reflexivity.
Defined.

(** Another credential of the client, with another key. *)
Definition demo_other : Credential :=
  MkCredential 1 Basic (new_basic (bstr "me")) (MkKeys 1 (bstr "sk2") (bstr "pk2")) 0.

Lemma same_client_key_not_installed_witness :
  exists c' w', set_credential_inner 0 demo_other (world (demo_outside (demo_member "g" false))) =
      (Ok (MkBundle None [x03; x00] (MkGroupInfo EncryptionPlaintext Full (PlaintextPayload [x00])) None), w') /\
    ready 0 c' w' /\ regrouped (demo_in (demo_member "g" false)) (toy_commit (demo_member "g" false)) c' /\
    pending_commit (conv_group c') = true.
Proof.
  refine (same_client_key_not_installed 0 (demo_in (demo_member "g" false)) (world (demo_outside (demo_member "g" false)))
    demo_other (bstr "me" : CredentialWithKey) [x03; x00] None [x00] [x00] (toy_commit (demo_member "g" false)) demo_credentials
    (demo_outside_ready _) _ _ _ _ _ _ _).
  - done.
  - done.
  - done.
  - done.
  - done.
  - done.
  - by eexists.
Defined.
