(* ===== verification/PendingConversations.v ===== *)
(** * Pending conversations

    [crypto/src/mls/conversation/pending.rs] and
    [crypto/src/transaction_context/conversation/external_commit.rs]: joining a
    group by an external commit, the pending group kept until the commit is
    accepted, and the messages buffered for it. *)

From S2P Require Import Prelude Keys EntityTypes Entities ToyExternals Sql KeystoreErrors EntityStore Store Transaction Database EntityKV KeystoreMls CryptoErrors OpenMls ConversationCache TransactionContext ConversationMut CommitDelay ClientIds MlsMessages Credentials Commits HistorySharing Decrypt.
From Stdlib Require Import Lia ZArith.

(** Joining a group by an external commit, and the [serde_json] form of a custom
    configuration. *)
Class ExternalCommits {O : OpenMls} {Ms : MlsMessages O} {Mc : MlsCredentials} (Mm : MlsCommits Ms Mc) : Type := {
  VerifiableGroupInfo : Type;
  group_info_ciphersuite : VerifiableGroupInfo -> Z;
  (** [MlsGroup::join_by_external_commit] with the keys, the configuration and the
      credential of the joiner. *)
  join_by_external_commit_of : SignatureKeys -> VerifiableGroupInfo -> ConversationConfiguration ->
    MlsCredential * bytes -> Database ->
    option (MlsGroup * MlsMessageOut * option GroupInfo) * Database;
  custom_to_json : CustomConfiguration -> option bytes;
  custom_from_json : bytes -> option CustomConfiguration;
}.

(** What the crypto crate relies on. *)
Class ExternalCommitsLaws `{X : Externals} {O : OpenMls} {Ms : MlsMessages O} {Mc : MlsCredentials}
    {Mm : MlsCommits Ms Mc} (Ec : ExternalCommits Mm) : Prop := {
  join_provider sk gi cfg c db r db' :
    join_by_external_commit_of sk gi cfg c db = (r, db') -> provider_calls db db';
  custom_from_to_json c b : custom_to_json c = Some b -> custom_from_json b = Some c;
}.

Section pending_conversations.
Context `{X : Externals, O : OpenMls, Ms : !MlsMessages O, Mc : MlsCredentials, !LeafCredentials Ms Mc}.
Context `{Mm : !MlsCommits Ms Mc, Ec : !ExternalCommits Mm, U : UuidLib} {M : Type} `{!LruMap M nat}.
Context (ln_ramp : Z -> Z) {Identity : Type} (extract_identity : CredentialWithKey -> res CredentialError Identity).
Abbreviation conv A := (st (World M) ConversationError A).
Abbreviation Message := (MlsMessageIn MlsProposal).

(** [PendingConversation::from_mls_group]. *)
Definition from_mls_group (group : MlsGroup) : res ConversationError PersistedMlsPendingGroup :=
  serialized_cfg ← ok_or (custom_to_json default_custom) (ConvOpenMls OtherOpenMlsError);
  serialized_group ← ok_or (ser_group group) (ConvKeystore KeystoreError.KeyStoreValueTransformError);
  Ok {| pgroup_id := group_group_id group; pgroup_state := serialized_group;
        pgroup_custom_configuration := serialized_cfg; pgroup_parent_id := None |}.

(** [PendingConversation::save]. *)
Definition pending_save (p : PersistedMlsPendingGroup) : conv () :=
  _ ← in_context valid;
  st_map_err ConvKeystore (on_database
    (mls_pending_groups_save (pgroup_id p) (pgroup_state p) (pgroup_custom_configuration p) None)).

(** [PendingConversation::clear]. *)
Definition pending_clear (p : PersistedMlsPendingGroup) : conv () :=
  _ ← in_context valid;
  st_map_err ConvKeystore (on_database (mls_pending_groups_delete (pgroup_id p))).

(** [deser::<MlsGroup>] and [merge_pending_commit] on the copy. *)
Definition deser_pending (state : bytes) : res ConversationError MlsGroup :=
  ok_or (deser_group state) (ConvKeystore KeystoreError.KeyStoreValueTransformError).

Definition merge_copy (group : MlsGroup) : conv MlsGroup :=
  st_of (fun w =>
    let '(ok, (group, db)) := merge_pending_commit_of group (database (core w)) in
    (if ok : bool then Ok group else Err (ConvOpenMls OtherOpenMlsError), set_core (set_database db (core w)) w)).

(** [PendingConversation::incoming_message_is_own_join_commit]. *)
Definition incoming_message_is_own_join_commit (p : PersistedMlsPendingGroup) (message : bytes) : conv bool :=
  _ ← in_context crypto_provider;
  _ ← in_context valid;
  o ← st_map_err ConvKeystore (on_database (fun db => (mls_pending_groups_load (pgroup_id p) db, db)));
  '(group, _) ← st_lift (fun _ => ok_or o PendingConversationNotFound);
  mls_group ← st_lift (fun _ => deser_pending group);
  mls_group ← merge_copy mls_group;
  message_in ← st_lift (fun _ => ok_or (deserialize_message message) (ConvOpenMls OtherOpenMlsError));
  match message_in with
  | PublicMessage public_message =>
      match public_confirmation_tag public_message with
      | None => mret false
      | Some msg_ct =>
          group_ct ← st_lift (fun _ => ok_or (confirmation_tag_of mls_group) (ConvOpenMls OtherOpenMlsError));
          mret (bool_decide (msg_ct = group_ct))
      end
  | _ => mret false
  end.

(** [PendingConversation::merge]; [depth] bounds the calls nested in the decryption
    of buffered messages. *)
Definition pending_merge (depth : nat) (p : PersistedMlsPendingGroup) :
    conv (option (list (BufferedDecryptedMessage Identity))) :=
  _ ← in_context crypto_provider;
  mls_group ← st_lift (fun _ => deser_pending (pgroup_state p));
  mls_group ← merge_copy mls_group;
  custom_cfg ← st_lift (fun _ => ok_or (custom_from_json (pgroup_custom_configuration p)) (ConvOpenMls OtherOpenMlsError));
  let configuration := MkConfig (group_ciphersuite mls_group) [] custom_cfg in
  restore_policy ← st_lift (fun w =>
    Ok (if mls_group_exists (pgroup_id p) (database (core w)) then ClearOnly else DecryptAndClear));
  h ← in_context (persist_conversation_from_mls_group mls_group configuration);
  pending_messages ← in_conversation
    (restore_pending_messages (decrypt_message_inner ln_ramp extract_identity depth h) h restore_policy);
  _ ← match pending_messages with
      | Some _ =>
          _ ← in_context valid;
          st_map_err ConvKeystore (on_database (remove_pending_messages_by_conversation_id (pgroup_id p)))
      | None => mret ()
      end;
  _ ← pending_clear p;
  mret pending_messages.

(** [PendingConversation::merge_and_restore_messages]. *)
Definition merge_and_restore_messages (depth : nat) (p : PersistedMlsPendingGroup) : conv (DecryptedMessage Identity) :=
  buffered_messages ← pending_merge depth p;
  h ← in_context (conversation (pgroup_id p));
  c ← guarded h;
  own_leaf ← st_lift (fun _ => ok_or (own_leaf_credential (conv_group c)) (ConvLeaf InternalMlsError));
  identity ← identity_of extract_identity own_leaf;
  delay ← next_commit_delay ln_ramp h;
  mret (MkDecrypted None (group_is_active (conv_group c)) delay None identity buffered_messages).

(** [PendingConversation::try_process_own_join_commit]. *)
Definition try_process_own_join_commit (depth : nat) (p : PersistedMlsPendingGroup) (message : bytes) :
    conv (DecryptedMessage Identity) :=
  own ← incoming_message_is_own_join_commit p message;
  if own : bool then merge_and_restore_messages depth p else
  _ ← in_context valid;
  _ ← st_map_err ConvKeystore (on_database (kv_save None
        (Entity.MlsPendingMessage {| pm_foreign_id := pgroup_id p; pm_message := message |})));
  st_throw BufferedForPendingConversation.

(** ** Joining *)

Context (app : Callbacks (M := M)).
Abbreviation tx A := (st (World M) TransactionError A).

(** A step of a conversation in a transaction. *)
Definition in_mls_conversation {S A} (m : st S ConversationError A) : st S TransactionError A :=
  st_map_err (fun e => TxRecursive (RecMlsConversation e)) m.

(** [TransactionContext::create_external_join_commit]. *)
Definition create_external_join_commit (gi : VerifiableGroupInfo) (r : CredentialRef) :
    tx (CommitBundle * bytes * PersistedMlsPendingGroup) :=
  let cipher_suite := group_info_ciphersuite gi in
  _ ← crypto_provider;
  _ ← valid;
  credential ← st_lift (fun w => map_err (fun e => TxRecursive (RecMlsCredentialRef e)) (ref_load r (database (core w))));
  let configuration := config_of_ciphersuite cipher_suite in
  o ← st_of (fun w =>
        let '(o, db) := join_by_external_commit_of (signature_key_pair credential) gi configuration
                          (mls_credential credential, key_public (signature_key_pair credential))
                          (database (core w)) in
        (Ok o, set_core (set_database db (core w)) w));
  '(group, commit, gi) ← st_lift (fun _ => ok_or o TxOpenMls);
  gi ← st_lift (fun _ => ok_or gi (TxLeaf MissingGroupInfo));
  gi ← in_mls_conversation (st_lift (fun _ => try_new_full_plaintext gi));
  let new_group_id := group_group_id group in
  pending_conversation ← in_mls_conversation (st_lift (fun _ => from_mls_group group));
  _ ← in_mls_conversation (pending_save pending_conversation);
  mret (MkBundle None commit gi None, new_group_id, pending_conversation).

(** A step of the crate alone, in a transaction. *)
Definition inside_tx {A} (m : tx A) : st (Outside (M := M)) TransactionError A := fun o =>
  let '(r, w) := m (world o) in (r, MkOutside w (sent o) (announced o)).

(** [TransactionContext::join_by_external_commit]; [PendingConversation::send_commit]
    is the same as that of a guard. *)
Definition join_by_external_commit (depth : nat) (gi : VerifiableGroupInfo) (r : CredentialRef) :
    st (Outside (M := M)) TransactionError bytes :=
  created ← inside_tx (create_external_join_commit gi r);
  let '(commit_bundle, id, pending_conversation) := created in
  st_try (send_commit app commit_bundle) (fun commit_result =>
    match commit_result with
    | Err (MessageRejected reason) =>
        _ ← inside_tx (in_mls_conversation (pending_clear pending_conversation));
        st_throw (TxRecursive (RecMlsConversation (MessageRejected reason)))
    | _ =>
        _ ← in_mls_conversation (st_lift (fun _ => commit_result));
        _ ← inside_tx (in_mls_conversation (pending_merge depth pending_conversation));
        mret id
    end).
End pending_conversations.

(** ** A concrete external commit: the group info is the id of the group. *)
#[export] Instance CustomConfiguration_eq_dec : EqDecision CustomConfiguration.
Proof. intros a b. unfold Decision. repeat decide equality. Defined.

#[export] Instance toy_external : ExternalCommits toy_commits := {|
  VerifiableGroupInfo := bytes;
  group_info_ciphersuite _ := 1%Z;
  join_by_external_commit_of _ gi _ _ db :=
    (Some (MkToyGroup gi x00 true true false Changed, [x03; x00], Some [x00]), db);
  custom_to_json c := if decide (c = default_custom) then Some [x00] else None;
  custom_from_json _ := Some default_custom;
|}.

#[export] Instance toy_external_laws : ExternalCommitsLaws toy_external.
Proof.
  split; cbn.
  - intros sk gi cfg c db r db' [= _ <-]. constructor.
  - intros c b. case_decide; [by subst|done].
Qed.
