(* ===== verification/PendingProps.v ===== *)
(** * What becomes of an external commit

    The pending group when the delivery service accepts or refuses the commit. *)

From S2P Require Import Prelude Keys EntityTypes Entities ToyExternals Sql KeystoreErrors EntityStore Store Transaction TransactionInvariant Database DatabaseProps EntityKV KeystoreMls CryptoErrors OpenMls ConversationCache TransactionContext TransactionContextProps ConversationMut CacheCoherence CommitDelay ClientIds MlsMessages GuardFrames Credentials Commits HistorySharing CommitFrames Decrypt DecryptFrames ConversationRuns CommitProps PendingConversations.
From Stdlib Require Import Lia ZArith.

Section pending_props.
Context `{X : Externals, !ExternalsLaws X, O : OpenMls, !OpenMlsLaws O, Ms : !MlsMessages O}.
Context `{Mc : MlsCredentials, !LeafCredentials Ms Mc, Mm : !MlsCommits Ms Mc, Ec : !ExternalCommits Mm, !ExternalCommitsLaws Ec, U : UuidLib}.
Context {M : Type} `{!LruMap M nat, !LruMapLaws M nat}.
Context (ln_ramp : Z -> Z) {Identity : Type} (extract_identity : CredentialWithKey -> res CredentialError Identity).
Abbreviation World := (World M).
Abbreviation Outside := (Outside (M := M)).
Context (app : Callbacks (M := M)).
Abbreviation with_db db w := (set_core (set_database db (core w)) w).

(** ** Creating the commit *)

Lemma mls_pending_groups_save_run id state cfg db :
  in_transaction db ->
  exists db', mls_pending_groups_save id state cfg None db = (Ok (), db') /\ keeps_database db db' /\
    mls_pending_groups_load id db' = Ok (Some (state, cfg)).
Proof.
  intros Hin. unfold mls_pending_groups_save, mls_pending_groups_load. set (e := Entity.PersistedMlsPendingGroup _).
  pose proof (kv_save_keeps None e db I I) as Hk.
  destruct (kv_save_total (inv := in_transaction) None e db None e Hin I I eq_refl) as (db' & Hs & _ & Hget).
  rewrite Hs in Hk |- *. exists db'. split; [done|]. split; [done|]. rewrite Hget by done. by rewrite decide_True.
Qed.

Lemma create_external_join_commit_Ok s (w : World) gi r bundle id p w' :
  working s w -> create_external_join_commit gi r w = (Ok (bundle, id, p), w') ->
  working s w' /\ context w' = context w /\ pgroup_id p = id /\
  mls_pending_groups_load id (database (core w')) = Ok (Some (pgroup_state p, pgroup_custom_configuration p)) /\
  exists group, ser_group group = Some (pgroup_state p) /\ group_group_id group = id /\
    custom_to_json default_custom = Some (pgroup_custom_configuration p).
Proof.
  intros Hw. unfold create_external_join_commit.
  intros (? & w1 & H1 & (? & w2 & H2 & (cred & w3 & H3 & H)%st_bind_Ok)%st_bind_Ok)%st_bind_Ok.
  rewrite (working_provider s) in H1 by done. injection H1 as _ <-.
  rewrite (working_valid s) in H2 by done. injection H2 as _ <-. injection H3 as _ <-.
  apply st_bind_Ok in H as (o & w4 & H4 & H). unfold st_of in H4.
  destruct (join_by_external_commit_of _ _ _ _ _) as [o' db] eqn:Hj. injection H4 as <- <-.
  apply join_provider, provider_same_groups in Hj as [Hj _]. pose proof (working_database s w db Hw Hj) as Hw4.
  apply st_bind_Ok in H as ([[group commit] gi0] & w5 & H5 & H). injection H5 as _ <-.
  apply st_bind_Ok in H as (gi1 & w6 & H6 & (gi2 & w7 & H7 & (p' & w8 & H8 & H)%st_bind_Ok)%st_bind_Ok).
  injection H6 as _ <-. apply st_map_err_Ok in H7, H8. injection H7 as _ <-. injection H8 as Hp <-.
  apply st_bind_Ok in H as (? & w9 & H9 & [= <- <- <- <-]). apply st_map_err_Ok in H9.
  unfold from_mls_group in Hp. destruct (custom_to_json default_custom) as [cfg|] eqn:Hcfg; [|done].
  destruct (ser_group group) as [state|] eqn:Hs; [|done]. injection Hp as <-.
  destruct (mls_pending_groups_save_run (group_group_id group) state cfg db) as (db' & Hsave & Hk & Hl); [apply Hw4|].
  unfold pending_save, in_context, st_map_err, mbind, st_bind in H9. rewrite (working_valid s) in H9 by done.
  cbn [map_err] in H9. unfold on_database in H9. cbn [pgroup_id pgroup_state pgroup_custom_configuration core set_core database set_database] in H9.
  rewrite Hsave in H9. injection H9 as _ <-.
  split; [by apply (working_database s _ db' Hw4)|]. split; [done|]. split; [done|]. split; [done|]. by exists group.
Qed.

Lemma send_commit_working s (o : Outside) commit :
  working s (world o) ->
  send_commit app commit o =
  (map_err (fun e => ConvRecursive (Root e)) (send_commit_bundle app o commit),
   MkOutside (world o) (sent o ++ [commit]) (announced o)).
Proof.
  intros Hw. unfold send_commit, inside, in_context, st_map_err, mbind, st_bind, st_of. rewrite (working_session s) by done.
  by destruct o.
Qed.

(** An external commit that the transport refuses, for whatever reason, leaves
    the pending group in the keystore: the branch that clears it expects an error
    that sending a commit does not return. *)
Theorem refused_join_keeps_pending_group s (o : Outside) depth gi r bundle id p w1 e :
  working s (world o) -> create_external_join_commit gi r (world o) = (Ok (bundle, id, p), w1) ->
  send_commit_bundle app (MkOutside w1 (sent o) (announced o)) bundle = Err e ->
  join_by_external_commit ln_ramp extract_identity app depth gi r o =
    (Err (TxRecursive (RecMlsConversation (ConvRecursive (Root e)))), MkOutside w1 (sent o ++ [bundle]) (announced o)) /\
  mls_pending_groups_load id (database (core w1)) = Ok (Some (pgroup_state p, pgroup_custom_configuration p)).
Proof.
  intros Hw Hc He. destruct (create_external_join_commit_Ok s _ gi r bundle id p w1 Hw Hc) as (Hw1 & _ & _ & Hl & _).
  split; [|done]. unfold join_by_external_commit, mbind, st_bind, inside_tx. rewrite Hc. unfold st_try.
  rewrite (send_commit_working s) by done. rewrite He. done.
Qed.
(** ** Merging the pending group *)

Lemma persist_conversation_run s (w : World) g cfg state db :
  working s w -> ser_group g = Some state ->
  mls_group_persist (group_group_id g) state None (database (core w)) = (Ok (), db) ->
  exists s' w' h, persist_conversation_from_mls_group g cfg w = (Ok h, w') /\ working s' w' /\
    heap (core w') !! h = Some (MkConversation (group_group_id g) (set_state Persisted g) cfg) /\
    database (core w') = db /\ context w' = context w.
Proof.
  intros Hw Hs Hp. pose proof (mls_group_persist_keeps (group_group_id g) state None (database (core w))) as Hk.
  rewrite Hp in Hk. pose proof (working_database s w db Hw Hk) as Hw1.
  unfold persist_conversation_from_mls_group, st_map_err, mbind, st_bind. rewrite (working_session s), (working_valid s) by done.
  cbn [map_err]. unfold st_lift. rewrite Hs. cbn [ok_or]. unfold with_database, mbind, st_bind.
  rewrite (working_valid s) by done. unfold st_map_err, on_database. rewrite Hp. cbn [map_err].
  unfold with_groups, mbind, st_bind. rewrite (working_session s) by done.
  eexists _, _, _. split; [reflexivity|]. cbn. split.
  - destruct Hw1 as (Hc & _ & Hin & Hconn). split; [done|]. split; [reflexivity|]. by split.
  - split; [|done]. by rewrite lookup_app_r, Nat.sub_diag by lia.
Qed.

Lemma pending_merge_run s (w : World) depth p g0 g db state :
  working s w -> deser_group (pgroup_state p) = Some g0 -> group_group_id g0 = pgroup_id p ->
  custom_from_json (pgroup_custom_configuration p) = Some default_custom ->
  merge_pending_commit_of g0 (database (core w)) = (true, (g, db)) -> ser_group g = Some state ->
  mls_group_exists (pgroup_id p) db = false ->
  find_pending_messages_by_conversation_id (pgroup_id p) (snd (mls_group_persist (pgroup_id p) state None db)) = Ok [] ->
  exists w' h, pending_merge ln_ramp extract_identity depth p w = (Ok None, w') /\
    heap (core w') !! h = Some (MkConversation (pgroup_id p) (set_state Persisted g)
                                  (MkConfig (group_ciphersuite g) [] default_custom)) /\
    stored_group (pgroup_id p) (database (core w')) = deser_group state /\
    mls_pending_groups_load (pgroup_id p) (database (core w')) = Ok None /\ context w' = context w.
Proof.
  intros Hw Hd Hid Hcfg Hm Hs Hex Hnone.
  pose proof (merge_pending_commit_provider _ _ _ _ _ Hm) as [Hk _]%provider_same_groups.
  pose proof (merge_pending_commit_group_id _ _ _ _ _ Hm) as Hgid. rewrite Hid in Hgid.
  pose proof (working_database s w db Hw Hk) as Hw1.
  destruct (persist_stored (pgroup_id p) state None db) as (db2 & Hp2 & _ & Hst); [apply Hw1|].
  rewrite Hp2 in Hnone. cbn [snd] in Hnone. rewrite <- Hgid in Hp2.
  destruct (persist_conversation_run s (with_db db w) g (MkConfig (group_ciphersuite g) [] default_custom) state db2 Hw1 Hs Hp2)
    as (s2 & w2 & h & Hpersist & Hw2 & Hh & Hdb2 & Hctx2). rewrite Hgid in Hh.
  pose proof Hw2 as (_ & _ & Hin2 & _).
  destruct (kv_remove_total (inv := in_transaction) EntityType.PersistedMlsPendingGroup (vec_key_of (pgroup_id p))
    (database (core w2)) Hin2) as (db3 & Hr & _ & Hget).
  exists (with_db db3 w2), h.
  assert (restore_pending_messages (decrypt_message_inner ln_ramp extract_identity depth h) h DecryptAndClear w2 = (Ok None, w2)) as Hrestore.
  { unfold restore_pending_messages, in_context, st_map_err, mbind, st_bind. rewrite (working_valid s2) by done. cbn [map_err].
    destruct (decide (DecryptAndClear = ClearOnly)); [done|].
    unfold guarded, st_lift. rewrite Hh. cbn [expect]. unfold on_database. cbn [conv_id]. rewrite Hdb2, Hnone. cbn [map_err mapM].
    cbn. rewrite <- Hdb2. by destruct w2 as [[]]. }
  split; [|split; [done|split; [|split; [|done]]]].
  - unfold pending_merge, mbind, st_bind, in_context, st_map_err. rewrite (working_provider s) by done. cbn [map_err].
    unfold st_lift, deser_pending. rewrite Hd. cbn [ok_or]. unfold merge_copy, st_of. rewrite Hm, Hcfg. cbn [ok_or].
    cbn [core set_core database set_database]. rewrite Hex, Hpersist. cbn [map_err].
    unfold in_conversation, st_map_err. rewrite Hrestore. cbn [map_err].
    unfold pending_clear, in_context, st_map_err, mbind, st_bind, mret, st_ret. rewrite (working_valid s2) by done. cbn [map_err].
    unfold on_database, mls_pending_groups_delete. rewrite Hr. done.
  - cbn. unfold stored_group. rewrite Hget, decide_False by done. rewrite Hdb2. fold (stored_group (pgroup_id p) db2).
    rewrite Hst. by rewrite decide_True.
  - unfold mls_pending_groups_load. cbn [core set_core database set_database]. rewrite Hget by done. by rewrite decide_True.
Qed.

(** C16: an external commit that is accepted makes the group usable: joining a group
    we are not in, for which no messages are buffered, sends one bundle, stores and
    opens the group as merged by OpenMLS, drops the pending group and returns the id of
    the group only; no epoch notification is queued, so the observer is not told of the
    epoch in which we join. *)
Theorem accepted_join_outcome s (o : Outside) depth gi r bundle id p w1 g0 g db state :
  working s (world o) -> create_external_join_commit gi r (world o) = (Ok (bundle, id, p), w1) ->
  send_commit_bundle app (MkOutside w1 (sent o) (announced o)) bundle = Ok () ->
  deser_group (pgroup_state p) = Some g0 ->
  merge_pending_commit_of g0 (database (core w1)) = (true, (g, db)) -> ser_group g = Some state ->
  mls_group_exists id db = false ->
  find_pending_messages_by_conversation_id id (snd (mls_group_persist id state None db)) = Ok [] ->
  exists w' h stored,
    join_by_external_commit ln_ramp extract_identity app depth gi r o =
      (Ok id, MkOutside w' (sent o ++ [bundle]) (announced o)) /\
    heap (core w') !! h = Some (MkConversation id (set_state Persisted g) (MkConfig (group_ciphersuite g) [] default_custom)) /\
    stored_group id (database (core w')) = Some stored /\ same_group stored g /\
    mls_pending_groups_load id (database (core w')) = Ok None /\ context w' = context (world o).
Proof.
  intros Hw Hc Ho Hd Hm Hs Hex Hnone.
  destruct (create_external_join_commit_Ok s _ gi r bundle id p w1 Hw Hc) as (Hw1 & Hctx & <- & _ & g1 & Hs1 & Hid1 & Hj).
  destruct (deser_ser_group _ _ Hs1) as (g0' & Hd' & Hsame). rewrite Hd in Hd'. injection Hd' as <-.
  destruct (deser_ser_group _ _ Hs) as (stored & Hstored & Hsame').
  destruct (pending_merge_run s w1 depth p g0 g db state) as (w' & h & Hmerge & Hh & Hst & Hl & Hctx'); [done..| | |done|done|done|done|].
  - rewrite (same_group_id _ _ Hsame). done.
  - by apply custom_from_to_json.
  - exists w', h, stored. split; [|split; [done|]; split; [by rewrite Hst|]; split; [done|]; split; [done|congruence]].
    unfold join_by_external_commit, mbind, st_bind, inside_tx. rewrite Hc. unfold st_try.
    rewrite (send_commit_working s) by done. rewrite Ho. cbn [map_err]. unfold in_mls_conversation, st_map_err, st_lift.
    cbn [map_err world sent announced]. by rewrite Hmerge.
Qed.
End pending_props.

(** ** Runs of the model *)
Definition demo_joiner : Outside (M := ToyLru nat) :=
  MkOutside (MkWorld (MkCore demo_credentials None (Some (session_new (bstr "me"))) [] []) (Valid [])) [] [].
Definition demo_own_ref : CredentialRef := MkRef (bstr "me") (hash_from (bstr "me")) Basic 1 1700000000.
Definition demo_join_bundle : CommitBundle :=
  MkBundle None [x03; x00] (MkGroupInfo EncryptionPlaintext Full (PlaintextPayload [x00])) None.
Definition demo_join_group : PersistedMlsPendingGroup :=
  {| pgroup_id := bstr "j"; pgroup_state := [x00; x01; x01; x00; x6a]; pgroup_custom_configuration := [x00];
     pgroup_parent_id := None |}.
Definition demo_created : World (ToyLru nat) :=
  snd (create_external_join_commit (Ec := toy_external) (bstr "j") demo_own_ref (world demo_joiner)).

Lemma demo_joiner_working : working (session_new (bstr "me")) (world demo_joiner).
Proof. split; [done|]. split; [done|]. split; [apply demo_credentials_in_transaction|done]. Qed.

Lemma demo_created_run :
  create_external_join_commit (Ec := toy_external) (bstr "j") demo_own_ref (world demo_joiner) =
  (Ok (demo_join_bundle, bstr "j", demo_join_group), demo_created).
Proof. unfold demo_created. rewrite (surjective_pairing (create_external_join_commit _ _ _)) at 1. by f_equal. Qed.

Abbreviation demo_join := (fun app => join_by_external_commit (Ec := toy_external) (fun p => 40 * p)%Z (Ok (A := bytes)) app 4).

Lemma refused_join_keeps_pending_group_witness :
  demo_join demo_refusing (bstr "j") demo_own_ref demo_joiner =
    (Err (TxRecursive (RecMlsConversation (ConvRecursive (Root (ErrorDuringMlsTransport "409"))))),
     MkOutside demo_created [demo_join_bundle] []) /\
  mls_pending_groups_load (bstr "j") (database (core demo_created)) = Ok (Some ([x00; x01; x01; x00; x6a], [x00])).
Proof.
  exact (refused_join_keeps_pending_group (Ec := toy_external) (fun p => 40 * p)%Z (Ok (A := bytes)) demo_refusing
    (session_new (bstr "me")) demo_joiner 4 (bstr "j") demo_own_ref demo_join_bundle (bstr "j") demo_join_group demo_created
    (ErrorDuringMlsTransport "409") demo_joiner_working demo_created_run eq_refl).
Defined.

Lemma accepted_join_outcome_witness :
  exists w' h stored,
    demo_join demo_app (bstr "j") demo_own_ref demo_joiner = (Ok (bstr "j"), MkOutside w' [demo_join_bundle] []) /\
    heap (core w') !! h = Some (MkConversation (bstr "j") (MkToyGroup (bstr "j") x01 true false false Persisted)
      (MkConfig 1 [] default_custom)) /\
    stored_group (bstr "j") (database (core w')) = Some stored /\
    same_group stored (MkToyGroup (bstr "j") x01 true false false Changed) /\
    mls_pending_groups_load (bstr "j") (database (core w')) = Ok None /\ context w' = Valid [].
Proof.
  refine (accepted_join_outcome (Ec := toy_external) (fun p => 40 * p)%Z (Ok (A := bytes)) demo_app
    (session_new (bstr "me")) demo_joiner 4 (bstr "j") demo_own_ref demo_join_bundle (bstr "j") demo_join_group demo_created
    (MkToyGroup (bstr "j") x00 true true false Persisted) (MkToyGroup (bstr "j") x01 true false false Changed)
    (database (core demo_created)) [x01; x01; x00; x00; x6a]
    demo_joiner_working demo_created_run eq_refl eq_refl eq_refl eq_refl _ _).
  - vm_compute. reflexivity.
  - vm_compute. reflexivity.
Defined.
