(* ===== verification/ProteusSessions.v ===== *)
(** * Proteus sessions

    [crypto/src/proteus] (identity, sessions and their cache, messages) and
    [crypto/src/transaction_context/proteus.rs].  The protocol is the Proteus
    library's; a session is an abstract value with the operations the crate calls.
    The cache owns its sessions and hands out mutable references: a reference is
    the address of a cell. *)

From S2P Require Import Prelude Keys EntityTypes Entities ToyExternals Sql KeystoreErrors EntityStore Store Transaction TransactionInvariant TransactionCommit Database DatabaseProps EntityKV KeystoreMls CryptoErrors OpenMls ConversationCache TransactionContext ProteusPrekeys.
From Stdlib Require Import Lia ZArith.

(** ** The library *)

Class ProteusLib : Type := {
  IdentityKeyPair : Type;
  (** [IdentityKeyPair::new], its parts and [from_raw_key_pair]. *)
  identity_new : IdentityKeyPair;
  identity_secret : IdentityKeyPair -> bytes;
  identity_public : IdentityKeyPair -> bytes;
  from_raw_key_pair : bytes -> bytes -> option IdentityKeyPair;
  identity_fingerprint : IdentityKeyPair -> bytes;
  PreKey : Type;
  prekey_new : Z -> PreKey;
  prekey_last_resort : PreKey;
  prekey_serialise : PreKey -> option bytes;
  prekey_deserialise : bytes -> option PreKey;
  (** [PreKeyBundle::new] and [serialise]; [deserialise]. *)
  bundle_serialise : IdentityKeyPair -> PreKey -> option bytes;
  PreKeyBundle : Type;
  bundle_deserialise : bytes -> option PreKeyBundle;
  bundle_fingerprint : PreKeyBundle -> bytes;
  Envelope : Type;
  envelope_deserialise : bytes -> option Envelope;
  (** [Session<Arc<IdentityKeyPair>>]. *)
  PSession : Type;
  init_from_prekey : IdentityKeyPair -> PreKeyBundle -> option PSession;
  init_from_message : IdentityKeyPair -> Envelope -> Database -> option (PSession * bytes) * Database;
  session_serialise : PSession -> option bytes;
  session_deserialise : IdentityKeyPair -> bytes -> option PSession;
  (** [encrypt] followed by [serialise] of the envelope. *)
  session_encrypt : bytes -> PSession -> option bytes * PSession;
  session_decrypt : Envelope -> PSession -> Database -> option bytes * (PSession * Database);
  local_identity : PSession -> IdentityKeyPair;
  remote_fingerprint : PSession -> bytes;
}.

(** The library reaches the database through the trait [PreKeyStore] only. *)
Inductive prekey_calls `{X : Externals} : Database -> Database -> Prop :=
  | prekeys_unchanged db : prekey_calls db db
  | prekeys_removed id db db' : prekey_calls (snd (prekey_remove id db)) db' -> prekey_calls db db'.

Class ProteusLibLaws `{X : Externals} (P : ProteusLib) : Prop := {
  identity_lengths k : length (identity_secret k) = 64 /\ length (identity_public k) = 32;
  identity_raw k : from_raw_key_pair (identity_secret k) (identity_public k) = Some k;
  session_roundtrip s raw : session_serialise s = Some raw -> session_deserialise (local_identity s) raw = Some s;
  deserialised_identity i raw s : session_deserialise i raw = Some s -> local_identity s = i;
  init_prekey_identity i b s : init_from_prekey i b = Some s -> local_identity s = i;
  init_message_identity i e db s m db' :
    init_from_message i e db = (Some (s, m), db') -> local_identity s = i;
  init_message_calls i e db r db' : init_from_message i e db = (r, db') -> prekey_calls db db';
  encrypt_identity m s r s' : session_encrypt m s = (r, s') -> local_identity s' = local_identity s;
  decrypt_identity e s db r s' db' :
    session_decrypt e s db = (r, (s', db')) -> local_identity s' = local_identity s;
  decrypt_calls e s db r s' db' : session_decrypt e s db = (r, (s', db')) -> prekey_calls db db';
}.

Section proteus_sessions.
Context `{X : Externals, O : OpenMls, P : ProteusLib} {M : Type} `{!LruMap M nat}.

(** ** Data *)

(** [ProteusConversationSession]. *)
Record ProteusConversationSession : Type := MkPSession {
  identifier : bytes;
  proteus_session : PSession;
}.

(** [ProteusCentral] with its [ProteusSessionCache], whose identity is the same. *)
Record ProteusCentral : Type := MkCentral {
  proteus_identity : IdentityKeyPair;
  entries : M;
  cells : list ProteusConversationSession;
}.

(** What the operations of a central work on. *)
Record CentralState : Type := MkCentralState { central : ProteusCentral; keystore : Database }.

Abbreviation pc A := (st CentralState CoreError A).

Definition set_entries (m : M) (s : CentralState) : CentralState :=
  MkCentralState (MkCentral (proteus_identity (central s)) m (cells (central s))) (keystore s).
Definition set_cells (l : list ProteusConversationSession) (s : CentralState) : CentralState :=
  MkCentralState (MkCentral (proteus_identity (central s)) (entries (central s)) l) (keystore s).
Definition set_keystore (db : Database) (s : CentralState) : CentralState := MkCentralState (central s) db.

(** A call on the database. *)
Definition on_keystore {A} (f : Database -> kres A * Database) : pc A := fun s =>
  let '(r, db) := f (keystore s) in (map_err CoreKeystore r, set_keystore db s).

Definition proteus_error {A} (o : option A) : res CoreError A := ok_or o (CoreProteus ProteusLibraryError).

(** ** Identity *)

(** [ProteusIdentity::sk_raw] and [pk_raw]: the slice panics on shorter keys. *)
Definition raw_slice (n : nat) (bs : bytes) : res CoreError bytes :=
  if decide (n <= length bs) then Ok (firstn n bs) else Panic.

(** [ProteusCentral::create_identity]. *)
Definition create_identity : st Database CoreError IdentityKeyPair := fun db =>
  let kp := identity_new in
  let '(r, db) := kv_save None (Entity.ProteusIdentity
    {| identity_sk := identity_secret kp; identity_pk := identity_public kp |}) db in
  (map_err CoreKeystore ((fun _ => kp) <$> r), db).

(** [ProteusCentral::load_or_create_identity]. *)
Definition load_or_create_identity : st Database CoreError IdentityKeyPair := fun db =>
  match kv_get EntityType.ProteusIdentity (PkUnit ()) db with
  | Ok (Some (Entity.ProteusIdentity i)) =>
      (sk ← raw_slice 64 (identity_sk i);
       pk ← raw_slice 32 (identity_pk i);
       proteus_error (from_raw_key_pair sk pk), db)
  | Ok _ => create_identity db
  | Err e => (Err (CoreKeystore e), db)
  | Panic => (Panic, db)
  end.

(** [ProteusSessionCache::new] and [ProteusCentral::try_new]. *)
Definition session_cache_new : M := lru_new 200.

Definition try_new : st Database CoreError ProteusCentral :=
  i ← load_or_create_identity; mret (MkCentral i session_cache_new []).

(** [ProteusCentral::fingerprint]. *)
Definition fingerprint (c : ProteusCentral) : bytes := identity_fingerprint (proteus_identity c).

(** ** The cache *)

(** [ProteusSessionCache::insert]; the entry just inserted is expected. *)
Definition cache_session (session : ProteusConversationSession) : pc nat := fun s =>
  let key := identifier session in
  let h := length (cells (central s)) in
  let '(o, m) := lru_get key (lru_insert key h (entries (central s))) in
  (match o with Some h => Ok h | None => Panic end, set_entries m (set_cells (cells (central s) ++ [session]) s)).

(** [ProteusSessionCache::get_or_fetch]. *)
Definition get_or_fetch_session (id : bytes) : pc (option nat) := fun s =>
  match lru_peek id (entries (central s)) with
  | Some _ => let '(o, m) := lru_get id (entries (central s)) in (Ok o, set_entries m s)
  | None =>
      match kv_get EntityType.ProteusSession (PkString {| str_bytes := id |}) (keystore s) with
      | Ok (Some (Entity.ProteusSession raw)) =>
          match session_deserialise (proteus_identity (central s)) (session_session raw) with
          | None => (Err (CoreProteus ProteusLibraryError), s)
          | Some session =>
              let key := session_id raw in
              let h := length (cells (central s)) in
              let '(o, m) := lru_get key (lru_insert key h (entries (central s))) in
              (Ok o, set_entries m (set_cells (cells (central s) ++ [MkPSession key session]) s))
          end
      | Ok _ => (Ok None, s)
      | Err e => (Err (CoreKeystore e), s)
      | Panic => (Panic, s)
      end
  end.

(** [ProteusSessionCache::remove]. *)
Definition forget_session (id : bytes) : pc () := fun s =>
  (Ok (), set_entries (snd (lru_remove id (entries (central s)))) s).

(** ** Sessions *)

(** The session behind a reference. *)
Definition deref (h : nat) : pc ProteusConversationSession :=
  st_lift (fun s => match cells (central s) !! h with Some c => Ok c | None => Panic end).

(** Writing through a reference. *)
Definition store_session (h : nat) (session : PSession) : pc () := fun s =>
  (Ok (), set_cells (alter (fun c => MkPSession (identifier c) session) h (cells (central s))) s).

(** [ProteusCentral::session_save_by_ref]. *)
Definition session_save_by_ref (h : nat) : pc () :=
  c ← deref h;
  raw ← st_lift (fun _ => proteus_error (session_serialise (proteus_session c)));
  _ ← on_keystore (kv_save None (Entity.ProteusSession {| session_id := identifier c; session_session := raw |}));
  mret ().

(** [ProteusCentral::session_from_prekey]. *)
Definition session_from_prekey (id : bytes) (key : bytes) : pc nat :=
  prekey ← st_lift (fun _ => proteus_error (bundle_deserialise key));
  session ← st_lift (fun s => proteus_error (init_from_prekey (proteus_identity (central s)) prekey));
  cache_session (MkPSession id session).

(** [ProteusCentral::session_from_message]. *)
Definition session_from_message (id : bytes) (envelope : bytes) : pc (nat * bytes) :=
  message ← st_lift (fun _ => proteus_error (envelope_deserialise envelope));
  '(session, payload) ← st_of (fun s =>
    let '(o, db) := init_from_message (proteus_identity (central s)) message (keystore s) in
    (proteus_error o, set_keystore db s));
  h ← cache_session (MkPSession id session);
  mret (h, payload).

(** [ProteusCentral::session_save]. *)
Definition session_save (id : bytes) : pc () :=
  o ← get_or_fetch_session id;
  match o with Some h => session_save_by_ref h | None => mret () end.

(** [ProteusCentral::session_delete]: whatever the keystore answers, the call
    succeeds. *)
Definition session_delete (id : bytes) : pc () :=
  st_try (on_keystore (kv_remove EntityType.ProteusSession (PkString {| str_bytes := id |}))) (fun r =>
    match r with Ok _ => forget_session id | _ => mret () end).

(** [ProteusCentral::session_exists]. *)
Definition session_exists (id : bytes) : pc bool :=
  st_try (get_or_fetch_session id) (fun r => mret (match r with Ok (Some _) => true | _ => false end)).

(** The session, or the error of [decrypt], [encrypt] and the fingerprints. *)
Definition expect_session (id : bytes) : pc nat :=
  o ← get_or_fetch_session id;
  st_lift (fun _ => ok_or o (CoreProteus (ProteusLeaf (ConversationNotFound id)))).

(** [ProteusCentral::fingerprint_local] and [fingerprint_remote]. *)
Definition fingerprint_local (id : bytes) : pc bytes :=
  h ← expect_session id; c ← deref h; mret (identity_fingerprint (local_identity (proteus_session c))).

Definition fingerprint_remote (id : bytes) : pc bytes :=
  h ← expect_session id; c ← deref h; mret (remote_fingerprint (proteus_session c)).

(** ** Messages *)

(** [ProteusConversationSession::encrypt] and [decrypt], through a reference. *)
Definition encrypt_with (h : nat) (plaintext : bytes) : pc bytes :=
  c ← deref h;
  let '(o, session) := session_encrypt plaintext (proteus_session c) in
  _ ← store_session h session;
  st_lift (fun _ => proteus_error o).

Definition decrypt_with (h : nat) (ciphertext : bytes) : pc bytes :=
  envelope ← st_lift (fun _ => proteus_error (envelope_deserialise ciphertext));
  c ← deref h;
  o ← st_of (fun s =>
    let '(o, (session, db)) := session_decrypt envelope (proteus_session c) (keystore s) in
    (Ok o, snd (store_session h session (set_keystore db s))));
  st_lift (fun _ => proteus_error o).

(** [ProteusCentral::decrypt]. *)
Definition central_decrypt (id : bytes) (ciphertext : bytes) : pc bytes :=
  h ← expect_session id;
  plaintext ← decrypt_with h ciphertext;
  _ ← session_save_by_ref h;
  mret plaintext.

(** [ProteusCentral::encrypt]. *)
Definition central_encrypt (id : bytes) (plaintext : bytes) : pc bytes :=
  h ← expect_session id;
  ciphertext ← encrypt_with h plaintext;
  _ ← session_save_by_ref h;
  mret ciphertext.

(** [ProteusCentral::encrypt_batched]. *)
Fixpoint encrypt_batched_loop (sessions : list bytes) (plaintext : bytes) (acc : gmap bytes bytes) :
    pc (gmap bytes bytes) :=
  match sessions with
  | [] => mret acc
  | id :: sessions =>
      o ← get_or_fetch_session id;
      match o with
      | None => encrypt_batched_loop sessions plaintext acc
      | Some h =>
          c ← deref h;
          ciphertext ← encrypt_with h plaintext;
          _ ← session_save_by_ref h;
          encrypt_batched_loop sessions plaintext (<[identifier c := ciphertext]> acc)
      end
  end.

Definition encrypt_batched (sessions : list bytes) (plaintext : bytes) : pc (gmap bytes bytes) :=
  encrypt_batched_loop sessions plaintext ∅.

(** [ProteusCentral::fingerprint_prekeybundle]. *)
Definition fingerprint_prekeybundle (prekey : bytes) : res CoreError bytes :=
  bundle_fingerprint <$> proteus_error (bundle_deserialise prekey).

(** Prekeys of a central. *)
Definition central_prekey {A} (f : IdentityKeyPair -> Database -> res CoreError A * Database) : pc A := fun s =>
  let '(r, db) := f (proteus_identity (central s)) (keystore s) in (r, set_keystore db s).

(** ** The transaction context *)

(** The core with its Proteus client, which the model of the other parts leaves
    out, and the current context. *)
Record ProteusWorld : Type := MkPWorld {
  pworld : World M;
  proteus : option ProteusCentral;
}.

Abbreviation ptx A := (st ProteusWorld TransactionError A).

Definition proteus_database (w : ProteusWorld) : Database := database (core (pworld w)).

(** [&core_crypto.proteus.lock().await] with the database of the context. *)
Definition run_central {A} (m : pc A) (c : ProteusCentral) (w : ProteusWorld) : res CoreError A * ProteusWorld :=
  let '(r, s) := m (MkCentralState c (proteus_database w)) in
  (r, MkPWorld (set_core (set_database (keystore s) (core (pworld w))) (pworld w)) (Some (central s))).

Definition with_proteus {A} (m : pc A) : ptx A := fun w =>
  match context (pworld w), proteus w with
  | Invalid, _ => (Err InvalidTransactionContext, w)
  | Valid _, None => (Err ProteusNotInitialized, w)
  | Valid _, Some c =>
      let '(r, w) := run_central m c w in (map_err (fun e => TxRecursive (Root e)) r, w)
  end.

(** The client [proteus_init] makes; the last resort prekey exists afterwards. *)
Definition make_client : st Database CoreError ProteusCentral :=
  c ← try_new;
  _ ← last_resort_prekey prekey_last_resort prekey_serialise prekey_deserialise
        (bundle_serialise (proteus_identity c));
  mret c.

(** [TransactionContext::proteus_init]. *)
Definition proteus_init : ptx () := fun w =>
  match context (pworld w) with
  | Invalid => (Err InvalidTransactionContext, w)
  | Valid _ =>
      let '(r, db) := make_client (proteus_database w) in
      let pw := set_core (set_database db (core (pworld w))) (pworld w) in
      match r with
      | Ok c => (Ok (), MkPWorld pw (Some c))
      | Err e => (Err (TxRecursive (Root e)), MkPWorld pw (proteus w))
      | Panic => (Panic, MkPWorld pw (proteus w))
      end
  end.

(** [TransactionContext::proteus_session_from_prekey] and [proteus_session_from_message]. *)
Definition proteus_session_from_prekey (id prekey : bytes) : ptx () :=
  with_proteus (h ← session_from_prekey id prekey; session_save_by_ref h).

Definition proteus_session_from_message (id envelope : bytes) : ptx bytes :=
  with_proteus ('(h, message) ← session_from_message id envelope; _ ← session_save_by_ref h; mret message).

(** The operations that only pass on to the central. *)
Definition proteus_session_save (id : bytes) : ptx () := with_proteus (session_save id).
Definition proteus_session_delete (id : bytes) : ptx () := with_proteus (session_delete id).
Definition proteus_session_exists (id : bytes) : ptx bool := with_proteus (session_exists id).
Definition proteus_decrypt (id ciphertext : bytes) : ptx bytes := with_proteus (central_decrypt id ciphertext).
Definition proteus_encrypt (id plaintext : bytes) : ptx bytes := with_proteus (central_encrypt id plaintext).
Definition proteus_encrypt_batched (sessions : list bytes) (plaintext : bytes) : ptx (gmap bytes bytes) :=
  with_proteus (encrypt_batched sessions plaintext).
Definition proteus_new_prekey (id : Z) : ptx bytes :=
  with_proteus (central_prekey (fun i => new_prekey prekey_new prekey_serialise (bundle_serialise i) id)).
Definition proteus_new_prekey_auto : ptx (Z * bytes) :=
  with_proteus (central_prekey (fun i => new_prekey_auto prekey_new prekey_serialise (bundle_serialise i))).
Definition proteus_last_resort_prekey : ptx bytes :=
  with_proteus (central_prekey (fun i =>
    last_resort_prekey prekey_last_resort prekey_serialise prekey_deserialise (bundle_serialise i))).
Definition proteus_fingerprint : ptx bytes := with_proteus (st_lift (fun s => Ok (fingerprint (central s)))).
Definition proteus_fingerprint_local (id : bytes) : ptx bytes := with_proteus (fingerprint_local id).
Definition proteus_fingerprint_remote (id : bytes) : ptx bytes := with_proteus (fingerprint_remote id).

(** The operations of [CoreCrypto] itself need no transaction. *)
Definition core_proteus {A} (m : pc A) : st ProteusWorld CoreError A := fun w =>
  match proteus w with
  | None => (Err CoreProteusNotInitialized, w)
  | Some c => run_central m c w
  end.

Definition core_proteus_session_exists (id : bytes) : st ProteusWorld CoreError bool :=
  core_proteus (session_exists id).
Definition core_proteus_fingerprint : st ProteusWorld CoreError bytes :=
  core_proteus (st_lift (fun s => Ok (fingerprint (central s)))).
Definition core_proteus_fingerprint_local (id : bytes) : st ProteusWorld CoreError bytes :=
  core_proteus (fingerprint_local id).
Definition core_proteus_fingerprint_remote (id : bytes) : st ProteusWorld CoreError bytes :=
  core_proteus (fingerprint_remote id).

(** A step of the other parts, such as ending the transaction, leaves the Proteus
    client alone. *)
Definition beside_proteus {E A} (m : st (World M) E A) : st ProteusWorld E A := fun w =>
  let '(r, pw) := m (pworld w) in (r, MkPWorld pw (proteus w)).
End proteus_sessions.

(** ** A concrete library: a session remembers the first bytes of the messages it
    has decrypted and refuses them from then on. *)
Definition toy_decrypt (e : bytes) (s : Byte.byte * bytes) : option bytes * (Byte.byte * bytes) :=
  match e with
  | [] => (None, s)
  | b :: _ => if decide (b ∈ s.2) then (None, s) else (Some e, (s.1, b :: s.2))
  end.

#[export] Instance toy_proteus : ProteusLib := {|
  IdentityKeyPair := Byte.byte;
  identity_new := Byte.x01;
  identity_secret := replicate 64;
  identity_public := replicate 32;
  from_raw_key_pair sk _ := head sk;
  identity_fingerprint k := [k];
  PreKey := bytes;
  prekey_new := to_le_bytes 2;
  prekey_last_resort := bstr "last";
  prekey_serialise := Some;
  prekey_deserialise := Some;
  bundle_serialise k p := Some (k :: p);
  PreKeyBundle := bytes;
  bundle_deserialise := Some;
  bundle_fingerprint b := b;
  Envelope := bytes;
  envelope_deserialise := Some;
  PSession := Byte.byte * bytes;
  init_from_prekey k _ := Some (k, []);
  init_from_message k e db := (Some ((k, []), e), snd (prekey_remove 1 db));
  session_serialise s := Some (s.1 :: s.2);
  session_deserialise k raw :=
    match raw with k' :: seen => if decide (k' = k) then Some (k, seen) else None | [] => None end;
  session_encrypt m s := (Some (s.1 :: m), s);
  session_decrypt e s db := let '(o, s) := toy_decrypt e s in (o, (s, db));
  local_identity := fst;
  remote_fingerprint := snd;
|}.

#[export] Instance toy_proteus_laws : ProteusLibLaws toy_proteus.
Proof.
  assert (forall e s, (snd (toy_decrypt e s)).1 = s.1) as Ht.
  { intros e s. unfold toy_decrypt. destruct e; [done|]. by case_decide. }
  split; cbn.
  - done.
  - done.
  - intros [k seen] raw [= <-]. cbn. by rewrite decide_True.
  - intros k [|k' raw] s; [done|]. case_decide; [|done]. by intros [= <-].
  - by intros k b s [= <-].
  - by intros k e db s m db' [= <- <- <-].
  - intros k e db r db' [= _ <-]. eapply prekeys_removed, prekeys_unchanged.
  - by intros m s r s' [= _ <-].
  - intros e s db r s' db'. specialize (Ht e s). destruct (toy_decrypt e s). by intros [= _ <- _].
  - intros e s db r s' db'. destruct (toy_decrypt e s). intros [= _ _ <-]. constructor.
Qed.
