(* ===== verification/ProteusProps.v ===== *)
(** * The cache of Proteus sessions

    While the operations of a transaction succeed, the cache is transparent: every
    operation works on the session the keystore has.  What aborting a transaction
    and restarting do to it. *)

From S2P Require Import Prelude Keys EntityTypes Entities ToyExternals Sql KeystoreErrors EntityStore Store Transaction TransactionInvariant TransactionCommit Database DatabaseProps KeystoreDivergence EntityKV KeystoreMls CryptoErrors OpenMls ConversationCache TransactionContext TransactionContextProps ProteusPrekeys ProteusSessions.
From Stdlib Require Import Lia ZArith.

Section proteus.
Context `{X : Externals, !ExternalsLaws X, P : ProteusLib, !ProteusLibLaws P}.
Context {M : Type} `{!LruMap M nat, !LruMapLaws M nat}.
Abbreviation CentralState := (CentralState (M := M)).
Abbreviation pc A := (st CentralState CoreError A).

(** ** Sessions in the keystore *)

Definition session_key (id : bytes) : PrimaryKey := PkString {| str_bytes := id |}.

(** The record of a session, and the session in it. *)
Definition stored_record (id : bytes) (db : Database) : kres (option Entity.t) :=
  kv_get EntityType.ProteusSession (session_key id) db.

Definition stored_session (i : IdentityKeyPair) (id : bytes) (db : Database) : option PSession :=
  match stored_record id db with
  | Ok (Some (Entity.ProteusSession raw)) => session_deserialise i (session_session raw)
  | _ => None
  end.

Lemma session_key_ok id : utf8_valid id = true -> pk_ok EntityType.ProteusSession (session_key id).
Proof. done. Qed.

(** The same sessions are stored. *)
Definition same_sessions (db db' : Database) : Prop :=
  (in_transaction db -> in_transaction db') /\
  forall id, utf8_valid id = true -> in_transaction db -> stored_record id db' = stored_record id db.

#[local] Instance same_sessions_preorder : PreOrder same_sessions.
Proof.
  split; [done|]. intros a b c [H1 H2] [H3 H4]. split; [auto|]. intros id Hid Ha. rewrite H4, H2; auto.
Qed.

Lemma prekey_calls_sessions db db' : prekey_calls db db' -> same_sessions db db'.
Proof.
  induction 1 as [|id db db' _ IH]; [done|]. etrans; [|exact IH]. unfold prekey_remove.
  split.
  - intros Hdb. by destruct (kv_remove_total (inv := in_transaction) EntityType.ProteusPrekey (PkU16 (MkUInt id)) db Hdb)
      as (d & -> & ? & _).
  - intros sid Hs Hdb.
    destruct (kv_remove_total (inv := in_transaction) EntityType.ProteusPrekey (PkU16 (MkUInt id)) db Hdb)
      as (d & -> & _ & Hg). cbn [snd]. unfold stored_record. rewrite Hg by done. by rewrite decide_False.
Qed.

Lemma save_session id raw db :
  in_transaction db -> utf8_valid id = true ->
  exists db', kv_save None (Entity.ProteusSession {| session_id := id; session_session := raw |}) db = (Ok None, db') /\
    in_transaction db' /\
    forall id', utf8_valid id' = true -> stored_record id' db' =
      if decide (id' = id) then Ok (Some (Entity.ProteusSession {| session_id := id; session_session := raw |}))
      else stored_record id' db.
Proof.
  intros Hdb Hid. set (e := Entity.ProteusSession _).
  destruct (kv_save_total (inv := in_transaction) None e db None e) as (db' & Hs & Hdb' & Hg); [done..|].
  exists db'. split; [done|]. split; [done|]. intros id' Hid'. unfold stored_record. rewrite Hg by done.
  destruct (decide (id' = id)) as [->|Hne]; [by rewrite decide_True|].
  rewrite decide_False; [done|]. by injection 1.
Qed.

Lemma remove_session id db :
  in_transaction db -> utf8_valid id = true ->
  exists db', kv_remove EntityType.ProteusSession (session_key id) db = (Ok (), db') /\ in_transaction db' /\
    forall id', utf8_valid id' = true -> stored_record id' db' =
      if decide (id' = id) then Ok None else stored_record id' db.
Proof.
  intros Hdb Hid.
  destruct (kv_remove_total (inv := in_transaction) EntityType.ProteusSession (session_key id) db Hdb)
    as (db' & Hr & Hdb' & Hg).
  exists db'. split; [done|]. split; [done|]. intros id' Hid'. unfold stored_record. rewrite Hg by done.
  destruct (decide (id' = id)) as [->|Hne]; [by rewrite decide_True|].
  rewrite decide_False; [done|]. by injection 1.
Qed.

(** A stored session is stored under its id. *)
Lemma stored_record_id id db raw :
  in_transaction db -> utf8_valid id = true ->
  stored_record id db = Ok (Some (Entity.ProteusSession raw)) -> session_id raw = id.
Proof.
  intros [Hdb _] Hid Hr. apply string_keyed_filed in Hr as (_ & [= ->] & _); done.
Qed.
(** ** The invariant *)

(** The cache files every session under its id, for the identity of the client. *)
Definition cache_ok (c : ProteusCentral (M := M)) : Prop :=
  lru_limit (entries c) <> 0 /\
  forall id h, lru_peek id (entries c) = Some h -> utf8_valid id = true /\
    exists ps, cells c !! h = Some ps /\ identifier ps = id /\ local_identity (proteus_session ps) = proteus_identity c.

Definition cached_session (c : ProteusCentral (M := M)) (id : bytes) : option PSession :=
  h ← lru_peek id (entries c); proteus_session <$> cells c !! h.

(** The session the keystore has for an id. *)
Definition kept (s : CentralState) (id : bytes) : option PSession :=
  stored_session (proteus_identity (central s)) id (keystore s).

Definition agrees (s : CentralState) (id : bytes) : Prop :=
  forall session, cached_session (central s) id = Some session -> kept s id = Some session.

Definition sessions_inv (s : CentralState) : Prop :=
  in_transaction (keystore s) /\ cache_ok (central s) /\ forall id, agrees s id.

(** From [s] to [s'] the sessions of the keystore change at [id] only. *)
Definition becomes (id : bytes) (o : option PSession) (s s' : CentralState) : Prop :=
  sessions_inv s' /\ proteus_identity (central s') = proteus_identity (central s) /\
  forall id', utf8_valid id' = true -> kept s' id' = if decide (id' = id) then o else kept s id'.

(** A new cell for an id. *)
Lemma insert_cell c id session m o :
  cache_ok c -> utf8_valid id = true -> local_identity session = proteus_identity c ->
  lru_get id (lru_insert id (length (cells c)) (entries c)) = (o, m) ->
  let c' := MkCentral (proteus_identity c) m (cells c ++ [MkPSession id session]) in
  o = Some (length (cells c)) /\ cache_ok c' /\ lru_peek id m = Some (length (cells c)) /\
  cached_session c' id = Some session /\
  forall id', id' <> id -> cached_session c' id' = None \/ cached_session c' id' = cached_session c id'.
Proof.
  intros [Hl Hc] Hid Hi Hget c'.
  assert (forall k, lru_peek k m = lru_peek k (lru_insert id (length (cells c)) (entries c))) as Hpk.
  { intros k. change m with (snd (o, m)). rewrite <- Hget. apply lru_peek_get. }
  pose proof (lru_peek_inserted id (length (cells c)) (entries c) Hl) as Hin.
  assert (cells c' !! length (cells c) = Some (MkPSession id session)) as Hcell.
  { cbn. by rewrite lookup_app_r, Nat.sub_diag by done. }
  assert (forall k h, k <> id -> lru_peek k m = Some h ->
    exists ps, lru_peek k (entries c) = Some h /\ cells c !! h = Some ps /\ cells c' !! h = Some ps) as Hold.
  { intros k h Hk Hp. rewrite Hpk in Hp. apply lru_peek_insert in Hp as [[-> _]|[_ Hp]]; [done|].
    destruct (Hc _ _ Hp) as (_ & ps & Hps & _). exists ps. split; [done|]. split; [done|]. cbn.
    by apply lookup_app_l_Some. }
  split. { change o with (fst (o, m)). by rewrite <- Hget, lru_get_peek. }
  split; [split|split; [by rewrite Hpk|split]].
  - cbn. change m with (snd (o, m)). by rewrite <- Hget, lru_limit_get, lru_limit_insert.
  - intros k h Hp. cbn in Hp. destruct (decide (k = id)) as [->|Hk].
    + rewrite Hpk, Hin in Hp. injection Hp as <-. split; [done|]. eauto.
    + destruct (Hold k h Hk Hp) as (ps & Hp' & Hps & Hps'). destruct (Hc _ _ Hp') as (? & ps' & ? & ?).
      split; [done|]. exists ps. split; [done|]. by simplify_eq.
  - unfold cached_session. change (entries c') with m. rewrite Hpk, Hin. cbn [mbind option_bind]. by rewrite Hcell.
  - intros id' Hne. unfold cached_session. cbn [entries c']. destruct (lru_peek id' m) as [h|] eqn:Hp; [right|by left].
    destruct (Hold id' h Hne Hp) as (ps & -> & Hps & Hps'). cbn [mbind option_bind]. by rewrite Hps, Hps'.
Qed.

(** Looking up a session. *)
Lemma get_or_fetch_spec id s r s' :
  sessions_inv s -> utf8_valid id = true -> get_or_fetch_session id s = (r, s') ->
  sessions_inv s' /\ keystore s' = keystore s /\ proteus_identity (central s') = proteus_identity (central s) /\
  match r with
  | Ok (Some h) => exists ps, lru_peek id (entries (central s')) = Some h /\ cells (central s') !! h = Some ps /\
      identifier ps = id /\ kept s id = Some (proteus_session ps)
  | _ => kept s id = None
  end.
Proof.
  intros (Hdb & Hc & Ha) Hid. unfold get_or_fetch_session.
  destruct (lru_peek id (entries (central s))) as [h|] eqn:Hp.
  - destruct (lru_get id _) as [o m] eqn:Hget. intros [= <- <-].
    assert (forall k, lru_peek k m = lru_peek k (entries (central s))) as Hpk.
    { intros k. change m with (snd (o, m)). rewrite <- Hget. apply lru_peek_get. }
    assert (o = Some h) as -> by (change o with (fst (o, m)); by rewrite <- Hget, lru_get_peek).
    destruct (proj2 Hc id h Hp) as (_ & ps & Hps & Hi & Hl). split; [|split; [done|split; [done|]]].
    + split; [done|]. split; [split|].
      * cbn. change m with (snd (Some h, m)). rewrite <- Hget, lru_limit_get. apply Hc.
      * intros k h'. cbn. rewrite Hpk. apply Hc.
      * intros k session. unfold cached_session. cbn. rewrite Hpk. apply (Ha k).
    + exists ps. cbn. rewrite Hpk. split; [done|]. split; [done|]. split; [done|]. apply Ha.
      unfold cached_session. rewrite Hp. cbn. by rewrite Hps.
  - unfold kept, stored_session. fold (session_key id). fold (stored_record id (keystore s)).
    destruct (stored_record id (keystore s)) as [[e|]|e|] eqn:Hr; [|by intros [= <- <-]..].
    destruct e as [| | | | | | | | | | | | | | | | | raw]; try by intros [= <- <-].
    apply stored_record_id in Hr as Hraw; [|done..]. rewrite Hraw.
    destruct (session_deserialise _ _) as [session|] eqn:Hd; [|by intros [= <- <-]].
    destruct (lru_get id _) as [o m] eqn:Hget. intros [= <- <-].
    destruct (insert_cell (central s) id session m o Hc Hid (deserialised_identity _ _ _ Hd) Hget)
      as (-> & Hok & Hpk & Hself & Hother).
    assert (kept s id = Some session) as Hk by (unfold kept, stored_session; by rewrite Hr, Hd).
    split; [|split; [done|split; [done|]]].
    + split; [done|]. split; [done|]. intros k session' Hs. unfold set_entries, set_cells in Hs; cbn in Hs.
      destruct (decide (k = id)) as [->|Hne].
      * rewrite Hself in Hs. by injection Hs as <-.
      * destruct (Hother k Hne) as [Hn|He]; [by rewrite Hn in Hs|]. apply (Ha k). by rewrite <- He.
    + exists (MkPSession id session). split; [done|]. split; [|done]. cbn.
      by rewrite lookup_app_r, Nat.sub_diag by done.
Qed.
(** ** Saving *)

(** The invariant, except that the session of [id] is ahead of the keystore. *)
Definition ahead (id : bytes) (h : nat) (session : PSession) (s : CentralState) : Prop :=
  in_transaction (keystore s) /\ cache_ok (central s) /\ (forall id', id' <> id -> agrees s id') /\
  lru_peek id (entries (central s)) = Some h /\ cells (central s) !! h = Some (MkPSession id session).

Lemma ahead_cached id h session s : ahead id h session s -> cached_session (central s) id = Some session.
Proof. intros (_ & _ & _ & Hp & Hc). unfold cached_session. rewrite Hp. cbn. by rewrite Hc. Qed.

(** Saving a session brings the keystore up to date. *)
Lemma save_by_ref_spec id h session s s' :
  ahead id h session s -> session_save_by_ref h s = (Ok (), s') -> becomes id (Some session) s s'.
Proof.
  intros Hah. pose proof (ahead_cached _ _ _ _ Hah) as Hself. destruct Hah as (Hdb & Hc & Ha & Hp & Hcell).
  destruct (proj2 Hc id h Hp) as (Hid & ps & Hps & _ & Hl). rewrite Hcell in Hps. injection Hps as <-. cbn in Hl.
  unfold session_save_by_ref, deref, st_lift, proteus_error, mbind, st_bind. rewrite Hcell. cbn [proteus_session identifier].
  destruct (session_serialise session) as [raw|] eqn:Hraw; [|done]. cbn [ok_or]. unfold on_keystore.
  destruct (save_session id raw (keystore s) Hdb Hid) as (db' & -> & Hdb' & Hg). intros [= <-].
  assert (forall id', utf8_valid id' = true -> kept (set_keystore db' s) id' =
    if decide (id' = id) then Some session else kept s id') as Hk.
  { intros id' Hid'. unfold kept, stored_session. cbn [keystore set_keystore central]. rewrite Hg by done. destruct (decide (id' = id)); [|done].
    rewrite <- Hl. by apply session_roundtrip. }
  split; [|by split]. split; [done|]. split; [done|]. intros id' session' Hs. rewrite Hk.
  - destruct (decide (id' = id)) as [->|Hne]; [|by apply Ha]. cbn in Hs. congruence.
  - unfold cached_session in Hs. destruct (lru_peek id' _) as [h'|] eqn:Hp'; [|done]. by apply Hc in Hp' as [? _].
Qed.

Lemma save_by_ref_central h (s : CentralState) r s' : session_save_by_ref h s = (r, s') -> central s' = central s.
Proof.
  unfold session_save_by_ref, deref, st_lift, on_keystore, mbind, st_bind.
  destruct (cells (central s) !! h) as [ps|]; [|by intros [= _ <-]].
  destruct (proteus_error _); [|by intros [= _ <-]..]. destruct (kv_save _ _ _) as [[] d]; by intros [= _ <-].
Qed.

(** Writing a session through a reference of the cache. *)
Lemma store_session_ahead id h ps session db s :
  sessions_inv s -> lru_peek id (entries (central s)) = Some h -> cells (central s) !! h = Some ps ->
  local_identity session = proteus_identity (central s) -> same_sessions (keystore s) db ->
  ahead id h session (snd (store_session h session (set_keystore db s))).
Proof.
  intros (Hdb & Hc & Ha) Hp Hcell Hl [Hin Hsame].
  destruct (proj2 Hc id h Hp) as (Hid & ps' & Hps & Hi & _). rewrite Hcell in Hps. injection Hps as <-.
  set (c' := MkPSession id session).
  assert (alter (fun c => MkPSession (identifier c) session) h (cells (central s)) !! h = Some c') as Hnew.
  { rewrite list_lookup_alter_eq, Hcell. cbn. by rewrite Hi. }
  assert (forall k h', k <> id -> lru_peek k (entries (central s)) = Some h' ->
    alter (fun c => MkPSession (identifier c) session) h (cells (central s)) !! h' = cells (central s) !! h') as Hold.
  { intros k h' Hk Hpk. apply list_lookup_alter_ne. intros ->. apply Hk.
    destruct (proj2 Hc k h' Hpk) as (_ & ps' & Hps' & <- & _). congruence. }
  split; [by apply Hin|]. split; [split; [apply Hc|]|split; [|by split]].
  - intros k h' Hpk. cbn in Hpk. destruct (proj2 Hc k h' Hpk) as (Hk8 & ps' & Hps' & Hi' & Hl'). split; [done|].
    destruct (decide (k = id)) as [->|Hk].
    + rewrite Hp in Hpk. injection Hpk as <-. by exists c'.
    + exists ps'. split; [|done]. cbn. by rewrite (Hold k).
  - intros k Hk session'. unfold cached_session. cbn. destruct (lru_peek k _) as [h'|] eqn:Hpk; [|done]. cbn.
    rewrite (Hold k) by done. intros Hs. unfold kept, stored_session. cbn [keystore set_keystore central].
    rewrite Hsame by (try done; by apply Hc in Hpk as [? _]). apply (Ha k). unfold cached_session. by rewrite Hpk.
Qed.

(** A session that has just been created. *)
Lemma cache_session_ahead id session db s h s' :
  sessions_inv s -> utf8_valid id = true -> local_identity session = proteus_identity (central s) ->
  same_sessions (keystore s) db ->
  cache_session (MkPSession id session) (set_keystore db s) = (Ok h, s') ->
  ahead id h session s' /\ keystore s' = db /\ proteus_identity (central s') = proteus_identity (central s).
Proof.
  intros (Hdb & Hc & Ha) Hid Hl [Hin Hsame]. unfold cache_session. cbn.
  destruct (lru_get id _) as [o m] eqn:Hget.
  destruct (insert_cell (central s) id session m o Hc Hid Hl Hget) as (-> & Hok & Hpk & Hself & Hother).
  intros [= <- <-]. split; [|done]. split; [by apply Hin|]. split; [done|]. split; [|split; [done|]].
  - intros k Hk session' Hs. unfold set_entries, set_cells in Hs; cbn in Hs.
    destruct (Hother k Hk) as [Hn|He]; [by rewrite Hn in Hs|]. rewrite He in Hs.
    unfold kept, stored_session. cbn [keystore set_keystore central]. rewrite Hsame; [by apply (Ha k)| |done].
    unfold cached_session in Hs. destruct (lru_peek k _) as [h'|] eqn:Hp'; [|done]. by apply Hc in Hp' as [? _].
  - cbn. by rewrite lookup_app_r, Nat.sub_diag by done.
Qed.

Lemma becomes_trans_same id o s s1 s' :
  (forall id', utf8_valid id' = true -> kept s1 id' = kept s id') ->
  proteus_identity (central s1) = proteus_identity (central s) -> becomes id o s1 s' -> becomes id o s s'.
Proof.
  intros Hk Hi (Hinv & Hi' & Hk'). split; [done|]. split; [congruence|]. intros id' Hid'. rewrite Hk' by done.
  destruct (decide (id' = id)); [done|by apply Hk].
Qed.
(** ** Operations *)

Lemma kept_eq s s' id :
  keystore s' = keystore s -> proteus_identity (central s') = proteus_identity (central s) -> kept s' id = kept s id.
Proof. intros Hk Hi. unfold kept. by rewrite Hk, Hi. Qed.

Lemma set_keystore_same (s : CentralState) : set_keystore (keystore s) s = s.
Proof. by destruct s. Qed.

(** Finding the session for an operation. *)
Definition found (id : bytes) (h : nat) (session : PSession) (s s' : CentralState) : Prop :=
  sessions_inv s' /\ keystore s' = keystore s /\ proteus_identity (central s') = proteus_identity (central s) /\
  lru_peek id (entries (central s')) = Some h /\ cells (central s') !! h = Some (MkPSession id session) /\
  kept s id = Some session.

Lemma get_or_fetch_found id s h s' :
  sessions_inv s -> utf8_valid id = true -> get_or_fetch_session id s = (Ok (Some h), s') ->
  exists session, found id h session s s'.
Proof.
  intros Hinv Hid Hg. destruct (get_or_fetch_spec _ _ _ _ Hinv Hid Hg) as (? & ? & ? & [id' session] & ? & ? & Hi & ?).
  cbn in Hi. subst id'. by exists session.
Qed.

Lemma found_identity id h session s s' :
  found id h session s s' -> local_identity session = proteus_identity (central s').
Proof.
  intros ((_ & Hc & _) & _ & _ & Hp & Hcell & _). destruct (proj2 Hc id h Hp) as (_ & ps & Hps & _ & Hl).
  rewrite Hcell in Hps. by injection Hps as <-.
Qed.

Lemma becomes_found id h session s s1 s2 s' o :
  found id h session s s1 -> (forall id', utf8_valid id' = true -> kept s2 id' = kept s1 id') ->
  proteus_identity (central s2) = proteus_identity (central s1) -> becomes id o s2 s' -> becomes id o s s'.
Proof.
  intros (_ & Hk & Hi & _) Hk2 Hi2. apply becomes_trans_same; [|congruence].
  intros id' Hid'. rewrite Hk2 by done. by apply kept_eq.
Qed.

(** Encrypting with a session and saving it. *)
Lemma encrypt_save_spec id h session plaintext s s1 ciphertext s' :
  found id h session s s1 ->
  (c ← encrypt_with h plaintext; _ ← session_save_by_ref h; mret c) s1 = (Ok ciphertext, s') ->
  exists session', session_encrypt plaintext session = (Some ciphertext, session') /\ becomes id (Some session') s s'.
Proof.
  intros Hf Hrun. pose proof (found_identity _ _ _ _ _ Hf) as Hl. pose proof Hf as (Hinv & _ & _ & Hp & Hcell & _).
  apply st_bind_Ok in Hrun as (c & s2 & Henc & Hrun). apply st_bind_Ok in Hrun as ([] & s3 & Hsave & [= <- <-]).
  unfold encrypt_with, deref, st_lift, mbind, st_bind in Henc. rewrite Hcell in Henc. cbn [proteus_session] in Henc.
  destruct (session_encrypt plaintext session) as [o session'] eqn:He. cbn in Henc.
  destruct o as [ct|]; [|done]. injection Henc as <- <-. exists session'. split; [done|].
  pose proof (store_session_ahead id h _ session' (keystore s1) s1 Hinv Hp Hcell) as Hah.
  rewrite set_keystore_same in Hah. cbn in Hah.
  eapply becomes_found; [exact Hf| | |eapply save_by_ref_spec; [apply Hah|exact Hsave]]; [done..| |done].
  by rewrite (encrypt_identity _ _ _ _ He).
Qed.

Lemma expect_session_Ok id (s : CentralState) h s' :
  expect_session id s = (Ok h, s') -> get_or_fetch_session id s = (Ok (Some h), s').
Proof.
  unfold expect_session. intros ([h'|] & s1 & Hg & Hr)%st_bind_Ok; [|done]. by injection Hr as <- <-.
Qed.

Lemma central_encrypt_spec id plaintext s ciphertext s' :
  sessions_inv s -> utf8_valid id = true -> central_encrypt id plaintext s = (Ok ciphertext, s') ->
  exists session session', kept s id = Some session /\
    session_encrypt plaintext session = (Some ciphertext, session') /\ becomes id (Some session') s s'.
Proof.
  intros Hinv Hid (h & s1 & Hg%expect_session_Ok & Hrun)%st_bind_Ok.
  destruct (get_or_fetch_found _ _ _ _ Hinv Hid Hg) as [session Hf].
  destruct (encrypt_save_spec _ _ _ _ _ _ _ _ Hf Hrun) as (session' & He & Hb). exists session, session'.
  split; [apply Hf|done].
Qed.

Lemma central_decrypt_spec id ciphertext s plaintext s' :
  sessions_inv s -> utf8_valid id = true -> central_decrypt id ciphertext s = (Ok plaintext, s') ->
  exists envelope session session' db, envelope_deserialise ciphertext = Some envelope /\ kept s id = Some session /\
    session_decrypt envelope session (keystore s) = (Some plaintext, (session', db)) /\
    becomes id (Some session') s s' /\ cached_session (central s') id = Some session'.
Proof.
  intros Hinv Hid (h & s1 & Hg%expect_session_Ok & Hrun)%st_bind_Ok.
  destruct (get_or_fetch_found _ _ _ _ Hinv Hid Hg) as [session Hf].
  pose proof (found_identity _ _ _ _ _ Hf) as Hl. pose proof Hf as (Hinv1 & Hks & _ & Hp & Hcell & Hkept).
  apply st_bind_Ok in Hrun as (pt & s2 & Hdec & Hrun). apply st_bind_Ok in Hrun as ([] & s3 & Hsave & [= <- <-]).
  unfold decrypt_with, deref, st_lift, st_of, proteus_error, mbind, st_bind in Hdec. rewrite Hcell in Hdec.
  destruct (envelope_deserialise ciphertext) as [envelope|] eqn:Hen; [|done]. cbn [ok_or proteus_session] in Hdec.
  destruct (session_decrypt envelope session (keystore s1)) as [o [session' db]] eqn:He.
  destruct o as [pt'|]; [|done]. injection Hdec as <- <-. exists envelope, session, session', db.
  split; [done|]. split; [done|]. split; [by rewrite <- Hks|].
  pose proof (prekey_calls_sessions _ _ (decrypt_calls _ _ _ _ _ _ He)) as Hsame.
  assert (ahead id h session' (snd (store_session h session' (set_keystore db s1)))) as Hah.
  { apply (store_session_ahead id h (MkPSession id session)); [done..| |done].
    by rewrite (decrypt_identity _ _ _ _ _ _ He). }
  split; [|rewrite (save_by_ref_central _ _ _ _ Hsave); exact (ahead_cached _ _ _ _ Hah)].
  eapply becomes_found; [exact Hf| | |eapply save_by_ref_spec; [exact Hah|exact Hsave]]; [|done].
  intros id' Hid'. unfold kept, stored_session. cbn [keystore store_session set_cells set_keystore snd central].
  rewrite (proj2 Hsame) by (try done; apply Hinv1). done.
Qed.
(** Nothing changes in the keystore. *)
Definition unchanged (s s' : CentralState) : Prop :=
  sessions_inv s' /\ proteus_identity (central s') = proteus_identity (central s) /\
  forall id', utf8_valid id' = true -> kept s' id' = kept s id'.

Lemma get_or_fetch_unchanged id s r s' :
  sessions_inv s -> utf8_valid id = true -> get_or_fetch_session id s = (r, s') -> unchanged s s'.
Proof.
  intros Hinv Hid Hg. destruct (get_or_fetch_spec _ _ _ _ Hinv Hid Hg) as (? & ? & ? & _).
  split; [done|]. split; [done|]. intros. by apply kept_eq.
Qed.

Lemma found_ahead id h session s s1 : found id h session s s1 -> ahead id h session s1.
Proof. intros ((Hdb & Hc & Ha) & _ & _ & Hp & Hcell & _). by split_and!. Qed.

Lemma create_spec id session db s s' :
  sessions_inv s -> utf8_valid id = true -> local_identity session = proteus_identity (central s) ->
  same_sessions (keystore s) db ->
  (h ← cache_session (MkPSession id session); session_save_by_ref h) (set_keystore db s) = (Ok (), s') ->
  becomes id (Some session) s s'.
Proof.
  intros Hinv Hid Hl Hsame (h & s1 & Hc & Hsave)%st_bind_Ok.
  destruct (cache_session_ahead _ _ _ _ _ _ Hinv Hid Hl Hsame Hc) as (Hah & Hdb & Hi).
  eapply becomes_trans_same; [|exact Hi|by eapply save_by_ref_spec].
  intros id' Hid'. unfold kept, stored_session. rewrite Hdb, Hi, (proj2 Hsame); [done|done|apply Hinv].
Qed.

Lemma from_prekey_spec id key s s' :
  sessions_inv s -> utf8_valid id = true ->
  (h ← session_from_prekey id key; session_save_by_ref h) s = (Ok (), s') ->
  exists bundle session, bundle_deserialise key = Some bundle /\
    init_from_prekey (proteus_identity (central s)) bundle = Some session /\ becomes id (Some session) s s'.
Proof.
  intros Hinv Hid (h & s1 & Hf & Hsave)%st_bind_Ok.
  apply st_bind_Ok in Hf as (bundle & s2 & Hb & Hf). unfold st_lift, proteus_error in Hb.
  destruct (bundle_deserialise key) as [b|] eqn:Hbd; [|done]. injection Hb as <- <-.
  apply st_bind_Ok in Hf as (session & s2 & Hi & Hf). unfold st_lift, proteus_error in Hi.
  destruct (init_from_prekey _ _) as [se|] eqn:Hin; [|done]. injection Hi as <- <-. exists b, se.
  split; [done|]. split; [done|]. eapply (create_spec id se (keystore s)); [done|done| |done|].
  - by eapply init_prekey_identity.
  - rewrite set_keystore_same. unfold mbind, st_bind in Hf |- *. by rewrite Hf.
Qed.

Lemma from_message_spec id envelope s payload s' :
  sessions_inv s -> utf8_valid id = true ->
  ('(h, message) ← session_from_message id envelope; _ ← session_save_by_ref h; mret message) s = (Ok payload, s') ->
  exists message session db, envelope_deserialise envelope = Some message /\
    init_from_message (proteus_identity (central s)) message (keystore s) = (Some (session, payload), db) /\
    becomes id (Some session) s s'.
Proof.
  intros Hinv Hid ([h m] & s1 & Hf & Hsave)%st_bind_Ok. apply st_bind_Ok in Hsave as ([] & s3 & Hsave & [= <- <-]).
  apply st_bind_Ok in Hf as (message & s2 & Hb & Hf). unfold st_lift, proteus_error in Hb.
  destruct (envelope_deserialise envelope) as [e|] eqn:Hed; [|done]. injection Hb as <- <-.
  apply st_bind_Ok in Hf as ([session payload] & s2 & Hi & Hf). unfold st_of, proteus_error in Hi.
  destruct (init_from_message _ _ _) as [[[se pl]|] db] eqn:Hin; [|done]. injection Hi as <- <- <-.
  apply st_bind_Ok in Hf as (h' & s2 & Hc & [= -> -> ->]). exists e, se, db. split; [done|]. split; [done|].
  eapply (create_spec id se db); [done|done| | |].
  - by eapply init_message_identity.
  - by eapply prekey_calls_sessions, init_message_calls.
  - unfold mbind, st_bind. by rewrite Hc.
Qed.

Lemma session_save_spec id s s' :
  sessions_inv s -> utf8_valid id = true -> session_save id s = (Ok (), s') -> unchanged s s'.
Proof.
  intros Hinv Hid (o & s1 & Hg & Hs)%st_bind_Ok. destruct o as [h|].
  - destruct (get_or_fetch_found _ _ _ _ Hinv Hid Hg) as [session Hf].
    pose proof (save_by_ref_spec _ _ _ _ _ (found_ahead _ _ _ _ _ Hf) Hs) as Hb.
    destruct (becomes_found _ _ _ _ _ _ _ _ Hf (fun _ _ => eq_refl) eq_refl Hb) as (? & ? & Hk).
    split; [done|]. split; [done|]. intros id' Hid'. rewrite Hk by done.
    destruct (decide (id' = id)) as [->|]; [|done]. symmetry. apply Hf.
  - injection Hs as <-. by eapply get_or_fetch_unchanged.
Qed.

Lemma session_delete_spec id s r s' :
  sessions_inv s -> utf8_valid id = true -> session_delete id s = (r, s') -> r = Ok () /\ becomes id None s s'.
Proof.
  intros (Hdb & Hc & Ha) Hid. unfold session_delete, st_try, on_keystore. fold (session_key id).
  destruct (remove_session id (keystore s) Hdb Hid) as (db' & -> & Hdb' & Hg). intros [= <- <-]. split; [done|].
  assert (forall k h, lru_peek k (snd (lru_remove id (entries (central s)))) = Some h ->
    k <> id /\ lru_peek k (entries (central s)) = Some h) as Hrm by (intros k h; apply lru_peek_remove).
  assert (forall id', utf8_valid id' = true -> kept (set_keystore db' s) id' = if decide (id' = id) then None else kept s id') as Hk.
  { intros id' Hid'. unfold kept, stored_session. cbn [keystore set_keystore central]. rewrite Hg by done.
    by destruct (decide (id' = id)). }
  split; [|by split]. split; [done|]. split; [split|].
  - cbn. rewrite lru_limit_remove. apply Hc.
  - intros k h [_ Hp]%Hrm. by apply Hc.
  - intros k session Hs. unfold cached_session in Hs. cbn in Hs.
    destruct (lru_peek k _) as [h|] eqn:Hp; [|done]. apply Hrm in Hp as [Hne Hp].
    change (kept (set_keystore db' s) k = Some session). rewrite Hk by (by apply Hc in Hp as [? _]).
    rewrite decide_False by done. apply Ha. unfold cached_session. by rewrite Hp.
Qed.

Lemma session_exists_spec id s b s' :
  sessions_inv s -> utf8_valid id = true -> session_exists id s = (Ok b, s') ->
  b = bool_decide (is_Some (kept s id)) /\ unchanged s s'.
Proof.
  intros Hinv Hid. unfold session_exists, st_try. destruct (get_or_fetch_session id s) as [r s1] eqn:Hg.
  pose proof (get_or_fetch_unchanged _ _ _ _ Hinv Hid Hg) as Hu.
  pose proof (get_or_fetch_spec _ _ _ _ Hinv Hid Hg) as (_ & _ & _ & Hr).
  destruct r as [[h|]|e|]; [|intros [= <- <-]..|done].
  - intros [= <- <-]. destruct Hr as (ps & _ & _ & _ & ->). done.
  - by rewrite Hr.
  - by rewrite Hr.
Qed.
(** A batch encrypts for the sessions that exist and skips the others. *)
Lemma encrypt_batched_loop_spec l plaintext acc s acc' s' :
  sessions_inv s -> Forall (fun id => utf8_valid id = true) l ->
  encrypt_batched_loop l plaintext acc s = (Ok acc', s') ->
  sessions_inv s' /\ proteus_identity (central s') = proteus_identity (central s) /\
  (forall id, utf8_valid id = true -> id ∉ l -> kept s' id = kept s id) /\
  (forall id, is_Some (acc' !! id) <-> is_Some (acc !! id) \/ id ∈ l /\ is_Some (kept s id)).
Proof.
  intros Hinv Hl. revert acc s Hinv. induction Hl as [|id l Hid Hl IH]; intros acc s Hinv Hrun.
  - injection Hrun as <- <-. split; [done|]. split; [done|]. split; [done|]. intros id. split; [by left|]. by intros [?|[[]%not_elem_of_nil _]].
  - cbn [encrypt_batched_loop] in Hrun. apply st_bind_Ok in Hrun as (o & s1 & Hg & Hrun). destruct o as [h|].
    + destruct (get_or_fetch_found _ _ _ _ Hinv Hid Hg) as [session Hf]. pose proof Hf as (_ & _ & _ & _ & Hcell & Hsome).
      apply st_bind_Ok in Hrun as (c & s2 & Hd & Hrun). unfold deref, st_lift in Hd. rewrite Hcell in Hd.
      injection Hd as <- <-. apply st_bind_Ok in Hrun as (ct & s3 & Henc & Hrun).
      apply st_bind_Ok in Hrun as ([] & s4 & Hsave & Hrun).
      destruct (encrypt_save_spec id h session plaintext s s1 ct s4 Hf) as (session' & _ & Hinv4 & Hi4 & Hk4).
      { unfold mbind, st_bind. by rewrite Henc, Hsave. }
      destruct (IH _ _ Hinv4 Hrun) as (Hinv' & Hi' & Hk' & Hdom). split; [done|]. split; [congruence|]. split.
      * intros id' Hid' [Hne Hn]%not_elem_of_cons. rewrite Hk', Hk4 by done. by rewrite decide_False.
      * intros id'. rewrite Hdom, elem_of_cons. cbn [identifier]. destruct (decide (id' = id)) as [->|Hne].
        -- rewrite lookup_insert_eq. split; [|eauto]. right. split; [by left|]. by rewrite Hsome.
        -- rewrite lookup_insert_ne by done. destruct (decide (id' ∈ l)) as [Hin|Hnin]; [|tauto].
           assert (utf8_valid id' = true) as Hid'' by (rewrite Forall_forall in Hl; auto).
           rewrite Hk4 by done. rewrite decide_False by done. tauto.
    + pose proof (get_or_fetch_spec _ _ _ _ Hinv Hid Hg) as (_ & _ & _ & Hn).
      destruct (get_or_fetch_unchanged _ _ _ _ Hinv Hid Hg) as (Hinv1 & Hi1 & Hk1).
      destruct (IH _ _ Hinv1 Hrun) as (Hinv' & Hi' & Hk' & Hdom). split; [done|]. split; [congruence|]. split.
      * intros id' Hid' [Hne Hnl]%not_elem_of_cons. by rewrite Hk', Hk1.
      * intros id'. rewrite Hdom, elem_of_cons. destruct (decide (id' = id)) as [->|Hne].
        -- rewrite Hk1, Hn by done. split; [intros [?|[_ []%is_Some_None]]; by left|].
           intros [?|[_ []%is_Some_None]]; by left.
        -- destruct (decide (id' ∈ l)) as [Hin|Hnin]; [|tauto].
           rewrite Hk1 by (rewrite Forall_forall in Hl; auto). tauto.
Qed.

(** Prekeys are not sessions. *)
Lemma save_prekey_sessions id raw db :
  (0 <= id < 65536)%Z ->
  same_sessions db (snd (kv_save None (Entity.ProteusPrekey (proteus_prekey_from_raw id raw)) db)).
Proof.
  intros Hid. set (e := Entity.ProteusPrekey _).
  assert (in_transaction db -> exists d, kv_save None e db = (Ok None, d) /\ in_transaction d /\
    forall ty pk, pk_ok ty pk -> kv_get ty pk d =
      if decide (EntityId.MkId ty (pk_bytes pk) = EntityId.of_entity e) then Ok (Some e) else kv_get ty pk db) as Hs.
  { intros Hdb. by apply kv_save_total. }
  split.
  - intros Hdb. by destruct (Hs Hdb) as (d & -> & ? & _).
  - intros sid Hsid Hdb. destruct (Hs Hdb) as (d & -> & _ & Hg). cbn [snd]. unfold stored_record.
    rewrite Hg by done. by rewrite decide_False.
Qed.

Lemma last_resort_sessions i db r db' :
  last_resort_prekey prekey_last_resort prekey_serialise prekey_deserialise (bundle_serialise i) db = (r, db') ->
  same_sessions db db'.
Proof.
  unfold last_resort_prekey. intros H.
  assert (forall raw, same_sessions db (snd (proteus_store_prekey last_resort_prekey_id raw db))) as Hst.
  { intros raw. unfold proteus_store_prekey. pose proof (save_prekey_sessions last_resort_prekey_id raw db) as Hs.
    destruct (kv_save _ _ _) as [x d]. apply Hs. unfold last_resort_prekey_id, U16_MAX. lia. }
  destruct (get_prekey _ _) as [[[]|]| |]; repeat case_match; simplify_eq; try done;
    match goal with Hp : proteus_store_prekey _ ?raw _ = (_, ?d) |- _ =>
      specialize (Hst raw); rewrite Hp in Hst; exact Hst end.
Qed.

Lemma new_prekey_sessions i id db r db' :
  (0 <= id < 65536)%Z -> new_prekey prekey_new prekey_serialise (bundle_serialise i) id db = (r, db') ->
  same_sessions db db'.
Proof.
  intros Hid. unfold new_prekey. destruct (prekey_serialise _) as [raw|]; [|by intros [= <- <-]].
  destruct (bundle_serialise _ _); [|by intros [= <- <-]].
  pose proof (save_prekey_sessions id raw db Hid) as Hs. destruct (kv_save _ _ _). by intros [= <- <-].
Qed.
Lemma free_id_loop_range fuel id (db : Database) r :
  (1 <= id <= 65535)%Z -> free_id_loop fuel id db = Ok r -> (1 <= r < 65535)%Z.
Proof.
  revert id. induction fuel as [|fuel IH]; intros id Hid; [done|]. cbn -[get_prekey].
  destruct (Z.eqb_spec id U16_MAX) as [|Hne]; [done|]. unfold U16_MAX in Hne.
  destruct (get_prekey id db) as [[e|]|e|]; cbn; try done; [apply IH; lia|]. intros [= <-]. lia.
Qed.

Lemma new_prekey_auto_sessions i db r db' :
  new_prekey_auto prekey_new prekey_serialise (bundle_serialise i) db = (r, db') -> same_sessions db db'.
Proof.
  unfold new_prekey_auto, get_free_id. destruct (free_id_loop _ _ _) as [id|e|] eqn:Hf; [|by intros [= <- <-]..].
  apply free_id_loop_range in Hf; [|lia]. destruct (new_prekey _ _ _ _ _) as [r' d] eqn:Hn. intros [= <- <-].
  eapply new_prekey_sessions; [|exact Hn]. lia.
Qed.

(** Writes of other records keep the invariant. *)
Lemma sessions_inv_database db s : sessions_inv s -> same_sessions (keystore s) db -> sessions_inv (set_keystore db s).
Proof.
  intros (Hdb & Hc & Ha) [Hin Hsame]. split; [by apply Hin|]. split; [done|]. intros id session Hs.
  unfold kept, stored_session. cbn [keystore set_keystore central]. rewrite Hsame; [by apply Ha| |done].
  unfold cached_session in Hs. cbn in Hs. destruct (lru_peek id _) eqn:Hp; [|done]. by apply Hc in Hp as [? _].
Qed.

(** ** Runs of a client *)

Context `{O : OpenMls}.
Abbreviation ProteusWorld := (ProteusWorld (M := M)).
Abbreviation ptx A := (st ProteusWorld TransactionError A).

Definition identity_of (w : ProteusWorld) : option IdentityKeyPair := proteus_identity <$> proteus w.

(** The session the keystore has for an id, for the identity of the client. *)
Definition stored (w : ProteusWorld) (id : bytes) : option PSession :=
  i ← identity_of w; stored_session i id (proteus_database w).

(** A valid context with an initialised client whose cache agrees with the keystore. *)
Definition proteus_inv (w : ProteusWorld) : Prop :=
  context (pworld w) <> Invalid /\
  exists c, proteus w = Some c /\ sessions_inv (MkCentralState c (proteus_database w)).

Lemma with_proteus_Ok {A} (m : pc A) w a w' :
  proteus_inv w -> with_proteus m w = (Ok a, w') ->
  exists s s', proteus w = Some (central s) /\ keystore s = proteus_database w /\ sessions_inv s /\ m s = (Ok a, s') /\
    context (pworld w') = context (pworld w) /\ proteus w' = Some (central s') /\ proteus_database w' = keystore s' /\
    (forall id, stored w id = kept s id) /\ forall id, stored w' id = kept s' id.
Proof.
  intros (Hv & c & Hc & Hinv) Hrun. exists (MkCentralState c (proteus_database w)).
  unfold with_proteus, run_central in Hrun. rewrite Hc in Hrun. destruct (context (pworld w)) eqn:Hctx; [|done].
  destruct (m (MkCentralState c (proteus_database w))) as [r s'] eqn:Hm. exists s'.
  destruct r as [a'|e|]; cbn in Hrun; [|done..]. injection Hrun as <- <-.
  split; [done|]. split; [done|]. split; [done|]. split; [done|]. split; [by cbn|]. split; [done|]. split; [done|].
  split; intros id; unfold stored, identity_of; cbn; [by rewrite Hc|done].
Qed.

(** An operation that keeps the invariant of the sessions keeps that of the client. *)
Lemma with_proteus_inv {A} (m : pc A) w a w' :
  proteus_inv w -> (forall s s', sessions_inv s -> m s = (Ok a, s') -> sessions_inv s') ->
  with_proteus m w = (Ok a, w') -> proteus_inv w'.
Proof.
  intros Hw Hm Hrun. destruct (with_proteus_Ok m w a w' Hw Hrun) as (s & s' & _ & _ & Hs & Hr & Hc & Hp & Hd & _).
  split; [rewrite Hc; apply Hw|]. exists (central s'). split; [done|]. rewrite Hd. destruct s'. by eapply Hm.
Qed.

(** Making a client stores no session. *)
Lemma make_client_Ok (db : Database) (c : ProteusCentral (M := M)) db' :
  make_client db = (Ok c, db') ->
  same_sessions db db' /\ entries c = session_cache_new /\ cells c = [].
Proof.
  intros Hmake. apply st_bind_Ok in Hmake as (c' & db1 & Hnew & Hmake).
  apply st_bind_Ok in Hmake as (b & db2 & Hlr & [= <- <-]).
  apply st_bind_Ok in Hnew as (i & db0 & Hi & [= <- <-]). split; [|done].
  etrans; [|by eapply last_resort_sessions].
  assert (forall e, Entity.typ e = EntityType.ProteusIdentity -> same_sessions db (snd (kv_save None e db))) as Hid.
  { intros e He. assert (entity_ok e /\ pre_save None e = Ok (None, e)) as [Hok Hpre] by (by destruct e).
    pose proof (kv_save_total (inv := in_transaction) None e db None e) as Hs. split.
    - intros Hdb. by destruct Hs as (d & -> & ? & _).
    - intros sid Hsid Hdb. destruct Hs as (d & -> & _ & Hg); [done..|]. cbn [snd]. unfold stored_record.
      rewrite Hg by done. rewrite decide_False; [done|]. intros [= Ht _]. congruence. }
  unfold load_or_create_identity, create_identity in Hi.
  specialize (Hid (Entity.ProteusIdentity
    {| identity_sk := identity_secret identity_new; identity_pk := identity_public identity_new |}) eq_refl).
  destruct (kv_save _ _ _) as [r d]. cbn in Hid. by destruct (kv_get _ _ _) as [[[]|]| |]; simplify_eq.
Qed.

(** A client that has just been initialised has an empty cache. *)
Lemma proteus_init_Ok w w' :
  proteus_init w = (Ok (), w') ->
  context (pworld w') = context (pworld w) /\ context (pworld w) <> Invalid /\
  same_sessions (proteus_database w) (proteus_database w') /\
  exists c, proteus w' = Some c /\ lru_limit (entries c) <> 0 /\ forall id, lru_peek id (entries c) = None.
Proof.
  unfold proteus_init. destruct (context (pworld w)) eqn:Hctx; [|done].
  destruct (make_client _) as [[c|e|] db] eqn:Hmake; [|done..]. intros [= <-].
  destruct (make_client_Ok _ _ _ Hmake) as (Hsame & He & _). split; [done|]. split; [done|]. split; [done|].
  exists c. split; [done|]. rewrite He. unfold session_cache_new. split; [by rewrite lru_limit_new|apply lru_peek_new].
Qed.

Lemma proteus_init_inv w w' :
  in_transaction (proteus_database w) -> proteus_init w = (Ok (), w') -> proteus_inv w'.
Proof.
  intros Hdb Hinit. destruct (proteus_init_Ok _ _ Hinit) as (Hc & Hv & [Hin _] & c & Hp & Hl & He).
  split; [congruence|]. exists c. split; [done|]. split; [by apply Hin|]. split; [split; [done|]|].
  - intros id h. cbn. by rewrite He.
  - intros id session. unfold cached_session. cbn. by rewrite He.
Qed.

(** One successful operation of the client, or a step of the other parts that
    writes no session and leaves the context valid. *)
Inductive proteus_step : ProteusWorld -> ProteusWorld -> Prop :=
  | step_init w w' : proteus_init w = (Ok (), w') -> proteus_step w w'
  | step_from_prekey id key w w' :
      utf8_valid id = true -> proteus_session_from_prekey id key w = (Ok (), w') -> proteus_step w w'
  | step_from_message id envelope payload w w' :
      utf8_valid id = true -> proteus_session_from_message id envelope w = (Ok payload, w') -> proteus_step w w'
  | step_save id w w' : utf8_valid id = true -> proteus_session_save id w = (Ok (), w') -> proteus_step w w'
  | step_delete id w w' : utf8_valid id = true -> proteus_session_delete id w = (Ok (), w') -> proteus_step w w'
  | step_exists id b w w' : utf8_valid id = true -> proteus_session_exists id w = (Ok b, w') -> proteus_step w w'
  | step_encrypt id p c w w' : utf8_valid id = true -> proteus_encrypt id p w = (Ok c, w') -> proteus_step w w'
  | step_decrypt id c p w w' : utf8_valid id = true -> proteus_decrypt id c w = (Ok p, w') -> proteus_step w w'
  | step_batch ids p acc w w' :
      Forall (fun id => utf8_valid id = true) ids -> proteus_encrypt_batched ids p w = (Ok acc, w') -> proteus_step w w'
  | step_prekey id b w w' : (0 <= id < 65536)%Z -> proteus_new_prekey id w = (Ok b, w') -> proteus_step w w'
  | step_prekey_auto b w w' : proteus_new_prekey_auto w = (Ok b, w') -> proteus_step w w'
  | step_last_resort b w w' : proteus_last_resort_prekey w = (Ok b, w') -> proteus_step w w'
  | step_beside w pw :
      context pw <> Invalid -> same_sessions (proteus_database w) (database (core pw)) ->
      proteus_step w (MkPWorld pw (proteus w)).

Inductive proteus_reach (w0 : ProteusWorld) : ProteusWorld -> Prop :=
  | proteus_refl : proteus_reach w0 w0
  | proteus_trans w w' : proteus_reach w0 w -> proteus_step w w' -> proteus_reach w0 w'.

Lemma central_prekey_inv {A} (f : IdentityKeyPair -> Database -> res CoreError A * Database) s a s' :
  (forall i db r db', f i db = (r, db') -> same_sessions db db') ->
  sessions_inv s -> central_prekey f s = (Ok a, s') -> sessions_inv s'.
Proof.
  intros Hf Hs. unfold central_prekey. destruct (f _ _) as [r db] eqn:Hr. intros [= _ <-].
  by eapply sessions_inv_database, Hf.
Qed.

Lemma proteus_step_inv w w' : proteus_inv w -> proteus_step w w' -> proteus_inv w'.
Proof.
  intros Hw Hstep. destruct Hstep.
  - eapply proteus_init_inv; [|done]. destruct Hw as (_ & c & _ & Hs). apply Hs.
  - eapply with_proteus_inv; [done| |done]. intros s s' Hs Hr.
    by apply from_prekey_spec in Hr as (? & ? & _ & _ & [? _]).
  - eapply with_proteus_inv; [done| |done]. intros s s' Hs Hr.
    by apply from_message_spec in Hr as (? & ? & ? & _ & _ & [? _]).
  - eapply with_proteus_inv; [done| |done]. intros s s' Hs Hr. by apply session_save_spec in Hr as [? _].
  - eapply with_proteus_inv; [done| |done]. intros s s' Hs Hr. by apply session_delete_spec in Hr as [_ [? _]].
  - eapply with_proteus_inv; [done| |done]. intros s s' Hs Hr. by apply session_exists_spec in Hr as [_ [? _]].
  - eapply with_proteus_inv; [done| |done]. intros s s' Hs Hr.
    by apply central_encrypt_spec in Hr as (? & ? & _ & _ & [? _]).
  - eapply with_proteus_inv; [done| |done]. intros s s' Hs Hr.
    by apply central_decrypt_spec in Hr as (? & ? & ? & ? & _ & _ & _ & [? _] & _).
  - eapply with_proteus_inv; [done| |done]. intros s s' Hs Hr. by apply encrypt_batched_loop_spec in Hr as [? _].
  - eapply with_proteus_inv; [done| |done]. intros s s' Hs. apply central_prekey_inv; [|done].
    intros i db r db'. by apply new_prekey_sessions.
  - eapply with_proteus_inv; [done| |done]. intros s s' Hs. apply central_prekey_inv; [|done].
    intros i db r db'. apply new_prekey_auto_sessions.
  - eapply with_proteus_inv; [done| |done]. intros s s' Hs. apply central_prekey_inv; [|done].
    intros i db r db'. apply last_resort_sessions.
  - split; [done|]. destruct Hw as (_ & c & Hc & Hs). exists c. split; [done|].
    by apply (sessions_inv_database _ (MkCentralState c (proteus_database w))).
Qed.

Lemma proteus_reach_inv w w' : proteus_inv w -> proteus_reach w w' -> proteus_inv w'.
Proof. intros Hw. induction 1; [done|]. by eapply proteus_step_inv. Qed.

(** The sessions of the keystore change at one id. *)
Definition only_changes (id : bytes) (o : option PSession) (w w' : ProteusWorld) : Prop :=
  forall id', utf8_valid id' = true -> stored w' id' = if decide (id' = id) then o else stored w id'.

(** C34: within one transaction that begins with [proteus_init], while its operations
    succeed, the cache of Proteus sessions cannot be observed.  After any such run, also
    one that evicts sessions, a session exists exactly when the keystore has it;
    encrypting and decrypting work on the session in the keystore and replace it by
    the advanced one; a batch yields a ciphertext for exactly the sessions of the
    keystore. *)
Theorem proteus_cache_transparent w0 w1 w id :
  in_transaction (proteus_database w0) -> proteus_init w0 = (Ok (), w1) -> proteus_reach w1 w ->
  utf8_valid id = true ->
  (forall b w', proteus_session_exists id w = (Ok b, w') -> b = bool_decide (is_Some (stored w id))) /\
  (forall plaintext ciphertext w', proteus_encrypt id plaintext w = (Ok ciphertext, w') ->
     exists session session', stored w id = Some session /\
       session_encrypt plaintext session = (Some ciphertext, session') /\ only_changes id (Some session') w w') /\
  (forall ciphertext plaintext w', proteus_decrypt id ciphertext w = (Ok plaintext, w') ->
     exists envelope session session' db, envelope_deserialise ciphertext = Some envelope /\ stored w id = Some session /\
       session_decrypt envelope session (proteus_database w) = (Some plaintext, (session', db)) /\
       only_changes id (Some session') w w') /\
  (forall ids plaintext acc w', Forall (fun k => utf8_valid k = true) ids ->
     proteus_encrypt_batched ids plaintext w = (Ok acc, w') ->
     is_Some (acc !! id) <-> id ∈ ids /\ is_Some (stored w id)).
Proof.
  intros Hdb Hinit Hreach Hid. pose proof (proteus_reach_inv _ _ (proteus_init_inv _ _ Hdb Hinit) Hreach) as Hw.
  split; [|split; [|split]].
  - intros b w' Hrun. destruct (with_proteus_Ok _ _ _ _ Hw Hrun) as (s & s' & _ & _ & Hs & Hr & _ & _ & _ & Hk & _).
    rewrite Hk. by apply session_exists_spec in Hr as [-> _].
  - intros p c w' Hrun. destruct (with_proteus_Ok _ _ _ _ Hw Hrun) as (s & s' & _ & _ & Hs & Hr & _ & _ & _ & Hk & Hk').
    apply central_encrypt_spec in Hr as (se & se' & Hse & He & _ & _ & Hb); [|done..]. exists se, se'.
    rewrite Hk. split; [done|]. split; [done|]. intros id' Hid'. rewrite Hk, Hk'. by apply Hb.
  - intros c p w' Hrun. destruct (with_proteus_Ok _ _ _ _ Hw Hrun) as (s & s' & _ & Hd & Hs & Hr & _ & _ & _ & Hk & Hk').
    apply central_decrypt_spec in Hr as (en & se & se' & db & Hen & Hse & He & (_ & _ & Hb) & _); [|done..].
    exists en, se, se', db. rewrite Hk, <- Hd. split; [done|]. split; [done|]. split; [done|].
    intros id' Hid'. rewrite Hk, Hk'. by apply Hb.
  - intros ids p acc w' Hids Hrun.
    destruct (with_proteus_Ok _ _ _ _ Hw Hrun) as (s & s' & _ & _ & Hs & Hr & _ & _ & _ & Hk & _).
    apply encrypt_batched_loop_spec in Hr as (_ & _ & _ & Hdom); [|done..]. rewrite Hdom, Hk.
    rewrite lookup_empty. split; [intros [[]%is_Some_None|?]; done|by right].
Qed.
(** ** Aborted transactions *)

(** Operations only write to the transaction. *)
Definition same_tables (s s' : CentralState) : Prop := conn (keystore s') = conn (keystore s).

#[local] Instance same_tables_preorder : PreOrder same_tables.
Proof. split; [by intros s|]. intros a b c H1 H2. unfold same_tables in *. congruence. Qed.

Lemma with_transaction_conn {A} (f : KeystoreTransaction -> kres (A * KeystoreTransaction)) db :
  conn (snd (with_transaction f db)) = conn db.
Proof. unfold with_transaction. destruct (transaction db); [|done]. by destruct (f _) as [[]| |]. Qed.

Lemma prekey_calls_conn db db' : prekey_calls db db' -> conn db' = conn db.
Proof. induction 1 as [|id db db' _ IH]; [done|]. rewrite IH. apply with_transaction_conn. Qed.

Lemma get_or_fetch_tables id : st_frame same_tables (get_or_fetch_session id).
Proof. intros s. unfold get_or_fetch_session, same_tables. by repeat case_match. Qed.

Lemma save_by_ref_tables h : st_frame same_tables (session_save_by_ref h).
Proof.
  unfold session_save_by_ref, deref. solve_keeps. intros s. unfold on_keystore, same_tables.
  pose proof (with_transaction_conn (tx_save None (Entity.ProteusSession
    {| session_id := identifier a; session_session := a0 |})) (keystore s)) as Hc.
  change (kv_save None ?e ?d) with (with_transaction (tx_save None e) d). by destruct (with_transaction _ _).
Qed.

Lemma decrypt_with_tables h ciphertext : st_frame same_tables (decrypt_with h ciphertext).
Proof.
  unfold decrypt_with, deref. solve_keeps. intros s. unfold st_of, same_tables.
  destruct (session_decrypt _ _ _) as [o [session db]] eqn:He. cbn.
  by eapply prekey_calls_conn, decrypt_calls.
Qed.

Lemma central_decrypt_tables id ciphertext : st_frame same_tables (central_decrypt id ciphertext).
Proof.
  pose proof get_or_fetch_tables. pose proof save_by_ref_tables. pose proof decrypt_with_tables.
  unfold central_decrypt, expect_session. solve_keeps; auto.
Qed.

(** Decrypting with the session of the cache. *)
Lemma central_decrypt_refused id ciphertext envelope session (s : CentralState) :
  cached_session (central s) id = Some session -> envelope_deserialise ciphertext = Some envelope ->
  fst (session_decrypt envelope session (keystore s)) = None ->
  fst (central_decrypt id ciphertext s) = Err (CoreProteus ProteusLibraryError).
Proof.
  intros Hc He Hd. unfold cached_session in Hc. destruct (lru_peek id _) as [h|] eqn:Hp; [|done]. cbn in Hc.
  destruct (cells (central s) !! h) as [ps|] eqn:Hcell; [|done]. injection Hc as <-.
  unfold central_decrypt, expect_session, get_or_fetch_session, mbind, st_bind. rewrite Hp.
  destruct (lru_get id _) as [o m] eqn:Hg.
  assert (o = Some h) as -> by (change o with (fst (o, m)); by rewrite <- Hg, lru_get_peek).
  unfold decrypt_with, deref, st_lift, st_of, mbind, st_bind. cbn [ok_or]. rewrite He. cbn. rewrite Hcell.
  destruct (session_decrypt envelope (proteus_session ps) (keystore s)) as [o [? ?]]. cbn in Hd. by subst o.
Qed.

(** Aborting a transaction rolls the keystore back but not the Proteus
    sessions: a session that has decrypted a message in the aborted transaction
    stays advanced in memory, while the persisted tables are those from before.  A
    message that the advanced session refuses, such as the one just decrypted when
    it is delivered again, is refused in the next transaction. *)
Theorem abort_keeps_advanced_session w id ciphertext plaintext w1 w2 pw3 :
  proteus_inv w -> utf8_valid id = true -> proteus_decrypt id ciphertext w = (Ok plaintext, w1) ->
  beside_proteus abort w1 = (Ok (), w2) -> new_context (core (pworld w2)) = Some pw3 ->
  let w3 := MkPWorld pw3 (proteus w2) in
  conn (proteus_database w3) = conn (proteus_database w) /\
  exists envelope session session' db c, envelope_deserialise ciphertext = Some envelope /\ stored w id = Some session /\
    session_decrypt envelope session (proteus_database w) = (Some plaintext, (session', db)) /\
    proteus w3 = Some c /\ cached_session c id = Some session' /\
    forall message envelope', envelope_deserialise message = Some envelope' ->
      fst (session_decrypt envelope' session' (proteus_database w3)) = None ->
      fst (proteus_decrypt id message w3) = Err (TxRecursive (Root (CoreProteus ProteusLibraryError))).
Proof.
  intros Hw Hid Hrun Habort Hnew w3.
  destruct (with_proteus_Ok _ _ _ _ Hw Hrun) as (s & s' & Hp & Hd & Hs & Hr & Hctx & Hp' & Hd' & Hk & _).
  pose proof (central_decrypt_tables id ciphertext s) as Hconn. rewrite Hr in Hconn. unfold same_tables in Hconn. cbn in Hconn.
  apply central_decrypt_spec in Hr as (en & se & se' & db & Hen & Hse & He & _ & Hcached); [|done..].
  unfold beside_proteus in Habort. destruct (abort (pworld w1)) as [r pw] eqn:Ha. injection Habort as -> <-. cbn in Hnew, w3.
  assert (conn (database (core pw)) = conn (proteus_database w1)) as Hc1.
  { unfold abort, rollback_transaction, proteus_database in *. destruct (context (pworld w1)); [|done].
    destruct (mls (core (pworld w1))); cbn in Ha; destruct (transaction _) in Ha; simplify_eq/=; done. }
  assert (context pw3 <> Invalid /\ conn (database (core pw3)) = conn (database (core pw))) as [Hv3 Hc3].
  { unfold new_context, new_transaction in Hnew. case_decide; [|done]. by injection Hnew as <-. }
  split; [change (conn (database (core pw3)) = conn (proteus_database w)); congruence|].
  exists en, se, se', db, (central s'). rewrite Hk, <- Hd. do 5 (split; [done|]).
  intros message envelope' Hen' Hfail. unfold proteus_decrypt, with_proteus, run_central. cbn [pworld proteus w3].
  rewrite Hp'. destruct (context pw3); [|done].
  pose proof (central_decrypt_refused id message envelope' se' (MkCentralState (central s') (proteus_database w3)) Hcached Hen' Hfail) as Hf.
  destruct (central_decrypt id message _) as [r s3]. cbn in Hf |- *. by rewrite Hf.
Qed.
(** ** Restarting *)

(** Without a session in the cache or in the keystore. *)
Lemma get_or_fetch_missing id (s : CentralState) :
  lru_peek id (entries (central s)) = None -> stored_record id (keystore s) = Ok None ->
  get_or_fetch_session id s = (Ok None, s).
Proof.
  intros Hp Hr. unfold get_or_fetch_session. rewrite Hp. unfold stored_record, session_key in Hr. by rewrite Hr.
Qed.

(** No Proteus session survives a restart: after the client is initialised on a
    database that was opened anew, whatever sessions its tables hold, no session
    exists, and no message can be encrypted or decrypted with one. *)
Theorem persisted_sessions_lost m contents pw0 w id :
  represents m contents -> keys_unique m -> new_context (core_new (open contents)) = Some pw0 ->
  proteus_init (MkPWorld pw0 None) = (Ok (), w) -> utf8_valid id = true ->
  fst (proteus_session_exists id w) = Ok false /\
  (forall plaintext, fst (proteus_encrypt id plaintext w) =
     Err (TxRecursive (Root (CoreProteus (ProteusLeaf (ConversationNotFound id)))))) /\
  (forall ciphertext, fst (proteus_decrypt id ciphertext w) =
     Err (TxRecursive (Root (CoreProteus (ProteusLeaf (ConversationNotFound id)))))) /\
  (forall plaintext, fst (proteus_encrypt_batched [id] plaintext w) = Ok ∅).
Proof.
  intros Hrep Hu Hnew Hinit Hid. pose proof (db_inv_open m contents Hrep Hu) as Hopen.
  destruct (new_context_inv (core_new (open contents)) pw0 Hopen Hnew) as (_ & Hdb & Hsome & _ & _).
  assert (stored_record id (database (core pw0)) = Ok None) as Hnone.
  { unfold new_context, new_transaction in Hnew. cbn in Hnew. injection Hnew as <-.
    change (entity_get EntityType.ProteusSession (session_key id) contents = Ok None).
    by apply (string_keyed_entity_get m). }
  destruct (proteus_init_Ok _ _ Hinit) as (Hc & Hv & [Hin Hsame] & c & Hp & _ & He). cbn in Hc, Hv.
  assert (stored_record id (proteus_database w) = Ok None) as Hr.
  { rewrite Hsame; [done|done|by split]. }
  pose proof (get_or_fetch_missing id (MkCentralState c (proteus_database w)) (He id) Hr) as Hg.
  unfold proteus_session_exists, proteus_encrypt, proteus_decrypt, proteus_encrypt_batched, with_proteus, run_central.
  rewrite Hp, Hc. destruct (context pw0); [|done].
  unfold session_exists, central_encrypt, central_decrypt, expect_session, encrypt_batched.
  cbn [encrypt_batched_loop]. unfold st_try, mbind, st_bind. rewrite Hg. done.
Qed.
End proteus.

(** ** A run of the model *)

Abbreviation demo_proteus_world := (ProteusWorld (M := ToyLru nat)).

Definition demo_client_context (contents : SqlDb) : World (ToyLru nat) :=
  default (MkWorld (core_new (open contents)) Invalid) (new_context (core_new (open contents))).

Definition demo_client : demo_proteus_world := snd (proteus_init (MkPWorld (demo_client_context ∅) None)).
Definition demo_peer : bytes := bstr "peer".
Definition demo_talking : demo_proteus_world := snd (proteus_session_from_prekey demo_peer (bstr "bundle") demo_client).

Lemma demo_client_in_transaction : in_transaction (proteus_database (MkPWorld (demo_client_context ∅) None)).
Proof.
  split; [|done]. apply (db_inv_new (open ∅)); [apply (db_inv_open empty_store ∅ represents_empty demo_keys_unique)|].
  vm_compute. lia.
Qed.

Lemma demo_client_run : proteus_init (MkPWorld (demo_client_context ∅) None) = (Ok (), demo_client).
Proof. unfold demo_client. rewrite (surjective_pairing (proteus_init _)) at 1. by f_equal. Qed.

Lemma demo_talking_run :
  proteus_session_from_prekey demo_peer (bstr "bundle") demo_client = (Ok (), demo_talking).
Proof. unfold demo_talking. rewrite (surjective_pairing (proteus_session_from_prekey _ _ _)) at 1. by f_equal. Qed.

Lemma demo_talking_inv : proteus_inv demo_talking.
Proof.
  apply (proteus_step_inv demo_client).
  - apply (proteus_init_inv _ _ demo_client_in_transaction demo_client_run).
  - by eapply step_from_prekey, demo_talking_run.
Qed.

Lemma proteus_cache_transparent_witness :
  exists session session', stored demo_talking demo_peer = Some session /\
    session_encrypt (bstr "hi") session = (Some (Byte.x01 :: bstr "hi"), session') /\
    only_changes demo_peer (Some session') demo_talking (snd (proteus_encrypt demo_peer (bstr "hi") demo_talking)).
Proof.
  destruct (proteus_cache_transparent _ demo_client demo_talking demo_peer demo_client_in_transaction demo_client_run)
    as (_ & Henc & _).
  - eapply proteus_trans; [apply proteus_refl|]. by eapply step_from_prekey, demo_talking_run.
  - reflexivity.
  - apply Henc. rewrite (surjective_pairing (proteus_encrypt _ _ _)) at 1. by f_equal.
Defined.

Definition demo_received : demo_proteus_world := snd (proteus_decrypt demo_peer (bstr "hello") demo_talking).
Definition demo_aborted : demo_proteus_world := snd (beside_proteus abort demo_received).
Definition demo_retry : World (ToyLru nat) :=
  default (pworld demo_aborted) (new_context (core (pworld demo_aborted))).

Lemma abort_keeps_advanced_session_witness :
  fst (proteus_decrypt demo_peer (bstr "hello") demo_talking) = Ok (bstr "hello") /\
  fst (proteus_decrypt demo_peer (bstr "hello") (MkPWorld demo_retry (proteus demo_aborted))) =
    Err (TxRecursive (Root (CoreProteus ProteusLibraryError))).
Proof.
  split; [reflexivity|].
  destruct (abort_keeps_advanced_session demo_talking demo_peer (bstr "hello") (bstr "hello") demo_received demo_aborted
    demo_retry demo_talking_inv) as (_ & envelope & session & session' & db & c & [= <-] & Hs & Hd & _ & _ & Hrefused).
  - reflexivity.
  - unfold demo_received. rewrite (surjective_pairing (proteus_decrypt _ _ _)) at 1. by f_equal.
  - unfold demo_aborted. rewrite (surjective_pairing (beside_proteus _ _)) at 1. by f_equal.
  - unfold demo_retry, new_context, new_transaction. rewrite decide_True; [done|]. vm_compute. lia.
  - apply (Hrefused _ (bstr "hello")); [reflexivity|]. vm_compute in Hs. injection Hs as <-.
    apply (f_equal (fun r => fst (snd r))) in Hd. lazy in Hd. subst session'. reflexivity.
Defined.

(** The tables after a session was saved and its transaction committed. *)
Definition demo_saved_session : Entity.t :=
  Entity.ProteusSession {| session_id := demo_peer; session_session := [Byte.x01] |}.
Definition demo_session_db : Database := committed_with [demo_saved_session].
Definition demo_session_tables : SqlDb := default ∅ (conn demo_session_db).
Definition demo_reopened : demo_proteus_world :=
  snd (proteus_init (MkPWorld (demo_client_context demo_session_tables) None)).

Lemma persisted_sessions_lost_witness :
  entity_load_all EntityType.ProteusSession demo_session_tables = Ok [demo_saved_session] /\
  fst (proteus_session_exists demo_peer demo_reopened) = Ok false.
Proof.
  split; [vm_compute; reflexivity|].
  destruct (committed_with_inv [demo_saved_session]) as (_ & _ & Hm); [by repeat constructor|].
  destruct (Hm demo_session_tables) as (m & Hrep & Hu); [vm_compute; reflexivity|].
  refine (proj1 (persisted_sessions_lost m demo_session_tables (demo_client_context demo_session_tables) demo_reopened
    demo_peer Hrep Hu _ _ _)); [reflexivity| |reflexivity].
  unfold demo_reopened. rewrite (surjective_pairing (proteus_init _)) at 1. by f_equal.
Defined.
