(* ===== verification/X509Check.v ===== *)
(** * Certificate checks

    [e2e-identity/src/x509_check]: the index of certificate revocation lists
    ([revocation/crl_store.rs], [crl_info.rs], [misc.rs]), the cache of revocation
    statuses ([cache.rs]), the validation of a certificate over its candidate paths
    ([revocation.rs]) and what its outcome means for an identity ([mod.rs]).
    Decoding and path validation are the libraries'.  A mutex is only poisoned by a
    panic, so the errors for poisoned locks are left out. *)

From S2P Require Import Prelude.
From Stdlib Require Import Lia ZArith.

(** ** Errors *)

(** [certval::PathValidationStatus], as far as the code tells its values apart. *)
Inductive PathValidationStatus : Type :=
  | PathValid
  | RevocationStatusNotDetermined
  | RevocationStatusNotAvailable
  | CertificateRevoked
  | CertificateRevokedEndEntity
  | CertificateRevokedIntermediateCa
  | NoPathsFound
  | InvalidNotAfterDate
  | SignatureVerificationFailure
  | OtherPathStatus (code : nat).

#[export] Instance PathValidationStatus_eq_dec : EqDecision PathValidationStatus.
Proof. solve_decision. Defined.

(** [certval::Error]. *)
Inductive CertvalError : Type :=
  | PathValidation (status : PathValidationStatus)
  | CertvalNotFound
  | CertvalUnrecognized
  | CrlIncompatible
  | Asn1Error
  | OtherCertvalError.

(** [RustyX509CheckError]. *)
Inductive RustyX509CheckError : Type :=
  | DerError
  | PemError
  | LockPoisonError
  | CannotDetermineCurrentTime
  | CertValError (e : CertvalError)
  | CannotDetermineVerificationStatus
  | MissingSki
  | ImplementationError.

(** ** The libraries *)

Inductive GeneralName : Type :=
  | DirectoryName (name : bytes)
  | UniformResourceIdentifier (uri : bytes)
  | OtherGeneralName.

Inductive DistributionPointName : Type :=
  | FullName (names : list GeneralName)
  | NameRelativeToCRLIssuer.

Record IssuingDistributionPoint : Type := MkIdp {
  idp_distribution_point : option DistributionPointName;
  only_contains_user_certs : bool;
  only_contains_ca_certs : bool;
  only_some_reasons : bool;
  indirect_crl : bool;
  only_contains_attribute_certs : bool;
}.

Inductive ExtensionId : Type :=
  | ID_CE_ISSUING_DISTRIBUTION_POINT
  | ID_CE_AUTHORITY_KEY_IDENTIFIER
  | ID_CE_DELTA_CRL_INDICATOR
  | OtherExtensionId.

Record Extension : Type := MkExt { extn_id : ExtensionId; extn_value : bytes }.

(** What the code reads of certificates and revocation lists; times are seconds
    since the Unix epoch. *)
Class X509Lib : Type := {
  CertificateList : Type;
  crl_this_update : CertificateList -> Z;
  crl_next_update : CertificateList -> option Z;
  crl_issuer : CertificateList -> bytes;
  crl_issuer_der : CertificateList -> option bytes;
  crl_signature_algorithm_der : CertificateList -> option bytes;
  crl_extensions : CertificateList -> option (list Extension);
  crl_extensions_der : CertificateList -> option bytes;
  crl_to_der : CertificateList -> option bytes;
  crl_from_der : bytes -> option CertificateList;
  idp_from_der : bytes -> option IssuingDistributionPoint;
  (** [AuthorityKeyIdentifier::from_der] and its key identifier. *)
  akid_from_der : bytes -> option (option bytes);
  dp_to_der : DistributionPointName -> option bytes;
  Certificate : Type;
  cert_to_der : Certificate -> option bytes;
  cert_from_der : bytes -> option Certificate;
  cert_issuer : Certificate -> bytes;
  cert_serial : Certificate -> bytes;
  (** The CRL distribution points extension and the key identifier of the
      authority key identifier extension. *)
  cert_distribution_points : Certificate -> option (list (option DistributionPointName));
  cert_akid : Certificate -> option bytes;
}.

Section x509_check.
Context `{L : X509Lib}.

(** ** [CrlInfo] *)

Inductive CrlQuestions : Type := EeOnly | CaOnly | AaOnly | DeltaCrl | Partitioned | Indirect | SomeReasons.
Inductive CrlCoverage : Type := CoverageEeOnly | CoverageCaOnly | CoverageAll.
Inductive CrlAuthority : Type := AuthorityIndirect | AuthorityDirect.
Inductive CrlScope : Type := ScopeDeltaDp | ScopeDp | ScopeDelta | ScopeComplete.
Inductive CrlReasons : Type := ReasonsSome | ReasonsAll.

#[export] Instance CrlQuestions_eq_dec : EqDecision CrlQuestions.
Proof. solve_decision. Defined.
#[export] Instance CrlScope_eq_dec : EqDecision CrlScope.
Proof. solve_decision. Defined.

#[export] Instance CrlCoverage_eq_dec : EqDecision CrlCoverage.
Proof. solve_decision. Defined.
#[export] Instance CrlAuthority_eq_dec : EqDecision CrlAuthority.
Proof. solve_decision. Defined.
#[export] Instance CrlReasons_eq_dec : EqDecision CrlReasons.
Proof. solve_decision. Defined.

Record CrlType : Type := MkCrlType {
  scope : CrlScope;
  coverage : CrlCoverage;
  authority : CrlAuthority;
  reasons : CrlReasons;
}.

#[export] Instance CrlType_eq_dec : EqDecision CrlType.
Proof. solve_decision. Defined.

Record CrlInfo : Type := MkCrlInfo {
  type_info : CrlType;
  this_update : Z;
  next_update : option Z;
  issuer_name : bytes;
  issuer_name_blob : bytes;
  sig_alg_blob : bytes;
  exts_blob : option bytes;
  idp_name : option bytes;
  idp_blob : option bytes;
  skid : option bytes;
}.

#[export] Instance CrlInfo_eq_dec : EqDecision CrlInfo.
Proof. solve_decision. Defined.

(** The variables of the loop over the extensions. *)
Record CrlScan : Type := MkScan {
  scan_idp_blob : option bytes;
  scan_idp_name : option bytes;
  scan_skid : option bytes;
  questionnaire : list CrlQuestions;
}.

(** The loop over the names of a distribution point: the first directory name or URI. *)
Fixpoint first_dp_name (gns : list GeneralName) : option bytes :=
  match gns with
  | [] => None
  | DirectoryName dn :: _ => Some dn
  | UniformResourceIdentifier uri :: _ => Some uri
  | OtherGeneralName :: gns => first_dp_name gns
  end.

Definition when (b : bool) (q : CrlQuestions) : list CrlQuestions := if b then [q] else [].

(** One round of the loop. *)
Definition scan_extension (ext : Extension) (acc : CrlScan) : res RustyX509CheckError CrlScan :=
  match extn_id ext with
  | ID_CE_ISSUING_DISTRIBUTION_POINT =>
      idp ← ok_or (idp_from_der (extn_value ext)) (CertValError Asn1Error);
      name ← match idp_distribution_point idp with
             | Some (FullName gns) =>
                 let name := match first_dp_name gns with Some n => Some n | None => scan_idp_name acc end in
                 match name with
                 | None => Err (CertValError CertvalUnrecognized)
                 | Some _ => Ok name
                 end
             | Some NameRelativeToCRLIssuer => Err (CertValError CertvalUnrecognized)
             | None => Ok (scan_idp_name acc)
             end;
      Ok (MkScan (Some (extn_value ext)) name (scan_skid acc)
            (when (bool_decide (is_Some (idp_distribution_point idp))) Partitioned ++
             when (indirect_crl idp) Indirect ++ when (only_some_reasons idp) SomeReasons ++
             when (only_contains_user_certs idp) EeOnly ++ when (only_contains_ca_certs idp) CaOnly ++
             when (only_contains_attribute_certs idp) AaOnly ++ questionnaire acc))
  | ID_CE_AUTHORITY_KEY_IDENTIFIER =>
      Ok (match akid_from_der (extn_value ext) with
          | Some (Some kid) => MkScan (scan_idp_blob acc) (scan_idp_name acc) (Some kid) (questionnaire acc)
          | _ => acc
          end)
  | ID_CE_DELTA_CRL_INDICATOR =>
      Ok (MkScan (scan_idp_blob acc) (scan_idp_name acc) (scan_skid acc) (DeltaCrl :: questionnaire acc))
  | OtherExtensionId => Ok acc
  end.

(** The type of a list, from the answers. *)
Definition crl_type (answers : list CrlQuestions) : CrlType :=
  let contains q := bool_decide (q ∈ answers) in
  MkCrlType
    (if contains Partitioned then if contains DeltaCrl then ScopeDeltaDp else ScopeDp
     else if contains DeltaCrl then ScopeDelta else ScopeComplete)
    (if contains EeOnly then CoverageEeOnly else if contains CaOnly then CoverageCaOnly else CoverageAll)
    (if contains Indirect then AuthorityIndirect else AuthorityDirect)
    (if contains SomeReasons then ReasonsSome else ReasonsAll).

(** [TryFrom<&CertificateList> for CrlInfo]. *)
Definition crl_info_try_from (crl : CertificateList) : res RustyX509CheckError CrlInfo :=
  issuer_name_blob ← ok_or (crl_issuer_der crl) (CertValError CertvalUnrecognized);
  sig_alg_blob ← ok_or (crl_signature_algorithm_der crl) (CertValError CertvalUnrecognized);
  exts_blob ← match crl_extensions crl with
              | Some _ => Some <$> ok_or (crl_extensions_der crl) (CertValError CertvalUnrecognized)
              | None => Ok None
              end;
  scan ← for_each scan_extension (default [] (crl_extensions crl)) (MkScan None None None []);
  if decide (AaOnly ∈ questionnaire scan) then Err (CertValError CrlIncompatible) else
  Ok (MkCrlInfo (crl_type (questionnaire scan)) (crl_this_update crl) (crl_next_update crl) (crl_issuer crl)
        issuer_name_blob sig_alg_blob exts_blob (scan_idp_name scan) (scan_idp_blob scan) (scan_skid scan)).

(** [check_crl_valid_at_toi]. *)
Definition check_crl_valid_at_toi (toi : Z) (crl : CertificateList) : bool :=
  if (toi =? 0)%Z then false
  else if (toi <? crl_this_update crl)%Z then false
  else match crl_next_update crl with
       | Some nu => if (nu <? toi)%Z then false else true
       | None => true
       end.

(** The body of the loop of [get_dp_from_crl] and the loop. *)
Definition extension_dp (ext : Extension) : option bytes :=
  match extn_id ext with
  | ID_CE_ISSUING_DISTRIBUTION_POINT =>
      idp ← idp_from_der (extn_value ext); dp ← idp_distribution_point idp; dp_to_der dp
  | _ => None
  end.

Definition get_dp_from_crl (crl : CertificateList) : option bytes :=
  exts ← crl_extensions crl; head (omap extension_dp exts).

(** [get_dps_from_cert]. *)
Definition get_dps_from_cert (cert : Certificate) : option (list bytes) :=
  match cert_distribution_points cert with
  | Some crl_dps =>
      Some (omap (fun crl_dp => match crl_dp with Some dp => dp_to_der dp | None => None end) crl_dps)
  | None => None
  end.

(** ** [CrlStore] *)

Record CrlStore : Type := MkCrlStore {
  crls : list CertificateList;
  crl_info : list CrlInfo;
  issuers : gmap bytes (list nat);
  sk_ids : gmap bytes (list nat);
  dps : gmap bytes (list nat);
}.

(** [From<&[CertificateList]> for CrlStore]. *)
Definition crl_store_from (value : list CertificateList) : CrlStore := MkCrlStore value [] ∅ ∅ ∅.

(** [.entry(k).or_default().push(i)]. *)
Definition push_entry (k : bytes) (i : nat) (m : gmap bytes (list nat)) : gmap bytes (list nat) :=
  <[k := default [] (m !! k) ++ [i]]> m.

(** [CrlStore::add_crl_info_with_guard] and [add_crl_info]. *)
Definition add_crl_info (crl : CertificateList) (info : CrlInfo) (s : CrlStore) : CrlStore :=
  if decide (info ∈ crl_info s) then s else
  let index := length (crl_info s) in
  let is_dp := bool_decide (is_Some (get_dp_from_crl crl)) in
  MkCrlStore (crls s) (crl_info s ++ [info])
    (if negb is_dp && bool_decide (scope (type_info info) = ScopeComplete)
     then push_entry (crl_issuer crl) index (issuers s) else issuers s)
    (match get_dp_from_crl crl, skid info with
     | None, Some akid => push_entry akid index (sk_ids s)
     | _, _ => sk_ids s
     end)
    (match get_dp_from_crl crl with Some dp => push_entry dp index (dps s) | None => dps s end).

(** The body of the loop of [index_crls], and [CrlStore::index_crls]. *)
Definition index_crl (toi : Z) (s : CrlStore) (crl : CertificateList) : CrlStore :=
  match crl_info_try_from crl with
  | Ok info => if check_crl_valid_at_toi toi crl then add_crl_info crl info s else s
  | _ => s
  end.

Definition index_crls (toi : Z) (s : CrlStore) : CrlStore := foldl (index_crl toi) s (crls s).

(** The lists at some indices; an index without a list is skipped. *)
Definition crls_at (s : CrlStore) (indices : list nat) : res CertvalError (list bytes) :=
  mapM (fun crl => ok_or (crl_to_der crl) Asn1Error) (omap (fun i => crls s !! i) indices).

(** [CrlSource::get_all_crls]. *)
Definition get_all_crls (s : CrlStore) : res CertvalError (list bytes) :=
  mapM (fun crl => ok_or (crl_to_der crl) Asn1Error) (crls s).

(** [CrlSource::get_crls]. *)
Definition get_crls (s : CrlStore) (cert : Certificate) : res CertvalError (list bytes) :=
  match head (omap (fun dp => dps s !! dp) (default [] (get_dps_from_cert cert))) with
  | Some indices => crls_at s indices
  | None =>
      match (kid ← cert_akid cert; sk_ids s !! kid) with
      | Some indices => crls_at s indices
      | None =>
          match issuers s !! cert_issuer cert with
          | Some indices => crls_at s indices
          | None => Err CertvalNotFound
          end
      end
  end.

(** [CrlSource::add_crl]. *)
Definition add_crl (crl : CertificateList) (s : CrlStore) : CrlStore :=
  let s := MkCrlStore (crls s ++ [crl]) (crl_info s) (issuers s) (sk_ids s) (dps s) in
  match crl_info_try_from crl with
  | Ok info => add_crl_info crl info s
  | _ => s
  end.

(** ** [RevocationCache] *)

Record StatusAndTime : Type := MkStatus { status : PathValidationStatus; valid_until : Z }.

Abbreviation RevocationCache := (gmap (bytes * bytes) StatusAndTime).

Definition get_name_serial_pair (cert : Certificate) : bytes * bytes := (cert_issuer cert, cert_serial cert).

(** [RevocationStatusCache::get_status]. *)
Definition get_status (cache : RevocationCache) (cert : Certificate) (time_of_interest : Z) : PathValidationStatus :=
  match cache !! get_name_serial_pair cert with
  | Some st => if (time_of_interest <? valid_until st)%Z then status st else RevocationStatusNotDetermined
  | None => RevocationStatusNotDetermined
  end.

Definition is_status_relevant (status : PathValidationStatus) : bool :=
  match status with
  | PathValid | CertificateRevoked | CertificateRevokedEndEntity | CertificateRevokedIntermediateCa
  | NoPathsFound => true
  | _ => false
  end.

(** [RevocationStatusCache::add_status]. *)
Definition add_status (cert : Certificate) (next_update : Z) (status : PathValidationStatus)
    (cache : RevocationCache) : RevocationCache :=
  if negb (is_status_relevant status) then cache else
  let status := if decide (status = PathValid) then PathValid else CertificateRevoked in
  let k := get_name_serial_pair cert in
  match cache !! k with
  | Some old => if (valid_until old <? next_update)%Z then <[k := MkStatus status next_update]> cache else cache
  | None => <[k := MkStatus status next_update]> cache
  end.

(** ** Validation *)

(** [check_cpr], on the status recorded by the library. *)
Definition check_cpr (cpr : option PathValidationStatus) : res RustyX509CheckError () :=
  match cpr with
  | Some PathValid | Some RevocationStatusNotDetermined | Some RevocationStatusNotAvailable => Ok ()
  | Some validation_status => Err (CertValError (PathValidation validation_status))
  | None => Err CannotDetermineVerificationStatus
  end.

(** The clock, the candidate paths of a certificate at some time, and what the
    library records when it validates a path, with CRL checks switched on or not,
    and checks its revocation. *)
Context {Path : Type} (now : option Z) (get_paths_for_target : Certificate -> Z -> res CertvalError (list Path))
  (validate_path_rfc5280 : bool -> Path -> option PathValidationStatus * Path)
  (check_revocation : Path -> option PathValidationStatus).

(** The closure given to [any]: whether the path validates, and otherwise its
    error; [check_crls] is the setting the closure switches on. *)
Definition path_outcome (perform_revocation_check check_crls : bool) (path : Path) : res RustyX509CheckError () * bool :=
  let '(cpr, path) := validate_path_rfc5280 check_crls path in
  match check_cpr cpr with
  | Ok _ =>
      if perform_revocation_check then (check_cpr (check_revocation path), true) else (Ok (), check_crls)
  | r => (r, check_crls)
  end.

Fixpoint any_path (perform_revocation_check check_crls : bool) (paths : list Path)
    (result : res RustyX509CheckError ()) : res RustyX509CheckError () :=
  match paths with
  | [] => result
  | path :: paths =>
      match path_outcome perform_revocation_check check_crls path with
      | (Ok _, _) => Ok ()
      | (r, check_crls) => any_path perform_revocation_check check_crls paths r
      end
  end.

(** [PkiEnvironment::validate_cert_internal] and the two functions that call it. *)
Definition validate_cert_internal (cert : Certificate) (perform_revocation_check : bool) :
    res RustyX509CheckError () :=
  toi ← ok_or now CannotDetermineCurrentTime;
  paths ← map_err CertValError (get_paths_for_target cert toi);
  match paths with
  | [] => Err (CertValError (PathValidation NoPathsFound))
  | _ => any_path perform_revocation_check false paths (Ok ())
  end.

Definition validate_cert_and_revocation (cert : Certificate) : res RustyX509CheckError () :=
  validate_cert_internal cert true.

(** [IdentityStatus] and [IdentityStatus::from_cert]. *)
Inductive IdentityStatus : Type := IdentityValid | IdentityExpired | IdentityRevoked.

Definition identity_status_from_cert (cert : Certificate) : IdentityStatus :=
  match validate_cert_and_revocation cert with
  | Err (CertValError (PathValidation e)) =>
      match e with
      | InvalidNotAfterDate => IdentityExpired
      | CertificateRevoked | CertificateRevokedEndEntity | NoPathsFound | CertificateRevokedIntermediateCa =>
          IdentityRevoked
      | _ => IdentityValid
      end
  | _ => IdentityValid
  end.

(** [CredentialAuthenticationStatus] and [PkiEnvironment::validate_credential], on the
    certificates of an X.509 credential. *)
Inductive CredentialAuthenticationStatus : Type := AuthValid | AuthInvalid | AuthUnknown.

Definition validate_credential (certificates : list bytes) : CredentialAuthenticationStatus :=
  match (raw ← head certificates; cert_from_der raw) with
  | None => AuthInvalid
  | Some cert =>
      match validate_cert_and_revocation cert with
      | Err (CertValError (PathValidation
          (CertificateRevoked | CertificateRevokedEndEntity | CertificateRevokedIntermediateCa))) => AuthValid
      | Err (CertValError (PathValidation InvalidNotAfterDate)) => AuthValid
      | Err (CertValError (PathValidation _)) => AuthInvalid
      | Err _ | Panic => AuthUnknown
      | Ok _ => AuthValid
      end
  end.
End x509_check.

(** ** Concrete certificates and lists

    A certificate is named after its distribution point and encodes as its name; the
    value of an issuing distribution point is its URI. *)
Record ToyCrl : Type := MkToyCrl { toy_crl_name : bytes; toy_crl_dp : bytes; toy_crl_until : Z }.

#[export] Instance toy_x509 : X509Lib := {|
  CertificateList := ToyCrl;
  crl_this_update _ := 1%Z;
  crl_next_update c := Some (toy_crl_until c);
  crl_issuer := toy_crl_name;
  crl_issuer_der c := Some (toy_crl_name c);
  crl_signature_algorithm_der _ := Some [];
  crl_extensions c := Some [MkExt ID_CE_ISSUING_DISTRIBUTION_POINT (toy_crl_dp c)];
  crl_extensions_der c := Some (toy_crl_dp c);
  crl_to_der c := Some (toy_crl_name c);
  crl_from_der name := Some (MkToyCrl name name 100%Z);
  idp_from_der v := Some (MkIdp (Some (FullName [UniformResourceIdentifier v])) false false false false false);
  akid_from_der _ := None;
  dp_to_der d := match d with FullName [UniformResourceIdentifier v] => Some v | _ => None end;
  Certificate := bytes;
  cert_to_der := Some;
  cert_from_der := Some;
  cert_issuer c := c;
  cert_serial c := c;
  cert_distribution_points c := Some [Some (FullName [UniformResourceIdentifier c])];
  cert_akid _ := None;
|}.
