(* ===== verification/X509Props.v ===== *)
(** * What the certificate checks find

    The index of a [CrlStore] selects the lists a scan would select, when every list
    is indexed, and other lists when one is skipped; the cache of revocation statuses
    keeps the report that lasts longest. *)

From S2P Require Import Prelude X509Check.
From Stdlib Require Import Lia ZArith.

Section index.
Context `{L : X509Lib}.

(** ** Indices *)

(** Positions, counted from [off], of the elements that satisfy [f]. *)
Fixpoint positions {A} (f : A -> bool) (off : nat) (l : list A) : list nat :=
  match l with
  | [] => []
  | x :: l => (if f x then [off] else []) ++ positions f (S off) l
  end.

Definition nonempty {A} (l : list A) : option (list A) := match l with [] => None | _ => Some l end.

Lemma nonempty_snoc {A} (l : list A) x : nonempty (l ++ [x]) = Some (l ++ [x]).
Proof. by destruct l. Qed.

(** Looking positions up in a list at least as long selects what is beside them. *)
Lemma omap_positions {A B} (f : B -> bool) (p l : list A) (l2 : list B) :
  length l2 <= length l ->
  omap (fun i => (p ++ l) !! i) (positions f (length p) l2) = (filter (fun q => f q.2 = true) (zip l l2)).*1.
Proof.
  revert p l2. induction l as [|x l IH]; intros p [|y l2] Hlen; cbn in Hlen; try done; [lia|]. cbn [zip_with positions].
  specialize (IH (p ++ [x]) l2 ltac:(lia)). rewrite length_app, <- app_assoc in IH. cbn in IH. rewrite Nat.add_1_r in IH.
  rewrite filter_cons. cbn [snd]. destruct (f y) eqn:Hf.
  - rewrite decide_True by done. cbn -[lookup]. rewrite lookup_app_r, Nat.sub_diag by done. cbn. f_equal. exact IH.
  - by rewrite decide_False.
Qed.

Lemma filter_zip_same {A} (f : A -> bool) (l : list A) :
  (filter (fun q => f q.2 = true) (zip l l)).*1 = filter (fun x => f x = true) l.
Proof.
  induction l as [|x l IH]; [done|]. cbn [zip_with]. rewrite !filter_cons. cbn [snd].
  destruct (f x); [rewrite !decide_True by done; cbn; by f_equal|by rewrite !decide_False].
Qed.

Lemma positions_nil {A B} (f : B -> bool) off (before : list A) (l : list B) :
  length l <= length before ->
  positions f off l = [] <-> (filter (fun q => f q.2 = true) (zip before l)).*1 = [].
Proof.
  revert off before. induction l as [|y l IH]; intros off [|x before] Hlen; cbn in Hlen; try done; [lia|].
  cbn [positions zip_with]. rewrite filter_cons. cbn [snd].
  destruct (f y); [rewrite decide_True by done; split; discriminate|].
  rewrite decide_False by done. apply IH. lia.
Qed.

(** Entries pushed for a list of elements with keys. *)
Definition push_opt (o : option bytes) (i : nat) (m : gmap bytes (list nat)) : gmap bytes (list nat) :=
  match o with Some k => push_entry k i m | None => m end.

Fixpoint push_all {A} (key : A -> option bytes) (off : nat) (l : list A) (m : gmap bytes (list nat)) :
    gmap bytes (list nat) :=
  match l with
  | [] => m
  | x :: l => push_all key (S off) l (push_opt (key x) off m)
  end.

Lemma push_all_lookup {A} (key : A -> option bytes) off l m k :
  m !! k <> Some [] ->
  push_all key off l m !! k =
    nonempty (default [] (m !! k) ++ positions (fun x => bool_decide (key x = Some k)) off l).
Proof.
  revert off m. induction l as [|x l IH]; intros off m Hm; cbn [push_all positions].
  - rewrite app_nil_r. destruct (m !! k) as [[|]|]; done.
  - assert (push_opt (key x) off m !! k =
      if decide (key x = Some k) then Some (default [] (m !! k) ++ [off]) else m !! k) as Hp.
    { unfold push_opt, push_entry. destruct (key x) as [k'|]; [|done].
      destruct (decide (Some k' = Some k)) as [[= ->]|Hne]; [apply lookup_insert_eq|].
      apply lookup_insert_ne. congruence. }
    destruct (decide (key x = Some k)) as [Heq|Hne].
    + rewrite IH, Hp; [|rewrite Hp; by destruct (default [] (m !! k))]. rewrite bool_decide_true by done. cbn.
      by rewrite <- app_assoc.
    + rewrite IH, Hp by (by rewrite Hp). rewrite bool_decide_false by done. done.
Qed.

(** ** Indexing *)

(** What [index_crls] records of a list, if it does. *)
Definition indexed_at (toi : Z) (crl : CertificateList) : option CrlInfo :=
  match crl_info_try_from crl with
  | Ok info => if check_crl_valid_at_toi toi crl then Some info else None
  | _ => None
  end.

Lemma index_crl_eq toi s crl :
  index_crl toi s crl = match indexed_at toi crl with Some info => add_crl_info crl info s | None => s end.
Proof. unfold index_crl, indexed_at. destruct (crl_info_try_from crl); [|done..]. by destruct (check_crl_valid_at_toi toi crl). Qed.

(** The key under which a list is filed in each map. *)
Definition dp_key (crl : CertificateList) : option bytes := get_dp_from_crl crl.
Definition skid_key (crl : CertificateList) : option bytes :=
  match get_dp_from_crl crl, crl_info_try_from crl with None, Ok info => skid info | _, _ => None end.
Definition issuer_key (crl : CertificateList) : option bytes :=
  match get_dp_from_crl crl, crl_info_try_from crl with
  | None, Ok info => if decide (scope (type_info info) = ScopeComplete) then Some (crl_issuer crl) else None
  | _, _ => None
  end.

Lemma add_crl_info_eq crl info s :
  crl_info_try_from crl = Ok info -> info ∉ crl_info s ->
  add_crl_info crl info s =
    MkCrlStore (crls s) (crl_info s ++ [info])
      (push_opt (issuer_key crl) (length (crl_info s)) (issuers s))
      (push_opt (skid_key crl) (length (crl_info s)) (sk_ids s))
      (push_opt (dp_key crl) (length (crl_info s)) (dps s)).
Proof.
  intros Hi Hn. unfold add_crl_info, issuer_key, skid_key, dp_key. rewrite decide_False by done. rewrite Hi.
  destruct (get_dp_from_crl crl) as [dp|]; cbn; [done|].
  destruct (decide (scope (type_info info) = ScopeComplete)) as [He|He];
    [rewrite bool_decide_true by done|rewrite bool_decide_false by done]; by destruct (skid info).
Qed.

(** Every list is indexed. *)
Definition all_indexed (toi : Z) (l : list CertificateList) (infos : list CrlInfo) : Prop :=
  Forall2 (fun crl info => indexed_at toi crl = Some info) l infos.

Lemma index_all toi l infos s :
  all_indexed toi l infos -> NoDup (crl_info s ++ infos) ->
  foldl (index_crl toi) s l =
    MkCrlStore (crls s) (crl_info s ++ infos)
      (push_all issuer_key (length (crl_info s)) l (issuers s))
      (push_all skid_key (length (crl_info s)) l (sk_ids s))
      (push_all dp_key (length (crl_info s)) l (dps s)).
Proof.
  intros Hall. revert s. induction Hall as [|crl info l infos Hi Hall IH]; intros s Hnd.
  - rewrite app_nil_r. by destruct s.
  - cbn [foldl push_all]. rewrite index_crl_eq, Hi.
    assert (info ∉ crl_info s) as Hn.
    { apply NoDup_app in Hnd as (_ & Hd & _). intros Hin. apply (Hd info Hin). by left. }
    assert (crl_info_try_from crl = Ok info) as Hinfo.
    { unfold indexed_at in Hi. destruct (crl_info_try_from crl); [|done..]. by destruct (check_crl_valid_at_toi toi crl); simplify_eq. }
    rewrite (add_crl_info_eq _ _ _ Hinfo Hn). rewrite IH; cbn; rewrite <- app_assoc; [|done].
    by rewrite length_app, Nat.add_1_r.
Qed.

(** ** Lookups *)

(** The lists filed under a key, and the lists one place before them. *)
Definition filed (key : CertificateList -> option bytes) (l : list CertificateList) (k : bytes) : list CertificateList :=
  filter (fun crl => bool_decide (key crl = Some k) = true) l.

Definition filed_before (key : CertificateList -> option bytes) (before l : list CertificateList) (k : bytes) :
    list CertificateList :=
  (filter (fun q => bool_decide (key q.2 = Some k) = true) (zip before l)).*1.

(** The groups of lists a certificate asks for, most specific first. *)
Definition groups (select : (CertificateList -> option bytes) -> bytes -> list CertificateList) (cert : Certificate) :
    list (list CertificateList) :=
  map (select dp_key) (default [] (get_dps_from_cert cert)) ++
  match cert_akid cert with Some kid => [select skid_key kid] | None => [] end ++
  [select issuer_key (cert_issuer cert)].

(** The first group that is not empty. *)
Fixpoint first_group (gs : list (list CertificateList)) : res CertvalError (list bytes) :=
  match gs with
  | [] => Err CertvalNotFound
  | [] :: gs => first_group gs
  | g :: _ => mapM (fun crl => ok_or (crl_to_der crl) Asn1Error) g
  end.

(** A store whose entries are the positions of [l] in a list [before ++ _] at least
    as long. *)
Lemma get_crls_groups before l infos cert :
  length l <= length before ->
  get_crls (MkCrlStore before infos (push_all issuer_key 0 l ∅) (push_all skid_key 0 l ∅) (push_all dp_key 0 l ∅)) cert =
  first_group (groups (fun key k => filed_before key before l k) cert).
Proof.
  intros Hlen. set (s := MkCrlStore _ _ _ _ _).
  assert (forall key k, push_all key 0 l ∅ !! k = None /\ filed_before key before l k = [] \/
    exists ix g gs, push_all key 0 l ∅ !! k = Some ix /\ filed_before key before l k = g :: gs /\
      crls_at s ix = first_group [g :: gs]) as Hone.
  { intros key k. rewrite push_all_lookup by (by rewrite lookup_empty). rewrite lookup_empty. cbn [default app].
    set (f := fun x => bool_decide (key x = Some k)).
    pose proof (omap_positions f [] before l Hlen) as Ho. pose proof (positions_nil f 0 before l Hlen) as Hnil.
    assert ((filter (fun q => f q.2 = true) (zip before l)).*1 = filed_before key before l k) as Hfb by done.
    rewrite Hfb in Ho, Hnil. cbn [app length] in Ho.
    destruct (positions f 0 l) as [|i ix]; [left; split; [done|by apply Hnil]|right].
    destruct (filed_before key before l k) as [|g gs] eqn:Hf; [by discriminate (proj2 Hnil)|].
    exists (i :: ix), g, gs. split; [done|]. split; [done|]. unfold crls_at. cbn [crls s]. by rewrite Ho. }
  unfold get_crls, groups. generalize (default [] (get_dps_from_cert cert)). intros ks.
  induction ks as [|dp ks IH]; cbn [map app].
  - cbn [omap list_omap head sk_ids issuers s].
    destruct (cert_akid cert) as [kid|]; cbn [mbind option_bind app];
      [destruct (Hone skid_key kid) as [[-> ->]|(ix & g & gs & -> & -> & ->)]; [|done]|];
      destruct (Hone issuer_key (cert_issuer cert)) as [[-> ->]|(ix & g & gs & -> & -> & ->)]; done.
  - cbn [omap list_omap]. change (dps s) with (push_all dp_key 0 l ∅) in IH |- *.
    destruct (Hone dp_key dp) as [[-> ->]|(ix & g & gs & -> & -> & Hat)]; [exact IH|exact Hat].
Qed.

(** When every list of a store is recorded, no two with the same data, the
    index gives a certificate the lists that a scan of the store finds: those of the
    first of its distribution points that has any, otherwise those without
    distribution point that carry its authority key identifier, otherwise the
    complete ones of its issuer. *)
Theorem crl_index_complete toi l infos cert :
  all_indexed toi l infos -> NoDup infos ->
  get_crls (index_crls toi (crl_store_from l)) cert = first_group (groups (fun key k => filed key l k) cert).
Proof.
  intros Hall Hnd. unfold index_crls. cbn [crls crl_store_from].
  rewrite (index_all toi l infos) by done. cbn [crls crl_info issuers sk_ids dps crl_store_from app length].
  rewrite get_crls_groups by done. f_equal.
  assert (forall key k, filed_before key l l k = filed key l k) as Hf.
  { intros key k. pose (f := fun crl => bool_decide (key crl = Some k)). exact (filter_zip_same f l). }
  unfold groups. f_equal; [apply map_ext; intros; apply Hf|]. rewrite Hf. by destruct (cert_akid cert); rewrite ?Hf.
Qed.

(** A list that is not recorded, such as one that has expired, shifts the
    index: with one in front, every lookup gives the lists one place before those
    it should give. *)
Theorem skipped_crl_shifts_index toi skipped l infos cert :
  indexed_at toi skipped = None -> all_indexed toi l infos -> NoDup infos ->
  get_crls (index_crls toi (crl_store_from (skipped :: l))) cert =
    first_group (groups (fun key k => filed_before key (skipped :: l) l k) cert).
Proof.
  intros Hs Hall Hnd. unfold index_crls. cbn [crls crl_store_from foldl].
  rewrite index_crl_eq, Hs. rewrite (index_all toi l infos) by done.
  cbn [crls crl_info issuers sk_ids dps crl_store_from app length]. apply get_crls_groups. cbn. lia.
Qed.
End index.

(** ** A run of the model *)

(** Two lists that are valid at time 50, and one that expired before it. *)
Definition demo_list_a : CertificateList (X509Lib := toy_x509) := MkToyCrl (bstr "list a") (bstr "dp a") 60.
Definition demo_list_b : CertificateList (X509Lib := toy_x509) := MkToyCrl (bstr "list b") (bstr "dp b") 70.
Definition demo_expired : CertificateList (X509Lib := toy_x509) := MkToyCrl (bstr "expired") (bstr "dp e") 10.
Definition demo_revocable : Certificate (X509Lib := toy_x509) := bstr "dp b".

Definition demo_infos : list CrlInfo :=
  omap (indexed_at (L := toy_x509) 50) [demo_list_a; demo_list_b].

Lemma demo_all_indexed : all_indexed (L := toy_x509) 50 [demo_list_a; demo_list_b] demo_infos /\ NoDup demo_infos.
Proof.
  split; [by repeat constructor|]. apply (bool_decide_unpack _). vm_compute. exact I.
Qed.

Lemma crl_index_complete_witness :
  get_crls (L := toy_x509) (index_crls 50 (crl_store_from [demo_list_a; demo_list_b])) demo_revocable = Ok [bstr "list b"].
Proof.
  rewrite (crl_index_complete 50 [demo_list_a; demo_list_b] demo_infos demo_revocable
    (proj1 demo_all_indexed) (proj2 demo_all_indexed)).
  vm_compute. reflexivity.
Defined.

(** With an expired list in front, the certificate gets the list of another
    distribution point. *)
Lemma skipped_crl_shifts_index_witness :
  get_crls (L := toy_x509) (index_crls 50 (crl_store_from [demo_expired; demo_list_a; demo_list_b])) demo_revocable =
    Ok [bstr "list a"].
Proof.
  rewrite (skipped_crl_shifts_index 50 demo_expired [demo_list_a; demo_list_b] demo_infos demo_revocable
    ltac:(vm_compute; reflexivity) (proj1 demo_all_indexed) (proj2 demo_all_indexed)).
  vm_compute. reflexivity.
Defined.
