(* ===== verification/PkiEnv.v ===== *)
(** * The PKI environment

    [e2e-identity/src/pki_env] and the parts of
    [e2e-identity/src/x509_check/revocation.rs] it is built from: trust anchors,
    intermediate certificates and revocation lists, in memory and in the keystore.
    The in-memory environment is the certval library's; it is a list of sources for
    each of the three. *)

From S2P Require Import Prelude Keys EntityTypes Entities ToyExternals Sql KeystoreErrors EntityStore Store Transaction Database EntityKV CryptoErrors ClientIds X509Check.
From Stdlib Require Import Lia ZArith.

(** [pki_env::Error]. *)
Inductive PkiError : Type :=
  | NoTrustAnchor
  | CrlFetchUnsuccessful (uri : bytes) (status : Z)
  | HooksError
  | X509Error (e : RustyX509CheckError)
  | UrlError
  | JsonError
  | X509CertDerError
  | PkiKeystoreError (e : KeystoreError.t)
  | PkiCertval (e : CertvalError).

(** ** The libraries and the application *)

Class PkiLib (L : X509Lib) : Type := {
  (** The clock. *)
  clock_now : option Z;
  (** [PDVCertificate::try_from] and [PDVTrustAnchorChoice::try_from], which fail on
      certificates they cannot encode. *)
  pdv_try_from : Certificate -> res CertvalError ();
  pdv_trust_anchor_try_from : Certificate -> res CertvalError ();
  (** [check_validity] at some time and [verify_signatures], of the path that consists
      of the certificate as its own trust anchor. *)
  check_validity : Z -> Certificate -> res CertvalError ();
  verify_signatures : Z -> Certificate -> res CertvalError ();
  (** [get_extension] for the subject key identifier, where an extension of another
      type has no key, and for the key of the authority key identifier; and the
      distribution points among the parsed extensions. *)
  get_ski : Certificate -> res CertvalError (option (option bytes));
  get_aki : Certificate -> res CertvalError (option bytes);
  parsed_crl_distribution_points : Certificate -> option (list (option DistributionPointName));
  (** Whether [initialize] accepts the certificates of a source. *)
  ta_initialize : list Certificate -> bool;
  cert_initialize : list Certificate -> bool;
  (** [hooks.http_request(HttpMethod::Get, uri, ..)]: status and body. *)
  http_get : bytes -> option (Z * bytes);
  (** The trust anchors of some sources. *)
  trust_anchors_of : list (list Certificate) -> list Certificate;
  (** [get_trust_anchor], [get_intermediates_by_skid], [get_trust_anchor_by_name] and
      [get_cert_by_name], on the sources for them. *)
  get_trust_anchor : list (list Certificate) -> bytes -> option Certificate;
  get_intermediates_by_skid : list (list Certificate) -> bytes -> option (list Certificate);
  get_trust_anchor_by_name : list (list Certificate) -> bytes -> option Certificate;
  get_cert_by_name : list (list Certificate) -> bytes -> list Certificate;
  (** Public keys, those of the certificates, the value of the authority key
      identifier extension of a list, and the verification of its signature. *)
  Spki : Type;
  spki_eq_dec :: EqDecision Spki;
  cert_spki : Certificate -> Spki;
  crl_aki_value : CertificateList -> option bytes;
  verify_crl : CertificateList -> Spki -> bool;
}.

(** What the code relies on: certificates decode from their encoding, and an
    environment has the trust anchors of all its sources. *)
Class PkiLibLaws {L : X509Lib} (K : PkiLib L) : Prop := {
  cert_decode c der : cert_to_der c = Some der -> cert_from_der der = Some c;
  trust_anchors_elem sources c : c ∈ trust_anchors_of sources <-> exists source, source ∈ sources /\ c ∈ source;
}.

Section pki_env.
Context `{X : Externals, L : X509Lib, K : !PkiLib L}.

(** [PkiEnvironment], with the sources of the in-memory environment. *)
Record PkiEnvironment : Type := MkPki {
  ta_sources : list (list Certificate);
  cert_sources : list (list Certificate);
  crl_sources : list CrlStore;
  pki_database : Database;
}.

Abbreviation pki A := (st PkiEnvironment PkiError A).

Definition set_pki_database (db : Database) (e : PkiEnvironment) : PkiEnvironment :=
  MkPki (ta_sources e) (cert_sources e) (crl_sources e) db.
Definition set_ta_sources (l : list (list Certificate)) (e : PkiEnvironment) : PkiEnvironment :=
  MkPki l (cert_sources e) (crl_sources e) (pki_database e).
Definition add_cert_source (l : list Certificate) (e : PkiEnvironment) : PkiEnvironment :=
  MkPki (ta_sources e) (cert_sources e ++ [l]) (crl_sources e) (pki_database e).
Definition add_crl_source (s : CrlStore) (e : PkiEnvironment) : PkiEnvironment :=
  MkPki (ta_sources e) (cert_sources e) (crl_sources e ++ [s]) (pki_database e).

(** A call on the database. *)
Definition on_pki_database {A} (f : Database -> kres A * Database) : st PkiEnvironment KeystoreError.t A := fun e =>
  let '(r, db) := f (pki_database e) in (r, set_pki_database db e).

(** [now]. *)
Definition pki_now : res RustyX509CheckError Z := ok_or clock_now CannotDetermineCurrentTime.

(** ** What is read of a certificate *)

(** [hex::encode]. *)
Definition hex_encode (s : bytes) : bytes :=
  s ≫= fun b => [hex_digit (byte_to_Z b / 16); hex_digit (byte_to_Z b mod 16)].

(** [PkiEnvironment::validate_trust_anchor_cert]. *)
Definition validate_trust_anchor_cert (cert : Certificate) : res RustyX509CheckError () :=
  toi ← pki_now;
  _ ← map_err CertValError (pdv_try_from cert);
  _ ← map_err CertValError (pdv_trust_anchor_try_from cert);
  _ ← map_err CertValError (check_validity toi cert);
  map_err CertValError (verify_signatures toi cert).

(** [PkiEnvironment::extract_ski_aki_from_cert]. *)
Definition extract_ski_aki_from_cert (cert : Certificate) : res RustyX509CheckError (bytes * option bytes) :=
  _ ← map_err CertValError (pdv_try_from cert);
  ski ← map_err CertValError (get_ski cert);
  ski ← ok_or ski MissingSki;
  ski ← ok_or ski ImplementationError;
  aki ← map_err CertValError (get_aki cert);
  Ok (hex_encode ski, fmap (M := option) hex_encode aki).

(** The URIs of a distribution point. *)
Definition full_name_uris (dp : option DistributionPointName) : list bytes :=
  match dp with
  | Some (FullName names) => omap (fun gn => match gn with UniformResourceIdentifier uri => Some uri | _ => None end) names
  | _ => []
  end.

(** [extract_crl_uris]. *)
Definition extract_crl_uris (cert : Certificate) : res RustyX509CheckError (option (gset bytes)) :=
  _ ← map_err CertValError (pdv_try_from cert);
  Ok ((fun dps => list_to_set (dps ≫= full_name_uris)) <$> parsed_crl_distribution_points cert).

(** ** Restoring *)

(** [cert.to_der()?] for each certificate of a source. *)
Definition all_encode (certs : list Certificate) : bool :=
  forallb (fun c => bool_decide (is_Some (cert_to_der c))) certs.

(** [PkiEnvironment::init] of the in-memory environment. *)
Definition rjt_init (trust_roots intermediates : list Certificate) (lists : list CertificateList) (db : Database) :
    res RustyX509CheckError PkiEnvironment :=
  toi ← pki_now;
  if negb (all_encode intermediates) then Err DerError else
  if negb (cert_initialize intermediates) then Err (CertValError OtherCertvalError) else
  if negb (all_encode trust_roots) then Err DerError else
  if negb (ta_initialize trust_roots) then Err (CertValError OtherCertvalError) else
  Ok (MkPki [trust_roots] [intermediates] [index_crls toi (crl_store_from lists)] db).

Definition intermediate_cert_of (e : Entity.t) : res PkiError Certificate :=
  match e with
  | Entity.E2eiIntermediateCert i => ok_or (cert_from_der (intermediate_content i)) X509CertDerError
  | _ => Panic
  end.

Definition crl_of (e : Entity.t) : res PkiError CertificateList :=
  match e with
  | Entity.E2eiCrl c => ok_or (crl_from_der (crl_content c)) X509CertDerError
  | _ => Panic
  end.

(** [restore_pki_env] and [PkiEnvironment::new]. *)
Definition restore_pki_env (db : Database) : res PkiError PkiEnvironment :=
  trust_roots ← match kv_get EntityType.E2eiAcmeCA (PkU64 (MkUInt 0)) db with
                | Ok (Some (Entity.E2eiAcmeCA ta)) =>
                    c ← ok_or (cert_from_der (acme_ca_content ta)) X509CertDerError; Ok [c]
                | _ => Ok []
                end;
  intermediates ← map_err PkiKeystoreError (kv_load_all EntityType.E2eiIntermediateCert db);
  intermediates ← mapM intermediate_cert_of intermediates;
  lists ← map_err PkiKeystoreError (kv_load_all EntityType.E2eiCrl db);
  lists ← mapM crl_of lists;
  map_err X509Error (rjt_init trust_roots intermediates lists db).

(** [PkiEnvironment::get_trust_anchors]. *)
Definition get_trust_anchors (e : PkiEnvironment) : list Certificate := trust_anchors_of (ta_sources e).

(** ** Writing *)

(** [PkiEnvironment::transactionally]. *)
Definition transactionally {E A} (into : E -> PkiError) (operation : st PkiEnvironment E A) : pki A := fun e =>
  match try_new_immediate_transaction (pki_database e) with
  | (Ok _, db) =>
      let '(operation_outcome, e) := operation (set_pki_database db e) in
      match operation_outcome with
      | Ok a =>
          let '(r, e) := on_pki_database commit_transaction e in
          ((fun _ => a) <$> map_err PkiKeystoreError r, e)
      | Err err =>
          let '(r, e) := on_pki_database rollback_transaction e in
          (match r with Ok _ => Err (into err) | Err k => Err (PkiKeystoreError k) | Panic => Panic end, e)
      | Panic => (Panic, e)
      end
  | (Err KeystoreError.TransactionInProgress, db) =>
      let '(r, e) := operation (set_pki_database db e) in (map_err into r, e)
  | (Err err, db) => (Err (PkiKeystoreError err), set_pki_database db e)
  | (Panic, db) => (Panic, set_pki_database db e)
  end.

(** [PkiEnvironment::add_trust_anchor]. *)
Definition add_trust_anchor (cert : Certificate) : pki () :=
  _ ← st_lift (fun _ => map_err X509Error (validate_trust_anchor_cert cert));
  der ← st_lift (fun _ => ok_or (cert_to_der cert) X509CertDerError);
  _ ← transactionally PkiKeystoreError
        (on_pki_database (kv_save None (Entity.E2eiAcmeCA {| acme_ca_content := der |})));
  if negb (ta_initialize [cert]) then st_throw (PkiCertval OtherCertvalError) else
  st_of (fun e => (Ok (), set_ta_sources (ta_sources e ++ [[cert]]) e)).

(** [PkiEnvironment::remove_trust_anchor]. *)
Definition remove_trust_anchor (serial_number : bytes) : pki () :=
  certs ← st_of (fun e =>
    (Ok (filter (fun c => cert_serial c <> serial_number) (get_trust_anchors e)), set_ta_sources [] e));
  if negb (all_encode certs) then st_throw X509CertDerError else
  if negb (ta_initialize certs) then st_throw (PkiCertval OtherCertvalError) else
  _ ← st_of (fun e => (Ok (), set_ta_sources (ta_sources e ++ [certs]) e));
  transactionally PkiKeystoreError (on_pki_database (kv_remove EntityType.E2eiAcmeCA (PkU64 (MkUInt 0)))).

(** ** Revocation lists *)

(** [PkiEnvironment::fetch_crls]: the bodies by URI. *)
Fixpoint fetch_crls (uris : list bytes) (acc : gmap bytes bytes) : res PkiError (gmap bytes bytes) :=
  match uris with
  | [] => Ok acc
  | uri :: uris =>
      match http_get uri with
      | None => Err HooksError
      | Some (status, body) =>
          if (200 <=? status)%Z && (status <? 300)%Z then fetch_crls uris (<[uri := body]> acc)
          else Err (CrlFetchUnsuccessful uri status)
      end
  end.

(** [Vec::dedup]. *)
Fixpoint dedup (l : list Spki) : list Spki :=
  match l with
  | x :: (y :: _) as l => if decide (x = y) then dedup l else x :: dedup l
  | l => l
  end.

(** The keys [validate_crl_with_raw] tries. *)
Definition crl_keys (e : PkiEnvironment) (crl : CertificateList) : list Spki :=
  let by_aki :=
    match crl_aki_value crl with
    | None => []
    | Some akid =>
        match get_trust_anchor (ta_sources e) akid with
        | Some ta => [cert_spki ta]
        | None => map cert_spki (default [] (get_intermediates_by_skid (cert_sources e) akid))
        end
    end in
  let by_name :=
    match get_trust_anchor_by_name (ta_sources e) (crl_issuer crl) with
    | Some ta => if decide (cert_spki ta ∈ by_aki) then by_aki else by_aki ++ [cert_spki ta]
    | None => by_aki
    end in
  dedup (by_name ++ map cert_spki (get_cert_by_name (cert_sources e) (crl_issuer crl))).

(** [PkiEnvironment::validate_crl_with_raw]. *)
Definition validate_crl_with_raw (e : PkiEnvironment) (crl_raw : bytes) : res RustyX509CheckError CertificateList :=
  crl ← ok_or (crl_from_der crl_raw) DerError;
  if existsb (verify_crl crl) (crl_keys e crl) then Ok crl
  else Err (CertValError (PathValidation SignatureVerificationFailure)).

(** [PkiEnvironment::save_crl]. *)
Definition save_crl (crl_dp : bytes) (crl_der : bytes) : pki () :=
  crl ← st_lift (fun e => map_err X509Error (validate_crl_with_raw e crl_der));
  toi ← st_lift (fun _ => map_err X509Error pki_now);
  _ ← st_of (fun e => (Ok (), add_crl_source (index_crls toi (crl_store_from [crl])) e));
  content ← st_lift (fun _ => ok_or (crl_to_der crl) (X509Error DerError));
  _ ← transactionally PkiKeystoreError
        (on_pki_database (kv_save None (Entity.E2eiCrl {| crl_content := content; distribution_point := crl_dp |})));
  mret ().

(** Lists are fetched in the order of a hash set and saved in that of a hash map. *)
Context (set_order : gset bytes -> list bytes) (hash_order : gmap bytes bytes -> list (bytes * bytes)).

(** [PkiEnvironment::add_intermediate_cert]. *)
Definition add_intermediate_cert (cert : Certificate) : pki () :=
  '(ski, aki) ← st_lift (fun _ => map_err X509Error (extract_ski_aki_from_cert cert));
  cert_der ← st_lift (fun _ => ok_or (cert_to_der cert) (X509Error DerError));
  _ ← transactionally (fun err : PkiError => err) (
        _ ← st_map_err PkiKeystoreError (on_pki_database (kv_save None (Entity.E2eiIntermediateCert
              {| intermediate_content := cert_der; ski_aki_pair := ski ++ bstr ":" ++ default [] aki |})));
        uris ← st_lift (fun _ => map_err X509Error (extract_crl_uris cert));
        lists ← st_lift (fun _ => fetch_crls (default [] (set_order <$> uris)) ∅);
        mapM (fun '(distribution_point, crl) => save_crl distribution_point crl) (hash_order lists));
  _ ← st_lift (fun _ => map_err X509Error pki_now);
  if negb (cert_initialize [cert]) then st_throw (PkiCertval OtherCertvalError) else
  st_of (fun e => (Ok (), add_cert_source [cert] e)).
End pki_env.

(** The paths of certificates in an environment, see [X509Check]. *)
Class PathLib (L : X509Lib) : Type := {
  Path : Type;
  paths_for_target : PkiEnvironment -> Certificate -> Z -> res CertvalError (list Path);
  validate_path_rfc5280 : PkiEnvironment -> bool -> Path -> option PathValidationStatus * Path;
  check_revocation : PkiEnvironment -> Path -> option PathValidationStatus;
}.

(** ** A concrete environment: every certificate is accepted and every list verifies. *)
#[export] Instance toy_pki : PkiLib toy_x509 := {|
  clock_now := Some 50%Z;
  pdv_try_from _ := Ok ();
  pdv_trust_anchor_try_from _ := Ok ();
  check_validity _ _ := Ok ();
  verify_signatures _ _ := Ok ();
  get_ski c := Ok (Some (Some c));
  get_aki _ := Ok None;
  parsed_crl_distribution_points c := Some [Some (FullName [UniformResourceIdentifier c])];
  ta_initialize _ := true;
  cert_initialize _ := true;
  http_get uri := Some (200%Z, uri);
  trust_anchors_of sources := mjoin sources;
  get_trust_anchor sources k := snd <$> list_find (fun c : bytes => c = k) (mjoin sources);
  get_intermediates_by_skid sources k := Some (filter (fun c : bytes => c = k) (mjoin sources));
  get_trust_anchor_by_name sources k := snd <$> list_find (fun c : bytes => c = k) (mjoin sources);
  get_cert_by_name sources k := filter (fun c : bytes => c = k) (mjoin sources);
  Spki := bytes;
  spki_eq_dec := _;
  cert_spki c := c;
  crl_aki_value _ := None;
  verify_crl _ _ := true;
|}.

#[export] Instance toy_pki_laws : PkiLibLaws toy_pki.
Proof.
  split; [by intros c der [= ->]|]. intros sources c. change (c ∈ mjoin sources <-> exists source, source ∈ sources /\ c ∈ source).
  rewrite list_elem_of_join. naive_solver.
Qed.
