(* ===== verification/PkiProps.v ===== *)
(** * Trust anchors in memory and in the keystore

    The transactions of the PKI environment, and how its trust anchors in memory
    and in the keystore part. *)

From S2P Require Import Prelude Keys EntityTypes Entities ToyExternals Sql KeystoreErrors EntityStore Store Transaction TransactionInvariant TransactionCommit Database DatabaseProps KeystoreDivergence EntityKV KeystoreMls CryptoErrors OpenMls ConversationCache TransactionContext TransactionContextProps X509Check PkiEnv.
From Stdlib Require Import Lia ZArith.

Section pki.
Context `{X : Externals, !ExternalsLaws X, L : X509Lib, K : !PkiLib L, !PkiLibLaws K}.
Abbreviation pki A := (st PkiEnvironment PkiError A).

(** ** Transactions *)

(** The database in which an operation of an idle environment runs. *)
Definition started (db : Database) : Database := set_transaction (Some tx_new) (acquire db).

Lemma try_new_idle db :
  db_inv db -> transaction db = None ->
  try_new_immediate_transaction db = (Ok (), started db) /\ in_transaction (started db).
Proof.
  intros Hdb Htx. assert (0 < permits db) as Hp.
  { destruct Hdb as (Hp & _). unfold tx_count, ALLOWED_CONCURRENT_TRANSACTIONS_COUNT in Hp. rewrite Htx in Hp. lia. }
  unfold try_new_immediate_transaction. rewrite decide_True by done. split; [done|]. split; [by apply db_inv_new|done].
Qed.

Lemma try_new_busy db :
  db_inv db -> transaction db <> None -> try_new_immediate_transaction db = (Err KeystoreError.TransactionInProgress, db).
Proof.
  intros (Hp & _) Htx. unfold tx_count, ALLOWED_CONCURRENT_TRANSACTIONS_COUNT in Hp.
  unfold try_new_immediate_transaction. destruct (transaction db); [|done]. rewrite decide_False by lia. done.
Qed.

(** What is returned has been committed. *)
Lemma transactionally_committed {E A} (into : E -> PkiError) (operation : st PkiEnvironment E A) e a e' :
  db_inv (pki_database e) -> transaction (pki_database e) = None ->
  transactionally into operation e = (Ok a, e') ->
  exists e1, operation (set_pki_database (started (pki_database e)) e) = (Ok a, e1) /\
    commit_transaction (pki_database e1) = (Ok (), pki_database e') /\
    transaction (pki_database e') = None /\ e' = set_pki_database (pki_database e') e1.
Proof.
  intros Hdb Htx. destruct (try_new_idle _ Hdb Htx) as [Htry _]. unfold transactionally. rewrite Htry.
  destruct (operation _) as [r e1] eqn:Hop. intros Hrun. exists e1.
  destruct r as [a'|err|]; [|by destruct (on_pki_database _ _) as [[] ?]|done].
  unfold on_pki_database in Hrun. destruct (commit_transaction (pki_database e1)) as [[[]| |] db'] eqn:Hc; try done.
  injection Hrun as <- <-. cbn. split; [done|]. split; [done|]. split; [|done].
  by apply commit_transaction_Ok in Hc as (_ & _ & _ & _ & _ & _ & _ & ?).
Qed.

Lemma set_pki_database_same (e : PkiEnvironment) : set_pki_database (pki_database e) e = e.
Proof. by destruct e. Qed.

(** During a transaction an operation becomes part of it. *)
Lemma transactionally_joins {E A} (into : E -> PkiError) (operation : st PkiEnvironment E A) e :
  db_inv (pki_database e) -> transaction (pki_database e) <> None ->
  forall r e', operation e = (r, e') -> transactionally into operation e = (map_err into r, e').
Proof.
  intros Hdb Htx r e' Hop. unfold transactionally. rewrite try_new_busy by done.
  by rewrite set_pki_database_same, Hop.
Qed.

(** Rolling back the changes of an operation leaves the database it started from. *)
Lemma rollback_started db db1 :
  db_inv db -> transaction db = None -> keeps_database (started db) db1 ->
  rollback_transaction db1 = (Ok (), db).
Proof.
  intros Hdb Htx (Htx1 & Hp1 & Hc1 & _). destruct (try_new_idle _ Hdb Htx) as [_ [_ Hsome]].
  unfold rollback_transaction. destruct (transaction db1) as [tx|] eqn:Ht1; [|by destruct (Hsome (proj1 Htx1 eq_refl))].
  f_equal. unfold set_transaction. rewrite Ht1, Hc1, Hp1. destruct db as [c t p]. cbn in *. subst t. f_equal.
  destruct Hdb as (Hp & _). unfold tx_count, ALLOWED_CONCURRENT_TRANSACTIONS_COUNT in Hp. cbn in Hp. lia.
Qed.

(** A commit that fails leaves the transaction in the database, and nothing on disk. *)
Lemma failed_commit_stays (e e1 : PkiEnvironment) k db' :
  db_inv (pki_database e) -> transaction (pki_database e) = None ->
  keeps_database (started (pki_database e)) (pki_database e1) ->
  commit_transaction (pki_database e1) = (Err k, db') ->
  db' = pki_database e1 /\ in_transaction (pki_database e1) /\ conn (pki_database e1) = conn (pki_database e).
Proof.
  intros Hdb Htx (Htx1 & _ & Hc1 & Hi1) Hc. destruct (try_new_idle _ Hdb Htx) as [_ [Hdb0 Hsome]].
  pose proof (Hi1 Hdb0) as Hdb1. destruct (commit_transaction_inv _ _ _ Hdb1 Hc) as [_ Hsame].
  split; [by apply Hsame|]. split; [split; [done|tauto]|done].
Qed.

(** C38: the outcomes of an operation of the environment.  Without a transaction in
    progress: an operation that fails leaves the database exactly as it was, and its
    error is reported; one that succeeds returns its result when the commit succeeds.
    When the commit fails its error is reported and nothing reaches the disk, but the
    transaction with the changes stays in progress, and every later operation joins it
    instead of starting one: it reports its own result, and nothing of it is written.
    During a transaction an operation becomes part of it, and nothing is committed
    or rolled back. *)
Theorem transactionally_atomic {E A} (into : E -> PkiError) (operation : st PkiEnvironment E A) (e : PkiEnvironment) :
  db_inv (pki_database e) ->
  (forall e0, keeps_database (pki_database e0) (pki_database (snd (operation e0)))) ->
  (transaction (pki_database e) = None ->
     let e0 := set_pki_database (started (pki_database e)) e in
     (forall err e1, operation e0 = (Err err, e1) ->
        transactionally into operation e = (Err (into err), set_pki_database (pki_database e) e1)) /\
     (forall a e1 db', operation e0 = (Ok a, e1) -> commit_transaction (pki_database e1) = (Ok (), db') ->
        transactionally into operation e = (Ok a, set_pki_database db' e1) /\ transaction db' = None) /\
     (forall a e1 k db', operation e0 = (Ok a, e1) -> commit_transaction (pki_database e1) = (Err k, db') ->
        transactionally into operation e = (Err (PkiKeystoreError k), e1) /\
        conn (pki_database e1) = conn (pki_database e) /\ transaction (pki_database e1) <> None /\
        forall E' A' (into' : E' -> PkiError) (later : st PkiEnvironment E' A') r e2,
          keeps_database (pki_database e1) (pki_database e2) -> later e1 = (r, e2) ->
          transactionally into' later e1 = (map_err into' r, e2) /\
          conn (pki_database e2) = conn (pki_database e))) /\
  (transaction (pki_database e) <> None ->
     forall r e', operation e = (r, e') -> transactionally into operation e = (map_err into r, e')).
Proof.
  intros Hdb Hkeeps. split; [|by apply transactionally_joins]. intros Htx e0. specialize (Hkeeps e0).
  destruct (try_new_idle _ Hdb Htx) as [Htry _]. unfold transactionally at 1 2 3. rewrite Htry. fold e0.
  split; [|split].
  - intros err e1 Hop. rewrite Hop in Hkeeps |- *. unfold on_pki_database.
    by rewrite (rollback_started (pki_database e)).
  - intros a e1 db' -> Hc. unfold on_pki_database. rewrite Hc. split; [done|].
    by apply commit_transaction_Ok in Hc as (_ & _ & _ & _ & _ & _ & _ & ?).
  - intros a e1 k db' Hop Hc. rewrite Hop in Hkeeps |- *.
    destruct (failed_commit_stays e e1 k db' Hdb Htx Hkeeps Hc) as (-> & [Hdb1 Htx1] & Hconn).
    unfold on_pki_database. rewrite Hc. cbn [map_err]. rewrite set_pki_database_same. do 3 (split; [done|]).
    intros E' A' into' later r e2 (_ & _ & Hc2 & _) Hlater. split; [by apply transactionally_joins|congruence].
Qed.

(** ** Trust anchors *)

Abbreviation anchor_key := (PkU64 (MkUInt 0)).

(** The anchor of an environment restored from a database. *)
Lemma restored_anchors db r o :
  kv_get EntityType.E2eiAcmeCA anchor_key db = Ok o -> restore_pki_env db = Ok r ->
  match o with
  | Some (Entity.E2eiAcmeCA ta) => exists c, cert_from_der (acme_ca_content ta) = Some c /\ ta_sources r = [[c]]
  | _ => ta_sources r = [[]]
  end.
Proof.
  intros Hget. unfold restore_pki_env. rewrite Hget.
  assert (forall roots, (intermediates ← map_err PkiKeystoreError (kv_load_all EntityType.E2eiIntermediateCert db);
    intermediates ← mapM intermediate_cert_of intermediates;
    lists ← map_err PkiKeystoreError (kv_load_all EntityType.E2eiCrl db);
    lists ← mapM crl_of lists; map_err X509Error (rjt_init roots intermediates lists db)) = Ok r ->
    ta_sources r = [roots]) as Hrest.
  { intros roots. do 4 (intros (? & _ & Hr)%bind_Ok; revert Hr).
    unfold rjt_init. destruct pki_now as [toi| |]; [|done..]. cbn.
    do 4 (destruct (negb _); [done|]). by intros [= <-]. }
  destruct o as [e|]; [destruct e|]; cbn [mbind res_bind]; try apply Hrest.
  destruct (cert_from_der _) as [c|] eqn:Hc; [|done]. cbn. intros Hr. exists c. split; [done|]. by apply Hrest.
Qed.

(** Adding a trust anchor does not replace the others in memory, as it does in
    the keystore: every anchor of the environment stays trusted next to the new one,
    until the environment is restored, which trusts the new one only. *)
Theorem added_anchor_does_not_replace e c e' :
  db_inv (pki_database e) -> transaction (pki_database e) = None ->
  add_trust_anchor c e = (Ok (), e') ->
  (forall c', c' ∈ get_trust_anchors e' <-> c' ∈ get_trust_anchors e \/ c' = c) /\
  (forall r, restore_pki_env (pki_database e') = Ok r -> forall c', c' ∈ get_trust_anchors r <-> c' = c).
Proof.
  intros Hdb Htx Hrun. unfold add_trust_anchor in Hrun.
  apply st_bind_Ok in Hrun as ([] & e0 & Hv & Hrun). apply st_bind_Ok in Hrun as (der & e0' & Hder & Hrun).
  apply st_bind_Ok in Hrun as (x & e1 & Ht & Hrun). unfold st_lift in Hv, Hder. injection Hv as _ <-.
  destruct (cert_to_der c) as [d|] eqn:Hd; [|done]. injection Hder as <- <-.
  destruct (ta_initialize [c]); [|done]. injection Hrun as <-.
  apply transactionally_committed in Ht as (e2 & Hop & Hcom & _ & ->); [|done..].
  destruct (try_new_idle _ Hdb Htx) as [_ Hin].
  set (ta := Entity.E2eiAcmeCA {| acme_ca_content := d |}) in Hop.
  destruct (kv_save_total (inv := in_transaction) None ta (started (pki_database e)) None ta) as (db1 & Hs & [Hdb1 _] & Hg);
    [done..|].
  unfold on_pki_database in Hop. cbn [pki_database set_pki_database] in Hop. rewrite Hs in Hop. injection Hop as _ <-.
  cbn in Hcom. split.
  - intros c'. unfold get_trust_anchors. rewrite !trust_anchors_elem. cbn. split.
    + intros (src & [Hsrc|Hsrc]%elem_of_app & Hc'); [left; eauto|right].
      apply list_elem_of_singleton in Hsrc as ->. by apply list_elem_of_singleton in Hc'.
    + intros [(src & Hsrc & Hc')| ->]; [exists src|exists [c]]; (split; [apply elem_of_app|done || by left]); [by left|right; by left].
  - intros r Hr c'. cbn in Hr.
    assert (kv_get EntityType.E2eiAcmeCA anchor_key (pki_database e1) = Ok (Some ta)) as Hget.
    { transitivity (kv_get EntityType.E2eiAcmeCA anchor_key db1).
      - by apply (commit_transaction_get db1).
      - rewrite Hg by (by split). by rewrite decide_True. }
    destruct (restored_anchors _ _ _ Hget Hr) as (c1 & Hc1 & Hsrc). cbn in Hc1.
    rewrite (cert_decode _ _ Hd) in Hc1. injection Hc1 as <-. unfold get_trust_anchors.
    rewrite trust_anchors_elem, Hsrc. split.
    + intros (src & ->%list_elem_of_singleton & Hc'). by apply list_elem_of_singleton in Hc'.
    + intros ->. exists [c]. split; by left.
Qed.

(** Removing a trust anchor removes the one of the keystore, whatever its serial
    number: when no anchor of the environment has the given number, all stay trusted,
    but an environment restored from the keystore trusts none. *)
Theorem removed_anchor_any_serial e serial e' :
  db_inv (pki_database e) -> transaction (pki_database e) = None ->
  (forall c, c ∈ get_trust_anchors e -> cert_serial c <> serial) ->
  remove_trust_anchor serial e = (Ok (), e') ->
  (forall c, c ∈ get_trust_anchors e' <-> c ∈ get_trust_anchors e) /\
  (forall r, restore_pki_env (pki_database e') = Ok r -> forall c, c ∉ get_trust_anchors r).
Proof.
  intros Hdb Htx Hser Hrun. unfold remove_trust_anchor in Hrun.
  apply st_bind_Ok in Hrun as (certs & e0 & Hv & Hrun). unfold st_of in Hv. injection Hv as <- <-.
  destruct (all_encode _); [|done]. destruct (ta_initialize _); [|done]. cbn [negb] in Hrun.
  apply st_bind_Ok in Hrun as ([] & e1 & Hv & Hrun). unfold st_of in Hv. injection Hv as <-.
  apply transactionally_committed in Hrun as (e2 & Hop & Hcom & _ & ->); [|done..].
  destruct (try_new_idle _ Hdb Htx) as [_ Hin].
  destruct (kv_remove_total (inv := in_transaction) EntityType.E2eiAcmeCA anchor_key (started (pki_database e)) Hin)
    as (db1 & Hs & [Hdb1 _] & Hg).
  unfold on_pki_database in Hop. cbn [pki_database set_pki_database set_ta_sources] in Hop. rewrite Hs in Hop.
  injection Hop as <-. cbn in Hcom. split.
  - intros c. unfold get_trust_anchors at 1. rewrite trust_anchors_elem. cbn. split.
    + intros (src & ->%list_elem_of_singleton & Hc). by apply list_elem_of_filter in Hc as [_ Hc].
    + intros Hc. eexists. split; [by left|]. apply list_elem_of_filter. split; [by apply Hser|done].
  - intros r Hr c. cbn in Hr.
    assert (kv_get EntityType.E2eiAcmeCA anchor_key (pki_database e') = Ok None) as Hget.
    { transitivity (kv_get EntityType.E2eiAcmeCA anchor_key db1).
      - by apply (commit_transaction_get db1).
      - rewrite Hg by (by split). by rewrite decide_True. }
    pose proof (restored_anchors _ _ _ Hget Hr) as Hsrc. cbn in Hsrc.
    unfold get_trust_anchors. rewrite trust_anchors_elem, Hsrc.
    intros (src & ->%list_elem_of_singleton & Hc). by apply not_elem_of_nil in Hc.
Qed.
End pki.

(** ** A run of the model *)

Definition demo_anchor : Entity.t := Entity.E2eiAcmeCA {| acme_ca_content := bstr "old" |}.

(** An environment with one trust anchor, in memory and in the keystore. *)
Definition demo_environment : PkiEnvironment :=
  MkPki (L := toy_x509) [[bstr "old"]] [] [] (committed_with [demo_anchor]).

Lemma demo_environment_inv : db_inv (pki_database demo_environment).
Proof. apply committed_with_inv. by repeat constructor. Qed.

Lemma demo_environment_idle : transaction (pki_database demo_environment) = None.
Proof. vm_compute. reflexivity. Qed.

(** An operation that saves an anchor and fails. *)
Definition demo_failing : st PkiEnvironment KeystoreError.t () :=
  _ ← on_pki_database (kv_save None (Entity.E2eiAcmeCA {| acme_ca_content := bstr "new" |}));
  st_throw KeystoreError.NotImplemented.

Lemma demo_failing_keeps e : keeps_database (pki_database e) (pki_database (snd (demo_failing e))).
Proof.
  pose proof (kv_save_keeps None (Entity.E2eiAcmeCA {| acme_ca_content := bstr "new" |}) (pki_database e)) as Hk.
  unfold demo_failing, on_pki_database, mbind, st_bind.
  destruct (kv_save _ _ _) as [[]]; by apply Hk.
Qed.

(** An operation that saves an anchor. *)
Definition demo_saving (content : string) : st PkiEnvironment KeystoreError.t (option Z) :=
  on_pki_database (kv_save None (Entity.E2eiAcmeCA {| acme_ca_content := bstr content |})).

Lemma demo_saving_keeps content e : keeps_database (pki_database e) (pki_database (snd (demo_saving content e))).
Proof.
  pose proof (kv_save_keeps None (Entity.E2eiAcmeCA {| acme_ca_content := bstr content |}) (pki_database e)) as Hk.
  unfold demo_saving, on_pki_database. destruct (kv_save _ _ _) as [[]]; by apply Hk.
Qed.

(** The environment after its database has been closed. *)
Definition demo_closed : PkiEnvironment := MkPki (L := toy_x509) [[bstr "old"]] [] [] (MkDatabase None None 1).

Lemma demo_closed_inv : db_inv (pki_database demo_closed).
Proof. by split. Qed.

(** The failed operation is rolled back; on the closed database the commit fails,
    and the next operation reports success. *)
Lemma transactionally_atomic_witness :
  transactionally (L := toy_x509) PkiKeystoreError demo_failing demo_environment =
    (Err (PkiKeystoreError KeystoreError.NotImplemented), demo_environment) /\
  exists e1 e2,
    transactionally (L := toy_x509) PkiKeystoreError (demo_saving "new") demo_closed =
      (Err (PkiKeystoreError KeystoreError.Closed), e1) /\
    transactionally (L := toy_x509) PkiKeystoreError (demo_saving "newer") e1 = (Ok None, e2) /\
    conn (pki_database e2) = None.
Proof.
  split.
  - pose proof (proj1 (proj1 (transactionally_atomic (L := toy_x509) PkiKeystoreError demo_failing demo_environment
      demo_environment_inv demo_failing_keeps) demo_environment_idle)) as Hfail.
    specialize (Hfail KeystoreError.NotImplemented
      (snd (demo_failing (set_pki_database (started (pki_database demo_environment)) demo_environment)))).
    rewrite Hfail.
    + vm_compute. reflexivity.
    + rewrite (surjective_pairing (demo_failing _)) at 1. by f_equal.
  - pose proof (proj2 (proj2 (proj1 (transactionally_atomic (L := toy_x509) PkiKeystoreError (demo_saving "new") demo_closed
      demo_closed_inv (demo_saving_keeps "new")) eq_refl))) as Hfail.
    set (e1 := snd (demo_saving "new" (set_pki_database (started (pki_database demo_closed)) demo_closed))) in *.
    exists e1, (snd (demo_saving "newer" e1)).
    destruct (Hfail None e1 KeystoreError.Closed (pki_database e1)) as (Hrun & _ & _ & Hlater).
    + rewrite (surjective_pairing (demo_saving "new" _)). by f_equal.
    + vm_compute. reflexivity.
    + split; [exact Hrun|].
      apply (Hlater _ _ PkiKeystoreError (demo_saving "newer") (Ok None)).
      * apply (demo_saving_keeps "newer").
      * rewrite (surjective_pairing (demo_saving "newer" e1)) at 1. by f_equal.
Defined.

Definition demo_added : PkiEnvironment := snd (add_trust_anchor (K := toy_pki) (bstr "new") demo_environment).

Lemma added_anchor_does_not_replace_witness :
  bstr "old" ∈ get_trust_anchors (K := toy_pki) demo_added /\ bstr "new" ∈ get_trust_anchors (K := toy_pki) demo_added.
Proof.
  destruct (added_anchor_does_not_replace (K := toy_pki) demo_environment (bstr "new") demo_added
    demo_environment_inv demo_environment_idle) as [Hin _].
  - unfold demo_added. rewrite (surjective_pairing (add_trust_anchor _ _)) at 1. by f_equal.
  - split; apply Hin; [left|by right]. vm_compute. left.
Defined.

Definition demo_removed : PkiEnvironment := snd (remove_trust_anchor (K := toy_pki) (bstr "other") demo_environment).

Lemma removed_anchor_any_serial_witness :
  bstr "old" ∈ get_trust_anchors (K := toy_pki) demo_removed /\
  exists r, restore_pki_env (K := toy_pki) (pki_database demo_removed) = Ok r /\ bstr "old" ∉ get_trust_anchors r.
Proof.
  destruct (removed_anchor_any_serial (K := toy_pki) demo_environment (bstr "other") demo_removed
    demo_environment_inv demo_environment_idle) as [Hin Hout].
  - intros c Hc. vm_compute in Hc. apply list_elem_of_singleton in Hc as ->. by vm_compute.
  - unfold demo_removed. rewrite (surjective_pairing (remove_trust_anchor _ _)) at 1. by f_equal.
  - split; [apply Hin; vm_compute; left|].
    exists (MkPki (L := toy_x509) [[]] [[]] [index_crls (L := toy_x509) 50 (crl_store_from [])] (pki_database demo_removed)).
    assert (restore_pki_env (K := toy_pki) (pki_database demo_removed) =
      Ok (MkPki (L := toy_x509) [[]] [[]] [index_crls (L := toy_x509) 50 (crl_store_from [])] (pki_database demo_removed)))
      as Hr by (vm_compute; reflexivity).
    split; [exact Hr|by apply Hout].
Defined.
