(* ===== verification/Acme.v ===== *)
(** * The ACME messages

    [e2e-identity/src/acme]: the requests of the enrollment and the checks of the
    responses.  URLs, JSON and JSON Web Tokens are libraries, and so are the client
    ids and handles, of the crate rusty-jwt-tools.  The messages inside errors are
    left out.  Points in time are nanoseconds since the Unix epoch. *)

From S2P Require Import Prelude ClientIds X509Check.
From Stdlib Require Import Lia ZArith.

(** ** The libraries *)

Inductive JwsAlgorithm : Type := Ed25519 | P256 | P384 | P521.
Inductive HashAlgorithm : Type := SHA256 | SHA384 | SHA512.

#[export] Instance JwsAlgorithm_eq_dec : EqDecision JwsAlgorithm.
Proof. solve_decision. Defined.
#[export] Instance HashAlgorithm_eq_dec : EqDecision HashAlgorithm.
Proof. solve_decision. Defined.

(** The types of the libraries and what the code reads of their values. *)
Class AcmeTypes : Type := {
  Url : Type;
  url_eq_dec :: EqDecision Url;
  url_to_string : Url -> bytes;
  url_parse : bytes -> option Url;
  (** [path_segments] has no value for URLs that cannot be a base, and then
      [path_segments_mut] fails; its [pop] removes the last segment. *)
  path_segments : Url -> option (list bytes);
  pop_segment : Url -> Url;
  ClientId : Type;
  client_id_eq_dec :: EqDecision ClientId;
  client_domain : ClientId -> bytes;
  client_id_to_uri : ClientId -> bytes;
  QualifiedHandle : Type;
  handle_eq_dec :: EqDecision QualifiedHandle;
  handle_as_str : QualifiedHandle -> bytes;
  (** [Handle::try_to_qualified]. *)
  try_to_qualified : bytes -> bytes -> option QualifiedHandle;
  Pem : Type;
  Jwk : Type;
  Json : Type;
}.

Section types.
Context `{T : AcmeTypes}.

(** ** Errors *)

Inductive AcmeAccountError : Type := AccountInvalid | AccountRevoked | AccountDeactivated.
Inductive AcmeOrderError : Type := OrderInvalid | OrderNotYetValid | OrderExpired | WrongIdentifiers.
Inductive AcmeAuthzError : Type :=
  | AuthzErrExpired | AuthzErrInvalid | AuthzErrRevoked | AuthzErrDeactivated | InvalidBase64Token
  | InvalidTokenEntropy | InvalidChallengeType.
Inductive AcmeChallError : Type := ChallInvalid | ChallProcessing.

Inductive RustyAcmeError : Type :=
  | AcmeJsonError
  | AcmeUrlError
  | AcmeJwtError
  | AcmeX509CheckError (e : RustyX509CheckError)
  | AcmeOidError
  | AcmeDerError
  | AcmePemError
  | RawJwtError
  | SignatureError
  | AcmeImplementationError
  | AcmeNotSupported
  | ClientImplementationError
  | SmallstepImplementationError
  | AccountError (e : AcmeAccountError)
  | OrderError (e : AcmeOrderError)
  | AuthzError (e : AcmeAuthzError)
  | ChallengeError (e : AcmeChallError)
  | FinalizeError (e : AcmeOrderError)
  | AcmeUtf8.

(** ** Messages *)

(** [AcmeDirectory]. *)
Record AcmeDirectory : Type := MkDirectory {
  new_nonce : Url;
  new_account : Url;
  new_order : Url;
  revoke_cert : Url;
}.

Inductive AcmeAccountStatus : Type := AccountStatusValid | AccountStatusDeactivated | AccountStatusRevoked.

(** [AcmeAccount]. *)
Record AcmeAccount : Type := MkAccount { account_status : AcmeAccountStatus; orders : option Url }.

(** [AcmeAccountRequest]. *)
Record AcmeAccountRequest : Type := MkAccountRequest {
  terms_of_service_agreed : option bool;
  contact : list bytes;
  only_return_existing : option bool;
}.

(** [AcmeIdentifier]: the values are JSON documents. *)
Inductive AcmeIdentifier : Type := WireappUser (value : bytes) | WireappDevice (value : bytes).

#[export] Instance AcmeIdentifier_eq_dec : EqDecision AcmeIdentifier.
Proof. solve_decision. Defined.

(** [WireIdentifier]. *)
Record WireIdentifier : Type := MkWireIdentifier {
  wire_client_id : option bytes;
  wire_handle : QualifiedHandle;
  wire_display_name : bytes;
  wire_domain : bytes;
}.

(** [CanonicalIdentifier]. *)
Record CanonicalIdentifier : Type := MkCanonical {
  canonical_client_id : bytes;
  canonical_handle : QualifiedHandle;
  canonical_display_name : bytes;
  canonical_domain : bytes;
}.

(** [AcmeOrderRequest]. *)
Record AcmeOrderRequest : Type := MkOrderRequest {
  requested_identifiers : list AcmeIdentifier;
  requested_not_before : option Z;
  requested_not_after : option Z;
}.

Inductive AcmeOrderStatus : Type := OrderPending | OrderReady | OrderProcessing | OrderValid | OrderStatusInvalid.

(** [AcmeOrder], with its two identifiers and its two authorizations. *)
Record AcmeOrder : Type := MkOrder {
  order_status : AcmeOrderStatus;
  finalize : Url;
  identifiers : AcmeIdentifier * AcmeIdentifier;
  authorizations : Url * Url;
  expires : option Z;
  not_before : option Z;
  not_after : option Z;
}.

Inductive AcmeChallengeStatus : Type := ChallengePending | ChallengeProcessing | ChallengeValid | ChallengeStatusInvalid.
Inductive AcmeChallengeType : Type := Http01 | Dns01 | TlsAlpn01 | WireDpop01 | WireOidc01.

#[export] Instance AcmeChallengeType_eq_dec : EqDecision AcmeChallengeType.
Proof. solve_decision. Defined.

(** [AcmeChallenge]. *)
Record AcmeChallenge : Type := MkChallenge {
  typ : AcmeChallengeType;
  chall_url : Url;
  chall_status : option AcmeChallengeStatus;
  token : bytes;
  target : Url;
}.

Inductive AuthzStatus : Type :=
  AuthzPending | AuthzInvalid | AuthzValid | AuthzRevoked | AuthzDeactivated | AuthzExpired.

(** [AcmeAuthz], with its one challenge. *)
Record AcmeAuthz : Type := MkAuthz {
  authz_status : AuthzStatus;
  authz_expires : option Z;
  challenge : AcmeChallenge;
  identifier : AcmeIdentifier;
}.

(** [AcmeFinalize]. *)
Record AcmeFinalize : Type := MkFinalize { certificate : Url; finalize_order : AcmeOrder }.

(** The payloads of the requests. *)
Inductive AcmePayload : Type :=
  | AccountPayload (request : AcmeAccountRequest)
  | OrderPayload (request : AcmeOrderRequest)
  | AccessTokenPayload (access_token : bytes)
  | IdTokenPayload (id_token : bytes)
  | FinalizePayload (csr : bytes).

(** [JWTHeader], with the fields the code sets. *)
Record JwtHeader : Type := MkHeader {
  header_alg : JwsAlgorithm;
  header_nonce : bytes;
  header_url : Url;
  key_id : option Url;
}.

(** [AcmeJws]. *)
Record AcmeJws : Type := MkJws { protected : bytes; payload : bytes; signature : bytes }.

#[export] Instance AcmeAccountStatus_eq_dec : EqDecision AcmeAccountStatus.
Proof. solve_decision. Defined.
#[export] Instance AcmeAccount_eq_dec : EqDecision AcmeAccount.
Proof. solve_decision. Defined.
#[export] Instance AcmeOrderStatus_eq_dec : EqDecision AcmeOrderStatus.
Proof. solve_decision. Defined.
#[export] Instance AcmeOrder_eq_dec : EqDecision AcmeOrder.
Proof. solve_decision. Defined.
#[export] Instance AcmeChallengeStatus_eq_dec : EqDecision AcmeChallengeStatus.
Proof. solve_decision. Defined.
#[export] Instance AcmeChallenge_eq_dec : EqDecision AcmeChallenge.
Proof. solve_decision. Defined.

(** The contents of a certificate signing request. *)
Inductive Oid : Type :=
  | ID_ED_25519 | ID_ED_448 | ECDSA_WITH_SHA_256 | ECDSA_WITH_SHA_384 | ECDSA_WITH_SHA_512
  | ID_EC_PUBLIC_KEY | SECP_256_R_1 | SECP_384_R_1 | SECP_521_R_1
  | ORGANIZATION_NAME | COMMON_NAME | DISPLAY_NAME | ID_EXTENSION_REQ | ID_CE_SUBJECT_ALT_NAME | OtherOid (n : nat).

#[export] Instance Oid_eq_dec : EqDecision Oid.
Proof. solve_decision. Defined.

Record AlgorithmIdentifier : Type := MkAlgorithm { alg_oid : Oid; alg_parameters : option Oid }.

#[export] Instance AlgorithmIdentifier_eq_dec : EqDecision AlgorithmIdentifier.
Proof. solve_decision. Defined.

Inductive Tag : Type := Utf8String | OctetString | Sequence.

(** [AttributeValue]. *)
Record AnyValue : Type := MkAny { any_tag : Tag; any_value : bytes }.

Record CertReqInfo : Type := MkReqInfo {
  subject : list (list (Oid * AnyValue));
  public_key : AlgorithmIdentifier * bytes;
  attributes : list (Oid * list AnyValue);
}.
End types.

(** The functions of the libraries. *)
Class AcmeLib (T : AcmeTypes) (L : X509Lib) : Type := {
  (** [serde_json]. *)
  json_from_slice : bytes -> option Json;
  de_directory : Json -> option AcmeDirectory;
  de_account : Json -> option AcmeAccount;
  de_order : Json -> option AcmeOrder;
  de_authz : Json -> option AcmeAuthz;
  de_challenge : Json -> option AcmeChallenge;
  de_finalize : Json -> option AcmeFinalize;
  ser_wire_identifier : WireIdentifier -> option bytes;
  de_wire_identifier : bytes -> option WireIdentifier;
  ser_jws : AcmeJws -> option bytes;
  (** [RustyJwtTools::generate_jwt]. *)
  generate_jwt : JwsAlgorithm -> JwtHeader -> option AcmePayload -> Pem -> bool -> option bytes;
  base64_url_encode : bytes -> bytes;
  base64_url_decode : bytes -> option bytes;
  (** [OffsetDateTime + Duration], which panics out of range. *)
  add_duration : Z -> Z -> option Z;
  (** The public key of a key pair in PEM format, and its signature of some data. *)
  key_pair_public_key : JwsAlgorithm -> Pem -> option bytes;
  key_pair_sign : JwsAlgorithm -> Pem -> bytes -> option bytes;
  (** DER. *)
  oid_to_der : Oid -> option bytes;
  any_value_new : Tag -> bytes -> option AnyValue;
  any_to_der : AnyValue -> option bytes;
  ia5_string_new : bytes -> option bytes;
  san_to_der : list GeneralName -> option bytes;
  bit_string_new : bytes -> option bytes;
  req_info_to_der : CertReqInfo -> option bytes;
  csr_to_der : CertReqInfo -> AlgorithmIdentifier -> bytes -> option bytes;
  (** [pem::parse_many]: the contents of the documents. *)
  pem_parse_many : bytes -> option (list bytes);
}.

Section acme.
Context `{T : AcmeTypes, L : X509Lib, K : !AcmeLib T L}.

Abbreviation acme A := (res RustyAcmeError A).

(** ** Tokens *)

Definition DOT : byte := x2e.

(** [AcmeJws::new]; [header] and [claims] are the arguments given to the library. *)
Definition acme_jws_new (alg : JwsAlgorithm) (nonce : bytes) (url : Url) (kid : option Url)
    (content : option AcmePayload) (kp : Pem) : acme AcmeJws :=
  let with_jwk := bool_decide (kid = None) in
  jwt ← ok_or (generate_jwt alg (MkHeader alg nonce url kid) content kp with_jwk) AcmeJwtError;
  '(protected, jwt) ← ok_or (split_once DOT jwt) AcmeImplementationError;
  '(payload, signature) ← ok_or (split_once DOT jwt) AcmeImplementationError;
  if decide (DOT ∈ signature) then Err AcmeImplementationError else
  Ok (MkJws protected (match content with None => [] | Some _ => payload end) signature).

(** ** Directory and account *)

(** [RustyAcme::acme_directory_response]. *)
Definition acme_directory_response (response : Json) : acme AcmeDirectory :=
  ok_or (de_directory response) SmallstepImplementationError.

Definition DEFAULT_CONTACT : bytes := bstr "anonymous@anonymous.invalid".

(** [RustyAcme::new_account_request]. *)
Definition new_account_request (directory : AcmeDirectory) (alg : JwsAlgorithm) (kp : Pem) (previous_nonce : bytes) :
    acme AcmeJws :=
  acme_jws_new alg previous_nonce (new_account directory) None
    (Some (AccountPayload (MkAccountRequest (Some true) [DEFAULT_CONTACT] (Some false)))) kp.

(** [AcmeAccount::verify]. *)
Definition account_verify (a : AcmeAccount) : acme () :=
  _ ← ok_or (orders a) SmallstepImplementationError;
  match account_status a with
  | AccountStatusValid => Ok ()
  | AccountStatusDeactivated => Err (AccountError AccountDeactivated)
  | AccountStatusRevoked => Err (AccountError AccountRevoked)
  end.

(** [RustyAcme::new_account_response]. *)
Definition new_account_response (response : Json) : acme AcmeAccount :=
  account ← ok_or (de_account response) SmallstepImplementationError;
  _ ← account_verify account;
  Ok account.

(** [AcmeAccount::acct_url]. *)
Definition acct_url (a : AcmeAccount) : acme Url :=
  orders ← ok_or (orders a) SmallstepImplementationError;
  if decide ((path_segments orders ≫= last) = Some (bstr "orders"))
  then match path_segments orders with
       | None => Err AcmeImplementationError
       | Some _ => Ok (pop_segment orders)
       end
  else Err SmallstepImplementationError.

(** ** Identifiers *)

(** [AcmeIdentifier::try_new_device] and [try_new_user]. *)
Definition try_new_device (client_id : ClientId) (handle : QualifiedHandle) (display_name domain : bytes) :
    acme AcmeIdentifier :=
  id ← ok_or (ser_wire_identifier (MkWireIdentifier (Some (client_id_to_uri client_id)) handle display_name domain))
         AcmeJsonError;
  Ok (WireappDevice id).

Definition try_new_user (handle : QualifiedHandle) (display_name domain : bytes) : acme AcmeIdentifier :=
  id ← ok_or (ser_wire_identifier (MkWireIdentifier None handle display_name domain)) AcmeJsonError;
  Ok (WireappUser id).

(** [AcmeIdentifier::to_wire_identifier]. *)
Definition to_wire_identifier (i : AcmeIdentifier) : acme WireIdentifier :=
  match i with
  | WireappDevice id => ok_or (de_wire_identifier id) AcmeJsonError
  | WireappUser id => ok_or (de_wire_identifier id) AcmeJsonError
  end.

(** [CanonicalIdentifier::try_from]. *)
Definition canonical_try_from (i : WireIdentifier) : acme CanonicalIdentifier :=
  client_id ← ok_or (wire_client_id i) AcmeImplementationError;
  Ok (MkCanonical client_id (wire_handle i) (wire_display_name i) (wire_domain i)).
(** ** Orders *)

(** [OffsetDateTime::unix_timestamp]. *)
Definition unix_timestamp (t : Z) : Z := (t / 1000000000)%Z.

(** [RustyAcme::new_order_request]; [now] is the clock. *)
Definition new_order_request (now : Z) (display_name : bytes) (client_id : ClientId) (handle : bytes) (expiry : Z)
    (directory : AcmeDirectory) (account : AcmeAccount) (alg : JwsAlgorithm) (kp : Pem) (previous_nonce : bytes) :
    acme AcmeJws :=
  acct ← acct_url account;
  let domain := client_domain client_id in
  handle ← ok_or (try_to_qualified handle domain) AcmeJwtError;
  device_identifier ← try_new_device client_id handle display_name domain;
  user_identifier ← try_new_user handle display_name domain;
  match add_duration now expiry with
  | None => Panic
  | Some not_after =>
      acme_jws_new alg previous_nonce (new_order directory) (Some acct)
        (Some (OrderPayload (MkOrderRequest [device_identifier; user_identifier] (Some now) (Some not_after)))) kp
  end.

(** The identifiers of an order as [verify] collects them in a hash set and decodes
    them: the outcome does not depend on the order of the set. *)
Definition distinct_identifiers (ids : AcmeIdentifier * AcmeIdentifier) : list AcmeIdentifier :=
  if decide (ids.1 = ids.2) then [ids.1] else [ids.1; ids.2].

(** Whether a point in time given or not is before another. *)
Definition is_before (t : option Z) (now : Z) : bool :=
  match t with Some t => (unix_timestamp t <? now)%Z | None => false end.
Definition is_after (t : option Z) (now : Z) : bool :=
  match t with Some t => (now <? unix_timestamp t)%Z | None => false end.

(** [AcmeOrder::verify]. *)
Definition order_verify (now : Z) (o : AcmeOrder) : acme () :=
  ids ← mapM to_wire_identifier (distinct_identifiers (identifiers o));
  match ids with
  | [a; b] =>
      if negb (bool_decide (wire_handle a = wire_handle b) && bool_decide (wire_display_name a = wire_display_name b) &&
               bool_decide (wire_domain a = wire_domain b))
      then Err (OrderError WrongIdentifiers) else
      let now := unix_timestamp now in
      if is_before (expires o) now then Err (OrderError OrderExpired) else
      if is_before (not_after o) now then Err (OrderError OrderExpired) else
      if is_after (not_before o) now then Err (OrderError OrderNotYetValid) else Ok ()
  | _ => Err (OrderError WrongIdentifiers)
  end.

(** [RustyAcme::new_order_response]. *)
Definition new_order_response (now : Z) (response : Json) : acme AcmeOrder :=
  order ← ok_or (de_order response) AcmeJsonError;
  match order_status order with
  | OrderPending => _ ← order_verify now order; Ok order
  | OrderProcessing | OrderValid | OrderReady => Err ClientImplementationError
  | OrderStatusInvalid => Err (OrderError OrderInvalid)
  end.

(** [RustyAcme::check_order_request] and [check_order_response]. *)
Definition check_order_request (order_url : Url) (account : AcmeAccount) (alg : JwsAlgorithm) (kp : Pem)
    (previous_nonce : bytes) : acme AcmeJws :=
  acct ← acct_url account;
  acme_jws_new alg previous_nonce order_url (Some acct) None kp.

Definition check_order_response (now : Z) (response : Json) : acme AcmeOrder :=
  order ← ok_or (de_order response) AcmeJsonError;
  match order_status order with
  | OrderReady => _ ← order_verify now order; Ok order
  | OrderPending | OrderProcessing | OrderValid => Err ClientImplementationError
  | OrderStatusInvalid => Err (OrderError OrderInvalid)
  end.

(** [AcmeOrder::try_get_coalesce_identifier]. *)
Definition try_get_coalesce_identifier (o : AcmeOrder) : acme CanonicalIdentifier :=
  let device := match identifiers o with
                | (WireappDevice d, _) => Some (WireappDevice d)
                | (_, WireappDevice d) => Some (WireappDevice d)
                | _ => None
                end in
  match device with
  | None => Err (OrderError WrongIdentifiers)
  | Some i => w ← to_wire_identifier i; canonical_try_from w
  end.

(** ** Authorizations and challenges *)

(** [RustyAcme::new_authz_request]. *)
Definition new_authz_request (url : Url) (account : AcmeAccount) (alg : JwsAlgorithm) (kp : Pem)
    (previous_nonce : bytes) : acme AcmeJws :=
  acct ← acct_url account;
  acme_jws_new alg previous_nonce url (Some acct) None kp.

Definition RECOMMENDED_TOKEN_ENTROPY : nat := 128 / 8.

(** [AcmeAuthz::verify]. *)
Definition authz_verify (now : Z) (a : AcmeAuthz) : acme () :=
  match identifier a, typ (challenge a) with
  | WireappDevice _, WireDpop01 | WireappUser _, WireOidc01 =>
      if is_before (authz_expires a) (unix_timestamp now) then Err (AuthzError AuthzErrExpired) else
      token ← ok_or (base64_url_decode (token (challenge a))) (AuthzError InvalidBase64Token);
      if decide (length token < RECOMMENDED_TOKEN_ENTROPY) then Err (AuthzError InvalidTokenEntropy) else Ok ()
  | _, _ => Err (AuthzError InvalidChallengeType)
  end.

(** [RustyAcme::new_authz_response]. *)
Definition new_authz_response (now : Z) (response : Json) : acme AcmeAuthz :=
  authz ← ok_or (de_authz response) AcmeJsonError;
  _ ← authz_verify now authz;
  match authz_status authz with
  | AuthzPending => Ok authz
  | AuthzInvalid => Err (AuthzError AuthzErrInvalid)
  | AuthzRevoked => Err (AuthzError AuthzErrRevoked)
  | AuthzDeactivated => Err (AuthzError AuthzErrDeactivated)
  | AuthzExpired => Err (AuthzError AuthzErrExpired)
  | AuthzValid => Err ClientImplementationError
  end.

(** [RustyAcme::dpop_chall_request] and [oidc_chall_request]. *)
Definition dpop_chall_request (access_token : bytes) (dpop_chall : AcmeChallenge) (account : AcmeAccount)
    (alg : JwsAlgorithm) (kp : Pem) (previous_nonce : bytes) : acme AcmeJws :=
  acct ← acct_url account;
  acme_jws_new alg previous_nonce (chall_url dpop_chall) (Some acct) (Some (AccessTokenPayload access_token)) kp.

Definition oidc_chall_request (id_token : bytes) (oidc_chall : AcmeChallenge) (account : AcmeAccount)
    (alg : JwsAlgorithm) (kp : Pem) (previous_nonce : bytes) : acme AcmeJws :=
  acct ← acct_url account;
  acme_jws_new alg previous_nonce (chall_url oidc_chall) (Some acct) (Some (IdTokenPayload id_token)) kp.

(** [RustyAcme::new_chall_response]. *)
Definition new_chall_response (response : Json) : acme AcmeChallenge :=
  chall ← ok_or (de_challenge response) AcmeJsonError;
  match chall_status chall with
  | Some ChallengeValid => Ok chall
  | Some ChallengeProcessing => Err (ChallengeError ChallProcessing)
  | Some ChallengeStatusInvalid => Err (ChallengeError ChallInvalid)
  | Some ChallengePending | None => Err ClientImplementationError
  end.

(** ** Certificate signing requests *)

(** [RustyAcme::csr_alg]. *)
Definition csr_alg (alg : JwsAlgorithm) : AlgorithmIdentifier :=
  MkAlgorithm
    match alg with
    | Ed25519 => ID_ED_25519
    | P256 => ECDSA_WITH_SHA_256
    | P384 => ECDSA_WITH_SHA_384
    | P521 => ECDSA_WITH_SHA_512
    end None.

(** The algorithm of a public key: [csr_spki] and [jws_alg_to_x509_identifier]. *)
Definition jws_alg_to_x509_identifier (alg : JwsAlgorithm) : AlgorithmIdentifier :=
  match alg with
  | Ed25519 => MkAlgorithm ID_ED_25519 None
  | P256 => MkAlgorithm ID_EC_PUBLIC_KEY (Some SECP_256_R_1)
  | P384 => MkAlgorithm ID_EC_PUBLIC_KEY (Some SECP_384_R_1)
  | P521 => MkAlgorithm ID_EC_PUBLIC_KEY (Some SECP_521_R_1)
  end.

(** [RustyAcme::csr_subject]. *)
Definition csr_subject (identifier : CanonicalIdentifier) : acme (list (list (Oid * AnyValue))) :=
  dn_domain ← ok_or (any_value_new Utf8String (canonical_domain identifier)) AcmeDerError;
  dn_display_name ← ok_or (any_value_new Utf8String (canonical_display_name identifier)) AcmeDerError;
  Ok [[(ORGANIZATION_NAME, dn_domain)]; [(DISPLAY_NAME, dn_display_name)]].

(** [RustyAcme::csr_spki]. *)
Definition csr_spki (alg : JwsAlgorithm) (kp : Pem) : acme (AlgorithmIdentifier * bytes) :=
  pk ← ok_or (key_pair_public_key alg kp) RawJwtError;
  subject_public_key ← ok_or (bit_string_new pk) AcmeDerError;
  Ok (jws_alg_to_x509_identifier alg, subject_public_key).

(** [RustyAcme::csr_attributes]. *)
Definition csr_attributes (identifier : CanonicalIdentifier) : acme (list (Oid * list AnyValue)) :=
  let gn n := UniformResourceIdentifier <$> ok_or (ia5_string_new n) AcmeDerError in
  client_id ← gn (canonical_client_id identifier);
  handle ← gn (handle_as_str (canonical_handle identifier));
  san ← ok_or (san_to_der [client_id; handle]) AcmeDerError;
  san ← ok_or (any_value_new OctetString san) AcmeDerError;
  san_oid ← ok_or (oid_to_der ID_CE_SUBJECT_ALT_NAME) AcmeDerError;
  san ← ok_or (any_to_der san) AcmeDerError;
  san ← ok_or (any_value_new Sequence (san_oid ++ san)) AcmeDerError;
  san ← ok_or (any_to_der san) AcmeDerError;
  san ← ok_or (any_value_new Sequence san) AcmeDerError;
  Ok [(ID_EXTENSION_REQ, [san])].

(** [RustyAcme::csr_signature]. *)
Definition csr_signature (alg : JwsAlgorithm) (kp : Pem) (cert_info : CertReqInfo) : acme bytes :=
  cert_data ← ok_or (req_info_to_der cert_info) AcmeDerError;
  signature ← ok_or (key_pair_sign alg kp cert_data) SignatureError;
  ok_or (bit_string_new signature) AcmeDerError.

(** [RustyAcme::generate_csr]. *)
Definition generate_csr (alg : JwsAlgorithm) (identifier : CanonicalIdentifier) (kp : Pem) : acme bytes :=
  subject ← csr_subject identifier;
  public_key ← csr_spki alg kp;
  attributes ← csr_attributes identifier;
  let cert_info := MkReqInfo subject public_key attributes in
  signature ← csr_signature alg kp cert_info;
  csr ← ok_or (csr_to_der cert_info (csr_alg alg) signature) AcmeDerError;
  Ok (base64_url_encode csr).

(** ** Finalizing an order *)

(** [RustyAcme::finalize_req]. *)
Definition finalize_req (now : Z) (order : AcmeOrder) (account : AcmeAccount) (alg : JwsAlgorithm) (acme_kp signing_kp : Pem)
    (previous_nonce : bytes) : acme AcmeJws :=
  acct ← acct_url account;
  _ ← order_verify now order;
  identifier ← try_get_coalesce_identifier order;
  csr ← generate_csr alg identifier signing_kp;
  acme_jws_new alg previous_nonce (finalize order) (Some acct) (Some (FinalizePayload csr)) acme_kp.

(** [RustyAcme::finalize_response]. *)
Definition finalize_response (response : Json) : acme AcmeFinalize :=
  ok_or (de_finalize response) AcmeJsonError.

(** [AcmeFinalize::verify]. *)
Definition finalize_verify (now : Z) (f : AcmeFinalize) : acme () :=
  match order_status (finalize_order f) with
  | OrderValid =>
      map_err (fun e => match e with OrderError e => FinalizeError e | e => e end) (order_verify now (finalize_order f))
  | OrderPending | OrderProcessing | OrderReady => Err ClientImplementationError
  | OrderStatusInvalid => Err (FinalizeError OrderInvalid)
  end.

(** [RustyAcme::certificate_req]. *)
Definition certificate_req (f : AcmeFinalize) (account : AcmeAccount) (alg : JwsAlgorithm) (kp : Pem)
    (previous_nonce : bytes) : acme AcmeJws :=
  acct ← acct_url account;
  acme_jws_new alg previous_nonce (certificate f) (Some acct) None kp.

(** [RustyAcme::certificate_response]. *)
Definition certificate_response (now : Z) (response : bytes) (order : AcmeOrder) : acme (list Certificate) :=
  _ ← order_verify now order;
  pems ← ok_or (pem_parse_many response) AcmePemError;
  match pems with
  | [] => Err SmallstepImplementationError
  | _ => mapM (fun pem => ok_or (cert_from_der pem) AcmeDerError) pems
  end.
End acme.

(** ** Concrete messages

    URLs, client ids and handles are strings; a server's answer is named by the address
    it comes from. *)
#[export] Instance toy_acme_types : AcmeTypes := {|
  Url := bytes;
  url_eq_dec := _;
  url_to_string u := u;
  url_parse := Some;
  path_segments u := Some [u];
  pop_segment _ := bstr "account";
  ClientId := bytes;
  client_id_eq_dec := _;
  client_domain _ := bstr "domain";
  client_id_to_uri c := c;
  QualifiedHandle := bytes;
  handle_eq_dec := _;
  handle_as_str h := h;
  try_to_qualified h d := Some (h ++ [AT] ++ d);
  Pem := bytes;
  Jwk := bytes;
  Json := bytes;
|}.

Definition toy_order (status : AcmeOrderStatus) : AcmeOrder (T := toy_acme_types) :=
  MkOrder (T := toy_acme_types) status (bstr "finalize") (WireappDevice (bstr "device"), WireappUser (bstr "user"))
    (bstr "authz-user", bstr "authz-device") None None None.

Definition toy_challenge (typ : AcmeChallengeType) (url : bytes) : AcmeChallenge (T := toy_acme_types) :=
  MkChallenge (T := toy_acme_types) typ url (Some ChallengeValid) (bstr "0123456789abcdef") (bstr "target").

(** The finalized order is reported as invalid. *)
#[export] Instance toy_acme : AcmeLib toy_acme_types toy_x509 := {|
  json_from_slice := Some;
  de_directory _ := Some (MkDirectory (T := toy_acme_types) (bstr "nonce") (bstr "new-account") (bstr "new-order") (bstr "revoke"));
  de_account _ := Some (MkAccount (T := toy_acme_types) AccountStatusValid (Some (bstr "orders")));
  de_order _ := Some (toy_order OrderPending);
  de_authz j := Some (if decide (j = bstr "authz-device")
                      then MkAuthz (T := toy_acme_types) AuthzPending None (toy_challenge WireDpop01 (bstr "dpop")) (WireappDevice (bstr "device"))
                      else MkAuthz (T := toy_acme_types) AuthzPending None (toy_challenge WireOidc01 (bstr "oidc")) (WireappUser (bstr "user")));
  de_challenge j := Some (toy_challenge WireDpop01 j);
  de_finalize _ := Some (MkFinalize (T := toy_acme_types) (bstr "certificate") (toy_order OrderStatusInvalid));
  ser_wire_identifier w := Some (wire_display_name w);
  de_wire_identifier _ := Some (MkWireIdentifier (T := toy_acme_types) (Some (bstr "client")) (bstr "handle@domain") (bstr "name") (bstr "domain"));
  ser_jws j := Some (protected j);
  generate_jwt _ h _ _ _ := Some (header_nonce h ++ [x2e] ++ bstr "payload" ++ [x2e] ++ bstr "signature");
  base64_url_encode s := s;
  base64_url_decode := Some;
  add_duration t d := Some (t + d)%Z;
  key_pair_public_key _ kp := Some kp;
  key_pair_sign _ _ s := Some s;
  oid_to_der _ := Some [];
  any_value_new t v := Some (MkAny t v);
  any_to_der v := Some (any_value v);
  ia5_string_new := Some;
  san_to_der _ := Some [];
  bit_string_new := Some;
  req_info_to_der _ := Some [];
  csr_to_der _ _ _ := Some [];
  pem_parse_many s := Some [s];
|}.
