(* ===== verification/Acquisition.v ===== *)
(** * Acquiring a certificate

    [e2e-identity/src/acquisition]: the enrollment with an ACME server, from the
    directory to the verified certificate, and the identity read from a certificate.
    The application sends the requests and answers from outside ([pki_env/hooks.rs]):
    its answers are arbitrary functions of the calls made so far, and so is the
    clock.  The state of an enrollment is the list of these calls. *)

From S2P Require Import Prelude Keys EntityTypes Entities Sql KeystoreErrors EntityStore Store Transaction Database EntityKV CryptoErrors ClientIds X509Check PkiEnv Acme.
From Stdlib Require Import Lia ZArith.

(** ** The application *)

(** [HttpMethod], [HttpHeader] and [HttpResponse]. *)
Inductive HttpMethod : Type := Get | Post | Put | Delete | Patch | Head.
Record HttpHeader : Type := MkHttpHeader { header_name : bytes; header_value : bytes }.
Record HttpResponse : Type := MkResponse { resp_status : Z; resp_headers : list HttpHeader; resp_body : bytes }.

(** The calls of [PkiEnvironmentHooks]. *)
Inductive HookCall : Type :=
  | HttpRequest (method : HttpMethod) (url : bytes) (headers : list HttpHeader) (body : bytes)
  | Authenticate (idp key_auth acme_aud acquisition_snapshot : bytes)
  | GetBackendNonce
  | FetchBackendAccessToken (dpop : bytes).

(** The answers to the last of some calls; [None] is an error. *)
Class PkiEnvironmentHooks : Type := {
  answer_http : list HookCall -> option HttpResponse;
  answer_string : list HookCall -> option bytes;
  clock : list HookCall -> Z;
}.

(** [HttpResponse::first_header]. *)
Definition first_header (r : HttpResponse) (name : bytes) : option bytes :=
  header_value <$> (snd <$> list_find (fun h => header_name h = name) (resp_headers r)).

(** ** Errors *)

Inductive CertificateError : Type :=
  | CertInvalidClientId
  | ClientIdMismatch
  | DisplayNameMismatch
  | HandleMismatch
  | DomainMismatch
  | MissingDisplayName
  | MissingHandle
  | MissingDomain
  | MissingClientId
  | InvalidFormat
  | AlgorithmMismatch
  | KeyMismatch
  | UnsupportedPublicKey
  | X509Check (e : RustyX509CheckError)
  | CertDer
  | CertUtf8
  | CertAcme (e : RustyAcmeError)
  | CertJwt
  | JwtSimple.

Inductive AcquisitionError : Type :=
  | HookFailed
  | AcqJson
  | MissingHeader (header : bytes)
  | AcqAcme (e : RustyAcmeError)
  | AcqJwt
  | InvalidCertificate (e : CertificateError).

Section data.
Context `{T : AcmeTypes}.

(** [X509CredentialConfiguration]. *)
Record X509CredentialConfiguration : Type := MkX509Config {
  acme_directory_url : bytes;
  sign_alg : JwsAlgorithm;
  hash_alg : HashAlgorithm;
  display_name : bytes;
  client_id : ClientId;
  handle : bytes;
  domain : bytes;
  team : option bytes;
  validity_period : Z;
}.

(** The data of the states [Initialized] and [DpopChallengeCompleted]. *)
Record DpopChallengeCompleted : Type := MkCompleted {
  nonce : bytes;
  acme_account : AcmeAccount;
  order : AcmeOrder;
  oidc_challenge : AcmeChallenge;
}.

(** [X509CredentialAcquisition], without the PKI environment it refers to. *)
Record X509CredentialAcquisition (D : Type) : Type := MkAcquisition {
  config : X509CredentialConfiguration;
  sign_kp : Pem;
  acme_kp : Pem;
  acme_jwk : Jwk;
  data : D;
}.

(** [Dpop]. *)
Record Dpop : Type := MkDpop {
  htu : Url;
  dpop_challenge_token : bytes;
  dpop_handle : QualifiedHandle;
  dpop_team : option bytes;
  dpop_display_name : bytes;
}.

(** [WireIdentity]. *)
Record WireIdentity : Type := MkIdentity {
  identity_client_id : bytes;
  identity_handle : QualifiedHandle;
  identity_display_name : bytes;
  identity_domain : bytes;
  identity_status : IdentityStatus;
  thumbprint : bytes;
  serial_number : bytes;
  identity_not_before : Z;
  identity_not_after : Z;
}.

#[export] Instance DpopChallengeCompleted_eq_dec : EqDecision DpopChallengeCompleted.
Proof. solve_decision. Defined.
#[export] Instance X509CredentialConfiguration_eq_dec : EqDecision X509CredentialConfiguration.
Proof. solve_decision. Defined.
#[export] Instance X509CredentialAcquisition_eq_dec `{EqDecision D, EqDecision Pem, EqDecision Jwk} :
  EqDecision (X509CredentialAcquisition D).
Proof. solve_decision. Defined.
End data.

Arguments MkAcquisition {T D}.
Arguments config {T D}.
Arguments sign_kp {T D}.
Arguments acme_kp {T D}.
Arguments acme_jwk {T D}.
Arguments data {T D}.

(** ** The libraries *)

Class AcquisitionLib (T : AcmeTypes) (L : X509Lib) : Type := {
  (** Client ids and handles in certificates. *)
  try_from_uri : bytes -> option ClientId;
  to_qualified : ClientId -> bytes;
  try_from_qualified : bytes -> option ClientId;
  parse_handle : bytes -> option QualifiedHandle;
  (** Tokens and keys; the first argument of [generate_key] is the randomness. *)
  generate_dpop_token : Dpop -> ClientId -> bytes -> Url -> Z -> JwsAlgorithm -> Pem -> option bytes;
  jwk_thumbprint : Jwk -> HashAlgorithm -> option bytes;
  generate_key : nat -> JwsAlgorithm -> option Pem;
  PublicKey : Type;
  public_key_from_pem : JwsAlgorithm -> Pem -> option PublicKey;
  public_key_from_bytes : JwsAlgorithm -> bytes -> option PublicKey;
  public_key_into_jwk : PublicKey -> option Jwk;
  (** Certificates: the subject, the extensions, the algorithm of the public key, whose
      parameters need not be an object identifier, and the key itself. *)
  cert_subject : Certificate -> list (list (Oid * bytes));
  cert_extensions : Certificate -> option (list (Oid * bytes));
  san_from_der : bytes -> option (list GeneralName);
  cert_not_before : Certificate -> Z;
  cert_not_after : Certificate -> Z;
  cert_key_algorithm : Certificate -> Oid * option (option Oid);
  cert_public_key : Certificate -> bytes;
  (** [serde_json] on acquisitions. *)
  ser_acquisition : X509CredentialAcquisition DpopChallengeCompleted -> option bytes;
  de_acquisition : bytes -> option (X509CredentialAcquisition DpopChallengeCompleted);
}.

(** What the code relies on: acquisitions are read back as they were written, and
    client ids as they were printed. *)
Class AcquisitionLibLaws {T : AcmeTypes} {L : X509Lib} (Q : AcquisitionLib T L) : Prop := {
  acquisition_roundtrip a s : ser_acquisition a = Some s -> de_acquisition s = Some a;
  qualified_roundtrip c : try_from_qualified (to_qualified c) = Some c;
}.

Section acquisition.
Context `{X : Externals, T : AcmeTypes, L : X509Lib, P : !PkiLib L, K : !AcmeLib T L, Q : !AcquisitionLib T L}.
Context `{R : !PathLib L, H : PkiEnvironmentHooks}.

(** ** The identity of a certificate *)

Abbreviation cert A := (res CertificateError A).

(** [try_extract_subject]: the last organization and the last common name. *)
Definition subject_step (s : Oid * bytes) (acc : option bytes * option bytes) : cert (option bytes * option bytes) :=
  match s.1 with
  | ORGANIZATION_NAME => if utf8_valid s.2 then Ok (acc.1, Some s.2) else Err CertUtf8
  | COMMON_NAME => if utf8_valid s.2 then Ok (Some s.2, acc.2) else Err CertUtf8
  | _ => Ok acc
  end.

Definition try_extract_subject (c : Certificate) : cert (bytes * bytes) :=
  '(display_name, domain) ← for_each subject_step (mjoin (cert_subject c)) (None, None);
  display_name ← ok_or display_name MissingDisplayName;
  domain ← ok_or domain MissingDomain;
  Ok (display_name, domain).

(** [try_extract_san]: the last URI that is a client id, and the last other one that
    is a handle. *)
Definition san_step (acc : option bytes * option QualifiedHandle) (name : GeneralName) :
    option bytes * option QualifiedHandle :=
  match name with
  | UniformResourceIdentifier uri =>
      match try_from_uri uri with
      | Some cid => (Some (to_qualified cid), acc.2)
      | None => match parse_handle uri with Some h => (acc.1, Some h) | None => acc end
      end
  | _ => acc
  end.

Definition try_extract_san (c : Certificate) : cert (bytes * QualifiedHandle) :=
  extensions ← ok_or (cert_extensions c) InvalidFormat;
  san ← match list_find (fun e => e.1 = ID_CE_SUBJECT_ALT_NAME) extensions with
        | Some (_, (_, der)) => ok_or (san_from_der der) CertDer
        | None => Err InvalidFormat
        end;
  let '(client_id, handle) := foldl san_step (None, None) san in
  client_id ← ok_or client_id MissingClientId;
  handle ← ok_or handle MissingHandle;
  Ok (client_id, handle).

(** [try_into_jwk] and [try_compute_jwk_canonicalized_thumbprint]: parameters that are
    not an object identifier count as absent. *)
Definition key_to_jwk (alg : JwsAlgorithm) (raw : bytes) : cert Jwk :=
  pk ← ok_or (public_key_from_bytes alg raw) JwtSimple;
  ok_or (public_key_into_jwk pk) CertJwt.

Definition try_into_jwk (c : Certificate) : cert Jwk :=
  let '(oid, parameters) := cert_key_algorithm c in
  match oid, parameters ≫= id with
  | ID_ED_25519, None => key_to_jwk Ed25519 (cert_public_key c)
  | ID_EC_PUBLIC_KEY, Some SECP_256_R_1 => key_to_jwk P256 (cert_public_key c)
  | ID_EC_PUBLIC_KEY, Some SECP_384_R_1 => key_to_jwk P384 (cert_public_key c)
  | ID_EC_PUBLIC_KEY, Some SECP_521_R_1 => key_to_jwk P521 (cert_public_key c)
  | _, _ => Err UnsupportedPublicKey
  end.

Definition try_compute_jwk_canonicalized_thumbprint (c : Certificate) (hash_alg : HashAlgorithm) : cert bytes :=
  jwk ← try_into_jwk c;
  ok_or (jwk_thumbprint jwk hash_alg) CertJwt.

(** [compute_raw_key_thumbprint]. *)
Definition compute_raw_key_thumbprint (sign_alg : JwsAlgorithm) (hash_alg : HashAlgorithm) (key : bytes) :
    res RustyAcmeError bytes :=
  pk ← ok_or (public_key_from_bytes sign_alg key) RawJwtError;
  jwk ← ok_or (public_key_into_jwk pk) AcmeJwtError;
  ok_or (jwk_thumbprint jwk hash_alg) AcmeJwtError.

(** [IdentityStatus::from_cert] in an environment. *)
Definition identity_status_in (env : PkiEnvironment) (c : Certificate) : IdentityStatus :=
  identity_status_from_cert clock_now (paths_for_target env) (validate_path_rfc5280 env) (check_revocation env) c.

(** [WireIdentityReader] of certificates. *)
Definition extract_identity (env : PkiEnvironment) (hash_alg : HashAlgorithm) (c : Certificate) : cert WireIdentity :=
  '(client_id, handle) ← try_extract_san c;
  '(display_name, domain) ← try_extract_subject c;
  thumbprint ← try_compute_jwk_canonicalized_thumbprint c hash_alg;
  Ok (MkIdentity client_id handle display_name domain (identity_status_in env c) thumbprint
        (hex_encode (cert_serial c)) (cert_not_before c) (cert_not_after c)).

Definition extract_created_at (c : Certificate) : Z := cert_not_before c.
Definition extract_public_key (c : Certificate) : bytes := cert_public_key c.

(** The same for encoded certificates. *)
Definition extract_identity_der (env : PkiEnvironment) (hash_alg : HashAlgorithm) (der : bytes) : cert WireIdentity :=
  c ← ok_or (cert_from_der der) CertDer; extract_identity env hash_alg c.
Definition extract_created_at_der (der : bytes) : cert Z :=
  c ← ok_or (cert_from_der der) CertDer; Ok (extract_created_at c).
Definition extract_public_key_der (der : bytes) : cert bytes :=
  c ← ok_or (cert_from_der der) CertDer; Ok (extract_public_key c).

(** ** Checking the certificates obtained *)

(** [verify_leaf_certificate]; [inner] is the environment of the chain. *)
Definition verify_leaf_certificate (cfg : X509CredentialConfiguration) (inner env : PkiEnvironment) (kp : Pem)
    (c : Certificate) : cert () :=
  _ ← map_err X509Check
        (validate_cert_internal clock_now (paths_for_target inner) (validate_path_rfc5280 inner) (check_revocation inner)
           c false);
  let alg := jws_alg_to_x509_identifier (sign_alg cfg) in
  if negb (bool_decide (cert_key_algorithm c = (alg_oid alg, Some <$> alg_parameters alg)))
  then Err AlgorithmMismatch else
  match key_pair_public_key (sign_alg cfg) kp with
  | None => Panic
  | Some key =>
      if negb (bool_decide (key = cert_public_key c)) then Err KeyMismatch else
      identity ← extract_identity env (hash_alg cfg) c;
      cert_id ← ok_or (try_from_qualified (identity_client_id identity)) CertInvalidClientId;
      if negb (bool_decide (cert_id = client_id cfg)) then Err ClientIdMismatch else
      if negb (bool_decide (identity_display_name identity = display_name cfg)) then Err DisplayNameMismatch else
      match try_to_qualified (handle cfg) (domain cfg) with
      | None => Panic
      | Some h =>
          if negb (bool_decide (identity_handle identity = h)) then Err HandleMismatch else
          if negb (bool_decide (identity_domain identity = domain cfg)) then Err DomainMismatch else Ok ()
      end
  end.

(** [verify_cert_chain]. *)
Definition verify_cert_chain (cfg : X509CredentialConfiguration) (env : PkiEnvironment) (kp : Pem)
    (certs : list Certificate) : cert () :=
  match certs with
  | [] => Panic
  | leaf :: intermediates =>
      inner ← map_err X509Check (rjt_init (get_trust_anchors env) intermediates [] (pki_database env));
      _ ← verify_leaf_certificate cfg inner env kp leaf;
      _ ← map_err X509Check (extract_ski_aki_from_cert leaf);
      Ok ()
  end.

(** ** Calls to the application *)

Abbreviation acq A := (st (list HookCall) AcquisitionError A).

(** A call, and its answer. *)
Definition call {A} (answer : list HookCall -> option A) (c : HookCall) : acq A := fun calls =>
  (ok_or (answer (calls ++ [c])) HookFailed, calls ++ [c]).

Definition http_request (method : HttpMethod) (url : bytes) (headers : list HttpHeader) (body : bytes) : acq HttpResponse :=
  call answer_http (HttpRequest method url headers body).

Definition REPLAY_NONCE : bytes := bstr "replay-nonce".

(** [get_header]. *)
Definition get_header (r : HttpResponse) (header : bytes) : acq bytes :=
  st_lift (fun _ => ok_or (first_header r header) (MissingHeader header)).

(** [HttpResponse::json]. *)
Definition response_json (r : HttpResponse) : acq Json :=
  st_lift (fun _ => ok_or (json_from_slice (resp_body r)) AcqJson).

Definition jose_headers : list HttpHeader := [MkHttpHeader (bstr "content-type") (bstr "application/jose+json")].

(** [acme_request]. *)
Definition acme_request (url : Url) (body : AcmeJws) : acq (bytes * Json) :=
  raw ← st_lift (fun _ => ok_or (ser_jws body) AcqJson);
  response ← http_request Post (url_to_string url) jose_headers raw;
  nonce ← get_header response REPLAY_NONCE;
  json ← response_json response;
  mret (nonce, json).

(** A step of [RustyAcme] at the current time. *)
Definition acme_step {A} (f : Z -> res RustyAcmeError A) : acq A :=
  st_lift (fun calls => map_err AcqAcme (f (clock calls))).

(** ** Starting *)

(** [public_jwk_from_pem_keypair]. *)
Definition public_jwk_from_pem_keypair (alg : JwsAlgorithm) (keypair : Pem) : res E2eIdentityError Jwk :=
  pk ← ok_or (public_key_from_pem alg keypair) E2eJwtSimpleError;
  ok_or (public_key_into_jwk pk) E2eJwtError.

(** [X509CredentialAcquisition::try_new] and [try_new_from_pem]; [r1] and [r2] are the
    randomness. *)
Definition try_new (r1 r2 : nat) (cfg : X509CredentialConfiguration) :
    res E2eIdentityError (X509CredentialAcquisition ()) :=
  sign_kp ← ok_or (generate_key r1 (sign_alg cfg)) E2eJwtSimpleError;
  acme_kp ← ok_or (generate_key r2 (sign_alg cfg)) E2eJwtSimpleError;
  acme_jwk ← public_jwk_from_pem_keypair (sign_alg cfg) acme_kp;
  Ok (MkAcquisition cfg sign_kp acme_kp acme_jwk ()).

Definition try_new_from_pem (r : nat) (cfg : X509CredentialConfiguration) (sign_kp : Pem) :
    res E2eIdentityError (X509CredentialAcquisition ()) :=
  acme_kp ← ok_or (generate_key r (sign_alg cfg)) E2eJwtSimpleError;
  acme_jwk ← public_jwk_from_pem_keypair (sign_alg cfg) acme_kp;
  Ok (MkAcquisition cfg sign_kp acme_kp acme_jwk ()).

(** [X509CredentialAcquisition::deserialize]. *)
Definition deserialize (s : bytes) : res AcquisitionError (X509CredentialAcquisition DpopChallengeCompleted) :=
  ok_or (de_acquisition s) AcqJson.

(** ** The DPoP challenge *)

(** [get_challenge]. *)
Definition get_challenge (a : X509CredentialAcquisition ()) (url : Url) (acme_account : AcmeAccount) (nonce : bytes) :
    acq (bytes * AcmeChallenge) :=
  authz_request ← acme_step (fun _ => new_authz_request url acme_account (sign_alg (config a)) (acme_kp a) nonce);
  '(nonce, response) ← acme_request url authz_request;
  authorization ← acme_step (fun now => new_authz_response now response);
  mret (nonce, challenge authorization).

(** [get_challenges]. *)
Definition get_challenges (a : X509CredentialAcquisition ()) (acme_account : AcmeAccount) (order : AcmeOrder)
    (nonce : bytes) : acq (bytes * AcmeChallenge * AcmeChallenge) :=
  '(nonce, challenge1) ← get_challenge a (authorizations order).1 acme_account nonce;
  '(nonce, challenge2) ← get_challenge a (authorizations order).2 acme_account nonce;
  match typ challenge1, typ challenge2 with
  | WireDpop01, WireOidc01 => mret (nonce, challenge1, challenge2)
  | WireOidc01, WireDpop01 => mret (nonce, challenge2, challenge1)
  | _, _ => st_throw (AcqAcme (AuthzError InvalidChallengeType))
  end.

Definition FIVE_MINUTES : Z := (5 * 60 * 1000000000)%Z.

(** The DPoP token: the part of [complete_dpop_challenge] that builds it. *)
Definition dpop_token (a : X509CredentialAcquisition ()) (dpop_challenge : AcmeChallenge) (backend_nonce : bytes) :
    res AcquisitionError bytes :=
  let cfg := config a in
  handle ← ok_or (try_to_qualified (handle cfg) (client_domain (client_id cfg))) AcqJwt;
  let dpop := MkDpop (target dpop_challenge) (token dpop_challenge) handle (team cfg) (display_name cfg) in
  ok_or (generate_dpop_token dpop (client_id cfg) backend_nonce (chall_url dpop_challenge) FIVE_MINUTES (sign_alg cfg)
           (acme_kp a)) AcqJwt.

(** The directory and the first nonce: the start of [complete_dpop_challenge]. *)
Definition get_directory (a : X509CredentialAcquisition ()) : acq (AcmeDirectory * bytes) :=
  url ← st_lift (fun _ => match url_parse (acme_directory_url (config a)) with Some u => Ok u | None => Panic end);
  resp ← http_request Get (url_to_string url) [] [];
  body ← response_json resp;
  directory ← acme_step (fun _ => acme_directory_response body);
  resp ← http_request Head (url_to_string (new_nonce directory)) [] [];
  nonce ← get_header resp REPLAY_NONCE;
  mret (directory, nonce).

(** [complete_dpop_challenge]. *)
Definition complete_dpop_challenge (a : X509CredentialAcquisition ()) :
    acq (X509CredentialAcquisition DpopChallengeCompleted) :=
  let cfg := config a in
  '(directory, nonce) ← get_directory a;
  account_request ← acme_step (fun _ => new_account_request directory (sign_alg cfg) (acme_kp a) nonce);
  '(nonce, response) ← acme_request (new_account directory) account_request;
  acme_account ← acme_step (fun _ => new_account_response response);
  order_request ← acme_step (fun now =>
    new_order_request now (display_name cfg) (client_id cfg) (handle cfg) (validity_period cfg) directory acme_account
      (sign_alg cfg) (acme_kp a) nonce);
  '(nonce, response) ← acme_request (new_order directory) order_request;
  order ← acme_step (fun now => new_order_response now response);
  '(nonce, dpop_challenge, oidc_challenge) ← get_challenges a acme_account order nonce;
  backend_nonce ← call answer_string GetBackendNonce;
  dpop ← st_lift (fun _ => dpop_token a dpop_challenge backend_nonce);
  access_token ← call answer_string (FetchBackendAccessToken dpop);
  request ← acme_step (fun _ =>
    dpop_chall_request access_token dpop_challenge acme_account (sign_alg cfg) (acme_kp a) nonce);
  '(nonce, response) ← acme_request (chall_url dpop_challenge) request;
  _ ← acme_step (fun _ => new_chall_response response);
  mret (MkAcquisition cfg (sign_kp a) (acme_kp a) (acme_jwk a) (MkCompleted nonce acme_account order oidc_challenge)).

(** ** The OIDC challenge and the certificate *)

(** [complete_oidc_challenge]; [env] is the PKI environment when the certificates
    arrive. *)
Definition complete_oidc_challenge (env : PkiEnvironment) (a : X509CredentialAcquisition DpopChallengeCompleted) :
    acq (Pem * list Certificate) :=
  let cfg := config a in
  let chall := oidc_challenge (data a) in
  let account := acme_account (data a) in
  thumbprint ← st_lift (fun _ => ok_or (jwk_thumbprint (acme_jwk a) (hash_alg cfg)) AcqJwt);
  let key_auth := token chall ++ [DOT] ++ thumbprint in
  snapshot ← st_lift (fun _ => ok_or (ser_acquisition a) AcqJson);
  id_token ← call answer_string
    (Authenticate (url_to_string (target chall)) key_auth (url_to_string (chall_url chall)) snapshot);
  request ← acme_step (fun _ => oidc_chall_request id_token chall account (sign_alg cfg) (acme_kp a) (nonce (data a)));
  '(nonce, response) ← acme_request (chall_url chall) request;
  _ ← acme_step (fun _ => new_chall_response response);
  request ← acme_step (fun now =>
    finalize_req now (order (data a)) account (sign_alg cfg) (acme_kp a) (sign_kp a) nonce);
  '(nonce, response) ← acme_request (finalize (order (data a))) request;
  finalized ← acme_step (fun _ => finalize_response response);
  request ← acme_step (fun _ => certificate_req finalized account (sign_alg cfg) (acme_kp a) nonce);
  raw ← st_lift (fun _ => ok_or (ser_jws request) AcqJson);
  response ← http_request Post (url_to_string (certificate finalized)) jose_headers raw;
  _ ← st_lift (fun _ => if utf8_valid (resp_body response) then Ok () else Err (AcqAcme AcmeUtf8));
  certificates ← acme_step (fun now => certificate_response now (resp_body response) (order (data a)));
  _ ← st_lift (fun _ => map_err InvalidCertificate (verify_cert_chain cfg env (sign_kp a) certificates));
  mret (sign_kp a, certificates).
End acquisition.

(** ** A concrete enrollment *)

Definition toy_config : X509CredentialConfiguration (T := toy_acme_types) :=
  MkX509Config (T := toy_acme_types) (bstr "directory") Ed25519 SHA256 (bstr "name") (bstr "client") (bstr "handle")
    (bstr "domain") None 1000.
Definition toy_initialized : X509CredentialAcquisition (T := toy_acme_types) () :=
  MkAcquisition (T := toy_acme_types) toy_config (bstr "sign") (bstr "acme") (bstr "jwk") ().
Definition toy_completed : X509CredentialAcquisition (T := toy_acme_types) DpopChallengeCompleted :=
  MkAcquisition (T := toy_acme_types) toy_config (bstr "sign") (bstr "acme") (bstr "jwk")
    (MkCompleted (T := toy_acme_types) (replicate 9 x41)
       (MkAccount (T := toy_acme_types) AccountStatusValid (Some (bstr "orders"))) (toy_order OrderPending)
       (toy_challenge WireOidc01 (bstr "oidc"))).

#[local] Instance toy_pem_eq_dec : EqDecision (Pem (AcmeTypes := toy_acme_types)) := list_eq_dec.
#[local] Instance toy_jwk_eq_dec : EqDecision (Jwk (AcmeTypes := toy_acme_types)) := list_eq_dec.

(** Certificates name their key, the alternative names are the client id and the handle
    of the example, the one acquisition has a serialization, and every path validates. *)
#[export] Instance toy_acquisition : AcquisitionLib toy_acme_types toy_x509 := {|
  try_from_uri uri := if decide (uri = bstr "client") then Some uri else None;
  to_qualified c := c;
  try_from_qualified := Some;
  parse_handle := Some;
  generate_dpop_token _ _ n _ _ _ _ := Some n;
  jwk_thumbprint jwk _ := Some jwk;
  generate_key n _ := Some (if decide (n = 0) then bstr "sign" else bstr "acme");
  PublicKey := bytes;
  public_key_from_pem _ kp := Some (if decide (kp = bstr "acme") then bstr "jwk" else kp);
  public_key_from_bytes _ := Some;
  public_key_into_jwk := Some;
  cert_subject _ := [[(COMMON_NAME, bstr "name")]; [(ORGANIZATION_NAME, bstr "domain")]];
  cert_extensions _ := Some [(ID_CE_SUBJECT_ALT_NAME, [])];
  san_from_der _ := Some [UniformResourceIdentifier (bstr "client"); UniformResourceIdentifier (bstr "handle@domain")];
  cert_not_before _ := 0%Z;
  cert_not_after _ := 100%Z;
  cert_key_algorithm _ := (ID_ED_25519, None);
  cert_public_key c := c;
  ser_acquisition a := if decide (a = toy_completed) then Some (bstr "snapshot") else None;
  de_acquisition s := if decide (s = bstr "snapshot") then Some toy_completed else None;
|}.

#[export] Instance toy_acquisition_laws : AcquisitionLibLaws toy_acquisition.
Proof.
  split; [|done]. intros a s. cbn. case_decide as Ha; [|done]. subst a. by intros [= <-].
Qed.

#[export] Instance toy_paths : PathLib toy_x509 := {|
  Path := ();
  paths_for_target _ _ _ := Ok [()];
  validate_path_rfc5280 _ _ _ := (Some PathValid, ());
  check_revocation _ _ := Some PathValid;
|}.

(** The server answers with the address asked for, the certificate for the signing key,
    and a nonce as long as the run. *)
#[export] Instance toy_hooks : PkiEnvironmentHooks := {|
  answer_http calls :=
    match last calls with
    | Some (HttpRequest _ url _ _) =>
        Some (MkResponse 200 [MkHttpHeader (bstr "replay-nonce") (replicate (length calls) x41)]
                (if decide (url = bstr "certificate") then bstr "sign" else url))
    | _ => None
    end;
  answer_string _ := Some (bstr "token");
  clock _ := 0%Z;
|}.
