(* ===== verification/AcquisitionProps.v ===== *)
(** * The enrollment protocol

    Along every enrollment each signed request carries the nonce of the answer
    before it, the calls are made in the order of the protocol, and a certificate is
    only returned after it was checked against the configuration. *)

From S2P Require Import Prelude Keys EntityTypes Entities ToyExternals Sql KeystoreErrors EntityStore Store Transaction Database DatabaseProps EntityKV CryptoErrors ClientIds X509Check PkiEnv Acme Acquisition.
From Stdlib Require Import Lia ZArith.

Section enrollment.
Context `{X : Externals, T : AcmeTypes, L : X509Lib, P : !PkiLib L, K : !AcmeLib T L, Q : !AcquisitionLib T L}.
Context `{R : !PathLib L, H : PkiEnvironmentHooks}.
Abbreviation acq A := (st (list HookCall) AcquisitionError A).

(** ** Nonces *)

Definition is_http (c : HookCall) : bool := match c with HttpRequest _ _ _ _ => true | _ => false end.
Definition is_post (c : HookCall) : bool := match c with HttpRequest Post _ _ _ => true | _ => false end.

(** [n] is the nonce of the answer to the last request among [calls]. *)
Definition last_nonce (calls : list HookCall) (n : bytes) : Prop :=
  exists pre c mid r, calls = pre ++ c :: mid /\ is_http c = true /\ Forall (fun c => is_http c = false) mid /\
    answer_http (pre ++ [c]) = Some r /\ first_header r REPLAY_NONCE = Some n.

(** [c] posts a message that is signed with [kp] over its address and the nonce [n]. *)
Definition signed_request (alg : JwsAlgorithm) (kp : Pem) (n : bytes) (c : HookCall) : Prop :=
  exists url kid content jws raw, acme_jws_new alg n url kid content kp = Ok jws /\ ser_jws jws = Some raw /\
    c = HttpRequest Post (url_to_string url) jose_headers raw.

(** Calls that follow [start], in which every posted request is signed over the nonce of
    the answer before it; [ns] are the nonces used, latest first. *)
Inductive posted (alg : JwsAlgorithm) (kp : Pem) (start : list HookCall) : list HookCall -> list bytes -> Prop :=
  | posted_start : posted alg kp start start []
  | posted_post calls ns n c :
      posted alg kp start calls ns -> last_nonce calls n -> signed_request alg kp n c ->
      posted alg kp start (calls ++ [c]) (n :: ns)
  | posted_other calls ns c :
      posted alg kp start calls ns -> is_post c = false -> posted alg kp start (calls ++ [c]) ns.

Definition chained (alg : JwsAlgorithm) (kp : Pem) (start calls : list HookCall) : Prop :=
  exists ns, posted alg kp start calls ns.

Lemma chained_post alg kp start calls n c :
  chained alg kp start calls -> last_nonce calls n -> signed_request alg kp n c -> chained alg kp start (calls ++ [c]).
Proof. intros [ns ?] ? ?. exists (n :: ns). by apply posted_post. Qed.

Lemma chained_other alg kp start calls c :
  chained alg kp start calls -> is_post c = false -> chained alg kp start (calls ++ [c]).
Proof. intros [ns ?] ?. exists ns. by apply posted_other. Qed.

(** The server issues no nonce twice in a run. *)
Definition fresh_nonces : Prop :=
  forall calls cs r r' n, answer_http calls = Some r -> answer_http (calls ++ cs) = Some r' ->
    first_header r REPLAY_NONCE = Some n -> first_header r' REPLAY_NONCE = Some n -> cs = [].

(** A nonce that a posted request has used was answered before another request. *)
Lemma posted_used alg kp start calls ns n :
  posted alg kp start calls ns -> n ∈ ns ->
  exists pre post c r, calls = pre ++ post /\ c ∈ post /\ is_http c = true /\
    answer_http pre = Some r /\ first_header r REPLAY_NONCE = Some n.
Proof.
  induction 1 as [|calls ns n' c _ IH Hn Hs|calls ns c _ IH Hc]; intros Hin; [by apply not_elem_of_nil in Hin|..].
  - apply elem_of_cons in Hin as [->|Hin].
    + destruct Hn as (pre & c0 & mid & r & -> & Hc0 & Hmid & Hr & Hh). exists (pre ++ [c0]), (mid ++ [c]), c, r.
      split; [by rewrite <- !app_assoc|]. split; [apply elem_of_app; right; by left|].
      destruct Hs as (? & ? & ? & ? & ? & ? & ? & ->). by split_and!.
    + destruct (IH Hin) as (pre & post & c1 & r & -> & Hc1 & Hr). exists pre, (post ++ [c]), c1, r.
      split; [by rewrite app_assoc|]. split; [apply elem_of_app; by left|done].
  - destruct (IH Hin) as (pre & post & c1 & r & -> & Hc1 & Hr). exists pre, (post ++ [c]), c1, r.
    split; [by rewrite app_assoc|]. split; [apply elem_of_app; by left|done].
Qed.

Lemma posted_nodup alg kp start calls ns : fresh_nonces -> posted alg kp start calls ns -> NoDup ns.
Proof.
  intros Hfresh Hp. induction Hp as [|calls ns n c Hp IH Hn Hs|calls ns c _ IH _]; [constructor| |done].
  constructor; [|done]. intros Hin.
  destruct (posted_used _ _ _ _ _ _ Hp Hin) as (pre & post & c1 & r1 & -> & Hc1 & Hh1 & Hr1 & Hf1).
  destruct Hn as (pre2 & c2 & mid & r2 & Heq & Hh2 & Hmid & Hr2 & Hf2).
  assert (c1 ∉ mid) as Hc1mid. { intros Hc. rewrite Forall_forall in Hmid. specialize (Hmid _ Hc). congruence. }
  rewrite cons_middle, app_assoc in Heq. apply app_eq_app in Heq as (k & [[-> ->]|[Hk ->]]).
  - apply Hc1mid, elem_of_app. by right.
  - rewrite Hk in Hr2. pose proof (Hfresh _ _ _ _ _ Hr1 Hr2 Hf1 Hf2) as ->. done.
Qed.

Lemma last_nonce_answer calls c r n :
  is_http c = true -> answer_http (calls ++ [c]) = Some r -> first_header r REPLAY_NONCE = Some n ->
  last_nonce (calls ++ [c]) n.
Proof. intros. exists calls, c, [], r. by split_and!. Qed.

Lemma last_nonce_other calls c n : last_nonce calls n -> is_http c = false -> last_nonce (calls ++ [c]) n.
Proof.
  intros (pre & c0 & mid & r & -> & Hc0 & Hmid & Ha) Hc. exists pre, c0, (mid ++ [c]), r.
  rewrite <- app_assoc, <- app_comm_cons. split_and!; [done..| |by destruct Ha|by destruct Ha].
  apply Forall_app. by repeat constructor.
Qed.

(** Steps that keep the calls chained, with what they need and ensure. *)
Section keeps.
Context (alg : JwsAlgorithm) (kp : Pem) (start : list HookCall).

Definition keeps_chain {A} (pre : list HookCall -> Prop) (m : acq A) (post : A -> list HookCall -> Prop) : Prop :=
  forall calls, chained alg kp start calls -> pre calls ->
    chained alg kp start (snd (m calls)) /\ forall a, fst (m calls) = Ok a -> post a (snd (m calls)).

Lemma keeps_bind {A B} pre (m : acq A) mid (f : A -> acq B) post :
  keeps_chain pre m mid -> (forall a, keeps_chain (mid a) (f a) post) -> keeps_chain pre (m ≫= f) post.
Proof.
  intros Hm Hf calls Hc Hpre. destruct (Hm calls Hc Hpre) as [Hc1 Hok]. unfold mbind, st_bind.
  destruct (m calls) as [[a| |] calls1]; cbn in *; [|by split..]. apply Hf; auto.
Qed.

(** A step that calls nothing. *)
Lemma keeps_lift {A} pre (f : list HookCall -> res AcquisitionError A) :
  keeps_chain pre (st_lift f) (fun a calls => pre calls /\ f calls = Ok a).
Proof. intros calls Hc Hpre. by split. Qed.

Lemma keeps_ret {A} (pre : list HookCall -> Prop) (a : A) (post : A -> list HookCall -> Prop) :
  (forall calls, pre calls -> post a calls) -> keeps_chain pre (mret a) post.
Proof. intros Hp calls Hc Hpre. split; [done|]. intros ? [= <-]. by apply Hp. Qed.

Lemma keeps_throw {A} pre e (post : A -> _) : keeps_chain pre (st_throw e) post.
Proof. intros calls Hc Hpost. by split. Qed.

Lemma keeps_weaken {A} (pre pre' : list HookCall -> Prop) (m : acq A) (post post' : A -> list HookCall -> Prop) :
  keeps_chain pre m post -> (forall calls, pre' calls -> pre calls) ->
  (forall a calls, post a calls -> post' a calls) -> keeps_chain pre' m post'.
Proof.
  intros Hm Hpre Hpost calls Hc H'. destruct (Hm calls Hc (Hpre _ H')) as [? Hok]. split; [done|].
  intros a Ha. by apply Hpost, Hok.
Qed.

(** Calls that are not requests keep the nonce. *)
Lemma keeps_call {A} n (answer : list HookCall -> option A) c :
  is_http c = false -> keeps_chain (fun calls => last_nonce calls n) (call answer c) (fun _ calls => last_nonce calls n).
Proof.
  intros Hc calls Hch Hn. cbn. split; [|by intros; apply last_nonce_other].
  apply chained_other; [done|]. by destruct c.
Qed.

(** Requests that are not posted. *)
Lemma keeps_request pre method url headers body :
  method <> Post ->
  keeps_chain pre (http_request method url headers body)
    (fun r calls => forall n, first_header r REPLAY_NONCE = Some n -> last_nonce calls n).
Proof.
  intros Hm calls Hc _. cbn. split; [apply chained_other; [done|by destruct method]|].
  intros r Hr n Hn. eapply last_nonce_answer; [done| |done]. by destruct (answer_http _); [injection Hr as ->|].
Qed.

(** Posting a message signed over the last nonce. *)
Lemma keeps_post url kid content n jws raw :
  acme_jws_new alg n url kid content kp = Ok jws -> ser_jws jws = Some raw ->
  keeps_chain (fun calls => last_nonce calls n) (http_request Post (url_to_string url) jose_headers raw)
    (fun r calls => forall n', first_header r REPLAY_NONCE = Some n' -> last_nonce calls n').
Proof.
  intros Hj Hraw calls Hc Hn. cbn. split.
  - eapply chained_post; [done..|]. by exists url, kid, content, jws, raw.
  - intros r Hr n' Hn'. eapply last_nonce_answer; [done| |done]. by destruct (answer_http _); [injection Hr as ->|].
Qed.

Lemma keeps_acme_request url kid content n jws :
  acme_jws_new alg n url kid content kp = Ok jws ->
  keeps_chain (fun calls => last_nonce calls n) (acme_request url jws) (fun x calls => last_nonce calls x.1).
Proof.
  intros Hj. unfold acme_request. eapply keeps_bind; [apply keeps_lift|]. intros raw.
  eapply keeps_bind with (mid := fun r calls => forall n', first_header r REPLAY_NONCE = Some n' -> last_nonce calls n').
  - intros calls Hc [Hn Hraw]. destruct (ser_jws jws) as [raw'|] eqn:E; [|done]. injection Hraw as ->.
    by apply (keeps_post url kid content n jws raw).
  - intros r. unfold get_header, response_json. eapply keeps_bind; [apply keeps_lift|]. intros n'.
    eapply keeps_bind; [apply keeps_lift|]. intros json calls Hc [[Hn Hn'] _]. cbn. split; [done|]. intros x [= <-]. cbn.
    apply Hn. by destruct (first_header r REPLAY_NONCE); [injection Hn' as ->|].
Qed.

(** A message and the request that posts it. *)
Lemma keeps_exchange {A} (f : Z -> res RustyAcmeError AcmeJws) url n (k : bytes * Json -> acq A) post :
  (forall now jws, f now = Ok jws -> exists kid content, acme_jws_new alg n url kid content kp = Ok jws) ->
  (forall x, keeps_chain (fun calls => last_nonce calls x.1) (k x) post) ->
  keeps_chain (fun calls => last_nonce calls n) (request ← acme_step f; acme_request url request ≫= k) post.
Proof.
  intros Hf Hk. eapply keeps_bind; [apply keeps_lift|]. intros jws. eapply keeps_bind; [|exact Hk].
  intros calls Hc [Hn Hj]. destruct (f (clock calls)) as [jws'| |] eqn:E; [|done..]. injection Hj as ->.
  destruct (Hf _ _ E) as (kid & content & Hnew). by apply (keeps_acme_request url kid content n jws).
Qed.

Lemma keeps_pure {A B} n (f : list HookCall -> res AcquisitionError A) (k : A -> acq B) post :
  (forall a, keeps_chain (fun calls => last_nonce calls n) (k a) post) ->
  keeps_chain (fun calls => last_nonce calls n) (st_lift f ≫= k) post.
Proof.
  intros Hk. eapply keeps_bind; [apply keeps_lift|]. intros a. eapply keeps_weaken; [apply Hk| |done]. by intros ? [? _].
Qed.
End keeps.

Lemma with_acct_url {A} (f : Url -> res RustyAcmeError A) account a :
  (acct ← acct_url account; f acct) = Ok a -> exists acct, f acct = Ok a.
Proof. intros (acct & _ & Hf)%bind_Ok. by exists acct. Qed.

Lemma get_challenge_keeps start a url account n :
  keeps_chain (sign_alg (config a)) (acme_kp a) start (fun calls => last_nonce calls n) (get_challenge a url account n)
    (fun x calls => last_nonce calls x.1).
Proof.
  unfold get_challenge. apply keeps_exchange.
  - intros _ jws (acct & Hj)%with_acct_url. eauto.
  - intros [n' response]. cbn. apply keeps_pure. intros authz. by apply keeps_ret.
Qed.

Lemma get_challenges_keeps start a account o n :
  keeps_chain (sign_alg (config a)) (acme_kp a) start (fun calls => last_nonce calls n) (get_challenges a account o n)
    (fun x calls => last_nonce calls x.1.1).
Proof.
  unfold get_challenges. eapply keeps_bind; [apply get_challenge_keeps|]. intros [n1 c1]. cbn.
  eapply keeps_bind; [apply get_challenge_keeps|]. intros [n2 c2]. cbn.
  destruct (typ c1), (typ c2); (apply keeps_throw || by apply keeps_ret).
Qed.

Lemma get_directory_keeps alg kp start a :
  keeps_chain alg kp start (fun _ => True) (get_directory a) (fun x calls => last_nonce calls x.2).
Proof.
  unfold get_directory. eapply keeps_bind; [apply keeps_lift|]. intros url.
  eapply keeps_bind; [by apply keeps_request|]. intros resp. eapply keeps_bind; [apply keeps_lift|]. intros body.
  eapply keeps_bind; [apply keeps_lift|]. intros directory. eapply keeps_bind; [by apply keeps_request|]. intros resp'.
  eapply keeps_bind; [apply keeps_lift|]. intros n calls Hc [Hn Hn']. cbn. split; [done|]. intros x [= <-].
  apply Hn. by destruct (first_header resp' REPLAY_NONCE); [injection Hn' as ->|].
Qed.

Lemma complete_dpop_keeps start a :
  keeps_chain (sign_alg (config a)) (acme_kp a) start (fun _ => True) (complete_dpop_challenge a)
    (fun a' calls => last_nonce calls (nonce (data a'))).
Proof.
  unfold complete_dpop_challenge. eapply keeps_bind; [apply get_directory_keeps|]. intros [directory n]. cbn.
  apply keeps_exchange; [intros _ jws Hj; eauto|]. intros [n1 response]. cbn. apply keeps_pure. intros account.
  apply keeps_exchange.
  { intros now jws (acct & Hj)%with_acct_url. apply bind_Ok in Hj as (h & _ & Hj). apply bind_Ok in Hj as (d & _ & Hj).
    apply bind_Ok in Hj as (u & _ & Hj). destruct (add_duration _ _); [eauto|done]. }
  intros [n2 response2]. cbn. apply keeps_pure. intros o.
  eapply keeps_bind; [apply get_challenges_keeps|]. intros [[n3 dpop_chall] oidc_chall]. cbn.
  eapply keeps_bind; [by apply keeps_call|]. intros backend_nonce. apply keeps_pure. intros dpop.
  eapply keeps_bind; [by apply keeps_call|]. intros access_token.
  apply keeps_exchange; [intros _ jws (acct & Hj)%with_acct_url; eauto|]. intros [n4 response4]. cbn.
  apply keeps_pure. intros chall. by apply keeps_ret.
Qed.

Lemma complete_oidc_keeps start env a :
  keeps_chain (sign_alg (config a)) (acme_kp a) start (fun calls => last_nonce calls (nonce (data a)))
    (complete_oidc_challenge env a) (fun _ _ => True).
Proof.
  unfold complete_oidc_challenge. apply keeps_pure. intros print. apply keeps_pure. intros snapshot.
  eapply keeps_bind; [by apply keeps_call|]. intros id_token.
  apply keeps_exchange; [intros _ jws (acct & Hj)%with_acct_url; eauto|]. intros [n1 response]. cbn.
  apply keeps_pure. intros chall. apply keeps_exchange.
  { intros now jws (acct & Hj)%with_acct_url. apply bind_Ok in Hj as ([] & _ & Hj). apply bind_Ok in Hj as (i & _ & Hj).
    apply bind_Ok in Hj as (csr & _ & Hj). eauto. }
  intros [n2 response2]. cbn. apply keeps_pure. intros finalized.
  eapply keeps_bind; [apply keeps_lift|]. intros jws. eapply keeps_bind; [apply keeps_lift|]. intros raw.
  eapply keeps_bind with (mid := fun _ _ => True).
  - intros calls Hc [[Hn Hj] Hraw]. destruct (certificate_req _ _ _ _ _) as [jws'| |] eqn:E; [|done..].
    injection Hj as ->. destruct (ser_jws jws) as [raw'|] eqn:Er; [|done]. injection Hraw as ->.
    apply with_acct_url in E as (acct & E). destruct (keeps_post _ _ start _ _ _ _ _ _ E Er calls Hc Hn). by split.
  - intros r. eapply keeps_bind; [apply keeps_lift|]. intros []. eapply keeps_bind; [apply keeps_lift|]. intros certs.
    eapply keeps_bind; [apply keeps_lift|]. intros [] calls Hc _. by split.
Qed.
(** ** The order of the protocol *)

Lemma call_Ok {A} (answer : list HookCall -> option A) c calls a calls' :
  call answer c calls = (Ok a, calls') -> calls' = calls ++ [c] /\ answer calls' = Some a.
Proof. unfold call. destruct (answer _) eqn:E; [|done]. by intros [= <- <-]. Qed.

Lemma lift_Ok {A} (f : list HookCall -> res AcquisitionError A) calls a calls' :
  st_lift f calls = (Ok a, calls') -> f calls = Ok a /\ calls' = calls.
Proof. unfold st_lift. by intros [= -> ->]. Qed.

Lemma acme_step_Ok {A} (f : Z -> res RustyAcmeError A) calls a calls' :
  acme_step f calls = (Ok a, calls') -> f (clock calls) = Ok a /\ calls' = calls.
Proof. unfold acme_step. intros [Hf ->]%lift_Ok. by destruct (f _); [injection Hf as ->|..]. Qed.

(** What a call asks for. *)
Inductive Target : Type := ToUrl (method : HttpMethod) (url : bytes) | ToIdp | ToBackend.

Definition target_of (c : HookCall) : Target :=
  match c with
  | HttpRequest method url _ _ => ToUrl method url
  | Authenticate _ _ _ _ => ToIdp
  | GetBackendNonce | FetchBackendAccessToken _ => ToBackend
  end.

Definition to_post (u : Url) : Target := ToUrl Post (url_to_string u).

(** A step that succeeds makes the calls [ts]. *)
Definition asks (ts : list Target) (calls calls' : list HookCall) : Prop :=
  exists cs, calls' = calls ++ cs /\ map target_of cs = ts.

Lemma asks_nil calls : asks [] calls calls.
Proof. exists []. by rewrite app_nil_r. Qed.

Lemma asks_app ts1 ts2 calls calls1 calls2 : asks ts1 calls calls1 -> asks ts2 calls1 calls2 -> asks (ts1 ++ ts2) calls calls2.
Proof.
  intros (cs1 & -> & <-) (cs2 & -> & <-). exists (cs1 ++ cs2). split; [by rewrite app_assoc|apply map_app].
Qed.

Lemma asks_call {A} (answer : list HookCall -> option A) c calls a calls' :
  call answer c calls = (Ok a, calls') -> asks [target_of c] calls calls'.
Proof. intros [-> _]%call_Ok. by exists [c]. Qed.

Lemma acme_request_Ok url jws calls n json calls' :
  acme_request url jws calls = (Ok (n, json), calls') -> asks [to_post url] calls calls'.
Proof.
  unfold acme_request. intros (raw & c0 & [_ ->]%lift_Ok & Hr)%st_bind_Ok.
  apply st_bind_Ok in Hr as (r & c1 & Hcall%asks_call & Hr). apply st_bind_Ok in Hr as (n' & c2 & [_ ->]%lift_Ok & Hr).
  apply st_bind_Ok in Hr as (j & c3 & [_ ->]%lift_Ok & Hr). by injection Hr as _ _ <-.
Qed.

Lemma get_challenge_Ok a url account n calls n' c calls' :
  get_challenge a url account n calls = (Ok (n', c), calls') ->
  asks [to_post url] calls calls' /\
  exists response authz, new_authz_response (clock calls') response = Ok authz /\ challenge authz = c.
Proof.
  unfold get_challenge. intros (jws & c0 & [_ ->]%acme_step_Ok & Hr)%st_bind_Ok.
  apply st_bind_Ok in Hr as ([n1 json] & c1 & Hreq%acme_request_Ok & Hr).
  apply st_bind_Ok in Hr as (authz & c2 & [Hauthz ->]%acme_step_Ok & Hr). injection Hr as _ <- <-.
  split; [done|]. by exists json, authz.
Qed.

(** The challenges of the two authorizations, the DPoP one first, whichever order the
    server uses; each was offered for the right kind of identifier. *)
Lemma get_challenges_Ok a account o n calls n' dpop oidc calls' :
  get_challenges a account o n calls = (Ok (n', dpop, oidc), calls') ->
  asks [to_post (authorizations o).1; to_post (authorizations o).2] calls calls' /\
  typ dpop = WireDpop01 /\ typ oidc = WireOidc01.
Proof.
  unfold get_challenges. intros ([n1 ch1] & c1 & [H1 _]%get_challenge_Ok & Hr)%st_bind_Ok.
  apply st_bind_Ok in Hr as ([n2 ch2] & c2 & [H2 _]%get_challenge_Ok & Hr).
  assert (c2 = calls') as <-. { by destruct (typ ch1), (typ ch2); try done; injection Hr. }
  split; [by apply (asks_app [_] [_] _ _ _ H1)|].
  destruct (typ ch1) eqn:E1, (typ ch2) eqn:E2; try done; by injection Hr as _ <- <-.
Qed.

Lemma get_directory_Ok a calls directory n calls' :
  get_directory a calls = (Ok (directory, n), calls') ->
  exists url, url_parse (acme_directory_url (config a)) = Some url /\
    asks [ToUrl Get (url_to_string url); ToUrl Head (url_to_string (new_nonce directory))] calls calls'.
Proof.
  unfold get_directory. intros (url & c0 & [Hu ->]%lift_Ok & Hr)%st_bind_Ok.
  destruct (url_parse _) as [u|] eqn:Hp; [|done]. injection Hu as ->. exists url. split; [done|].
  apply st_bind_Ok in Hr as (r1 & c1 & H1%asks_call & Hr). apply st_bind_Ok in Hr as (j & c2 & [_ ->]%lift_Ok & Hr).
  apply st_bind_Ok in Hr as (d & c3 & [_ ->]%acme_step_Ok & Hr). apply st_bind_Ok in Hr as (r2 & c4 & H2%asks_call & Hr).
  apply st_bind_Ok in Hr as (n1 & c5 & [_ ->]%lift_Ok & Hr). injection Hr as <- _ <-. by apply (asks_app [_] [_] _ _ _ H1).
Qed.

Lemma complete_dpop_Ok a calls a' calls' :
  complete_dpop_challenge a calls = (Ok a', calls') ->
  config a' = config a /\ sign_kp a' = sign_kp a /\ acme_kp a' = acme_kp a /\
  typ (oidc_challenge (data a')) = WireOidc01 /\
  exists url directory dpop, url_parse (acme_directory_url (config a)) = Some url /\ typ dpop = WireDpop01 /\
    asks [ToUrl Get (url_to_string url); ToUrl Head (url_to_string (new_nonce directory));
          to_post (new_account directory); to_post (new_order directory);
          to_post (authorizations (order (data a'))).1; to_post (authorizations (order (data a'))).2;
          ToBackend; ToBackend; to_post (chall_url dpop)] calls calls'.
Proof.
  unfold complete_dpop_challenge. intros ([directory n] & c0 & (url & Hu & H0)%get_directory_Ok & Hr)%st_bind_Ok.
  apply st_bind_Ok in Hr as (jws & c1 & [_ ->]%acme_step_Ok & Hr).
  apply st_bind_Ok in Hr as ([n1 json] & c1 & H1%acme_request_Ok & Hr).
  apply st_bind_Ok in Hr as (account & c2 & [_ ->]%acme_step_Ok & Hr).
  apply st_bind_Ok in Hr as (jws2 & c2 & [_ ->]%acme_step_Ok & Hr).
  apply st_bind_Ok in Hr as ([n2 json2] & c2 & H2%acme_request_Ok & Hr).
  apply st_bind_Ok in Hr as (o & c3 & [_ ->]%acme_step_Ok & Hr).
  apply st_bind_Ok in Hr as ([[n3 dpop] oidc] & c3 & (H3 & Hdpop & Hoidc)%get_challenges_Ok & Hr).
  apply st_bind_Ok in Hr as (bn & c4 & H4%asks_call & Hr). apply st_bind_Ok in Hr as (tok & c5 & [_ ->]%lift_Ok & Hr).
  apply st_bind_Ok in Hr as (access & c5 & H5%asks_call & Hr).
  apply st_bind_Ok in Hr as (jws6 & c6 & [_ ->]%acme_step_Ok & Hr).
  apply st_bind_Ok in Hr as ([n6 json6] & c6 & H6%acme_request_Ok & Hr).
  apply st_bind_Ok in Hr as (ch & c7 & [_ ->]%acme_step_Ok & Hr). injection Hr as <- <-. cbn.
  split_and!; [done..|]. exists url, directory, dpop. split_and!; [done..|].
  apply (asks_app [_; _] [_; _; _; _; _; _; _] _ _ _ H0), (asks_app [_] [_; _; _; _; _; _] _ _ _ H1),
    (asks_app [_] [_; _; _; _; _] _ _ _ H2), (asks_app [_; _] [_; _; _] _ _ _ H3), (asks_app [_] [_; _] _ _ _ H4),
    (asks_app [_] [_] _ _ _ H5), H6.
Qed.
Lemma complete_oidc_Ok env a calls kp certs calls' :
  complete_oidc_challenge env a calls = (Ok (kp, certs), calls') ->
  kp = sign_kp a /\ verify_cert_chain (config a) env (sign_kp a) certs = Ok () /\
  exists finalized,
    asks [ToIdp; to_post (chall_url (oidc_challenge (data a))); to_post (finalize (order (data a)));
          to_post (certificate finalized)] calls calls'.
Proof.
  unfold complete_oidc_challenge. intros (print & c0 & [_ ->]%lift_Ok & Hr)%st_bind_Ok.
  apply st_bind_Ok in Hr as (snapshot & c0 & [_ ->]%lift_Ok & Hr).
  apply st_bind_Ok in Hr as (id_token & c1 & H1%asks_call & Hr).
  apply st_bind_Ok in Hr as (jws2 & c2 & [_ ->]%acme_step_Ok & Hr).
  apply st_bind_Ok in Hr as ([n2 json2] & c2 & H2%acme_request_Ok & Hr).
  apply st_bind_Ok in Hr as (ch & c3 & [_ ->]%acme_step_Ok & Hr).
  apply st_bind_Ok in Hr as (jws3 & c3 & [_ ->]%acme_step_Ok & Hr).
  apply st_bind_Ok in Hr as ([n3 json3] & c3 & H3%acme_request_Ok & Hr).
  apply st_bind_Ok in Hr as (f & c4 & [_ ->]%acme_step_Ok & Hr).
  apply st_bind_Ok in Hr as (jws4 & c4 & [_ ->]%acme_step_Ok & Hr).
  apply st_bind_Ok in Hr as (raw & c4 & [_ ->]%lift_Ok & Hr).
  apply st_bind_Ok in Hr as (r4 & c4 & H4%asks_call & Hr).
  apply st_bind_Ok in Hr as ([] & c5 & [_ ->]%lift_Ok & Hr).
  apply st_bind_Ok in Hr as (cs & c5 & [_ ->]%acme_step_Ok & Hr).
  apply st_bind_Ok in Hr as ([] & c5 & [Hv ->]%lift_Ok & Hr). injection Hr as <- <- <-.
  split; [done|]. split; [by destruct (verify_cert_chain _ _ _ _) as [[]| |]|]. exists f.
  apply (asks_app [_] [_; _; _] _ _ _ H1), (asks_app [_] [_; _] _ _ _ H2), (asks_app [_] [_] _ _ _ H3), H4.
Qed.

(** C20: along every enrollment, also one that fails, each request posted to the ACME
    server is signed with the account's key over its address and the nonce of the
    answer before it.  So no nonce is used twice when the server issues none twice. *)
Theorem enrollment_nonces env a calls r1 calls1 :
  complete_dpop_challenge a calls = (r1, calls1) ->
  let used calls' := exists ns, posted (sign_alg (config a)) (acme_kp a) calls calls' ns /\ (fresh_nonces -> NoDup ns) in
  used calls1 /\
  (forall a' r2 calls2, r1 = Ok a' -> complete_oidc_challenge env a' calls1 = (r2, calls2) -> used calls2).
Proof.
  intros H1 used.
  assert (forall calls', chained (sign_alg (config a)) (acme_kp a) calls calls' -> used calls') as Hused.
  { intros calls' [ns Hp]. exists ns. split; [done|]. intros. by eapply posted_nodup. }
  destruct (complete_dpop_keeps calls a calls) as [Hc Hn]; [by exists []; constructor|done|].
  rewrite H1 in Hc, Hn. cbn in Hc, Hn. split; [by apply Hused|]. intros a' r2 calls2 -> H2.
  destruct (complete_dpop_Ok _ _ _ _ H1) as (Hcfg & _ & Hkp & _). apply Hused.
  pose proof (complete_oidc_keeps calls env a' calls1) as Hk. rewrite Hcfg, Hkp in Hk.
  destruct Hk as [Hc2 _]; [done|by apply Hn|]. by rewrite H2 in Hc2.
Qed.

(** A successful enrollment makes exactly the calls of the protocol, in its order:
    directory, first nonce, account, order, the two authorizations of the order, the
    backend's nonce and access token, the DPoP challenge, the identity provider, the
    OIDC challenge, finalization and certificate.  The DPoP challenge is completed first
    whichever authorization offers it. *)
Theorem enrollment_order env a calls a' calls1 kp certs calls2 :
  complete_dpop_challenge a calls = (Ok a', calls1) -> complete_oidc_challenge env a' calls1 = (Ok (kp, certs), calls2) ->
  kp = sign_kp a /\
  exists url directory o dpop oidc finalized,
    url_parse (acme_directory_url (config a)) = Some url /\ typ dpop = WireDpop01 /\ typ oidc = WireOidc01 /\
    asks [ToUrl Get (url_to_string url); ToUrl Head (url_to_string (new_nonce directory));
          to_post (new_account directory); to_post (new_order directory);
          to_post (authorizations o).1; to_post (authorizations o).2;
          ToBackend; ToBackend; to_post (chall_url dpop);
          ToIdp; to_post (chall_url oidc); to_post (finalize o); to_post (certificate finalized)] calls calls2.
Proof.
  intros (_ & Hkp & _ & Hoidc & url & directory & dpop & Hu & Hdpop & H1)%complete_dpop_Ok.
  intros (-> & _ & finalized & H2)%complete_oidc_Ok. split; [done|].
  exists url, directory, (order (data a')), dpop, (oidc_challenge (data a')), finalized. split_and!; [done..|].
  apply (asks_app [_; _; _; _; _; _; _; _; _] [_; _; _; _] _ _ _ H1 H2).
Qed.

(** ** The certificate *)

Lemma negb_decide_Ok {A} (Pr : Prop) `{!Decision Pr} (e : CertificateError) (m : res CertificateError A) a :
  (if negb (bool_decide Pr) then Err e else m) = Ok a -> Pr /\ m = Ok a.
Proof. by case_bool_decide. Qed.

Lemma verify_leaf_Ok cfg inner env kp c :
  verify_leaf_certificate cfg inner env kp c = Ok () ->
  validate_cert_internal clock_now (paths_for_target inner) (validate_path_rfc5280 inner) (check_revocation inner) c false
    = Ok () /\
  cert_key_algorithm c = (alg_oid (jws_alg_to_x509_identifier (sign_alg cfg)),
                          Some <$> alg_parameters (jws_alg_to_x509_identifier (sign_alg cfg))) /\
  key_pair_public_key (sign_alg cfg) kp = Some (cert_public_key c) /\
  exists identity, extract_identity env (hash_alg cfg) c = Ok identity /\
    try_from_qualified (identity_client_id identity) = Some (client_id cfg) /\
    identity_display_name identity = display_name cfg /\
    try_to_qualified (handle cfg) (domain cfg) = Some (identity_handle identity) /\
    identity_domain identity = domain cfg.
Proof.
  unfold verify_leaf_certificate. intros ([] & Hv & Hr)%bind_Ok. apply negb_decide_Ok in Hr as [Halg Hr].
  destruct (key_pair_public_key _ _) as [key|] eqn:Hkey; [|done]. apply negb_decide_Ok in Hr as [-> Hr].
  apply bind_Ok in Hr as (identity & Hid & Hr). apply bind_Ok in Hr as (cid & Hcid & Hr).
  apply negb_decide_Ok in Hr as [-> Hr]. apply negb_decide_Ok in Hr as [Hname Hr].
  destruct (try_to_qualified _ _) as [h|] eqn:Hh; [|done]. apply negb_decide_Ok in Hr as [Hhandle Hr].
  apply negb_decide_Ok in Hr as [Hdomain _]. split; [by destruct (validate_cert_internal _ _ _ _ _ _) as [[]| |]|].
  split_and!; [done..|]. exists identity. split_and!; try done; [|by rewrite Hhandle].
  by destruct (try_from_qualified _); [injection Hcid as ->|].
Qed.
Lemma any_path_Ok env paths r :
  any_path (validate_path_rfc5280 env) (check_revocation env) false false paths r = Ok () -> (paths = [] -> r <> Ok ()) ->
  exists path, path ∈ paths /\ check_cpr (validate_path_rfc5280 env false path).1 = Ok ().
Proof.
  revert r. induction paths as [|p paths IH]; intros r; cbn [any_path]; [intros -> Hr; by destruct (Hr eq_refl)|].
  unfold path_outcome. intros Hr _. destruct (validate_path_rfc5280 env false p) as [cpr p'] eqn:Ev.
  destruct (check_cpr cpr) as [[]| |] eqn:Ec.
  { exists p. rewrite Ev. split; [by left|done]. }
  all: destruct (IH _ Hr) as (q & Hq & Hc); [done|]; exists q; (split; [by right|done]).
Qed.

(** A certificate that validates has a path that does. *)
Lemma validate_cert_path env c :
  validate_cert_internal clock_now (paths_for_target env) (validate_path_rfc5280 env) (check_revocation env) c false = Ok () ->
  exists toi paths path, clock_now = Some toi /\ paths_for_target env c toi = Ok paths /\ path ∈ paths /\
    check_cpr (validate_path_rfc5280 env false path).1 = Ok ().
Proof.
  unfold validate_cert_internal. intros (toi & Ht & Hr)%bind_Ok. apply bind_Ok in Hr as (paths & Hp & Hr).
  exists toi, paths. destruct clock_now as [t|]; [injection Ht as ->|done].
  destruct (paths_for_target env c toi) as [ps| |]; [injection Hp as ->|done..].
  destruct paths as [|p paths]; [done|].
  destruct (any_path_Ok _ _ _ Hr) as (path & Hin & Hc); [discriminate|]. by exists path.
Qed.

Lemma san_names san :
  (forall cid, (foldl san_step (None, None) san).1 = Some cid ->
     exists uri c, UniformResourceIdentifier uri ∈ san /\ try_from_uri uri = Some c /\ cid = to_qualified c) /\
  (forall h, (foldl san_step (None, None) san).2 = Some h ->
     exists uri, UniformResourceIdentifier uri ∈ san /\ parse_handle uri = Some h).
Proof.
  induction san as [|name san [IHc IHh]] using rev_ind; [done|]. rewrite foldl_app. cbn.
  destruct (foldl san_step (None, None) san) as [c0 h0]. cbn in *.
  assert (forall cid, c0 = Some cid -> exists uri c,
    UniformResourceIdentifier uri ∈ san ++ [name] /\ try_from_uri uri = Some c /\ cid = to_qualified c) as Hc.
  { intros cid (uri & c & Hin & ?)%IHc. exists uri, c. split; [apply elem_of_app; by left|done]. }
  assert (forall h, h0 = Some h -> exists uri, UniformResourceIdentifier uri ∈ san ++ [name] /\ parse_handle uri = Some h) as Hh.
  { intros h (uri & Hin & ?)%IHh. exists uri. split; [apply elem_of_app; by left|done]. }
  assert (name ∈ san ++ [name]) as Hlast by (apply elem_of_app; right; by left).
  unfold san_step. destruct name as [|uri|]; cbn; [done| |done].
  destruct (try_from_uri uri) as [c|] eqn:Hu; cbn; [split; [|done]; intros cid [= <-]; by exists uri, c|].
  destruct (parse_handle uri) as [h|] eqn:Hp; cbn; [|done]. split; [done|]. intros h' [= <-]. by exists uri.
Qed.

Lemma subject_names l acc acc' :
  for_each subject_step l acc = Ok acc' ->
  (forall name, acc'.1 = Some name -> acc.1 = Some name \/ (COMMON_NAME, name) ∈ l) /\
  (forall name, acc'.2 = Some name -> acc.2 = Some name \/ (ORGANIZATION_NAME, name) ∈ l).
Proof.
  revert acc. induction l as [|[oid v] l IH]; intros acc; cbn; [by intros [= <-]; auto|].
  intros (acc1 & Hs & [Hn Hd]%IH)%bind_Ok. unfold subject_step in Hs. cbn in Hs.
  split; intros name Hname.
  - destruct (Hn name Hname) as [Hacc|?]; [|right; by right].
    destruct oid; try (injection Hs as <-; by left); destruct (utf8_valid v); try done; injection Hs as <-; cbn in Hacc; auto.
    injection Hacc as ->. right. by left.
  - destruct (Hd name Hname) as [Hacc|?]; [|right; by right].
    destruct oid; try (injection Hs as <-; by left); destruct (utf8_valid v); try done; injection Hs as <-; cbn in Hacc; auto.
    injection Hacc as ->. right. by left.
Qed.

(** What an extracted identity says of the certificate. *)
Lemma extract_identity_Ok env hash c identity :
  extract_identity env hash c = Ok identity ->
  (exists names, (exists extensions der, cert_extensions c = Some extensions /\
       (ID_CE_SUBJECT_ALT_NAME, der) ∈ extensions /\ san_from_der der = Some names) /\
     (exists uri cid, UniformResourceIdentifier uri ∈ names /\ try_from_uri uri = Some cid /\
        identity_client_id identity = to_qualified cid) /\
     (exists uri, UniformResourceIdentifier uri ∈ names /\ parse_handle uri = Some (identity_handle identity))) /\
  (COMMON_NAME, identity_display_name identity) ∈ mjoin (cert_subject c) /\
  (ORGANIZATION_NAME, identity_domain identity) ∈ mjoin (cert_subject c).
Proof.
  unfold extract_identity. intros ([cid h] & Hsan & Hr)%bind_Ok. apply bind_Ok in Hr as ([name dom] & Hsub & Hr).
  apply bind_Ok in Hr as (print & _ & [= <-]). cbn. split.
  - unfold try_extract_san in Hsan. apply bind_Ok in Hsan as (exts & He & Hsan). apply bind_Ok in Hsan as (san & Hs & Hsan).
    destruct (cert_extensions c) as [exts'|]; [injection He as ->|done].
    destruct (list_find _ exts) as [[i [oid der]]|] eqn:Hf; [|done].
    apply list_find_Some in Hf as (Hin%list_elem_of_lookup_2 & Hoid & _). cbn in Hoid. subst oid.
    destruct (san_from_der der) as [san'|] eqn:Hder; [injection Hs as ->|done]. exists san.
    destruct (san_names san) as [Hc Hh]. destruct (foldl san_step (None, None) san) as [c0 h0]; cbn in *.
    destruct c0 as [c0|]; [|done]. destruct h0 as [h0|]; [|done]. injection Hsan as <- <-.
    split; [by exists exts, der|]. split; [by apply Hc|by apply Hh].
  - unfold try_extract_subject in Hsub. apply bind_Ok in Hsub as ([n0 d0] & [Hn Hd]%subject_names & Hsub).
    cbn in *. destruct n0 as [n0|]; [|done]. destruct d0 as [d0|]; [|done]. injection Hsub as <- <-.
    destruct (Hn _ eq_refl) as [|?]; [done|]. by destruct (Hd _ eq_refl).
Qed.

(** C9: an enrollment only returns a certificate that it has checked: the first one of
    the chain has a path to a trust anchor of the environment through the others of
    the chain that validates, its public key is that of the signing key pair, with the
    configured algorithm, its subject alternative names have the configured client id
    and handle, its subject has the configured display name and domain, and it has a
    subject key identifier. *)
Theorem acquired_certificate_checked `{!AcquisitionLibLaws Q} env a calls kp certs calls' :
  complete_oidc_challenge env a calls = (Ok (kp, certs), calls') ->
  let cfg := config a in
  exists leaf chain inner toi path names,
    certs = leaf :: chain /\ rjt_init (get_trust_anchors env) chain [] (pki_database env) = Ok inner /\
    (exists paths, paths_for_target inner leaf toi = Ok paths /\ path ∈ paths) /\
    check_cpr (validate_path_rfc5280 inner false path).1 = Ok () /\
    key_pair_public_key (sign_alg cfg) kp = Some (cert_public_key leaf) /\
    (cert_key_algorithm leaf).1 = alg_oid (jws_alg_to_x509_identifier (sign_alg cfg)) /\
    (exists extensions der, cert_extensions leaf = Some extensions /\ (ID_CE_SUBJECT_ALT_NAME, der) ∈ extensions /\
       san_from_der der = Some names) /\
    (exists uri, UniformResourceIdentifier uri ∈ names /\ try_from_uri uri = Some (client_id cfg)) /\
    (exists uri h, UniformResourceIdentifier uri ∈ names /\ parse_handle uri = Some h /\
       try_to_qualified (handle cfg) (domain cfg) = Some h) /\
    (COMMON_NAME, display_name cfg) ∈ mjoin (cert_subject leaf) /\
    (ORGANIZATION_NAME, domain cfg) ∈ mjoin (cert_subject leaf) /\
    (exists ski, get_ski leaf = Ok (Some (Some ski))).
Proof.
  intros (-> & Hv & _)%complete_oidc_Ok. cbn zeta. unfold verify_cert_chain in Hv.
  destruct certs as [|leaf chain]; [done|]. apply bind_Ok in Hv as (inner & Hi & Hv).
  apply bind_Ok in Hv as ([] & Hleaf & Hv). apply bind_Ok in Hv as (ski & Hski & _).
  destruct (rjt_init _ _ _ _) as [inner'| |] eqn:Einit; [injection Hi as ->|done..].
  apply verify_leaf_Ok in Hleaf as (Hval & Halg & Hkey & identity & Hid & Hcid & Hname & Hhandle & Hdomain).
  apply validate_cert_path in Hval as (toi & paths & path & _ & Hpaths & Hin & Hcpr).
  apply extract_identity_Ok in Hid as ((names & Hnames & (uri & c & Hu & Hc & Heq) & (uri' & Hu' & Hh)) & Hcn & Hon).
  rewrite Heq, qualified_roundtrip in Hcid. injection Hcid as ->.
  exists leaf, chain, inner, toi, path, names. split_and!; try done.
  - by exists paths.
  - by rewrite Halg.
  - by exists uri.
  - by exists uri', (identity_handle identity).
  - by rewrite <- Hname.
  - by rewrite <- Hdomain.
  - unfold extract_ski_aki_from_cert in Hski. destruct (pdv_try_from leaf); [|done..].
    destruct (get_ski leaf) as [[[s|]|]| |] eqn:Hs; try done. by exists s.
Qed.

(** ** Resuming *)

(** Calls are only added, and those that ask to authenticate carry a snapshot of [a]. *)
Definition adds_snapshots (a : X509CredentialAcquisition DpopChallengeCompleted) (calls calls' : list HookCall) : Prop :=
  exists cs, calls' = calls ++ cs /\
    Forall (fun c => match c with Authenticate _ _ _ s => ser_acquisition a = Some s | _ => True end) cs.

#[local] Instance adds_snapshots_preorder a : PreOrder (adds_snapshots a).
Proof.
  split.
  - intros calls. exists []. by rewrite app_nil_r.
  - intros c1 c2 c3 (cs & -> & H1) (cs' & -> & H2). exists (cs ++ cs'). split; [by rewrite app_assoc|by apply Forall_app].
Qed.

Lemma call_adds {A} a (answer : list HookCall -> option A) c :
  match c with Authenticate _ _ _ s => ser_acquisition a = Some s | _ => True end ->
  st_frame (adds_snapshots a) (call answer c).
Proof. intros Hc calls. exists [c]. by repeat constructor. Qed.

Lemma acme_request_adds a url jws : st_frame (adds_snapshots a) (acme_request url jws).
Proof. unfold acme_request, http_request, get_header, response_json. solve_keeps. by apply call_adds. Qed.

Lemma complete_oidc_adds env a : st_frame (adds_snapshots a) (complete_oidc_challenge env a).
Proof.
  unfold complete_oidc_challenge, acme_step. apply st_frame_bind; [apply _|solve_keeps|]. intros print calls.
  unfold mbind at 1, st_bind at 1, st_lift at 1. destruct (ser_acquisition a) as [s|] eqn:Hs; [|cbn; reflexivity].
  cbn [ok_or]. revert calls.
  match goal with |- forall calls, adds_snapshots a calls (snd (?m calls)) => change (st_frame (adds_snapshots a) m) end.
  unfold http_request. solve_keeps; (by apply call_adds) || apply acme_request_adds.
Qed.

(** The snapshot given to the application when it is asked to authenticate restores
    the acquisition exactly, so that the enrollment can be resumed from it, whatever
    became of the call. *)
Theorem snapshot_resumes `{!AcquisitionLibLaws Q} env a calls r calls' :
  complete_oidc_challenge env a calls = (r, calls') ->
  exists cs, calls' = calls ++ cs /\
    forall idp key_auth aud snapshot, Authenticate idp key_auth aud snapshot ∈ cs -> deserialize snapshot = Ok a.
Proof.
  intros Hrun. destruct (complete_oidc_adds env a calls) as (cs & Heq & Hcs). rewrite Hrun in Heq. exists cs.
  split; [done|]. intros idp key_auth aud snapshot Hin. rewrite Forall_forall in Hcs. specialize (Hcs _ Hin). cbn in Hcs.
  unfold deserialize. by rewrite (acquisition_roundtrip _ _ Hcs).
Qed.
End enrollment.

(** ** A run of the model *)

Definition demo_pki : PkiEnvironment := MkPki (L := toy_x509) [[bstr "root"]] [] [] demo_open.

Definition demo_dpop : res AcquisitionError (X509CredentialAcquisition (T := toy_acme_types) DpopChallengeCompleted) * list HookCall :=
  complete_dpop_challenge (K := toy_acme) toy_initialized [].
Definition demo_calls : list HookCall := snd demo_dpop.
Definition demo_oidc : res AcquisitionError (bytes * list bytes) * list HookCall :=
  complete_oidc_challenge (K := toy_acme) demo_pki toy_completed demo_calls.

Lemma demo_dpop_run : complete_dpop_challenge (K := toy_acme) toy_initialized [] = (Ok toy_completed, demo_calls).
Proof. unfold demo_calls, demo_dpop. rewrite (surjective_pairing (complete_dpop_challenge _ _)) at 1. by f_equal. Qed.

Lemma demo_oidc_run :
  complete_oidc_challenge (K := toy_acme) demo_pki toy_completed demo_calls = (Ok (bstr "sign", [bstr "sign"]), snd demo_oidc).
Proof. unfold demo_oidc. rewrite (surjective_pairing (complete_oidc_challenge _ _ _)) at 1. by f_equal. Qed.

Lemma demo_fresh : fresh_nonces.
Proof.
  intros calls cs r r' n. cbn. destruct (last calls) as [[]|]; try done. destruct (last (calls ++ cs)) as [[]|]; try done.
  intros [= <-] [= <-]. unfold first_header. cbn. intros [= <-] [= Hn]. apply (f_equal length) in Hn.
  rewrite !length_replicate, length_app in Hn. destruct cs; [done|]. cbn in Hn. lia.
Qed.

Lemma enrollment_nonces_witness :
  exists ns, posted (K := toy_acme) Ed25519 (bstr "acme") [] (snd demo_oidc) ns /\ NoDup ns.
Proof.
  destruct (proj2 (enrollment_nonces (K := toy_acme) demo_pki toy_initialized [] _ _ demo_dpop_run) toy_completed _ _
    eq_refl demo_oidc_run) as (ns & Hp & Hnd).
  exists ns. split; [exact Hp|apply Hnd, demo_fresh].
Defined.

(** The authorization of the user comes first. *)
Lemma enrollment_order_witness :
  asks
    [ToUrl Get (bstr "directory"); ToUrl Head (bstr "nonce"); ToUrl Post (bstr "new-account"); ToUrl Post (bstr "new-order");
     ToUrl Post (bstr "authz-user"); ToUrl Post (bstr "authz-device"); ToBackend; ToBackend; ToUrl Post (bstr "dpop");
     ToIdp; ToUrl Post (bstr "oidc"); ToUrl Post (bstr "finalize"); ToUrl Post (bstr "certificate")] [] (snd demo_oidc).
Proof.
  destruct (enrollment_order (K := toy_acme) demo_pki toy_initialized [] toy_completed demo_calls _ _ _ demo_dpop_run demo_oidc_run)
    as (_ & url & directory & o & dpop & oidc & f & _ & _ & _ & cs & Heq & Hcs).
  exists cs. split; [exact Heq|]. clear Hcs. vm_compute in Heq. subst cs. vm_compute. reflexivity.
Defined.

Lemma acquired_certificate_checked_witness :
  exists leaf, [bstr "sign"] = [leaf] /\ (COMMON_NAME, bstr "name") ∈ mjoin (cert_subject (AcquisitionLib := toy_acquisition) leaf).
Proof.
  destruct (acquired_certificate_checked (K := toy_acme) demo_pki toy_completed demo_calls _ _ _ demo_oidc_run)
    as (leaf & chain & inner & toi & path & names & Hc & _ & _ & _ & _ & _ & _ & _ & _ & Hn & _).
  exists leaf. injection Hc as <- <-. split; [reflexivity|exact Hn].
Defined.

Lemma snapshot_resumes_witness :
  exists idp key_auth aud snapshot, Authenticate idp key_auth aud snapshot ∈ snd demo_oidc /\
    deserialize (Q := toy_acquisition) snapshot = Ok toy_completed.
Proof.
  destruct (snapshot_resumes (K := toy_acme) demo_pki toy_completed demo_calls _ _ demo_oidc_run) as (cs & Heq & Hs).
  exists (bstr "target"), (bstr "0123456789abcdef" ++ [DOT] ++ bstr "jwk"), (bstr "oidc"), (bstr "snapshot").
  assert (Authenticate (bstr "target") (bstr "0123456789abcdef" ++ [DOT] ++ bstr "jwk") (bstr "oidc") (bstr "snapshot") ∈ cs) as Hin.
  { vm_compute in Heq. injection Heq as <-. vm_compute. left. }
  split; [rewrite Heq; apply elem_of_app; by right|by eapply Hs].
Defined.

(** The example's server reports the finalized order as invalid. *)
Lemma demo_finalized_invalid :
  exists f, finalize_response (K := toy_acme) (bstr "finalize") = Ok f /\
    finalize_verify (K := toy_acme) 0 f = Err (FinalizeError OrderInvalid).
Proof. eexists. split; [reflexivity|]. vm_compute. reflexivity. Qed.
