(* ===== verification/CryptoProvider.v ===== *)
(** * The crypto provider of OpenMLS

    [crypto/src/mls_provider]: which algorithms are offered, how keys and nonces are
    handed to the cryptographic libraries, the random number generator and its seed,
    and the authentication service.  The primitives are libraries.  The lock of the
    generator is only poisoned by a panic, so its error is left out. *)

From S2P Require Import Prelude Keys CryptoErrors X509Check PkiEnv.
From Stdlib Require Import Lia ZArith.

(** ** Types of OpenMLS *)

Inductive SignatureScheme : Type :=
  | ECDSA_SECP256R1_SHA256 | ECDSA_SECP384R1_SHA384 | ECDSA_SECP521R1_SHA512 | ED25519 | ED448.
Inductive HashType : Type := Sha2_256 | Sha2_384 | Sha2_512.
Inductive AeadType : Type := Aes128Gcm | Aes256Gcm | ChaCha20Poly1305.
Inductive HpkeKemType : Type := DhKemP256 | DhKemP384 | DhKemP521 | DhKem25519 | OtherKem (n : nat).
Inductive HpkeKdfType : Type := HkdfSha256 | HkdfSha384 | HkdfSha512.
Inductive HpkeAeadType : Type := AesGcm128 | AesGcm256 | HpkeChaCha20Poly1305 | HpkeExport.

Record HpkeConfig : Type := MkHpkeConfig { kem : HpkeKemType; kdf : HpkeKdfType; aead : HpkeAeadType }.

(** The algorithms of the [hpke] crate, the type arguments of its functions. *)
Inductive Kem : Type := X25519HkdfSha256 | DhP256HkdfSha256 | DhP384HkdfSha384 | DhP521HkdfSha512.
Inductive Kdf : Type := KdfHkdfSha256 | KdfHkdfSha384 | KdfHkdfSha512.
Inductive Aead : Type := AeadAesGcm128 | AeadAesGcm256 | AeadChaCha20Poly1305.

Record Algorithms : Type := MkAlgorithms { alg_aead : Aead; alg_kdf : Kdf; alg_kem : Kem }.

Inductive Ciphersuite : Type :=
  | MLS_128_DHKEMX25519_AES128GCM_SHA256_Ed25519
  | MLS_128_DHKEMX25519_CHACHA20POLY1305_SHA256_Ed25519
  | MLS_128_DHKEMP256_AES128GCM_SHA256_P256
  | MLS_256_DHKEMP384_AES256GCM_SHA384_P384
  | MLS_256_DHKEMP521_AES256GCM_SHA512_P521
  | OtherCiphersuite (n : nat).

Inductive CryptoError : Type :=
  | UnsupportedCiphersuite
  | UnsupportedSignatureScheme
  | UnsupportedKem
  | HkdfOutputLengthInvalid
  | CryptoLibraryError
  | AeadDecryptionError
  | InvalidKey
  | InvalidSignature
  | HpkeDecryptionError
  | HpkeEncryptionError
  | SenderSetupError
  | ReceiverSetupError
  | ExporterError
  | InsufficientRandomness.

(** [mls_provider::Error]. *)
Inductive ProviderError : Type :=
  | EntropySeedLength (actual expected : nat)
  | UnsufficientEntropy.

Record HpkeCiphertext : Type := MkHpkeCiphertext { kem_output : bytes; hpke_ciphertext : bytes }.
Record HpkeKeyPair : Type := MkHpkeKeyPair { hpke_private : bytes; hpke_public : bytes }.

(** The algorithms of a cipher suite, as OpenMLS defines them. *)
Class CiphersuiteLib : Type := {
  signature_algorithm : Ciphersuite -> SignatureScheme;
  hash_algorithm : Ciphersuite -> HashType;
  aead_algorithm : Ciphersuite -> AeadType;
  hpke_config : Ciphersuite -> HpkeConfig;
}.

(** The cipher suites of RFC 9420 offered here. *)
Class CiphersuiteLaws (S : CiphersuiteLib) : Prop := {
  suite_1 : let s := MLS_128_DHKEMX25519_AES128GCM_SHA256_Ed25519 in
    signature_algorithm s = ED25519 /\ hpke_config s = MkHpkeConfig DhKem25519 HkdfSha256 AesGcm128;
  suite_2 : let s := MLS_128_DHKEMP256_AES128GCM_SHA256_P256 in
    signature_algorithm s = ECDSA_SECP256R1_SHA256 /\ hpke_config s = MkHpkeConfig DhKemP256 HkdfSha256 AesGcm128;
  suite_3 : let s := MLS_128_DHKEMX25519_CHACHA20POLY1305_SHA256_Ed25519 in
    signature_algorithm s = ED25519 /\ hpke_config s = MkHpkeConfig DhKem25519 HkdfSha256 HpkeChaCha20Poly1305;
  suite_5 : let s := MLS_256_DHKEMP521_AES256GCM_SHA512_P521 in
    signature_algorithm s = ECDSA_SECP521R1_SHA512 /\ hpke_config s = MkHpkeConfig DhKemP521 HkdfSha512 AesGcm256;
  suite_7 : let s := MLS_256_DHKEMP384_AES256GCM_SHA384_P384 in
    signature_algorithm s = ECDSA_SECP384R1_SHA384 /\ hpke_config s = MkHpkeConfig DhKemP384 HkdfSha384 AesGcm256;
}.

(** ** The cryptographic libraries *)

Class CryptoLib : Type := {
  (** The generator; the bytes drawn from it. *)
  Rng : Type;
  from_seed : bytes -> Rng;
  try_fill_bytes : nat -> Rng -> option bytes * Rng;
  (** The sizes of field elements of the curves and of Ed25519 public keys. *)
  public_key_size : SignatureScheme -> nat;
  hkdf_extract_with : HashType -> bytes -> bytes -> bytes;
  Hkdf : Type;
  hkdf_from_prk : HashType -> bytes -> option Hkdf;
  hkdf_expand_with : Hkdf -> bytes -> nat -> option bytes;
  digest : HashType -> bytes -> bytes;
  (** Authenticated encryption; converting a nonce panics unless it has the right size. *)
  AeadKey : Type;
  nonce_size : AeadType -> nat;
  aead_new : AeadType -> bytes -> option AeadKey;
  aead_seal : AeadKey -> bytes -> bytes -> bytes -> option bytes;
  aead_open : AeadKey -> bytes -> bytes -> bytes -> option bytes;
  (** Signatures: the key pairs are (private, public). *)
  VerifyingKey : Type;
  Signature : Type;
  signing_key_random : SignatureScheme -> Rng -> (bytes * bytes) * Rng;
  verifying_key_try_from : SignatureScheme -> bytes -> option VerifyingKey;
  signature_try_from : SignatureScheme -> bytes -> option Signature;
  verify : VerifyingKey -> bytes -> Signature -> bool;
  (** HPKE. *)
  KemPrivate : Type;
  KemPublic : Type;
  Encapped : Type;
  Context : Type;
  private_key_size : Kem -> nat;
  private_key_from_bytes : Kem -> bytes -> option KemPrivate;
  public_key_from_bytes : Kem -> bytes -> option KemPublic;
  encapped_from_bytes : Kem -> bytes -> option Encapped;
  single_shot_seal : Algorithms -> KemPublic -> bytes -> bytes -> bytes -> Rng -> option (bytes * bytes) * Rng;
  single_shot_open : Algorithms -> KemPrivate -> Encapped -> bytes -> bytes -> bytes -> option bytes;
  setup_sender : Algorithms -> KemPublic -> bytes -> Rng -> option (bytes * Context) * Rng;
  setup_receiver : Algorithms -> KemPrivate -> Encapped -> bytes -> option Context;
  context_export : Context -> bytes -> nat -> option bytes;
  derive_keypair : Kem -> bytes -> bytes * bytes;
}.

(** What the code relies on: private keys have one size, what is sealed for the public
    key of a derived pair opens with its private key, and both ends of a context export
    the same. *)
Class CryptoLibLaws (C : CryptoLib) : Prop := {
  private_key_length k sk key : private_key_from_bytes k sk = Some key -> length sk = private_key_size k;
  derived_length k ikm : length (derive_keypair k ikm).1 = private_key_size k;
  derived_private k ikm : is_Some (private_key_from_bytes k (derive_keypair k ikm).1);
  derived_public k ikm : is_Some (public_key_from_bytes k (derive_keypair k ikm).2);
  seal_open cfg ikm sk pk info msg aad rng enc ct rng' :
    private_key_from_bytes (alg_kem cfg) (derive_keypair (alg_kem cfg) ikm).1 = Some sk ->
    public_key_from_bytes (alg_kem cfg) (derive_keypair (alg_kem cfg) ikm).2 = Some pk ->
    single_shot_seal cfg pk info msg aad rng = (Some (enc, ct), rng') ->
    exists e, encapped_from_bytes (alg_kem cfg) enc = Some e /\ single_shot_open cfg sk e info ct aad = Some msg;
  sender_receiver cfg ikm sk pk info rng enc ctx rng' :
    private_key_from_bytes (alg_kem cfg) (derive_keypair (alg_kem cfg) ikm).1 = Some sk ->
    public_key_from_bytes (alg_kem cfg) (derive_keypair (alg_kem cfg) ikm).2 = Some pk ->
    setup_sender cfg pk info rng = (Some (enc, ctx), rng') ->
    exists e ctx', encapped_from_bytes (alg_kem cfg) enc = Some e /\ setup_receiver cfg sk e info = Some ctx' /\
      forall label n, context_export ctx' label n = context_export ctx label n;
}.

(** ** Seeds *)

Definition EXPECTED_LEN : nat := 32.

(** [EntropySeed::try_from_slice]; [copy_from_slice] panics on slices of another length. *)
Definition copy_from_slice (n : nat) (src : bytes) : option bytes := if decide (length src = n) then Some src else None.

Definition entropy_seed_try_from_slice (data : bytes) : res ProviderError bytes :=
  if decide (length data < EXPECTED_LEN) then Err (EntropySeedLength (length data) EXPECTED_LEN) else
  match copy_from_slice EXPECTED_LEN (take EXPECTED_LEN data) with Some inner => Ok inner | None => Panic end.

(** [EntropySeed::default]. *)
Definition default_seed : bytes := replicate EXPECTED_LEN x00.

Section provider.
Context `{C : CryptoLib}.

Abbreviation crypto A := (st Rng CryptoError A).

(** ** [RustCrypto] *)

(** [RustCrypto::new_with_seed] and [reseed]. *)
Definition new_with_seed (seed : bytes) : Rng := from_seed seed.

Definition reseed (seed : option bytes) : st Rng ProviderError () := st_of (fun _ =>
  (Ok (), from_seed (default default_seed seed))).

(** [random_array] and [random_vec]. *)
Definition random_array (n : nat) : st Rng ProviderError bytes := st_of (fun rng =>
  let '(out, rng) := try_fill_bytes n rng in (ok_or out UnsufficientEntropy, rng)).

Definition random_vec (len : nat) : st Rng ProviderError bytes := st_of (fun rng =>
  let '(out, rng) := try_fill_bytes len rng in (ok_or out UnsufficientEntropy, rng)).

(** [signature_public_key_len]. *)
Definition signature_public_key_len (signature_scheme : SignatureScheme) : nat :=
  match signature_scheme with
  | ED448 => 57
  | scheme => public_key_size scheme
  end.

(** [supports] and [supported_ciphersuites]. *)
Definition supports (cipher_suite : Ciphersuite) : res CryptoError () :=
  match cipher_suite with
  | MLS_128_DHKEMX25519_AES128GCM_SHA256_Ed25519
  | MLS_128_DHKEMX25519_CHACHA20POLY1305_SHA256_Ed25519
  | MLS_128_DHKEMP256_AES128GCM_SHA256_P256
  | MLS_256_DHKEMP384_AES256GCM_SHA384_P384
  | MLS_256_DHKEMP521_AES256GCM_SHA512_P521 => Ok ()
  | _ => Err UnsupportedCiphersuite
  end.

Definition supported_ciphersuites : list Ciphersuite :=
  [MLS_128_DHKEMX25519_AES128GCM_SHA256_Ed25519; MLS_128_DHKEMX25519_CHACHA20POLY1305_SHA256_Ed25519;
   MLS_128_DHKEMP256_AES128GCM_SHA256_P256; MLS_256_DHKEMP384_AES256GCM_SHA384_P384;
   MLS_256_DHKEMP521_AES256GCM_SHA512_P521].

(** [hkdf_extract], [hkdf_expand] and [hash]. *)
Definition hkdf_extract (hash_type : HashType) (salt ikm : bytes) : res CryptoError bytes :=
  Ok (hkdf_extract_with hash_type salt ikm).

Definition hkdf_expand (hash_type : HashType) (prk info : bytes) (okm_len : nat) : res CryptoError bytes :=
  hkdf ← ok_or (hkdf_from_prk hash_type prk) HkdfOutputLengthInvalid;
  ok_or (hkdf_expand_with hkdf info okm_len) HkdfOutputLengthInvalid.

Definition hash (hash_type : HashType) (data : bytes) : res CryptoError bytes := Ok (digest hash_type data).

(** [aead_encrypt] and [aead_decrypt]. *)
Definition aead_encrypt (alg : AeadType) (key data nonce aad : bytes) : res CryptoError bytes :=
  k ← ok_or (aead_new alg key) CryptoLibraryError;
  if decide (length nonce = nonce_size alg) then ok_or (aead_seal k nonce data aad) CryptoLibraryError else Panic.

Definition aead_decrypt (alg : AeadType) (key ct_tag nonce aad : bytes) : res CryptoError bytes :=
  k ← ok_or (aead_new alg key) CryptoLibraryError;
  if decide (length nonce = nonce_size alg) then ok_or (aead_open k nonce ct_tag aad) AeadDecryptionError else Panic.

(** [signature_key_gen], [validate_signature_key] and [verify_signature]. *)
Definition signature_key_gen (alg : SignatureScheme) : crypto (bytes * bytes) :=
  match alg with
  | ED448 => st_throw UnsupportedSignatureScheme
  | _ => st_of (fun rng => let '(keys, rng) := signing_key_random alg rng in (Ok keys, rng))
  end.

Definition validate_signature_key (alg : SignatureScheme) (key : bytes) : res CryptoError () :=
  match alg with
  | ED448 => Err UnsupportedSignatureScheme
  | _ => _ ← ok_or (verifying_key_try_from alg key) InvalidKey; Ok ()
  end.

Definition verify_signature (alg : SignatureScheme) (data pk signature : bytes) : res CryptoError () :=
  match alg with
  | ED448 => Err UnsupportedSignatureScheme
  | _ =>
      k ← ok_or (verifying_key_try_from alg pk) CryptoLibraryError;
      sig ← ok_or (signature_try_from alg signature) InvalidSignature;
      if verify k data sig then Ok () else Err InvalidSignature
  end.

(** [sign] is [unimplemented!]. *)
Definition sign (alg : SignatureScheme) (data key : bytes) : res CryptoError bytes := Panic.

(** ** HPKE *)

(** The configurations the HPKE functions tell apart, and the algorithms each stands
    for; every function has the same five arms, and refuses what is not one of them. *)
Definition hpke_algorithms (config : HpkeConfig) : option Algorithms :=
  match config with
  | MkHpkeConfig DhKem25519 HkdfSha256 AesGcm128 => Some (MkAlgorithms AeadAesGcm128 KdfHkdfSha256 X25519HkdfSha256)
  | MkHpkeConfig DhKem25519 HkdfSha256 HpkeChaCha20Poly1305 =>
      Some (MkAlgorithms AeadChaCha20Poly1305 KdfHkdfSha256 X25519HkdfSha256)
  | MkHpkeConfig DhKemP256 HkdfSha256 AesGcm128 => Some (MkAlgorithms AeadAesGcm128 KdfHkdfSha256 DhP256HkdfSha256)
  | MkHpkeConfig DhKemP384 HkdfSha384 AesGcm256 => Some (MkAlgorithms AeadAesGcm256 KdfHkdfSha384 DhP384HkdfSha384)
  | MkHpkeConfig DhKemP521 HkdfSha512 AesGcm256 => Some (MkAlgorithms AeadAesGcm256 KdfHkdfSha512 DhP521HkdfSha512)
  | _ => None
  end.

(** [hpke_core::hpke_seal] and [hpke_seal]. *)
Definition hpke_core_seal (algs : Algorithms) (pk info aad plaintext : bytes) : crypto HpkeCiphertext :=
  key ← st_lift (fun _ => ok_or (public_key_from_bytes (alg_kem algs) pk) HpkeEncryptionError);
  '(encapped, ciphertext) ← st_of (fun rng =>
    let '(o, rng) := single_shot_seal algs key info plaintext aad rng in (ok_or o HpkeEncryptionError, rng));
  mret (MkHpkeCiphertext encapped ciphertext).

Definition hpke_seal (config : HpkeConfig) (pk_r info aad ptxt : bytes) : crypto HpkeCiphertext :=
  match hpke_algorithms config with
  | Some algs => hpke_core_seal algs pk_r info aad ptxt
  | None => st_throw UnsupportedKem
  end.

(** Private keys are padded with zeros to the size of the KEM. *)
Definition normalize (sk_len : nat) (private_key : bytes) : bytes :=
  (if decide (length private_key < sk_len) then replicate (sk_len - length private_key) x00 else []) ++ private_key.

(** [hpke_core::hpke_open] and [hpke_open]. *)
Definition hpke_core_open (algs : Algorithms) (private_key kem_output info aad ciphertext : bytes) : res CryptoError bytes :=
  encapped_key ← ok_or (encapped_from_bytes (alg_kem algs) kem_output) HpkeDecryptionError;
  key ← ok_or (private_key_from_bytes (alg_kem algs) (normalize (private_key_size (alg_kem algs)) private_key))
          HpkeDecryptionError;
  ok_or (single_shot_open algs key encapped_key info ciphertext aad) HpkeDecryptionError.

Definition hpke_open (config : HpkeConfig) (input : HpkeCiphertext) (sk_r info aad : bytes) : res CryptoError bytes :=
  match hpke_algorithms config with
  | Some algs => hpke_core_open algs sk_r (kem_output input) info aad (hpke_ciphertext input)
  | None => Err UnsupportedKem
  end.

(** The exporter fills a buffer of the length asked for, so the [debug_assert_eq] on that
    length holds by the type of [context_export].

    [hpke_core::hpke_export_tx] and [hpke_setup_sender_and_export]. *)
Definition hpke_export_tx (algs : Algorithms) (tx_public_key info export_info : bytes) (export_len : nat) :
    crypto (bytes * bytes) :=
  key ← st_lift (fun _ => ok_or (public_key_from_bytes (alg_kem algs) tx_public_key) SenderSetupError);
  '(kem_output, ctx) ← st_of (fun rng => let '(o, rng) := setup_sender algs key info rng in (ok_or o SenderSetupError, rng));
  export ← st_lift (fun _ => ok_or (context_export ctx export_info export_len) ExporterError);
  mret (kem_output, export).

Definition hpke_setup_sender_and_export (config : HpkeConfig) (pk_r info exporter_context : bytes)
    (exporter_length : nat) : crypto (bytes * bytes) :=
  match hpke_algorithms config with
  | Some algs => hpke_export_tx algs pk_r info exporter_context exporter_length
  | None => st_throw UnsupportedKem
  end.

(** [hpke_core::hpke_export_rx] and [hpke_setup_receiver_and_export]. *)
Definition hpke_export_rx (algs : Algorithms) (encapped_key rx_private_key info export_info : bytes) (export_len : nat) :
    res CryptoError bytes :=
  key ← ok_or (private_key_from_bytes (alg_kem algs) rx_private_key) ReceiverSetupError;
  encapped_key ← ok_or (encapped_from_bytes (alg_kem algs) encapped_key) ReceiverSetupError;
  ctx ← ok_or (setup_receiver algs key encapped_key info) ReceiverSetupError;
  ok_or (context_export ctx export_info export_len) ExporterError.

Definition hpke_setup_receiver_and_export (config : HpkeConfig) (enc sk_r info exporter_context : bytes)
    (exporter_length : nat) : res CryptoError bytes :=
  match hpke_algorithms config with
  | Some algs => hpke_export_rx algs enc sk_r info exporter_context exporter_length
  | None => Err UnsupportedKem
  end.

(** [hpke_core::hpke_derive_keypair] and [derive_hpke_keypair]. *)
Definition hpke_derive_keypair (k : Kem) (ikm : bytes) : res CryptoError HpkeKeyPair :=
  let '(private, public) := derive_keypair k ikm in Ok (MkHpkeKeyPair private public).

Definition derive_hpke_keypair (config : HpkeConfig) (ikm : bytes) : res CryptoError HpkeKeyPair :=
  match kem config with
  | DhKemP256 => hpke_derive_keypair DhP256HkdfSha256 ikm
  | DhKemP384 => hpke_derive_keypair DhP384HkdfSha384 ikm
  | DhKemP521 => hpke_derive_keypair DhP521HkdfSha512 ikm
  | DhKem25519 => hpke_derive_keypair X25519HkdfSha256 ikm
  | OtherKem _ => Err UnsupportedKem
  end.

End provider.

Section authentication.
Context `{L : X509Lib, R : !PathLib L}.

(** ** The authentication service *)

(** [CredentialRef]. *)
Inductive CredentialRef : Type := BasicRef (identity : bytes) | X509Ref (certificates : list bytes).

(** [AuthenticationService], [CryptoProvider::set_pki_environment] and [is_pki_env_setup]. *)
Record AuthenticationService : Type := MkAuth { auth_pki_env : option PkiEnvironment }.

Definition set_pki_environment (pki_env : option PkiEnvironment) (_ : AuthenticationService) : AuthenticationService :=
  MkAuth pki_env.

Definition is_pki_env_setup (service : AuthenticationService) : bool := bool_decide (is_Some (auth_pki_env service)).

(** [AuthenticationService::validate_credential], at the time [now]. *)
Definition auth_validate_credential (now : option Z) (service : AuthenticationService) (credential : CredentialRef) :
    CredentialAuthenticationStatus :=
  match credential with
  | BasicRef _ => AuthValid
  | X509Ref certificates =>
      match auth_pki_env service with
      | None => AuthUnknown
      | Some env =>
          validate_credential now (paths_for_target env) (validate_path_rfc5280 env) (check_revocation env) certificates
      end
  end.
End authentication.

(** ** Concrete libraries

    The suites of RFC 9420, and a library whose keys are two bytes, the first a zero,
    whose sealed messages carry the key before the message, and whose generator repeats
    its seed. *)

#[export] Instance rfc_suites : CiphersuiteLib := {|
  signature_algorithm s :=
    match s with
    | MLS_128_DHKEMP256_AES128GCM_SHA256_P256 => ECDSA_SECP256R1_SHA256
    | MLS_256_DHKEMP384_AES256GCM_SHA384_P384 => ECDSA_SECP384R1_SHA384
    | MLS_256_DHKEMP521_AES256GCM_SHA512_P521 => ECDSA_SECP521R1_SHA512
    | OtherCiphersuite _ => ED448
    | _ => ED25519
    end;
  hash_algorithm s :=
    match s with
    | MLS_256_DHKEMP384_AES256GCM_SHA384_P384 => Sha2_384
    | MLS_256_DHKEMP521_AES256GCM_SHA512_P521 | OtherCiphersuite _ => Sha2_512
    | _ => Sha2_256
    end;
  aead_algorithm s :=
    match s with
    | MLS_128_DHKEMX25519_CHACHA20POLY1305_SHA256_Ed25519 => ChaCha20Poly1305
    | MLS_256_DHKEMP384_AES256GCM_SHA384_P384 | MLS_256_DHKEMP521_AES256GCM_SHA512_P521 | OtherCiphersuite _ => Aes256Gcm
    | _ => Aes128Gcm
    end;
  hpke_config s :=
    match s with
    | MLS_128_DHKEMX25519_AES128GCM_SHA256_Ed25519 => MkHpkeConfig DhKem25519 HkdfSha256 AesGcm128
    | MLS_128_DHKEMX25519_CHACHA20POLY1305_SHA256_Ed25519 => MkHpkeConfig DhKem25519 HkdfSha256 HpkeChaCha20Poly1305
    | MLS_128_DHKEMP256_AES128GCM_SHA256_P256 => MkHpkeConfig DhKemP256 HkdfSha256 AesGcm128
    | MLS_256_DHKEMP384_AES256GCM_SHA384_P384 => MkHpkeConfig DhKemP384 HkdfSha384 AesGcm256
    | MLS_256_DHKEMP521_AES256GCM_SHA512_P521 => MkHpkeConfig DhKemP521 HkdfSha512 AesGcm256
    | OtherCiphersuite n => MkHpkeConfig (OtherKem n) HkdfSha512 AesGcm256
    end;
|}.

#[export] Instance rfc_suites_laws : CiphersuiteLaws rfc_suites.
Proof. by split. Qed.

Definition toy_key (ikm : bytes) : bytes := [x00; default x01 (head ikm)].

Definition toy_sized (sk : bytes) : option bytes := if decide (length sk = 2) then Some sk else None.

#[export] Instance toy_crypto : CryptoLib := {|
  Rng := bytes * nat;
  from_seed seed := (seed, 0);
  try_fill_bytes n rng := (Some (take n (rng.1 ++ replicate n x00)), (rng.1, S rng.2));
  public_key_size _ := 2;
  hkdf_extract_with _ salt ikm := salt ++ ikm;
  Hkdf := bytes;
  hkdf_from_prk _ prk := Some prk;
  hkdf_expand_with prk info n := Some (take n (prk ++ info ++ replicate n x00));
  digest _ data := data;
  AeadKey := bytes;
  nonce_size _ := 12;
  aead_new _ key := Some key;
  aead_seal key _ msg _ := Some (key ++ msg);
  aead_open key _ ct _ := if decide (take (length key) ct = key) then Some (drop (length key) ct) else None;
  VerifyingKey := bytes;
  Signature := bytes;
  signing_key_random _ rng := ((toy_key rng.1, toy_key rng.1), (rng.1, S rng.2));
  verifying_key_try_from _ := toy_sized;
  signature_try_from _ sig := Some sig;
  verify key data sig := bool_decide (sig = key ++ data);
  KemPrivate := bytes;
  KemPublic := bytes;
  Encapped := bytes;
  Context := bytes;
  private_key_size _ := 2;
  private_key_from_bytes _ := toy_sized;
  public_key_from_bytes _ := toy_sized;
  encapped_from_bytes _ enc := Some enc;
  single_shot_seal _ pk _ msg _ rng := (Some (pk, pk ++ msg), (rng.1, S rng.2));
  single_shot_open _ sk _ _ ct _ := if decide (take 2 ct = sk) then Some (drop 2 ct) else None;
  setup_sender _ pk _ rng := (Some (pk, pk), (rng.1, S rng.2));
  setup_receiver _ sk _ _ := Some sk;
  context_export ctx label n := Some (take n (ctx ++ label ++ replicate n x00));
  derive_keypair _ ikm := (toy_key ikm, toy_key ikm);
|}.

#[export] Instance toy_crypto_laws : CryptoLibLaws toy_crypto.
Proof.
  split; cbn.
  - intros k sk key. unfold toy_sized. by case_decide.
  - done.
  - done.
  - done.
  - intros cfg ikm sk pk info msg aad rng enc ct rng' [= <-] [= <-] [= <- <- _]. eexists. split; [done|]. by rewrite decide_True.
  - intros cfg ikm sk pk info rng enc ctx rng' [= <-] [= <-] [= <- <- _]. by eexists _, _.
Qed.
