(* ===== verification/CryptoProviderProps.v ===== *)
(** * What the crypto provider guarantees

    Every offered cipher suite is served by each primitive; HPKE opens what it sealed and
    both ends export the same secret; seeds have the right size; what a reseeded
    generator draws; which credentials are authenticated. *)

From S2P Require Import Prelude Keys CryptoErrors X509Check PkiEnv CryptoProvider.
From Stdlib Require Import Lia ZArith.

(** ** Seeds *)

Lemma copy_from_slice_take n (data : bytes) : n <= length data -> copy_from_slice n (take n data) = Some (take n data).
Proof. intros Hn. unfold copy_from_slice. rewrite decide_True; [done|]. rewrite length_take. lia. Qed.

(** [EntropySeed::try_from_slice] never panics; it refuses exactly the slices that are
    too short, naming both lengths, and otherwise keeps the first 32 bytes. *)
Theorem entropy_seed_exact data :
  match entropy_seed_try_from_slice data with
  | Ok seed => EXPECTED_LEN <= length data /\ seed = take EXPECTED_LEN data /\ length seed = EXPECTED_LEN
  | Err e => length data < EXPECTED_LEN /\ e = EntropySeedLength (length data) EXPECTED_LEN
  | Panic => False
  end.
Proof.
  unfold entropy_seed_try_from_slice. destruct (decide _) as [Hl | Hl]; [done|].
  rewrite copy_from_slice_take by lia. split_and!; [lia | done | rewrite length_take; lia].
Qed.

Section random.
Context `{C : CryptoLib}.

(** After [reseed(None)] the generator draws the same bytes whatever it was before:
    those of the seed of zeros, so no entropy of the system is used. *)
Theorem reseed_none_constant (rng rng' : Rng) (n : nat) :
  (_ ← reseed None; random_vec n) rng = (_ ← reseed None; random_vec n) rng' /\
  (_ ← reseed None; random_vec n) rng = (_ ← reseed (Some (replicate 32 x00)); random_vec n) rng'.
Proof. done. Qed.
End random.

(** ** HPKE *)

Lemma normalize_stripped n k (sk : bytes) : length (replicate k x00 ++ sk) = n -> normalize n sk = replicate k x00 ++ sk.
Proof.
  rewrite length_app, length_replicate. intros <-. unfold normalize. destruct (decide _) as [Hl | Hl].
  - do 2 f_equal. lia.
  - by replace k with 0 by lia.
Qed.

Section hpke.
Context `{S : CiphersuiteLib, !CiphersuiteLaws S, C : CryptoLib, !CryptoLibLaws C}.

(** The configuration of an offered suite is one the functions tell apart. *)
Lemma supported_known s : supports s = Ok () -> exists algs, hpke_algorithms (hpke_config s) = Some algs.
Proof.
  destruct suite_1 as [_ E1], suite_2 as [_ E2], suite_3 as [_ E3], suite_5 as [_ E5], suite_7 as [_ E7].
  destruct s; intros [=]; rewrite ?E1, ?E2, ?E3, ?E5, ?E7; by eexists.
Qed.

Lemma supported_scheme s : supports s = Ok () -> signature_algorithm s <> ED448.
Proof.
  destruct suite_1 as [E1 _], suite_2 as [E2 _], suite_3 as [E3 _], suite_5 as [E5 _], suite_7 as [E7 _].
  destruct s; intros [=]; by rewrite ?E1, ?E2, ?E3, ?E5, ?E7.
Qed.

Lemma known_derive config algs ikm : hpke_algorithms config = Some algs ->
  derive_hpke_keypair config ikm =
  Ok (MkHpkeKeyPair (derive_keypair (alg_kem algs) ikm).1 (derive_keypair (alg_kem algs) ikm).2).
Proof. destruct config as [[] [] []]; try done; intros [= <-]; unfold derive_hpke_keypair, hpke_derive_keypair; cbn; by destruct (derive_keypair _ _). Qed.

Lemma known_derive_inv config algs ikm pair : hpke_algorithms config = Some algs -> derive_hpke_keypair config ikm = Ok pair ->
  hpke_private pair = (derive_keypair (alg_kem algs) ikm).1 /\ hpke_public pair = (derive_keypair (alg_kem algs) ikm).2.
Proof. intros Hk. rewrite (known_derive _ _ _ Hk). by intros [= <-]. Qed.

(** The runs of the two functions that draw randomness. *)
Lemma hpke_seal_run config algs pk info aad msg rng : hpke_algorithms config = Some algs ->
  hpke_seal config pk info aad msg rng =
  match public_key_from_bytes (alg_kem algs) pk with
  | None => (Err HpkeEncryptionError, rng)
  | Some key =>
      match single_shot_seal algs key info msg aad rng with
      | (Some (enc, ct), rng') => (Ok (MkHpkeCiphertext enc ct), rng')
      | (None, rng') => (Err HpkeEncryptionError, rng')
      end
  end.
Proof.
  intros Hk. unfold hpke_seal. rewrite Hk. unfold hpke_core_seal, st_lift, st_of, mbind, st_bind.
  destruct (public_key_from_bytes (alg_kem algs) pk) as [key|]; [|done]. cbn.
  by destruct (single_shot_seal algs key info msg aad rng) as [[[]|] ?].
Qed.

Lemma hpke_sender_run config algs pk info label n rng : hpke_algorithms config = Some algs ->
  hpke_setup_sender_and_export config pk info label n rng =
  match public_key_from_bytes (alg_kem algs) pk with
  | None => (Err SenderSetupError, rng)
  | Some key =>
      match setup_sender algs key info rng with
      | (Some (enc, ctx), rng') => (export ← ok_or (context_export ctx label n) ExporterError; Ok (enc, export), rng')
      | (None, rng') => (Err SenderSetupError, rng')
      end
  end.
Proof.
  intros Hk. unfold hpke_setup_sender_and_export. rewrite Hk. unfold hpke_export_tx, st_lift, st_of, mbind, st_bind.
  destruct (public_key_from_bytes (alg_kem algs) pk) as [key|]; [|done]. cbn.
  destruct (setup_sender algs key info rng) as [[[enc ctx]|] rng']; [|done]. cbn. by destruct (context_export ctx label n).
Qed.

(** The suites listed as supported are exactly those [supports] accepts, and for each
    of them key pairs are derived and generated, and every HPKE function accepts the
    configuration: none answers that the algorithm is unsupported. *)
Theorem offered_suites_served s :
  (supports s = Ok () <-> s ∈ supported_ciphersuites) /\
  (supports s = Ok () ->
   (forall ikm, exists pair, derive_hpke_keypair (hpke_config s) ikm = Ok pair) /\
   (forall rng, exists keys rng', signature_key_gen (signature_algorithm s) rng = (Ok keys, rng')) /\
   (forall key, validate_signature_key (signature_algorithm s) key <> Err UnsupportedSignatureScheme) /\
   (forall pk info aad msg rng, (hpke_seal (hpke_config s) pk info aad msg rng).1 <> Err UnsupportedKem) /\
   (forall ct sk info aad, hpke_open (hpke_config s) ct sk info aad <> Err UnsupportedKem)).
Proof.
  split.
  { unfold supported_ciphersuites. destruct s; cbn; split; try done; try (intros; set_solver). }
  intros Hs. destruct (supported_known s Hs) as [algs Hk]. pose proof (supported_scheme s Hs) as Hd. split_and!.
  - intros ikm. eexists. by apply known_derive.
  - intros rng. destruct (signing_key_random (signature_algorithm s) rng) as [keys rng'] eqn:E. exists keys, rng'.
    unfold signature_key_gen. destruct (signature_algorithm s); try done; unfold st_of; by rewrite E.
  - intros key. unfold validate_signature_key. destruct (signature_algorithm s); try done; by destruct (verifying_key_try_from _ _).
  - intros pk info aad msg rng. rewrite (hpke_seal_run _ _ _ _ _ _ _ Hk).
    destruct (public_key_from_bytes _ _) as [key|]; [|done]. by destruct (single_shot_seal _ key info msg aad rng) as [[[]|] ?].
  - intros ct sk info aad. unfold hpke_open. rewrite Hk. unfold hpke_core_open.
    destruct (encapped_from_bytes _ _); [|done]. cbn. destruct (private_key_from_bytes _ _); [|done]. cbn.
    by destruct (single_shot_open _ _ _ _ _ _).
Qed.

(** C25: what is sealed under an offered suite for a derived public key is opened with the
    derived private key, also when leading zeros of that key were dropped. *)
Theorem hpke_opens_sealed s ikm pair info aad msg rng ct rng' k sk :
  supports s = Ok () ->
  derive_hpke_keypair (hpke_config s) ikm = Ok pair ->
  hpke_seal (hpke_config s) (hpke_public pair) info aad msg rng = (Ok ct, rng') ->
  hpke_private pair = replicate k x00 ++ sk ->
  hpke_open (hpke_config s) ct sk info aad = Ok msg.
Proof.
  intros Hs Hd Hseal Hp. destruct (supported_known s Hs) as [algs Hk]. destruct (known_derive_inv _ _ _ _ Hk Hd) as [Hsk Hpk].
  rewrite (hpke_seal_run _ _ _ _ _ _ _ Hk), Hpk in Hseal.
  destruct (derived_private (alg_kem algs) ikm) as [key Hkey], (derived_public (alg_kem algs) ikm) as [pub Hpub].
  rewrite Hpub in Hseal. destruct (single_shot_seal algs pub info msg aad rng) as [[[enc c]|] r] eqn:E; [|done].
  injection Hseal as <- <-. destruct (seal_open _ _ _ _ _ _ _ _ _ _ _ Hkey Hpub E) as (e & He & Ho).
  unfold hpke_open. rewrite Hk. unfold hpke_core_open. cbn [kem_output hpke_ciphertext]. rewrite He. cbn.
  rewrite (normalize_stripped _ k) by (rewrite <- Hp, Hsk; apply derived_length).
  rewrite <- Hp, Hsk, Hkey. cbn. by rewrite Ho.
Qed.

(** The receiver exports the secret the sender exported, when it holds the private key
    in full; with leading zeros dropped, as [hpke_open] allows, its setup fails. *)
Theorem hpke_export_agrees s ikm pair info label n rng enc secret rng' :
  supports s = Ok () ->
  derive_hpke_keypair (hpke_config s) ikm = Ok pair ->
  hpke_setup_sender_and_export (hpke_config s) (hpke_public pair) info label n rng = (Ok (enc, secret), rng') ->
  hpke_setup_receiver_and_export (hpke_config s) enc (hpke_private pair) info label n = Ok secret /\
  (forall k sk, 0 < k -> hpke_private pair = replicate k x00 ++ sk ->
   hpke_setup_receiver_and_export (hpke_config s) enc sk info label n = Err ReceiverSetupError).
Proof.
  intros Hs Hd Hsend. destruct (supported_known s Hs) as [algs Hk]. destruct (known_derive_inv _ _ _ _ Hk Hd) as [Hsk Hpk].
  rewrite (hpke_sender_run _ _ _ _ _ _ _ Hk), Hpk in Hsend. unfold hpke_setup_receiver_and_export. rewrite Hk. unfold hpke_export_rx.
  destruct (derived_private (alg_kem algs) ikm) as [key Hkey], (derived_public (alg_kem algs) ikm) as [pub Hpub]. split.
  - rewrite Hpub in Hsend. destruct (setup_sender algs pub info rng) as [[[enc' ctx]|] r] eqn:E; [|done].
    destruct (context_export ctx label n) as [x|] eqn:Ex; [|done]. cbn in Hsend. injection Hsend as <- <- <-.
    destruct (sender_receiver _ _ _ _ _ _ _ _ _ Hkey Hpub E) as (e & ctx' & He & Hr & Hx).
    rewrite Hsk, Hkey. cbn. rewrite He. cbn. rewrite Hr. cbn. by rewrite Hx, Ex.
  - intros k sk Hpos Hp. destruct (private_key_from_bytes (alg_kem algs) sk) as [bad|] eqn:E; [|done].
    apply private_key_length in E. pose proof (derived_length (alg_kem algs) ikm) as Hl.
    rewrite <- Hsk, Hp, length_app, length_replicate in Hl. lia.
Qed.
End hpke.

(** ** Authentication *)

Section authentication.
Context `{L : X509Lib, R : !PathLib L}.

(** The failures of a validation that leave a credential authenticated. *)
Definition tolerated (e : RustyX509CheckError) : bool :=
  match e with
  | CertValError (PathValidation
      (CertificateRevoked | CertificateRevokedEndEntity | CertificateRevokedIntermediateCa | InvalidNotAfterDate)) => true
  | _ => false
  end.

(** An X.509 credential is authenticated exactly when an environment is set, its first
    certificate parses, and the validation succeeds or fails because the certificate is
    revoked or expired; basic credentials always are. *)
Theorem authenticated_iff now service credential :
  auth_validate_credential now service credential = AuthValid <->
  match credential with
  | BasicRef _ => True
  | X509Ref certificates => exists env raw cert,
      auth_pki_env service = Some env /\ head certificates = Some raw /\ cert_from_der raw = Some cert /\
      match validate_cert_and_revocation now (paths_for_target env) (validate_path_rfc5280 env) (check_revocation env) cert with
      | Ok _ => True
      | Err e => tolerated e = true
      | Panic => False
      end
  end.
Proof.
  destruct credential as [id | certs]; [done|]. cbn. destruct (auth_pki_env service) as [env|]; [|naive_solver].
  unfold validate_credential. destruct (head certs) as [raw|] eqn:Hh; cbn; [|naive_solver].
  destruct (cert_from_der raw) as [cert|] eqn:Hc; cbn; [|naive_solver].
  set (v := validate_cert_and_revocation _ _ _ _ cert).
  transitivity (match v with Ok _ => True | Err e => tolerated e = true | Panic => False end).
  - destruct v as [|e|]; [done| |done]. destruct e; cbn; try done; by repeat case_match.
  - split; [intros Hv; by exists env, raw, cert|]. intros (env' & raw' & cert' & [= <-] & [= <-] & Hc' & Hv).
    rewrite Hc in Hc'. by injection Hc' as <-.
Qed.
End authentication.

(** ** Runs *)

Definition demo_suite : Ciphersuite := MLS_128_DHKEMP256_AES128GCM_SHA256_P256.
Definition demo_pair : HpkeKeyPair := MkHpkeKeyPair [x00; x05] [x00; x05].
Definition demo_rng : Rng := from_seed default_seed.

Lemma offered_suites_served_witness :
  exists pair, derive_hpke_keypair (hpke_config demo_suite) [x05] = Ok pair.
Proof. exact (proj1 (proj2 (offered_suites_served (S := rfc_suites) (C := toy_crypto) demo_suite) eq_refl) [x05]). Defined.

Lemma hpke_opens_sealed_witness :
  hpke_open (hpke_config demo_suite) (MkHpkeCiphertext [x00; x05] [x00; x05; x07]) [x05] [] [] = Ok [x07].
Proof.
  exact (hpke_opens_sealed (S := rfc_suites) (C := toy_crypto) demo_suite [x05] demo_pair [] [] [x07] demo_rng
    (MkHpkeCiphertext [x00; x05] [x00; x05; x07]) (demo_rng.1, 1) 1 [x05] eq_refl eq_refl eq_refl eq_refl).
Defined.

Lemma hpke_export_agrees_witness :
  hpke_setup_receiver_and_export (hpke_config demo_suite) [x00; x05] [x00; x05] [] [x09] 3 = Ok [x00; x05; x09] /\
  hpke_setup_receiver_and_export (hpke_config demo_suite) [x00; x05] [x05] [] [x09] 3 = Err ReceiverSetupError.
Proof.
  destruct (hpke_export_agrees (S := rfc_suites) (C := toy_crypto) demo_suite [x05] demo_pair [] [x09] 3 demo_rng
    [x00; x05] [x00; x05; x09] (demo_rng.1, 1) eq_refl eq_refl eq_refl) as [Hok Herr].
  split; [exact Hok | apply (Herr 1 [x05]); [lia | reflexivity]].
Defined.
