(* ===== verification/CredentialCheck.v ===== *)
(** * Checking X.509 credentials

    [crypto/src/mls/credential/{x509,crl,ext}.rs] and
    [crypto/src/transaction_context/credential/check.rs]: the certificates of credentials,
    the distribution points they name, and the regular check of the stored credentials.
    The PKI environment is taken to be opened on the database of the session, so that both
    see each other's writes. *)

From S2P Require Import Prelude Keys EntityTypes Entities Sql KeystoreErrors EntityStore Store Transaction Database EntityKV CryptoErrors OpenMls ConversationCache TransactionContext ClientIds MlsMessages Credentials X509Check PkiEnv.
From Stdlib Require Import Lia ZArith.

(** The certificates of an X.509 credential, [MlsCredential::mls_credential], and
    [MlsGroup::members_credentials]. *)
Class CredentialCertificates (O : OpenMls) (Mc : MlsCredentials) : Type := {
  certificates_of : MlsCredential -> option (list bytes);
  members_credentials : MlsGroup -> list MlsCredential;
}.

Class CredentialCertificatesLaws {O : OpenMls} {Mc : MlsCredentials} (Cc : CredentialCertificates O Mc) : Prop := {
  certificates_kind c : mls_credential_kind c = MlsX509 <-> is_Some (certificates_of c);
}.

Section check.
Context `{X : Externals, O : OpenMls, Mc : MlsCredentials, Cc : !CredentialCertificates O Mc}.
Context `{L : X509Lib, K : !PkiLib L, R : !PathLib L} {M : Type} `{!LruMap M nat}.

(** ** Credentials *)

(** [CredentialExt::parse_leaf_cert] of certificates and of credentials. *)
Definition parse_leaf (chain : list bytes) : res CredentialError (option Certificate) :=
  leaf ← ok_or (head chain) InvalidIdentity;
  leaf ← ok_or (cert_from_der leaf) DecodeX509;
  Ok (Some leaf).

Definition parse_leaf_cert (c : MlsCredential) : res CredentialError (option Certificate) :=
  match certificates_of c with Some chain => parse_leaf chain | None => Ok None end.

(** [PkiEnvironment::validate_cert]. *)
Definition pki_validate_cert (env : PkiEnvironment) (cert : Certificate) : res RustyX509CheckError () :=
  validate_cert_and_revocation clock_now (paths_for_target env) (validate_path_rfc5280 env) (check_revocation env) cert.

(** [Credential::check]. *)
Definition credential_check (env : PkiEnvironment) (c : Credential) : res CredentialError () :=
  if decide (credential_type c = X509) then
    cert ← map_err (fun e => CredRecursive (RecMlsCredential e)) (parse_leaf_cert (mls_credential c));
    match cert with
    | None => Panic
    | Some cert => map_err (fun _ => CredRecursive (RecE2e E2eX509Error)) (pki_validate_cert env cert)
    end
  else Ok ().

(** ** Distribution points *)

(** [extract_dp]. *)
Definition extract_dp (chain : list bytes) : res CredentialError (gset bytes) :=
  for_each (fun der acc =>
    cert ← ok_or (cert_from_der der) DecodeX509;
    crl_uris ← map_err (fun _ => CredRecursive (RecE2e E2eX509Error)) (extract_crl_uris cert);
    Ok (acc ∪ default ∅ crl_uris)) chain ∅.

(** [extract_crl_uris_from_credentials] and [extract_crl_uris_from_group]. *)
Definition extract_crl_uris_from_credentials (credentials : list MlsCredential) : res CredentialError (gset bytes) :=
  for_each (fun cred acc =>
    match certificates_of cred with
    | Some chain => uris ← extract_dp chain; Ok (acc ∪ uris)
    | None => Ok acc
    end) credentials ∅.

Definition extract_crl_uris_from_group (group : MlsGroup) : res CredentialError (gset bytes) :=
  extract_crl_uris_from_credentials (members_credentials group).

(** [TransactionContext::get_crl_uris]. *)
Definition get_crl_uris (trust_anchors : list Certificate) (credentials : list Credential)
    (conversations : list Conversation) : res TransactionError (gset bytes) :=
  let mls_credentials := map mls_credential (filter (fun c => credential_type c = X509) credentials) in
  crl_uris ← map_err (fun e => TxRecursive (RecMlsCredential e)) (extract_crl_uris_from_credentials mls_credentials);
  crl_uris ← for_each (fun trust_anchor acc =>
    uris ← map_err (fun _ => TxRecursive (RecE2e E2eX509Error)) (extract_crl_uris trust_anchor);
    Ok (acc ∪ default ∅ uris)) trust_anchors crl_uris;
  for_each (fun conversation acc =>
    uris ← map_err (fun e => TxRecursive (RecMlsCredential e)) (extract_crl_uris_from_group (conv_group conversation));
    Ok (acc ∪ uris)) conversations crl_uris.

(** ** The check *)

(** The context, and the environment it holds; the database of the environment is that of
    the context. *)
Record CheckWorld : Type := MkCheck { check_world : World M; check_env : PkiEnvironment }.

(** [Error::InvalidCredentials] lists references; other errors are those of the context. *)
Inductive CheckError : Type :=
  | CheckFailed (e : TransactionError)
  | CheckInvalid (refs : list CredentialRef).

Abbreviation check A := (st CheckWorld CheckError A).

Definition in_context {A} (m : st (World M) TransactionError A) : check A := fun s =>
  let '(r, w) := m (check_world s) in (map_err CheckFailed r, MkCheck w (check_env s)).

(** A call on the environment, which works on the database of the context. *)
Definition in_environment {A} (m : st PkiEnvironment PkiError A) : check A := fun s =>
  let w := check_world s in
  let '(r, env) := m (set_pki_database (database (core w)) (check_env s)) in
  (map_err (fun _ => CheckFailed (TxRecursive (RecE2e E2ePkiEnvError))) r,
   MkCheck (set_core (set_database (pki_database env) (core w)) w) env).

(** [TransactionContext::clean_up_irrelevant_crls]. *)
Definition irrelevant_crl (relevant : gset bytes) (e : Entity.t) : option bytes :=
  match e with
  | Entity.E2eiCrl crl => if decide (distribution_point crl ∈ relevant) then None else Some (distribution_point crl)
  | _ => None
  end.

Fixpoint remove_crls (uris : list bytes) : st (World M) KeystoreError.t () :=
  match uris with
  | [] => mret ()
  | uri :: uris =>
      _ ← on_database (kv_remove EntityType.E2eiCrl (PkString {| str_bytes := uri |}));
      remove_crls uris
  end.

Definition clean_up_irrelevant_crls (relevant : gset bytes) : st (World M) TransactionError () :=
  _ ← valid;
  stored ← st_lift (fun w => map_err TxKeystore (kv_load_all EntityType.E2eiCrl (database (core w))));
  st_map_err TxKeystore (remove_crls (omap (irrelevant_crl relevant) stored)).

(** [save_crl] for every list fetched. *)
Fixpoint save_crls (crls : list (bytes * bytes)) : check () :=
  match crls with
  | [] => mret ()
  | (crl_uri, crl) :: crls => _ ← in_environment (save_crl crl_uri crl); save_crls crls
  end.

(** The loop over the credentials; a panic is not an error. *)
Fixpoint invalid_refs (env : PkiEnvironment) (credentials : list Credential) : res CheckError (list CredentialRef) :=
  match credentials with
  | [] => Ok []
  | c :: credentials =>
      match credential_check env c with
      | Ok _ => invalid_refs env credentials
      | Err _ => refs ← invalid_refs env credentials; Ok (ref_from_credential c :: refs)
      | Panic => Panic
      end
  end.

(** Conversations, distribution points and lists come in the orders of hash tables. *)
Context (conversation_order : gmap bytes Conversation -> list (bytes * Conversation)).
Context (set_order : gset bytes -> list bytes) (hash_order : gmap bytes bytes -> list (bytes * bytes)).

(** [TransactionContext::check_credentials]. *)
Definition check_credentials : check () :=
  _ ← in_context valid;
  _ ← in_context get_pki_environment;
  credentials ← in_context (st_lift (fun w =>
    map_err (fun e => TxRecursive (RecMlsCredential e)) (credential_get_all (database (core w)))));
  trust_anchors ← st_lift (fun s => Ok (get_trust_anchors (check_env s)));
  _ ← in_context session;
  conversations ← in_context (st_lift (fun w =>
    map_err (fun e => TxRecursive (RecMlsConversation e)) (load_all_conversations (database (core w)))));
  relevant ← st_lift (fun _ =>
    map_err CheckFailed (get_crl_uris trust_anchors credentials (conversation_order conversations).*2));
  _ ← in_context (clean_up_irrelevant_crls relevant);
  crls ← st_lift (fun _ =>
    map_err (fun _ => CheckFailed (TxRecursive (RecE2e E2ePkiEnvError))) (fetch_crls (set_order relevant) ∅));
  _ ← save_crls (hash_order crls);
  refs ← st_lift (fun s => invalid_refs (check_env s) credentials);
  match refs with [] => mret () | _ => st_throw (CheckInvalid refs) end.
End check.

(** ** Concrete credentials

    Bytes that start with [x] are an X.509 credential, whose certificate is the rest; every
    group has a basic and an X.509 member; no path leads to the certificate [bad]. *)

Definition toy_chain (c : bytes) : option (list bytes) :=
  match c with x78 :: cert => Some [cert] | _ => None end.

Definition toy_mixed : MlsCredentials := {|
  MlsCredential := bytes;
  new_basic id := id;
  mls_identity c := c;
  mls_credential_kind c := match toy_chain c with Some _ => MlsX509 | None => MlsBasic end;
  serialize_credential := Some;
  deserialize_credential := Some;
  deserialize_credential_exact := Some;
  ciphersuite_known cs := (1 <=? cs)%Z && (cs <=? 7)%Z;
  signature_algorithm cs := cs;
|}.

Definition toy_certificates : CredentialCertificates toy_openmls toy_mixed := {|
  certificates_of := toy_chain : MlsCredential (MlsCredentials := toy_mixed) -> option (list bytes);
  members_credentials _ := [bstr "me"; bstr "xbob"];
|}.

#[export] Instance toy_certificates_laws : CredentialCertificatesLaws toy_certificates.
Proof.
  split. intros c. cbn. destruct (toy_chain c); naive_solver.
Qed.

Definition toy_strict_paths : PathLib toy_x509 := {|
  Path := ();
  paths_for_target _ c _ := if decide (c = bstr "bad") then Ok [] else Ok [()];
  validate_path_rfc5280 _ _ _ := (Some PathValid, ());
  check_revocation _ _ := Some PathValid;
|}.
