(* ===== verification/CredentialCheckProps.v ===== *)
(** * What the check of the credentials finds

    The distribution points collected are those of every certificate in use; the check
    reports exactly the stored credentials that do not validate; the [expect] in it is not
    reached. *)

From S2P Require Import Prelude Keys EntityTypes Entities ToyExternals Sql KeystoreErrors EntityStore Store Transaction Database DatabaseProps EntityKV CryptoErrors OpenMls ConversationCache TransactionContext ClientIds MlsMessages Credentials X509Check PkiEnv CredentialCheck.
From Stdlib Require Import Lia ZArith.

(** ** Collecting sets *)

Lemma for_each_union {E A} (f : A -> res E (gset bytes)) g (l : list A) acc r :
  (forall a acc, g a acc = (s ← f a; Ok (acc ∪ s))) ->
  for_each g l acc = Ok r ->
  (forall a, a ∈ l -> exists s, f a = Ok s) /\
  (forall u, u ∈ r <-> u ∈ acc \/ exists a s, a ∈ l /\ f a = Ok s /\ u ∈ s).
Proof.
  intros Hg. revert acc. induction l as [|a l IH]; cbn; intros acc H.
  - injection H as <-. split; [by intros a []%not_elem_of_nil|]. intros u. split; [by left|].
    intros [?|(? & ? & []%not_elem_of_nil & _)]; done.
  - rewrite Hg in H. destruct (f a) as [s| |] eqn:Hf; cbn in H; try done. destruct (IH _ H) as [Hall Hu].
    setoid_rewrite elem_of_cons. split; [intros b [->|Hb]; eauto|]. intros u. rewrite Hu, elem_of_union. split.
    + intros [[?|?]|(b & t & ? & ? & ?)]; [by left|right; exists a, s; auto|right; exists b, t; auto].
    + intros [?|(b & t & [->|?] & Ht & ?)]; [by left; left| |right; by exists b, t].
      left; right. rewrite Hf in Ht. by injection Ht as <-.
Qed.

Section uris.
Context `{X : Externals, O : OpenMls, Mc : MlsCredentials, Cc : !CredentialCertificates O Mc}.
Context `{L : X509Lib, K : !PkiLib L, R : !PathLib L}.

(** A certificate, a chain, a credential names a distribution point. *)
Definition cert_names (cert : Certificate) (uri : bytes) : Prop :=
  exists s, extract_crl_uris cert = Ok (Some s) /\ uri ∈ s.
Definition chain_names (chain : list bytes) (uri : bytes) : Prop :=
  exists der cert, der ∈ chain /\ cert_from_der der = Some cert /\ cert_names cert uri.
Definition credential_names (c : MlsCredential) (uri : bytes) : Prop :=
  exists chain, certificates_of c = Some chain /\ chain_names chain uri.

(** What one element adds to the set that is collected. *)
Definition cert_uris {E} (err : E) (cert : Certificate) : res E (gset bytes) :=
  uris ← map_err (fun _ => err) (extract_crl_uris cert); Ok (default ∅ uris).

Lemma cert_uris_spec {E} (err : E) cert s uri : cert_uris err cert = Ok s -> uri ∈ s <-> cert_names cert uri.
Proof.
  unfold cert_uris, cert_names. destruct (extract_crl_uris cert) as [[t|]| |]; cbn; intros [= <-]; [naive_solver|].
  split; [set_solver|]. naive_solver.
Qed.

Definition der_uris (der : bytes) : res CredentialError (gset bytes) :=
  cert ← ok_or (cert_from_der der) DecodeX509; cert_uris (CredRecursive (RecE2e E2eX509Error)) cert.

Definition credential_uris (c : MlsCredential) : res CredentialError (gset bytes) :=
  match certificates_of c with Some chain => extract_dp chain | None => Ok ∅ end.

Lemma extract_dp_spec chain r uri : extract_dp chain = Ok r -> uri ∈ r <-> chain_names chain uri.
Proof.
  intros H. eapply (for_each_union der_uris) in H as [Hall Hu].
  2:{ intros der acc. unfold der_uris, cert_uris. destruct (cert_from_der der) as [c|]; [|done]. cbn. by destruct (extract_crl_uris c). }
  rewrite Hu. unfold chain_names. split.
  - intros [[]%not_elem_of_empty|(der & s & Hin & Hs & Hus)]. unfold der_uris in Hs.
    destruct (cert_from_der der) as [c|] eqn:Hc; [|done]. exists der, c. split_and!; try done. by apply (cert_uris_spec (CredRecursive (RecE2e E2eX509Error)) c s).
  - intros (der & c & Hin & Hc & Hn). right. destruct (Hall der Hin) as [s Hs]. exists der, s. split_and!; try done.
    unfold der_uris in Hs. rewrite Hc in Hs. by apply (cert_uris_spec (CredRecursive (RecE2e E2eX509Error)) c s).
Qed.

Lemma credential_uris_spec c s uri : credential_uris c = Ok s -> uri ∈ s <-> credential_names c uri.
Proof.
  unfold credential_uris, credential_names. destruct (certificates_of c) as [chain|]; intros H.
  - rewrite (extract_dp_spec _ _ _ H). naive_solver.
  - injection H as <-. split; [set_solver|naive_solver].
Qed.

Lemma credentials_uris_spec l r uri : extract_crl_uris_from_credentials l = Ok r ->
  uri ∈ r <-> exists c, c ∈ l /\ credential_names c uri.
Proof.
  intros H. eapply (for_each_union credential_uris) in H as [Hall Hu].
  2:{ intros c acc. unfold credential_uris. destruct (certificates_of c); cbn; [done|by rewrite union_empty_r_L]. }
  rewrite Hu. split.
  - intros [[]%not_elem_of_empty|(c & s & Hin & Hs & Hus)]. exists c. split; [done|]. by apply (credential_uris_spec c s).
  - intros (c & Hin & Hn). right. destruct (Hall c Hin) as [s Hs]. exists c, s. split_and!; try done. by apply (credential_uris_spec c s).
Qed.

(** The distribution points whose lists are fetched, and whose lists are kept, are those
    that the trust anchors, the certificates of the stored X.509 credentials and those of
    the members of all conversations name: none is missed and none is added. *)
Theorem crl_uris_complete trust_anchors credentials conversations uris uri :
  get_crl_uris trust_anchors credentials conversations = Ok uris ->
  uri ∈ uris <->
  (exists ta, ta ∈ trust_anchors /\ cert_names ta uri) \/
  (exists c, c ∈ credentials /\ credential_type c = X509 /\ credential_names (mls_credential c) uri) \/
  (exists conv c, conv ∈ conversations /\ c ∈ members_credentials (conv_group conv) /\ credential_names c uri).
Proof.
  unfold get_crl_uris. intros (s1 & H1 & (s2 & H2 & H3)%bind_Ok)%bind_Ok.
  destruct (extract_crl_uris_from_credentials _) as [s| |] eqn:E1 in H1; try done. injection H1 as ->.
  eapply (for_each_union (cert_uris (TxRecursive (RecE2e E2eX509Error)))) in H2 as [A2 U2].
  2:{ intros ta acc. unfold cert_uris. by destruct (extract_crl_uris ta). }
  eapply (for_each_union (fun conv => map_err (fun e => TxRecursive (RecMlsCredential e))
    (extract_crl_uris_from_group (conv_group conv)))) in H3 as [A3 U3]; [|done].
  rewrite U3, U2, (credentials_uris_spec _ _ _ E1). split.
  - intros [[(c & Hc & Hn)|(ta & t & Hin & Ht & Hu)]|(conv & t & Hin & Ht & Hu)].
    + apply list_elem_of_fmap in Hc as (c' & -> & [Ht Hin]%list_elem_of_filter). right; left. by exists c'.
    + left. exists ta. split; [done|]. by apply (cert_uris_spec _ ta t uri Ht).
    + right; right. destruct (extract_crl_uris_from_group _) as [v| |] eqn:E in Ht; try done. injection Ht as ->.
      apply (credentials_uris_spec _ _ _ E) in Hu as (c & ? & ?). by exists conv, c.
  - intros [(ta & Hin & Hn)|[(c & Hin & Ht & Hn)|(conv & c & Hin & Hc & Hn)]].
    + left; right. destruct (A2 ta Hin) as [t Ht]. exists ta, t. split_and!; try done. by apply (cert_uris_spec _ ta t uri Ht).
    + left; left. exists (mls_credential c). split; [|done]. apply list_elem_of_fmap. exists c. by rewrite list_elem_of_filter.
    + right. destruct (A3 conv Hin) as [t Ht]. exists conv, t. split_and!; try done.
      destruct (extract_crl_uris_from_group _) as [v| |] eqn:E in Ht; try done. injection Ht as ->.
      apply (credentials_uris_spec _ _ _ E). by exists c.
Qed.
End uris.

Section outcome.
Context `{X : Externals, O : OpenMls, Mc : MlsCredentials, Cc : !CredentialCertificates O Mc}.
Context `{L : X509Lib, K : !PkiLib L, R : !PathLib L} {M : Type} `{!LruMap M nat}.

(** ** Computations that report no credential *)

Definition quiet {A} (m : st (CheckWorld (M := M)) CheckError A) : Prop :=
  forall s, match fst (m s) with Err (CheckInvalid _) => False | _ => True end.

Lemma quiet_in_context {A} (m : st (World M) TransactionError A) : quiet (in_context m).
Proof. intros s. unfold in_context. by destruct (m _) as [[] ?]. Qed.

Lemma quiet_in_environment {A} (m : st PkiEnvironment PkiError A) : quiet (in_environment m).
Proof. intros s. unfold in_environment. by destruct (m _) as [[] ?]. Qed.

Lemma quiet_lift {A} (f : CheckWorld -> res CheckError A) :
  (forall s, match f s with Err (CheckInvalid _) => False | _ => True end) -> quiet (st_lift f).
Proof. intros Hf s. apply Hf. Qed.

Lemma quiet_save_crls crls : quiet (save_crls crls).
Proof.
  induction crls as [|[uri crl] crls IH]; [done|]. intros s. cbn. unfold mbind, st_bind.
  pose proof (quiet_in_environment (save_crl uri crl) s) as Hq.
  destruct (in_environment _ s) as [[u|e|] s1]; [apply IH|exact Hq|done].
Qed.

(** A quiet step either succeeds, or ends the run with an error of its own. *)
Lemma quiet_bind {A B} (m : st CheckWorld CheckError A) (f : A -> st CheckWorld CheckError B) s r s' (P : Prop) :
  quiet m -> (m ≫= f) s = (r, s') ->
  (forall a s1, m s = (Ok a, s1) -> f a s1 = (r, s') -> P) ->
  (match r with Ok _ | Err (CheckInvalid _) => False | _ => True end -> P) -> P.
Proof.
  intros Hq H Hok Herr. specialize (Hq s). unfold mbind, st_bind in H.
  destruct (m s) as [[a|e|] s1] eqn:E; [by eapply Hok| |]; injection H as <- _; by apply Herr.
Qed.

(** The next step of a run [H], which has succeeded with [Hs]. *)
Ltac quiet_step H tac :=
  refine (quiet_bind _ _ _ _ _ _ _ H _ _);
  [tac | clear H; let a := fresh "a" in let s1 := fresh "s1" in intros a s1 Hs H; cbn beta in H
  | intros ?; by repeat case_match].

(** Reading the context changes nothing. *)
Lemma in_context_read {A} (f : World M -> res TransactionError A) s a s1 :
  in_context (st_lift f) s = (Ok a, s1) -> s1 = s /\ f (check_world s) = Ok a.
Proof. unfold in_context, st_lift. destruct (f _) eqn:E; intros [= <- <-]; by destruct s. Qed.

Lemma in_context_valid s a s1 : in_context (M := M) valid s = (Ok a, s1) -> s1 = s.
Proof. intros H. by apply in_context_read in H as [-> _]. Qed.

Lemma in_context_pki s a s1 : in_context (M := M) get_pki_environment s = (Ok a, s1) -> s1 = s.
Proof.
  unfold in_context, get_pki_environment, valid, st_lift, mbind, st_bind. destruct s as [w e]. cbn.
  destruct (context w); [|done]. by destruct (pki_environment (core w)); intros [= _ <-].
Qed.

(** ** The loop over the credentials *)

Definition fails (env : PkiEnvironment) (c : Credential) : Prop := credential_check env c <> Ok ().

#[export] Instance fails_dec env c : Decision (fails env c).
Proof. unfold fails. destruct (credential_check env c) as [[]|e|]; [right|left|left]; naive_solver. Defined.

Lemma invalid_refs_spec env credentials refs : invalid_refs env credentials = Ok refs ->
  refs = map ref_from_credential (filter (fails env) credentials).
Proof.
  revert refs. induction credentials as [|c l IH]; cbn [invalid_refs]; intros refs H; [by injection H as <-|].
  rewrite filter_cons. destruct (credential_check env c) as [[]|e|] eqn:E; [| |done].
  - rewrite decide_False by (unfold fails; tauto). by apply IH.
  - rewrite decide_True by (unfold fails; by rewrite E). apply bind_Ok in H as (rs & Hr & [= <-]). cbn. f_equal. by apply IH.
Qed.

Lemma all_valid env credentials : filter (fails env) credentials = [] ->
  forall c, c ∈ credentials -> credential_check env c = Ok ().
Proof.
  intros E c Hc. destruct (decide (fails env c)) as [Hf|Hf].
  - assert (c ∈ filter (fails env) credentials) as Hin by (by rewrite list_elem_of_filter). rewrite E in Hin.
    by apply not_elem_of_nil in Hin.
  - unfold fails in Hf. by destruct (credential_check _ c) as [[]|e|]; [|destruct Hf..].
Qed.

Lemma invalid_refs_no_err env credentials e : invalid_refs env credentials <> Err e.
Proof.
  induction credentials as [|c l IH]; cbn; [done|]. destruct (credential_check env c); [done| |done].
  by destruct (invalid_refs env l).
Qed.

(** ** Fetching and saving lists *)

Definition fetched (uri body : bytes) : Prop :=
  exists status, http_get uri = Some (status, body) /\ (200 <= status < 300)%Z.

Lemma fetch_crls_spec uris acc m : fetch_crls uris acc = Ok m ->
  dom m = dom acc ∪ list_to_set uris /\
  (map_Forall fetched acc -> map_Forall fetched m).
Proof.
  revert acc. induction uris as [|uri uris IH]; cbn; intros acc H; [injection H as <-; split; [set_solver|done]|].
  destruct (http_get uri) as [[status body]|] eqn:Hg; [|done].
  destruct ((200 <=? status)%Z && (status <? 300)%Z) eqn:Hs; [|done]. apply andb_true_iff in Hs as [H1%Z.leb_le H2%Z.ltb_lt].
  destruct (IH _ H) as [Hdom Hall]. split; [rewrite Hdom, dom_insert_L; set_solver|].
  intros Hacc. apply Hall, map_Forall_insert_2; [|done]. by exists status.
Qed.

(** The source that the list of a distribution point adds to an environment. *)
Definition source_of (e : PkiEnvironment) (body : bytes) (source : CrlStore) : Prop :=
  exists crl toi, crl_from_der body = Some crl /\ existsb (verify_crl crl) (crl_keys e crl) = true /\
    clock_now = Some toi /\ source = index_crls toi (crl_store_from [crl]).

Lemma transactionally_sources {E A} (into : E -> PkiError) (f : st PkiEnvironment E A) e r e' :
  (forall e0, exists db, snd (f e0) = set_pki_database db e0) ->
  transactionally into f e = (r, e') -> exists db, e' = set_pki_database db e.
Proof.
  intros Hf. unfold transactionally, on_pki_database. destruct (try_new_immediate_transaction _) as [[[]|err|] db].
  - destruct (Hf (set_pki_database db e)) as [db' He]. destruct (f _) as [[a|k|] e1]; cbn in He; subst e1; cbn.
    + destruct (commit_transaction _) as [r0 db2]. intros [= _ <-]. by eexists.
    + destruct (rollback_transaction _) as [r0 db2]. intros [= _ <-]. by eexists.
    + intros [= _ <-]. by eexists.
  - destruct err; try (intros [= _ <-]; by eexists).
    destruct (Hf (set_pki_database db e)) as [db' He]. destruct (f _) as [a e1]. cbn in He. subst e1.
    intros [= _ <-]. by eexists.
  - intros [= _ <-]. by eexists.
Qed.

Lemma save_crl_source uri body e e' : save_crl uri body e = (Ok (), e') ->
  exists source, source_of e body source /\ ta_sources e' = ta_sources e /\ cert_sources e' = cert_sources e /\
    crl_sources e' = crl_sources e ++ [source].
Proof.
  unfold save_crl. intros H. apply st_bind_Ok in H as (crl & e1 & H1 & H). unfold st_lift in H1. injection H1 as H1 <-.
  apply st_bind_Ok in H as (toi & e2 & H2 & H). unfold st_lift in H2. injection H2 as H2 <-.
  apply st_bind_Ok in H as (u & e3 & H3 & H). unfold st_of in H3. injection H3 as <- <-.
  apply st_bind_Ok in H as (content & e4 & H4 & H). unfold st_lift in H4. injection H4 as H4 <-.
  apply st_bind_Ok in H as (v & e5 & H5 & H). injection H as <-.
  apply transactionally_sources in H5 as [db ->].
  2:{ intros e0. unfold on_pki_database. destruct (kv_save _ _ _) as [r db]. by exists db. }
  unfold validate_crl_with_raw, pki_now in H1, H2. destruct (crl_from_der body) as [crl'|] eqn:Hd; [|done]. cbn in H1.
  destruct (existsb _ _) eqn:Hv; [|done]. injection H1 as ->. destruct clock_now as [t|] eqn:Ht; [|done]. injection H2 as ->.
  exists (index_crls toi (crl_store_from [crl])). split; [|done]. by exists crl, toi.
Qed.

(** The keys a list is verified with come from the certificates of the environment. *)
Lemma source_of_keys e e' body source :
  ta_sources e' = ta_sources e -> cert_sources e' = cert_sources e -> source_of e' body source -> source_of e body source.
Proof. unfold source_of, crl_keys. intros -> ->. done. Qed.

Lemma save_crls_sources crls s s' : save_crls (M := M) crls s = (Ok (), s') ->
  exists sources, Forall2 (fun crl source => source_of (check_env s) crl.2 source) crls sources /\
    ta_sources (check_env s') = ta_sources (check_env s) /\ cert_sources (check_env s') = cert_sources (check_env s) /\
    crl_sources (check_env s') = crl_sources (check_env s) ++ sources.
Proof.
  revert s. induction crls as [|[uri body] crls IH]; intros s H.
  - injection H as <-. exists []. by rewrite app_nil_r.
  - apply st_bind_Ok in H as (u & s1 & H1 & (sources & Hf & Hta & Hcert & Hcrl)%IH). unfold in_environment in H1.
    destruct (save_crl uri body _) as [[[]|e|] env] eqn:Hs; try done. injection H1 as _ <-. cbn in *.
    apply save_crl_source in Hs as (source & Hsrc & Hta1 & Hcert1 & Hcrl1). cbn in Hta1, Hcert1, Hcrl1.
    exists (source :: sources). rewrite Hta, Hcert, Hcrl, Hta1, Hcert1, Hcrl1. split_and!; [|done|done|by rewrite <- app_assoc].
    constructor; [by apply (source_of_keys _ (set_pki_database (database (core (check_world s))) (check_env s)))|].
    eapply Forall2_impl; [exact Hf|]. intros crl src. by apply source_of_keys.
Qed.

(** ** The environment of the check *)

(** The distribution points of the certificates in use. *)
Definition in_use (s : CheckWorld (M := M)) (credentials : list Credential) (conversations : gmap bytes Conversation) (uri : bytes) : Prop :=
  (exists ta, ta ∈ get_trust_anchors (check_env s) /\ cert_names ta uri) \/
  (exists c, c ∈ credentials /\ credential_type c = X509 /\ credential_names (mls_credential c) uri) \/
  (exists id conv c, conversations !! id = Some conv /\ c ∈ members_credentials (conv_group conv) /\ credential_names c uri).

(** The certificates are those from before; to the revocation lists, one is added for every
    distribution point in use, as just fetched from there, and no other. *)
Definition lists_refreshed (s s' : CheckWorld (M := M)) (credentials : list Credential) : Prop :=
  exists conversations crls sources,
    load_all_conversations (database (core (check_world s))) = Ok conversations /\
    ta_sources (check_env s') = ta_sources (check_env s) /\ cert_sources (check_env s') = cert_sources (check_env s) /\
    crl_sources (check_env s') = crl_sources (check_env s) ++ sources /\
    NoDup crls.*1 /\ (forall uri, uri ∈ crls.*1 <-> in_use s credentials conversations uri) /\
    Forall (fun crl => fetched crl.1 crl.2) crls /\
    Forall2 (fun crl source => source_of (check_env s) crl.2 source) crls sources.

Lemma in_context_env {A} (m : st (World M) TransactionError A) s a s1 : in_context m s = (a, s1) -> check_env s1 = check_env s.
Proof. unfold in_context. destruct (m _) as [r w]. by intros [= _ <-]. Qed.

Lemma in_context_session s a s1 : in_context (M := M) session s = (Ok a, s1) -> s1 = s.
Proof.
  unfold in_context, session, valid, st_lift, mbind, st_bind. destruct s as [w e]. cbn.
  destruct (context w); [|done]. by destruct (mls (core w)); intros [= _ <-].
Qed.

Context (conversation_order : gmap bytes Conversation -> list (bytes * Conversation)).
Context (set_order : gset bytes -> list bytes) (hash_order : gmap bytes bytes -> list (bytes * bytes)).

(** Hash tables yield each of their elements once. *)
Definition hash_orders : Prop :=
  (forall m, conversation_order m ≡ₚ map_to_list m) /\ (forall S, set_order S ≡ₚ elements S) /\
  (forall m, hash_order m ≡ₚ map_to_list m).

Lemma refreshed_intro s s' credentials conversations relevant m :
  hash_orders -> load_all_conversations (database (core (check_world s))) = Ok conversations ->
  get_crl_uris (get_trust_anchors (check_env s)) credentials (conversation_order conversations).*2 = Ok relevant ->
  fetch_crls (set_order relevant) ∅ = Ok m ->
  (exists sources, Forall2 (fun crl source => source_of (check_env s) crl.2 source) (hash_order m) sources /\
     ta_sources (check_env s') = ta_sources (check_env s) /\ cert_sources (check_env s') = cert_sources (check_env s) /\
     crl_sources (check_env s') = crl_sources (check_env s) ++ sources) ->
  lists_refreshed s s' credentials.
Proof.
  intros (Ho1 & Ho2 & Ho3) Hconv Huris Hm (sources & Hf & Hta & Hcert & Hcrl).
  destruct (fetch_crls_spec _ _ _ Hm) as [Hdom Hall]. specialize (Hall (map_Forall_empty _)).
  exists conversations, (hash_order m), sources. do 4 (split; [done|]).
  assert (forall x, x ∈ (hash_order m).*1 <-> x ∈ dom m) as Hkeys.
  { intros x. rewrite Ho3. rewrite elem_of_dom. split.
    - intros ([k v] & -> & Hkv%elem_of_map_to_list)%list_elem_of_fmap. by eexists.
    - intros [v Hv]. apply list_elem_of_fmap. exists (x, v). split; [done|]. by apply elem_of_map_to_list. }
  split; [rewrite Ho3; apply NoDup_fst_map_to_list|]. split.
  - intros uri. rewrite Hkeys, Hdom, dom_empty_L, union_empty_l_L, elem_of_list_to_set, Ho2, elem_of_elements.
    rewrite (crl_uris_complete _ _ _ _ uri Huris). unfold in_use. do 2 apply or_iff_compat_l. split.
    + intros (conv & c & Hin & Hc & Hn). rewrite Ho1 in Hin. apply list_elem_of_fmap in Hin as ([id cv] & -> & Hin%elem_of_map_to_list).
      by exists id, cv, c.
    + intros (id & conv & c & Hl & Hc & Hn). exists conv, c. split; [|done]. rewrite Ho1. apply list_elem_of_fmap.
      exists (id, conv). split; [done|]. by apply elem_of_map_to_list.
  - split; [|done]. rewrite Ho3. apply Forall_forall. intros [k v] Hkv%elem_of_map_to_list. by apply Hall.
Qed.

(** C11: [check_credentials] fetches a revocation list from exactly the distribution points that
    the trust anchors, the stored X.509 credentials and the members of the conversations name,
    and adds each list, verified, to the environment.  It succeeds only if every stored
    credential validates in that environment; when it reports invalid credentials, they are
    exactly the stored ones that do not validate in it, in their order. *)
Theorem check_reports_invalid s r s' credentials :
  hash_orders -> credential_get_all (database (core (check_world s))) = Ok credentials ->
  check_credentials (M := M) conversation_order set_order hash_order s = (r, s') ->
  match r with
  | Ok _ => lists_refreshed s s' credentials /\ forall c, c ∈ credentials -> credential_check (check_env s') c = Ok ()
  | Err (CheckInvalid refs) =>
      lists_refreshed s s' credentials /\
      refs = map ref_from_credential (filter (fails (check_env s')) credentials) /\ refs <> []
  | _ => True
  end.
Proof.
  intros Ho Hall H. unfold check_credentials in H.
  quiet_step H ltac:(apply quiet_in_context). apply in_context_valid in Hs as ->.
  quiet_step H ltac:(apply quiet_in_context). apply in_context_pki in Hs as ->.
  quiet_step H ltac:(apply quiet_in_context). apply in_context_read in Hs as [-> Hs]. rewrite Hall in Hs. injection Hs as <-.
  quiet_step H ltac:(by apply quiet_lift). injection Hs as <- <-.
  quiet_step H ltac:(apply quiet_in_context). apply in_context_session in Hs as ->.
  quiet_step H ltac:(apply quiet_in_context). apply in_context_read in Hs as [-> Hs].
  destruct (load_all_conversations _) as [conversations| |] eqn:Hconv; try done. injection Hs as <-.
  quiet_step H ltac:(apply quiet_lift; intros ?; by destruct (get_crl_uris _ _ _)).
  unfold st_lift in Hs. destruct (get_crl_uris _ _ _) as [relevant| |] eqn:Huris; try done. injection Hs as <- <-.
  quiet_step H ltac:(apply quiet_in_context). apply in_context_env in Hs. rename Hs into Henv.
  quiet_step H ltac:(apply quiet_lift; intros ?; by destruct (fetch_crls _ _)).
  rename Hs into Hfetch. unfold st_lift in Hfetch. destruct (fetch_crls _ _) as [m| |] eqn:Hm; try done. injection Hfetch as <- <-.
  quiet_step H ltac:(apply quiet_save_crls).
  match type of Hs with save_crls _ _ = (Ok ?u, _) => destruct u end. apply save_crls_sources in Hs. rewrite Henv in Hs.
  match type of H with _ ?s2 = _ => assert (lists_refreshed s s2 credentials) as Hlists by (by eapply refreshed_intro) end.
  unfold st_lift, mbind, st_bind in H.
  match type of H with context [invalid_refs ?env _] => destruct (invalid_refs env credentials) as [refs|e|] eqn:E end.
  - apply invalid_refs_spec in E. destruct refs as [|x refs]; injection H as <- <-; (split; [done|]); [|by rewrite <- E].
    apply all_valid. destruct (filter _ credentials); [done|discriminate E].
  - by apply invalid_refs_no_err in E.
  - by injection H as <- _.
Qed.
End outcome.

(** ** The type of stored credentials *)

Section types.
Context `{X : Externals, O : OpenMls, Mc : MlsCredentials, Cc : !CredentialCertificates O Mc, !CredentialCertificatesLaws Cc}.
Context `{L : X509Lib, K : !PkiLib L, R : !PathLib L}.

Lemma mapM_Ok_elem {E A B} (f : A -> res E B) l r b : mapM f l = Ok r -> b ∈ r -> exists a, a ∈ l /\ f a = Ok b.
Proof.
  revert r. induction l as [|a l IH]; cbn; intros r H Hb.
  - injection H as <-. by apply not_elem_of_nil in Hb.
  - apply bind_Ok in H as (b' & Hf & (r' & Hr & [= <-])%bind_Ok). apply elem_of_cons in Hb as [->|Hb].
    + exists a. split; [left|done].
    + destruct (IH r' Hr Hb) as (a' & Ha & Hfa). exists a'. split; [by right|done].
Qed.

(** A credential that was read has the type of its MLS credential. *)
Lemma read_credential_x509 stored c : credential_try_from stored = Ok c -> credential_type c = X509 ->
  is_Some (certificates_of (mls_credential c)).
Proof.
  unfold credential_try_from. intros (m & _ & (cs & _ & (ty & Hty & [= <-])%bind_Ok)%bind_Ok)%bind_Ok. cbn. intros ->.
  apply certificates_kind. by destruct (mls_credential_kind m).
Qed.

Lemma any_path_no_panic {P : Type} (vp : bool -> P -> option PathValidationStatus * P) cr b b' paths r :
  r <> Panic -> any_path vp cr b b' paths r <> Panic.
Proof.
  revert b' r. induction paths as [|p paths IH]; cbn; intros b' r Hr; [done|].
  unfold path_outcome, check_cpr. repeat case_match; simplify_eq; try done; by apply IH.
Qed.

Lemma pki_validate_no_panic env cert : (forall toi, paths_for_target env cert toi <> Panic) -> pki_validate_cert env cert <> Panic.
Proof.
  intros Hp. unfold pki_validate_cert, validate_cert_and_revocation, validate_cert_internal. destruct clock_now as [toi|]; [|done].
  cbn. specialize (Hp toi). destruct (paths_for_target env cert toi) as [[|p ps]| |]; try done. by apply any_path_no_panic.
Qed.

(** The type recorded with a credential read from the keystore is that of its MLS
    credential, so the [expect] of [Credential::check] holds: checking such a credential
    never panics. *)
Theorem stored_credential_check_total env db credentials c :
  (forall cert toi, paths_for_target env cert toi <> Panic) ->
  credential_get_all db = Ok credentials -> c ∈ credentials ->
  credential_check env c <> Panic.
Proof.
  intros Hp (found & _ & Hm)%bind_Ok Hc. destruct (mapM_Ok_elem _ _ _ _ Hm Hc) as (stored & _ & Hs).
  unfold credential_check. destruct (decide _) as [Ht|]; [|done].
  destruct (read_credential_x509 _ _ Hs Ht) as [chain Hch]. unfold parse_leaf_cert, parse_leaf. rewrite Hch.
  destruct (head chain) as [leaf|]; [|done]. cbn. destruct (cert_from_der leaf) as [cert|]; [|done]. cbn.
  pose proof (pki_validate_no_panic env cert (Hp cert)). by destruct (pki_validate_cert env cert).
Qed.
End types.

(** ** Runs *)

(** A basic and an X.509 credential, whose certificate no path leads to, are stored. *)
Definition demo_credential (id pk : string) (ty : CredentialType) : Credential (Mc := toy_mixed) :=
  MkCredential (Mc := toy_mixed) 1 ty (bstr id) (MkKeys 1 (bstr "sk") (bstr pk)) 1700000000.
Definition demo_saved (c : Credential (Mc := toy_mixed)) (db : Database) : Database :=
  snd (credential_save (Mc := toy_mixed) (Some 1700000000%Z) c db).
Definition demo_checked_db : Database :=
  demo_saved (demo_credential "xbad" "k2" X509) (demo_saved (demo_credential "me" "k1" Basic) demo_started).
Definition demo_check : CheckWorld (L := toy_x509) (M := ToyLru nat) :=
  MkCheck (MkWorld (MkCore demo_checked_db (Some 0) (Some (session_new (bstr "me"))) [] []) (Valid []))
    (MkPki (L := toy_x509) [[bstr "root"]] [[bstr "bad"]] [] demo_checked_db).
Definition demo_read : list (Credential (Mc := toy_mixed)) :=
  match credential_get_all (Mc := toy_mixed) demo_checked_db with Ok l => l | _ => [] end.

Lemma crl_uris_complete_witness :
  bstr "bob" ∈ (match get_crl_uris (Cc := toy_certificates) (K := toy_pki) [bstr "root"] []
                  [MkConversation (O := toy_openmls) (bstr "c") (MkToyGroup (bstr "c") x00 true false false Persisted) (config_of_ciphersuite 1)]
                with Ok s => s | _ => ∅ end).
Proof.
  apply (crl_uris_complete (Cc := toy_certificates) (K := toy_pki) [bstr "root"] []
    [MkConversation (O := toy_openmls) (bstr "c") (MkToyGroup (bstr "c") x00 true false false Persisted) (config_of_ciphersuite 1)]).
  - reflexivity.
  - right; right. eexists _, (bstr "xbob"). split; [left|]. split; [right; left|]. exists [bstr "bob"]. split; [reflexivity|].
    exists (bstr "bob"), (bstr "bob"). split; [left|]. split; [reflexivity|]. eexists. split; [reflexivity|]. set_solver.
Defined.

Definition demo_run : res CheckError () * CheckWorld (L := toy_x509) (M := ToyLru nat) :=
  check_credentials (Cc := toy_certificates) (K := toy_pki) (R := toy_strict_paths) map_to_list elements map_to_list demo_check.

Lemma check_reports_invalid_witness :
  fst demo_run = Err (CheckInvalid [ref_from_credential (demo_credential "xbad" "k2" X509)]) /\
  [ref_from_credential (demo_credential "xbad" "k2" X509)] =
    map ref_from_credential (filter (fails (Cc := toy_certificates) (K := toy_pki) (R := toy_strict_paths)
      (check_env (snd demo_run))) demo_read).
Proof.
  pose proof (check_reports_invalid (Cc := toy_certificates) (K := toy_pki) (R := toy_strict_paths) (M := ToyLru nat)
    map_to_list elements map_to_list demo_check (fst demo_run) (snd demo_run) demo_read
    (conj (fun _ => Permutation_refl _) (conj (fun _ => Permutation_refl _) (fun _ => Permutation_refl _)))
    eq_refl (surjective_pairing _)) as H.
  assert (fst demo_run = Err (CheckInvalid [ref_from_credential (demo_credential "xbad" "k2" X509)])) as Hrun
    by (vm_compute; reflexivity).
  rewrite Hrun in H. exact (conj Hrun (proj1 (proj2 H))).
Defined.

Lemma stored_credential_check_total_witness :
  credential_check (Cc := toy_certificates) (K := toy_pki) (R := toy_strict_paths) (check_env demo_check)
    (demo_credential "xbad" "k2" X509) <> Panic.
Proof.
  apply (stored_credential_check_total (Cc := toy_certificates) (K := toy_pki) (R := toy_strict_paths) (check_env demo_check)
    demo_checked_db demo_read).
  - intros cert toi. cbn. by destruct (decide _).
  - reflexivity.
  - vm_compute. first [left | right; left].
Defined.
