(* ===== verification/Migrations.v ===== *)
(** * Migrations of the SQLite keystore

    [keystore/src/migrations.rs], the meta migrations 16, 18 and 19 of
    [keystore/src/connection/platform/generic], the SQL migrations around them and the loop
    that runs both.  Migrations merge the table of credentials with that of signature keys,
    then replace the signature scheme of a credential by a cipher suite, then remove
    credentials that share a key.  Parsing is OpenMLS's and the X.509 library's; running SQL
    migrations is the runner's ([refinery]). *)

From S2P Require Import Prelude Keys Entities Sql KeystoreErrors CryptoErrors.
From Stdlib Require Import Lia ZArith.

(** ** Entities of older schemas *)

Record V5Credential : Type := MkV5 { v5_id : bytes; v5_credential : bytes; v5_created_at : Z }.

Record StoredSignatureKeypair : Type := MkKeypair {
  kp_signature_scheme : Z;
  kp_pk : bytes;
  kp_keypair : bytes;
  kp_credential_id : bytes;
}.

Record V6Credential : Type := MkV6 {
  v6_session_id : bytes;
  v6_credential : bytes;
  v6_created_at : Z;
  v6_signature_scheme : Z;
  v6_public_key : bytes;
  v6_private_key : bytes;
}.

(** [Ciphersuite] and [SignatureScheme], with their numbers. *)
Definition ED25519_AES : Z := 1.
Definition P256_AES : Z := 2.
Definition ED25519_CHACHA : Z := 3.
Definition ED448_AES : Z := 4.
Definition P521_AES : Z := 5.
Definition ED448_CHACHA : Z := 6.
Definition P384_AES : Z := 7.

Inductive Scheme : Type := SchemeP256 | SchemeP384 | SchemeP521 | SchemeEd25519 | SchemeEd448.

Definition scheme_try_from (n : Z) : option Scheme :=
  if (n =? 0x0403)%Z then Some SchemeP256 else
  if (n =? 0x0503)%Z then Some SchemeP384 else
  if (n =? 0x0603)%Z then Some SchemeP521 else
  if (n =? 0x0807)%Z then Some SchemeEd25519 else
  if (n =? 0x0808)%Z then Some SchemeEd448 else None.

(** ** Libraries *)

Inductive ParsedCredential : Type := ParsedBasic (identity : bytes) | ParsedX509 (chain : list bytes).

Class MigrationLib : Type := {
  (** [tls_deserialize_exact] of a key pair: its private and public key; of a credential. *)
  keypair_deserialize : bytes -> option (bytes * bytes);
  credential_deserialize : bytes -> option ParsedCredential;
  (** The identity of a parsed credential, and the public key of an encoded certificate. *)
  leaf_public_key : bytes -> option bytes;
  (** [deser::<MlsGroup>] followed by [ciphersuite]. *)
  group_ciphersuite : bytes -> option Z;
}.

Section migrations.
Context `{ML : MigrationLib}.

Abbreviation MigrationFailed := KeystoreError.MigrationFailed.

(** ** Merging credentials and keys *)

(** [v5_credential_matches_signature_key]. *)
Definition v5_credential_matches_signature_key (c : V5Credential) (kp : StoredSignatureKeypair) (public : bytes) : kres bool :=
  mls_credential ← ok_or (credential_deserialize (v5_credential c)) MigrationFailed;
  match mls_credential with
  | ParsedBasic identity => Ok (bool_decide (kp_credential_id kp = identity))
  | ParsedX509 chain =>
      leaf ← ok_or (head chain) MigrationFailed;
      credential_public_key ← ok_or (leaf_public_key leaf) MigrationFailed;
      Ok (bool_decide (public = credential_public_key))
  end.

(** [migrate_to_new_credential]. *)
Definition migrate_to_new_credential (c : V5Credential) (kp : StoredSignatureKeypair) : kres (option V6Credential) :=
  '(private, public) ← ok_or (keypair_deserialize (kp_keypair kp)) MigrationFailed;
  matches ← v5_credential_matches_signature_key c kp public;
  if negb matches then Ok None else
  Ok (Some (MkV6 (v5_id c) (v5_credential c) (v5_created_at c) (kp_signature_scheme kp) (kp_pk kp) private)).

(** ** Cipher suites in use *)

(** [CiphersuiteOccurences]: counters of 32 bits. *)
Record CiphersuiteOccurences : Type := MkOcc {
  ed25519_aes : Z;
  ed25519_chacha : Z;
  ed448_aes : Z;
  ed448_chacha : Z;
}.

Definition no_occurences : CiphersuiteOccurences := MkOcc 0 0 0 0.

(** [CiphersuiteOccurences::of]. *)
Definition occ_of (o : CiphersuiteOccurences) (ciphersuite : Z) : option Z :=
  if (ciphersuite =? ED25519_AES)%Z then Some (ed25519_aes o) else
  if (ciphersuite =? ED25519_CHACHA)%Z then Some (ed25519_chacha o) else
  if (ciphersuite =? ED448_AES)%Z then Some (ed448_aes o) else
  if (ciphersuite =? ED448_CHACHA)%Z then Some (ed448_chacha o) else None.

(** [+= 1] on a [u32] in a release build. *)
Definition inc (n : Z) : Z := ((n + 1) mod 2 ^ 32)%Z.

Definition count_one (o : CiphersuiteOccurences) (ciphersuite : Z) : CiphersuiteOccurences :=
  if (ciphersuite =? ED25519_AES)%Z
  then MkOcc (inc (ed25519_aes o)) (ed25519_chacha o) (ed448_aes o) (ed448_chacha o) else
  if (ciphersuite =? ED25519_CHACHA)%Z
  then MkOcc (ed25519_aes o) (inc (ed25519_chacha o)) (ed448_aes o) (ed448_chacha o) else
  if (ciphersuite =? ED448_AES)%Z
  then MkOcc (ed25519_aes o) (ed25519_chacha o) (inc (ed448_aes o)) (ed448_chacha o) else
  if (ciphersuite =? ED448_CHACHA)%Z
  then MkOcc (ed25519_aes o) (ed25519_chacha o) (ed448_aes o) (inc (ed448_chacha o)) else o.

(** [count_ciphersuite_occurences], of the states of the persisted groups. *)
Definition count_ciphersuite_occurences (groups : list bytes) : kres CiphersuiteOccurences :=
  for_each (fun state o =>
    ciphersuite ← ok_or (group_ciphersuite state) KeystoreError.KeyStoreValueTransformError;
    Ok (count_one o ciphersuite)) groups no_occurences.

(** The cipher suite chosen for a scheme two suites have. *)
Definition more_used (suite_a suite_b a b : Z) : option Z :=
  if (a =? 0)%Z && (b =? 0)%Z then None else if (b <=? a)%Z then Some suite_a else Some suite_b.

(** [make_ciphersuite_for_signature_scheme]: the closure, for the counts. *)
Definition ciphersuite_for_signature_scheme (o : CiphersuiteOccurences) (signature_scheme : Z) : option Z :=
  scheme ← scheme_try_from signature_scheme;
  match scheme with
  | SchemeP256 => Some P256_AES
  | SchemeP384 => Some P384_AES
  | SchemeP521 => Some P521_AES
  | SchemeEd25519 => more_used ED25519_AES ED25519_CHACHA (ed25519_aes o) (ed25519_chacha o)
  | SchemeEd448 => more_used ED448_AES ED448_CHACHA (ed448_aes o) (ed448_chacha o)
  end.

(** [make_least_used_ciphersuite]: the closure, for the counts. *)
Definition least_used_ciphersuite (o : CiphersuiteOccurences) (suite_a suite_b : Z) : option Z :=
  match occ_of o suite_a, occ_of o suite_b with
  | None, _ | _, None => None
  | Some a, Some b =>
      if (a =? 0)%Z && (b =? 0)%Z then None else
      if (a <? b)%Z then Some suite_a else
      if (a =? b)%Z then (if (suite_b <? suite_a)%Z then Some suite_a else Some suite_b)
      else Some suite_b
  end.

(** [detect_duplicate_credentials]. *)
Fixpoint detect_duplicate_credentials (creds : list StoredCredential) : list (StoredCredential * StoredCredential) :=
  match creds with
  | [] => []
  | a :: creds =>
      map (fun b => (a, b)) (filter (fun b => cred_public_key a = cred_public_key b) creds) ++
      detect_duplicate_credentials creds
  end.

(** ** Tables *)

(** The table of credentials, with the columns it has over time; rows of the first kind
    have row ids. *)
Inductive CredentialTable : Type :=
  | TableV5 (rows : list (Z * V5Credential))
  | TableV6 (rows : list V6Credential)
  | TableV7 (rows : list StoredCredential)
  | TableV8 (rows : list StoredCredential).

Record Tables : Type := MkTables {
  mls_credentials : option CredentialTable;
  mls_credentials_new : option CredentialTable;
  mls_signature_keypairs : option (list StoredSignatureKeypair);
  mls_groups : list bytes;
}.

(** The SQL migrations from 16 to 20; a statement fails when a table is missing, or exists
    already, or a unique column repeats a value. *)
Definition V16_prepare_credential_merge (t : Tables) : option Tables :=
  match mls_credentials_new t with
  | Some _ => None
  | None => Some (MkTables (mls_credentials t) (Some (TableV6 [])) (mls_signature_keypairs t) (mls_groups t))
  end.

Definition V17_merge_credential_and_signature_scheme (t : Tables) : option Tables :=
  match mls_credentials t, mls_signature_keypairs t, mls_credentials_new t with
  | Some _, Some _, Some renamed => Some (MkTables (Some renamed) None None (mls_groups t))
  | _, _, _ => None
  end.

Definition V18_prepare_credential_ciphersuite (t : Tables) : option Tables :=
  match mls_credentials_new t with
  | Some _ => None
  | None => Some (MkTables (mls_credentials t) (Some (TableV7 [])) (mls_signature_keypairs t) (mls_groups t))
  end.

Definition V19_perform_credential_ciphersuite (t : Tables) : option Tables :=
  match mls_credentials t, mls_credentials_new t with
  | Some _, Some renamed => Some (MkTables (Some renamed) None (mls_signature_keypairs t) (mls_groups t))
  | _, _ => None
  end.

Definition V20_credentials_new_primary_key (hash : bytes -> bytes) (t : Tables) : option Tables :=
  match mls_credentials t, mls_credentials_new t with
  | Some (TableV7 rows), None =>
      if decide (NoDup (map (fun c => hash (cred_public_key c)) rows))
      then Some (MkTables (Some (TableV8 rows)) None (mls_signature_keypairs t) (mls_groups t)) else None
  | _, _ => None
  end.

(** ** Meta migrations

    Each runs in a transaction of its own, which an error rolls back. *)

Definition sql_failed {A} : kres A := Err (KeystoreError.DbError (NoSuchTable "mls_credentials")).

(** The loop of migration 16 over the joined rows the cursor yields: row id, credential and
    key. *)
Fixpoint v16_rows (rows : list (Z * V5Credential * StoredSignatureKeypair)) (old : list (Z * V5Credential))
    (new : list V6Credential) : kres (list (Z * V5Credential) * list V6Credential) :=
  match rows with
  | [] => Ok (old, new)
  | (rowid, v5, kp) :: rows =>
      migrated ← migrate_to_new_credential v5 kp;
      match migrated with
      | Some c => v16_rows rows (filter (fun r => r.1 <> rowid) old) (new ++ [c])
      | None => v16_rows rows old new
      end
  end.

Definition v16_meta_migration
    (join : list (Z * V5Credential) -> list StoredSignatureKeypair -> list (Z * V5Credential * StoredSignatureKeypair))
    (t : Tables) : kres Tables :=
  match mls_credentials t, mls_signature_keypairs t, mls_credentials_new t with
  | Some (TableV5 old), Some keypairs, Some (TableV6 new) =>
      '(old', new') ← v16_rows (join old keypairs) old new;
      Ok (MkTables (Some (TableV5 old')) (Some (TableV6 new')) (Some keypairs) (mls_groups t))
  | _, _, _ => sql_failed
  end.

(** Migration 18: a credential without a cipher suite is not copied. *)
Definition v18_row (o : CiphersuiteOccurences) (c : V6Credential) : option StoredCredential :=
  ciphersuite ← ciphersuite_for_signature_scheme o (v6_signature_scheme c);
  Some {| cred_session_id := v6_session_id c; cred_credential := v6_credential c; cred_created_at := v6_created_at c;
          cred_ciphersuite := ciphersuite; cred_public_key := v6_public_key c; cred_private_key := v6_private_key c |}.

Definition v18_meta_migration (t : Tables) : kres Tables :=
  o ← count_ciphersuite_occurences (mls_groups t);
  match mls_credentials t, mls_credentials_new t with
  | Some (TableV6 rows), Some (TableV7 new) =>
      Ok (MkTables (mls_credentials t) (Some (TableV7 (new ++ omap (v18_row o) rows))) (mls_signature_keypairs t)
            (mls_groups t))
  | _, _ => sql_failed
  end.

(** Migration 19: the statement executed for a pair of duplicates. *)
Definition delete_duplicate (o : CiphersuiteOccurences) (pair : StoredCredential * StoredCredential)
    (rows : list StoredCredential) : list StoredCredential :=
  match least_used_ciphersuite o (cred_ciphersuite pair.1) (cred_ciphersuite pair.2) with
  | None => filter (fun c => cred_public_key c <> cred_public_key pair.1) rows
  | Some suite =>
      filter (fun c => ~ (cred_public_key c = cred_public_key pair.1 /\ cred_ciphersuite c = suite)) rows
  end.

Definition deduplicate (o : CiphersuiteOccurences) (rows : list StoredCredential) : list StoredCredential :=
  foldl (fun rows pair => delete_duplicate o pair rows) rows (detect_duplicate_credentials rows).

Definition v19_meta_migration (t : Tables) : kres Tables :=
  o ← count_ciphersuite_occurences (mls_groups t);
  match mls_credentials t with
  | Some (TableV7 rows) =>
      Ok (MkTables (Some (TableV7 (deduplicate o rows))) (mls_credentials_new t) (mls_signature_keypairs t) (mls_groups t))
  | _ => sql_failed
  end.
End migrations.

(** ** Running them *)

(** A connection: the last SQL migration in the history of the runner, the schema version
    pragma and the tables. *)
Record Connection : Type := MkConn { applied : Z; schema_version : Z; tables : Tables }.

(** The runner: [run_to v] runs the SQL migrations up to [v] that are not in its history, each
    in a transaction, and reports their versions. *)
Class MigrationRunner : Type := {
  (** The SQL migrations before 16 and after 20, and the hash function given to SQL. *)
  other_migration : Z -> Tables -> option Tables;
  sha256_blob : bytes -> bytes;
  run_to : Z -> Connection -> option (list Z) * Connection;
}.

Definition sql_migration `{MR : MigrationRunner} (version : Z) : Tables -> option Tables :=
  if (version =? 16)%Z then V16_prepare_credential_merge else
  if (version =? 17)%Z then V17_merge_credential_and_signature_scheme else
  if (version =? 18)%Z then V18_prepare_credential_ciphersuite else
  if (version =? 19)%Z then V19_perform_credential_ciphersuite else
  if (version =? 20)%Z then V20_credentials_new_primary_key sha256_blob else other_migration version.

Class MigrationRunnerLaws (MR : MigrationRunner) : Prop := {
  run_to_done v c : (v <= applied c)%Z -> run_to v c = (Some [], c);
  run_to_next v c t : (v = applied c + 1)%Z -> sql_migration v (tables c) = Some t ->
    exists sv, run_to v c = (Some [v], MkConn v sv t);
  run_to_fails v c : (v = applied c + 1)%Z -> sql_migration v (tables c) = None -> run_to v c = (None, c);
}.

Inductive MigrationTarget : Type := Latest | Version (v : Z).

Section runner.
Context `{ML : MigrationLib, MR : MigrationRunner}.
Context (join : list (Z * V5Credential) -> list StoredSignatureKeypair -> list (Z * V5Credential * StoredSignatureKeypair)).

Definition LATEST : Z := 22.

(** [run_meta_migration]; [MIGRATION_VERSION]s are those of the modules. *)
Definition meta_migration (version : Z) (t : Tables) : kres Tables :=
  if (version =? 16)%Z then v16_meta_migration join t else
  if (version =? 18)%Z then v18_meta_migration t else
  if (version =? 19)%Z then v19_meta_migration t else Ok t.

Definition run_meta_migration (version : Z) : st Connection KeystoreError.t () := fun c =>
  match meta_migration version (tables c) with
  | Ok t => (Ok (), MkConn (applied c) (schema_version c) t)
  | Err e => (Err e, c)
  | Panic => (Panic, c)
  end.

Definition maximum (l : list Z) : option Z :=
  match l with [] => None | v :: l => Some (foldl Z.max v l) end.

(** The body of the loop of [run_migrations]. *)
Definition migration_step (version : Z) : st Connection KeystoreError.t () :=
  report ← st_of (fun c => let '(r, c) := run_to version c in (ok_or r KeystoreError.DbMigrationError, c));
  match maximum report with
  | None => mret ()
  | Some updated_version =>
      _ ← run_meta_migration updated_version;
      st_of (fun c => (Ok (), MkConn (applied c) updated_version (tables c)))
  end.

Fixpoint migration_loop (versions : list Z) : st Connection KeystoreError.t () :=
  match versions with
  | [] => mret ()
  | v :: versions => _ ← migration_step v; migration_loop versions
  end.

(** [run_migrations]. *)
Definition target_version (target : MigrationTarget) : Z :=
  match target with Latest => LATEST | Version v => Z.min LATEST v end.

Definition run_migrations (target : MigrationTarget) : st Connection KeystoreError.t () :=
  migration_loop (seqZ 1 (target_version target)).
End runner.

(** ** A concrete runner, and parsers: a key pair is a private and a public byte, a credential
    its identity, unless it is empty, and the state of a group the number of its suite. *)

#[export] Instance toy_migration : MigrationLib := {|
  keypair_deserialize b := match b with [private; public] => Some ([private], [public]) | _ => None end;
  credential_deserialize b := match b with [] => None | _ => Some (ParsedBasic b) end;
  leaf_public_key := Some;
  group_ciphersuite b := match b with [x] => Some (byte_to_Z x) | _ => None end;
|}.

Definition toy_sql (version : Z) (t : Tables) : option Tables :=
  if (version =? 16)%Z then V16_prepare_credential_merge t else
  if (version =? 17)%Z then V17_merge_credential_and_signature_scheme t else
  if (version =? 18)%Z then V18_prepare_credential_ciphersuite t else
  if (version =? 19)%Z then V19_perform_credential_ciphersuite t else
  if (version =? 20)%Z then V20_credentials_new_primary_key (fun b => b) t else Some t.

#[export] Instance toy_runner : MigrationRunner := {|
  other_migration _ := Some;
  sha256_blob b := b;
  run_to v c :=
    if (v <=? applied c)%Z then (Some [], c) else
    match toy_sql v (tables c) with
    | Some t => (Some [v], MkConn v (schema_version c) t)
    | None => (None, c)
    end;
|}.

Lemma toy_sql_eq v t : sql_migration (MR := toy_runner) v t = toy_sql v t.
Proof. unfold sql_migration, toy_sql. by repeat case_match. Qed.

#[export] Instance toy_runner_laws : MigrationRunnerLaws toy_runner.
Proof.
  split; cbn.
  - intros v c Hv. by rewrite (proj2 (Z.leb_le _ _) Hv).
  - intros v c t -> Hs. rewrite toy_sql_eq in Hs. rewrite (proj2 (Z.leb_gt _ _)) by lia. rewrite Hs. by eexists.
  - intros v c -> Hs. rewrite toy_sql_eq in Hs. rewrite (proj2 (Z.leb_gt _ _)) by lia. by rewrite Hs.
Qed.

(** The nested loop of a join on the id of the credential. *)
Definition toy_join (old : list (Z * V5Credential)) (keypairs : list StoredSignatureKeypair) :
    list (Z * V5Credential * StoredSignatureKeypair) :=
  old ≫= fun r => map (fun kp => (r.1, r.2, kp)) (filter (fun kp => kp_credential_id kp = v5_id r.2) keypairs).
