(* ===== verification/MigrationProps.v ===== *)
(** * What the migrations do to credentials

    Every SQL migration is followed by its meta migration, once; the suite chosen for a
    credential is the one most conversations use; after the removal of duplicates keys are
    unique, and credentials repeated under one suite are lost; so are all of them when
    the first meta migration fails. *)

From S2P Require Import Prelude Keys Entities Sql KeystoreErrors CryptoErrors Migrations.
From Stdlib Require Import Lia ZArith.

(** ** Duplicates *)

Section duplicates.
Implicit Types rows creds : list StoredCredential.

Lemma detect_pair creds a b : (a, b) ∈ detect_duplicate_credentials creds <->
  sublist [a; b] creds /\ cred_public_key a = cred_public_key b.
Proof.
  induction creds as [|x creds IH]; cbn.
  - rewrite sublist_nil_r. split; [by intros []%not_elem_of_nil|naive_solver].
  - rewrite elem_of_app, IH, list_elem_of_fmap. setoid_rewrite list_elem_of_filter. split.
    + intros [(y & [= -> ->] & Hk & Hy)|[Hs Hk]]; (split; [|done]); [|by apply sublist_cons].
      apply sublist_skip. by apply singleton_sublist_l.
    + intros [Hs Hk]. inversion Hs as [|y l k Hb|y l k Hb]; subst; [left|by right].
      exists b. split; [done|]. split; [done|]. by apply singleton_sublist_l.
Qed.

(** What a deletion keeps. *)
Definition kept (o : CiphersuiteOccurences) (pair : StoredCredential * StoredCredential) (c : StoredCredential) : Prop :=
  cred_public_key c <> cred_public_key pair.1 \/
  exists suite, least_used_ciphersuite o (cred_ciphersuite pair.1) (cred_ciphersuite pair.2) = Some suite /\
    cred_ciphersuite c <> suite.

Lemma delete_duplicate_elem o pair rows c : c ∈ delete_duplicate o pair rows <-> c ∈ rows /\ kept o pair c.
Proof.
  unfold delete_duplicate, kept. destruct (least_used_ciphersuite _ _ _) as [suite|]; rewrite list_elem_of_filter.
  - destruct (decide (cred_public_key c = cred_public_key pair.1)), (decide (cred_ciphersuite c = suite)); naive_solver.
  - naive_solver.
Qed.

Lemma delete_all_elem o pairs rows c :
  c ∈ foldl (fun rows pair => delete_duplicate o pair rows) rows pairs <-> c ∈ rows /\ Forall (fun pair => kept o pair c) pairs.
Proof.
  revert rows. induction pairs as [|p pairs IH]; cbn; intros rows; [rewrite Forall_nil; naive_solver|].
  rewrite IH, delete_duplicate_elem, Forall_cons. naive_solver.
Qed.

Lemma deduplicate_elem o rows c :
  c ∈ deduplicate o rows <-> c ∈ rows /\ Forall (fun pair => kept o pair c) (detect_duplicate_credentials rows).
Proof. apply delete_all_elem. Qed.

Lemma delete_all_sublist o pairs rows :
  sublist (foldl (fun rows pair => delete_duplicate o pair rows) rows pairs) rows.
Proof.
  revert rows. induction pairs as [|p pairs IH]; cbn; intros rows; [done|]. etrans; [apply IH|].
  unfold delete_duplicate. destruct (least_used_ciphersuite _ _ _); apply sublist_filter.
Qed.

(** A pair is never kept in both parts. *)
Lemma pair_not_kept o a b : cred_public_key a = cred_public_key b -> kept o (a, b) a -> kept o (a, b) b -> False.
Proof.
  unfold kept. cbn. intros Hk [?|(s & Hs & Ha)] [?|(s' & Hs' & Hb)]; try congruence. rewrite Hs in Hs'. injection Hs' as <-.
  unfold least_used_ciphersuite in Hs. repeat case_match; congruence.
Qed.

(** Keys repeat in a list only if two of its elements share one. *)
Lemma nodup_keys rows :
  (forall a b, sublist [a; b] rows -> cred_public_key a = cred_public_key b -> False) -> NoDup (map cred_public_key rows).
Proof.
  induction rows as [|x rows IH]; cbn; intros H; constructor.
  - intros (b & Hb & Hin)%list_elem_of_fmap. apply (H x b); [|done]. apply sublist_skip. by apply singleton_sublist_l.
  - apply IH. intros a b Hs. apply H. by apply sublist_cons.
Qed.

(** Removing the duplicates leaves every public key at most once, so that the unique
    column of the next migration accepts the rows, keeps the rows in their order, and
    removes none whose key was not repeated. *)
Theorem deduplicate_unique o rows :
  NoDup (map cred_public_key (deduplicate o rows)) /\
  sublist (deduplicate o rows) rows /\
  (forall c, c ∈ rows -> (forall a b, sublist [a; b] rows -> cred_public_key a = cred_public_key b ->
     cred_public_key a <> cred_public_key c) -> c ∈ deduplicate o rows).
Proof.
  split_and!; [| |].
  - apply nodup_keys. intros a b Hs Hk.
    assert (Forall (fun c => kept o (a, b) c) [a; b]) as Hf.
    { apply Forall_forall. intros c Hc. assert (c ∈ deduplicate o rows) as Hd by by eapply elem_of_sublist.
      apply deduplicate_elem in Hd as [_ Hd]. rewrite Forall_forall in Hd. apply Hd.
      apply detect_pair. split; [|done]. etrans; [exact Hs|]. apply delete_all_sublist. }
    rewrite !Forall_cons in Hf. destruct Hf as (Ha & Hb & _). by apply (pair_not_kept o a b).
  - apply delete_all_sublist.
  - intros c Hc Hu. apply deduplicate_elem. split; [done|]. apply Forall_forall. intros [a b] Hp. left. cbn.
    intros Heq. apply detect_pair in Hp as (Hs & Hk). by apply (Hu a b Hs Hk).
Qed.

(** Credentials that repeat a key under the same cipher suite are all removed: the
    deletion meant for the least used suite hits both, so the key is lost when no other
    suite has it. *)
Theorem deduplicate_same_suite_lost o rows a b c :
  sublist [a; b] rows -> cred_public_key a = cred_public_key b -> cred_ciphersuite a = cred_ciphersuite b ->
  cred_public_key c = cred_public_key a -> cred_ciphersuite c = cred_ciphersuite a -> c ∉ deduplicate o rows.
Proof.
  intros Hs Hk Hab Hc Hca (_ & Hd)%deduplicate_elem. rewrite Forall_forall in Hd.
  specialize (Hd (a, b) (proj2 (detect_pair _ _ _) (conj Hs Hk))). unfold kept in Hd. cbn in Hd.
  destruct Hd as [?|(s & Hu & Hne)]; [done|]. unfold least_used_ciphersuite in Hu. repeat case_match; congruence.
Qed.
End duplicates.

(** ** Cipher suites in use *)

Section suites.
Context `{ML : MigrationLib}.

(** How many of the groups use a suite. *)
Definition uses (suite : Z) (groups : list bytes) : Z :=
  Z.of_nat (length (filter (fun g => group_ciphersuite g = Some suite) groups)).

Lemma inc_small n k : (0 <= n)%Z -> (n + 1 + Z.of_nat k < 2 ^ 32)%Z -> inc n = (n + 1)%Z.
Proof. intros. unfold inc. apply Z.mod_small. lia. Qed.

Definition occurences_at (o : CiphersuiteOccurences) (suite : Z) : Z := default 0%Z (occ_of o suite).

(** One more group. *)
Lemma count_one_spec o cs suite :
  (forall n, occ_of o cs = Some n -> inc n = (n + 1)%Z) ->
  occ_of (count_one o cs) suite = (fun n => if decide (cs = suite) then (n + 1)%Z else n) <$> occ_of o suite.
Proof.
  unfold occ_of, count_one. intros Hi.
  repeat case_match; cbn in *; simplify_eq; try done;
    repeat match goal with H : (_ =? _)%Z = true |- _ => apply Z.eqb_eq in H; subst | H : (_ =? _)%Z = false |- _ => apply Z.eqb_neq in H end;
    try (rewrite decide_True by congruence); try (rewrite decide_False by congruence); try done; rewrite Hi; done.
Qed.

Lemma count_spec groups o o' :
  for_each (fun state o =>
    ciphersuite ← ok_or (group_ciphersuite state) KeystoreError.KeyStoreValueTransformError;
    Ok (count_one o ciphersuite)) groups o = Ok o' ->
  (forall s n, occ_of o s = Some n -> (0 <= n)%Z /\ (n + Z.of_nat (length groups) < 2 ^ 32)%Z) ->
  forall s n, occ_of o s = Some n -> occ_of o' s = Some (n + uses s groups)%Z.
Proof.
  revert o. induction groups as [|g groups IH]; cbn [for_each]; intros o H Hb s n Hs.
  - injection H as <-. rewrite Hs. unfold uses. cbn. f_equal. lia.
  - destruct (group_ciphersuite g) as [cs|] eqn:Hg; [|done]. cbn in H.
    assert (forall k, occ_of o cs = Some k -> inc k = (k + 1)%Z) as Hi.
    { intros k Hk. destruct (Hb _ _ Hk) as [H0 H1]. cbn [length] in H1. apply (inc_small k (length groups)); lia. }
    unfold uses in *. rewrite filter_cons, Hg. rewrite (IH _ H) with (n := if decide (cs = s) then (n + 1)%Z else n).
    + f_equal. destruct (decide (cs = s)) as [->|Hne].
      * rewrite decide_True by done. cbn [length]. lia.
      * rewrite decide_False by congruence. lia.
    + intros s' n'. rewrite count_one_spec by done. destruct (occ_of o s') as [k|] eqn:Hk; [|done]. intros [= <-].
      destruct (Hb _ _ Hk) as [H0 H1]. cbn [length] in H1. case_decide; lia.
    + rewrite count_one_spec by done. by rewrite Hs.
Qed.

Lemma count_exact groups o s : count_ciphersuite_occurences groups = Ok o -> (Z.of_nat (length groups) < 2 ^ 32)%Z ->
  s ∈ [ED25519_AES; ED25519_CHACHA; ED448_AES; ED448_CHACHA] -> occ_of o s = Some (uses s groups).
Proof.
  intros H Hl Hs. change (uses s groups) with (0 + uses s groups)%Z.
  apply (count_spec groups no_occurences); [done| |].
  - intros s' n. unfold occ_of. cbn. repeat case_match; intros [= <-]; lia.
  - rewrite !elem_of_cons in Hs. by destruct Hs as [->|[->|[->|[->|[]%not_elem_of_nil]]]].
Qed.

(** Of two suites, the one more groups use, the first if as many do, none if none does. *)
Definition prefers (groups : list bytes) (suite_a suite_b : Z) (chosen : option Z) : Prop :=
  match chosen with
  | None => uses suite_a groups = 0%Z /\ uses suite_b groups = 0%Z
  | Some s =>
      (s = suite_a /\ (0 < uses suite_a groups)%Z /\ (uses suite_b groups <= uses suite_a groups)%Z) \/
      (s = suite_b /\ (uses suite_a groups < uses suite_b groups)%Z)
  end.

Lemma more_used_prefers groups a b : prefers groups a b (more_used a b (uses a groups) (uses b groups)).
Proof.
  unfold more_used, prefers. assert (0 <= uses a groups)%Z by (unfold uses; lia). assert (0 <= uses b groups)%Z by (unfold uses; lia).
  destruct (Z.eqb_spec (uses a groups) 0), (Z.eqb_spec (uses b groups) 0), (Z.leb_spec (uses b groups) (uses a groups)); cbn; lia.
Qed.

(** C26: with fewer than 2^32 conversations the counters do not overflow, and a credential
    with an ambiguous signature scheme gets the suite most of the conversations use, the
    one with the smaller number when both are used as much, and none when neither is
    used, as the documentation tabulates. *)
Theorem migrated_suite_most_used groups o :
  (Z.of_nat (length groups) < 2 ^ 32)%Z -> count_ciphersuite_occurences groups = Ok o ->
  prefers groups ED25519_AES ED25519_CHACHA (ciphersuite_for_signature_scheme o 0x0807) /\
  prefers groups ED448_AES ED448_CHACHA (ciphersuite_for_signature_scheme o 0x0808).
Proof.
  intros Hl Hc. pose proof (fun s => count_exact groups o s Hc Hl) as He.
  assert (ed25519_aes o = uses ED25519_AES groups) as E1 by (by injection (He ED25519_AES ltac:(set_solver))).
  assert (ed25519_chacha o = uses ED25519_CHACHA groups) as E2 by (by injection (He ED25519_CHACHA ltac:(set_solver))).
  assert (ed448_aes o = uses ED448_AES groups) as E3 by (by injection (He ED448_AES ltac:(set_solver))).
  assert (ed448_chacha o = uses ED448_CHACHA groups) as E4 by (by injection (He ED448_CHACHA ltac:(set_solver))).
  unfold ciphersuite_for_signature_scheme. cbn. rewrite E1, E2, E3, E4. split; apply more_used_prefers.
Qed.
End suites.


(** ** Running the migrations *)

Section runs.
Context `{ML : MigrationLib, MR : MigrationRunner, !MigrationRunnerLaws MR}.
Context (join : list (Z * V5Credential) -> list StoredSignatureKeypair -> list (Z * V5Credential * StoredSignatureKeypair)).

(** The history of the runner and the tables, after each of the migrations [versions] with its
    meta migration. *)
Fixpoint migrate (versions : list Z) (s : Z * Tables) : kres () * (Z * Tables) :=
  match versions with
  | [] => (Ok (), s)
  | v :: versions =>
      match sql_migration v s.2 with
      | None => (Err KeystoreError.DbMigrationError, s)
      | Some t =>
          match meta_migration join v t with
          | Ok t' => migrate versions (v, t')
          | Err e => (Err e, (v, t))
          | Panic => (Panic, (v, t))
          end
      end
  end.

Lemma step_done v c : (v <= applied c)%Z -> migration_step join v c = (Ok (), c).
Proof. intros Hv. unfold migration_step, mbind, st_bind, st_of. by rewrite (run_to_done v c Hv). Qed.

Lemma loop_skip vs vs' c : Forall (fun v => (v <= applied c)%Z) vs ->
  migration_loop join (vs ++ vs') c = migration_loop join vs' c.
Proof.
  induction vs as [|v vs IH]; cbn; intros H; [done|]. apply Forall_cons in H as [Hv Hvs].
  unfold mbind, st_bind. rewrite step_done by done. by apply IH.
Qed.

(** The versions of a run: those in the history, then the others. *)
Lemma versions_split n c : (0 <= applied c)%Z ->
  exists done, seqZ 1 n = done ++ seqZ (applied c + 1) (n - applied c) /\ Forall (fun v => (v <= applied c)%Z) done.
Proof.
  intros Ha. destruct (Z.le_gt_cases n (applied c)) as [Hn|Hn].
  - exists (seqZ 1 n). rewrite (seqZ_nil _ (n - applied c)) by lia. rewrite app_nil_r. split; [done|].
    apply Forall_forall. intros v Hv%elem_of_seqZ. lia.
  - exists (seqZ 1 (applied c)). split.
    + replace n with (applied c + (n - applied c))%Z at 1 by lia. rewrite seqZ_app by lia. do 2 f_equal; lia.
    + apply Forall_forall. intros v Hv%elem_of_seqZ. lia.
Qed.

Lemma migrate_version_ge n a b t : (b <= a)%Z -> (b <= (migrate (seqZ (a + 1) (Z.of_nat n)) (a, t)).2.1)%Z.
Proof.
  revert a t. induction n as [|n IH]; intros a t Hb; [done|]. rewrite seqZ_cons by lia. cbn [migrate snd].
  destruct (sql_migration _ _) as [t1|]; [|done]. destruct (meta_migration _ _ _) as [t2|e|]; [|cbn; lia..].
  replace (Z.succ (a + 1)) with (a + 1 + 1)%Z by lia. replace (Z.pred (Z.of_nat (S n))) with (Z.of_nat n) by lia.
  apply IH. lia.
Qed.

(** The next migration. *)
Lemma step_next v c : v = (applied c + 1)%Z ->
  match sql_migration v (tables c) with
  | None => migration_step join v c = (Err KeystoreError.DbMigrationError, c)
  | Some t => exists sv,
      migration_step join v c =
      match meta_migration join v t with
      | Ok t' => (Ok (), MkConn v v t')
      | Err e => (Err e, MkConn v sv t)
      | Panic => (Panic, MkConn v sv t)
      end
  end.
Proof.
  intros Hv. unfold migration_step, mbind, st_bind, st_of. destruct (sql_migration v (tables c)) as [t|] eqn:E.
  - destruct (run_to_next v c t Hv E) as [sv ->]. exists sv. cbn. unfold run_meta_migration. cbn.
    by destruct (meta_migration join v t).
  - by rewrite (run_to_fails v c Hv E).
Qed.

Lemma loop_migrate n c : forall k, k = Z.of_nat n ->
  let '(r, c') := migration_loop join (seqZ (applied c + 1) k) c in
  migrate (seqZ (applied c + 1) k) (applied c, tables c) = (r, (applied c', tables c')) /\
  (r = Ok () -> applied c' = (applied c + k)%Z /\ ((0 < k)%Z -> schema_version c' = applied c')).
Proof.
  revert c. induction n as [|n IH]; intros c k ->.
  - cbn. split; [done|]. intros _. split; [lia|lia].
  - rewrite seqZ_cons by lia. cbn [migration_loop migrate snd]. unfold mbind, st_bind at 1.
    pose proof (step_next (applied c + 1) c eq_refl) as Hstep. destruct (sql_migration _ _) as [t|].
    + destruct Hstep as [sv Hstep]. rewrite Hstep. destruct (meta_migration join (applied c + 1) t) as [t'|e|]; [|done..].
      specialize (IH (MkConn (applied c + 1) (applied c + 1) t') (Z.of_nat n) eq_refl). cbn [applied tables] in IH.
      replace (Z.succ (applied c + 1)) with (applied c + 1 + 1)%Z by lia.
      replace (Z.pred (Z.of_nat (S n))) with (Z.of_nat n) by lia.
      destruct (migration_loop join _ _) as [r c'] eqn:El. destruct IH as [Hm Hr]. split; [done|]. intros Hok.
      destruct (Hr Hok) as [Ha Hs]. split; [lia|]. intros _. destruct n as [|n]; [|apply Hs; lia].
      cbn in El. by injection El as <- <-.
    + rewrite Hstep. done.
Qed.

Lemma run_migrate target c r c' : (0 <= applied c)%Z -> run_migrations join target c = (r, c') ->
  migrate (seqZ (applied c + 1) (target_version target - applied c)) (applied c, tables c) = (r, (applied c', tables c')).
Proof.
  intros Ha H. unfold run_migrations in H. set (n := target_version target) in *.
  destruct (versions_split n c Ha) as (done & Hd & Hf). rewrite Hd, loop_skip in H by done.
  destruct (Z.le_gt_cases n (applied c)) as [Hn|Hn].
  - rewrite seqZ_nil in H |- * by lia. by injection H as <- <-.
  - pose proof (loop_migrate (Z.to_nat (n - applied c)) c (n - applied c) ltac:(lia)) as Hl. rewrite H in Hl. apply Hl.
Qed.

Lemma run_idle target c : (0 <= applied c)%Z -> (target_version target <= applied c)%Z ->
  run_migrations join target c = (Ok (), c).
Proof.
  intros H0 Hn. unfold run_migrations. destruct (versions_split (target_version target) c H0) as (d & -> & Hd0).
  rewrite loop_skip by done. by rewrite seqZ_nil by lia.
Qed.

Lemma run_applied target c c' : (0 <= applied c)%Z -> run_migrations join target c = (Ok (), c') ->
  applied c' = Z.max (applied c) (target_version target) /\
  ((applied c < target_version target)%Z -> schema_version c' = target_version target).
Proof.
  intros Ha H. destruct (Z.le_gt_cases (target_version target) (applied c)) as [Hn|Hn].
  - rewrite run_idle in H by lia. injection H as <-. split; lia.
  - unfold run_migrations in H. set (n := target_version target) in *.
    destruct (versions_split n c Ha) as (done & Hd & Hf). rewrite Hd, loop_skip in H by done.
    pose proof (loop_migrate (Z.to_nat (n - applied c)) c (n - applied c) ltac:(lia)) as Hl. rewrite H in Hl.
    destruct (proj2 Hl eq_refl) as [Ha' Hs]. split; [lia|]. intros _. rewrite Hs by lia. lia.
Qed.

(** C12: opening a database runs exactly the migrations that are not in its history, each
    followed by its meta migration, and stops at the first failure; after success the
    schema version is that of the last migration run and opening again does nothing. *)
Theorem migrations_resume target c r c' :
  (0 <= applied c)%Z -> run_migrations join target c = (r, c') ->
  migrate (seqZ (applied c + 1) (target_version target - applied c)) (applied c, tables c) = (r, (applied c', tables c')) /\
  (r = Ok () ->
   applied c' = Z.max (applied c) (target_version target) /\
   ((applied c < target_version target)%Z -> schema_version c' = target_version target) /\
   run_migrations join target c' = (Ok (), c')).
Proof.
  intros Ha H. split; [by apply run_migrate|]. intros ->. destruct (run_applied target c c' Ha H) as [Ha' Hs].
  split_and!; [done|done|apply run_idle; lia].
Qed.

(** ** A meta migration that fails *)

Definition table_empty (t : CredentialTable) : Prop :=
  match t with TableV5 l => l = [] | TableV6 l => l = [] | TableV7 l => l = [] | TableV8 l => l = [] end.

Definition no_credentials (t : Tables) : Prop :=
  (forall table, mls_credentials t = Some table -> table_empty table) /\
  (forall table, mls_credentials_new t = Some table -> table_empty table).

Hypothesis others_add_none : forall v t t', other_migration v t = Some t' -> no_credentials t -> no_credentials t'.

Lemma sql_no_credentials v t t' : sql_migration v t = Some t' -> no_credentials t -> no_credentials t'.
Proof.
  unfold sql_migration. intros H [H1 H2].
  destruct (v =? 16)%Z; [unfold V16_prepare_credential_merge in H; case_match; simplify_eq; split; cbn; [done|by intros ? [= <-]]|].
  destruct (v =? 17)%Z; [unfold V17_merge_credential_and_signature_scheme in H; repeat case_match; simplify_eq; split; cbn; [|done]; intros ? [= <-]; by apply H2|].
  destruct (v =? 18)%Z; [unfold V18_prepare_credential_ciphersuite in H; case_match; simplify_eq; split; cbn; [done|by intros ? [= <-]]|].
  destruct (v =? 19)%Z; [unfold V19_perform_credential_ciphersuite in H; repeat case_match; simplify_eq; split; cbn; [|done]; intros ? [= <-]; by apply H2|].
  destruct (v =? 20)%Z; [|by eapply others_add_none].
  unfold V20_credentials_new_primary_key in H. repeat case_match; simplify_eq. split; cbn; [|done].
  intros ? [= <-]. by apply (H1 (TableV7 _)).
Qed.

Lemma meta_no_credentials v t t' : v <> 16%Z -> meta_migration join v t = Ok t' -> no_credentials t -> no_credentials t'.
Proof.
  intros Hv H [H1 H2]. unfold meta_migration in H. rewrite (proj2 (Z.eqb_neq _ _) Hv) in H.
  destruct (v =? 18)%Z; [|destruct (v =? 19)%Z; [|by injection H as <-]].
  - apply bind_Ok in H as (o & _ & H). repeat case_match; simplify_eq. split; cbn; [done|]. intros ? [= <-].
    pose proof (H1 _ eq_refl) as Ha. pose proof (H2 _ eq_refl) as Hb. cbn in Ha, Hb. by subst.
  - apply bind_Ok in H as (o & _ & H). repeat case_match; simplify_eq. split; cbn; [|done]. intros ? [= <-].
    pose proof (H1 _ eq_refl) as Ha. cbn in Ha. by subst.
Qed.

Lemma migrate_no_credentials vs s : Forall (fun v => v <> 16%Z) vs -> no_credentials s.2 -> no_credentials (migrate vs s).2.2.
Proof.
  revert s. induction vs as [|v vs IH]; intros s Hf Hs; [done|]. apply Forall_cons in Hf as [Hv Hf]. cbn.
  destruct (sql_migration v s.2) as [t|] eqn:E; [|done]. pose proof (sql_no_credentials _ _ _ E Hs) as Ht.
  destruct (meta_migration join v t) as [t'|e|] eqn:Em; [|done..]. apply IH; [done|]. by eapply meta_no_credentials.
Qed.

(** C27: when the meta migration that fills the new table of credentials fails, opening the
    database fails, but its SQL migration stays in the history: opening the database again
    does not run it, drops the old table and keeps the new one, so that all credentials are
    lost, whatever the later migrations do. *)
Theorem failed_merge_loses_credentials c old keypairs e :
  applied c = 15%Z -> mls_credentials (tables c) = Some (TableV5 old) -> mls_credentials_new (tables c) = None ->
  mls_signature_keypairs (tables c) = Some keypairs -> v16_rows (join old keypairs) old [] = Err e ->
  exists c1, run_migrations join Latest c = (Err e, c1) /\
    forall r c2, run_migrations join Latest c1 = (r, c2) -> (17 <= applied c2)%Z /\ no_credentials (tables c2).
Proof.
  intros Ha Hc Hn Hk He. destruct (run_migrations join Latest c) as [r1 c1] eqn:Hrun.
  pose proof (run_migrate Latest c r1 c1 ltac:(lia) Hrun) as H1. rewrite Ha in H1.
  set (t1 := MkTables (Some (TableV5 old)) (Some (TableV6 [])) (Some keypairs) (mls_groups (tables c))).
  assert (sql_migration 16 (tables c) = Some t1) as Hsql.
  { unfold sql_migration. cbn. unfold V16_prepare_credential_merge. by rewrite Hn, Hc, Hk. }
  assert (meta_migration join 16 t1 = Err e) as Hmeta by (cbn; by rewrite He).
  change (seqZ (15 + 1) (target_version Latest - 15)) with (16 :: seqZ 17 6)%Z in H1. cbn [migrate snd] in H1.
  rewrite Hsql, Hmeta in H1. injection H1 as <- Ha1 Ht1. exists c1. split; [done|]. intros r c2 H2.
  apply run_migrate in H2; [|lia]. rewrite <- Ha1, <- Ht1 in H2.
  change (seqZ (16 + 1) (target_version Latest - 16)) with (17 :: seqZ 18 5)%Z in H2. cbn [migrate snd] in H2.
  change (sql_migration 17 t1) with (Some (MkTables (Some (TableV6 [])) None None (mls_groups (tables c)))) in H2.
  change (meta_migration join 17 ?t) with (Ok (E := KeystoreError.t) t) in H2. cbn iota in H2.
  set (s := (17%Z, MkTables (Some (TableV6 [])) None None (mls_groups (tables c)))) in H2.
  assert (no_credentials (migrate (seqZ 18 5) s).2.2) as Hno.
  { apply migrate_no_credentials; [by repeat constructor|]. split; cbn; [by intros ? [= <-]|done]. }
  assert (17 <= (migrate (seqZ 18 5) s).2.1)%Z as Hv by (apply (migrate_version_ge 5 17 17); lia).
  by rewrite H2 in Hno, Hv.
Qed.
End runs.

(** ** Runs *)

Definition demo_stored (pk : byte) (suite : Z) : StoredCredential :=
  {| cred_session_id := [x01]; cred_credential := [x01]; cred_created_at := 0; cred_ciphersuite := suite;
     cred_public_key := [pk]; cred_private_key := [x09] |}.

Lemma deduplicate_same_suite_lost_witness :
  demo_stored x05 1 ∉ deduplicate (MkOcc 3 0 0 0) [demo_stored x05 1; demo_stored x05 1; demo_stored x06 1].
Proof.
  apply (deduplicate_same_suite_lost (MkOcc 3 0 0 0) [demo_stored x05 1; demo_stored x05 1; demo_stored x06 1]
    (demo_stored x05 1) (demo_stored x05 1)); try reflexivity.
  do 2 apply sublist_skip. apply sublist_nil_l.
Defined.

Lemma migrated_suite_most_used_witness :
  prefers [[x03]; [x01]; [x03]] ED25519_AES ED25519_CHACHA (Some ED25519_CHACHA).
Proof.
  pose proof (proj1 (migrated_suite_most_used (ML := toy_migration) [[x03]; [x01]; [x03]] (MkOcc 1 2 0 0)
    eq_refl eq_refl)) as H. exact H.
Defined.

(** A database before the merge; one of the two credentials cannot be read. *)
Definition demo_before (credential : bytes) : Connection :=
  MkConn 15 15 (MkTables (Some (TableV5 [(1%Z, MkV5 [x01] [x01] 0); (2%Z, MkV5 [x02] credential 0)])) None
    (Some [MkKeypair 0x0807 [x05] [x09; x05] [x01]; MkKeypair 0x0403 [x06] [x09; x06] [x02]]) [[x01]]).

Definition demo_migrated : Connection := snd (run_migrations toy_join Latest (demo_before [x02])).

Lemma demo_migrates : run_migrations toy_join Latest (demo_before [x02]) = (Ok (), demo_migrated).
Proof. vm_compute. reflexivity. Qed.

Lemma migrations_resume_witness :
  schema_version demo_migrated = 22%Z /\ run_migrations toy_join Latest demo_migrated = (Ok (), demo_migrated) /\
  mls_credentials (tables demo_migrated) = Some (TableV8
    [{| cred_session_id := [x01]; cred_credential := [x01]; cred_created_at := 0; cred_ciphersuite := 1;
        cred_public_key := [x05]; cred_private_key := [x09] |};
     {| cred_session_id := [x02]; cred_credential := [x02]; cred_created_at := 0; cred_ciphersuite := 2;
        cred_public_key := [x06]; cred_private_key := [x09] |}]).
Proof.
  assert (0 <= applied (demo_before [x02]))%Z as Ha by (vm_compute; discriminate).
  destruct (migrations_resume toy_join Latest (demo_before [x02]) (Ok ()) demo_migrated Ha demo_migrates) as [_ H].
  destruct (H eq_refl) as (_ & Hs & Hr). split; [apply Hs; reflexivity|]. split; [exact Hr|vm_compute; reflexivity].
Defined.

Lemma failed_merge_loses_credentials_witness :
  exists c1, run_migrations toy_join Latest (demo_before []) = (Err KeystoreError.MigrationFailed, c1) /\
    forall r c2, run_migrations toy_join Latest c1 = (r, c2) -> (17 <= applied c2)%Z /\ no_credentials (tables c2).
Proof.
  assert (forall v t t', other_migration (MigrationRunner := toy_runner) v t = Some t' -> no_credentials t -> no_credentials t') as Ho
    by (intros v t t' H; by injection H as <-).
  apply (failed_merge_loses_credentials toy_join Ho (demo_before []) [(1%Z, MkV5 [x01] [x01] 0); (2%Z, MkV5 [x02] [] 0)]
    [MkKeypair 0x0807 [x05] [x09; x05] [x01]; MkKeypair 0x0403 [x06] [x09; x06] [x02]]); vm_compute; reflexivity.
Defined.
