(* ===== verification/ItemEncryption.v ===== *)
(** * Encryption of stored items

    [keystore/src/traits/item_encryption] and the derivation of [Encrypting] and [Decrypting]
    in [crypto-macros/src/entity_derive]: the browser build encrypts the sensitive fields of an
    entity one by one before it stores it.  A field is bound to the collection and the key of
    its entity by the associated data.  AES-GCM is the [aes-gcm] crate's, JSON [serde_json]'s
    and the conversion to JavaScript values [serde-wasm-bindgen]'s. *)

From S2P Require Import Prelude Sql KeystoreErrors.
From Stdlib Require Import Lia ZArith.

(** ** Associated data *)

Definition AES_GCM_256_NONCE_SIZE : nat := 12.

Record Aad : Type := MkAad { aad_type_name : bytes; aad_id : bytes }.

(** [Aad::from], [Aad::from_primary_key] and [Aad::from_encryption_key_bytes]: the name of the
    collection and the bytes of the key. *)
Definition aad_of (collection_name : string) (id : bytes) : Aad := MkAad (bstr collection_name) id.

Class AesGcm : Type := {
  Cipher : Type;
  (** [Aes256Gcm::new]. *)
  cipher_new : bytes -> Cipher;
  (** [Aead::encrypt] and [Aead::decrypt]: nonce, associated data, message. *)
  aead_encrypt : Cipher -> bytes -> bytes -> bytes -> option bytes;
  aead_decrypt : Cipher -> bytes -> bytes -> bytes -> option bytes;
  (** [serde_json::to_vec]. *)
  aad_to_json : Aad -> option bytes;
}.

(** Decryption inverts encryption. *)
Class AesGcmLaws (G : AesGcm) : Prop := {
  aead_decrypt_encrypt c n a m x : aead_encrypt c n a m = Some x -> aead_decrypt c n a x = Some m;
}.

(** Ciphertexts are authentic: a message that is accepted is the encryption of what it decrypts
    to, and is rejected under any other key or associated data. *)
Class AesGcmAuthentic (G : AesGcm) : Prop := {
  aad_to_json_inj a b j : aad_to_json a = Some j -> aad_to_json b = Some j -> a = b;
  aead_encrypt_decrypt c n a m x : aead_decrypt c n a x = Some m -> aead_encrypt c n a m = Some x;
  aead_authentic k k' n a a' m m' x :
    aead_encrypt (cipher_new k) n a m = Some x -> aead_decrypt (cipher_new k') n a' x = Some m' ->
    k' = k /\ a' = a;
}.

(** [rand::random] of the nonces an operation draws, one after the other. *)
Abbreviation Nonces := (nat -> bytes).
Definition nonces_ok (draw : Nonces) : Prop := forall i, length (draw i) = AES_GCM_256_NONCE_SIZE.
Definition skip_nonces (n : nat) (draw : Nonces) : Nonces := fun i => draw (n + i).

Lemma nonces_ok_skip n draw : nonces_ok draw -> nonces_ok (skip_nonces n draw).
Proof. intros H i. apply H. Qed.

Abbreviation AesGcmError := KeystoreError.AesGcmError.
Abbreviation SerdeWasmBindgenError := KeystoreError.SerdeWasmBindgenError.

Section encryption.
Context `{G : AesGcm}.

(** ** Fields *)

(** [encrypt_with_nonce_and_aad]. *)
Definition encrypt_with_nonce_and_aad (cipher : Cipher) (msg nonce aad : bytes) : kres bytes :=
  encrypted ← ok_or (aead_encrypt cipher nonce aad msg) AesGcmError;
  Ok (nonce ++ encrypted).

(** [EncryptData::encrypt_data], and [encrypt_data_with_encryption_key] with the bytes that
    replace the key. *)
Definition encrypt_data (collection : string) (id nonce : bytes) (cipher : Cipher) (data : bytes) : kres bytes :=
  aad ← ok_or (aad_to_json (aad_of collection id)) KeystoreError.SerdeJsonError;
  encrypt_with_nonce_and_aad cipher data nonce aad.

(** [decrypt_with_nonce_and_aad]. *)
Definition decrypt_with_nonce_and_aad (cipher : Cipher) (msg nonce aad : bytes) : kres bytes :=
  ok_or (aead_decrypt cipher nonce aad msg) AesGcmError.

Definition split_at_checked {A} (n : nat) (l : list A) : option (list A * list A) :=
  if decide (n <= length l) then Some (take n l, drop n l) else None.

(** [DecryptData::decrypt_data] and [decrypt_data_with_encryption_key]. *)
Definition decrypt_data (collection : string) (id : bytes) (cipher : Cipher) (data : bytes) : kres bytes :=
  aad ← ok_or (aad_to_json (aad_of collection id)) KeystoreError.SerdeJsonError;
  '(nonce, msg) ← ok_or (split_at_checked AES_GCM_256_NONCE_SIZE data) AesGcmError;
  decrypt_with_nonce_and_aad cipher msg nonce aad.

Lemma split_at_nonce {A} (n : nat) (a b : list A) :
  length a = n -> split_at_checked n (a ++ b) = Some (a, b).
Proof.
  intros <-. unfold split_at_checked. rewrite decide_True by (rewrite length_app; lia).
  by rewrite take_app_length, drop_app_length.
Qed.

Lemma encrypt_data_Ok collection id nonce c m x :
  encrypt_data collection id nonce c m = Ok x ->
  exists j y, aad_to_json (aad_of collection id) = Some j /\ aead_encrypt c nonce j m = Some y /\ x = nonce ++ y.
Proof.
  unfold encrypt_data, encrypt_with_nonce_and_aad.
  destruct (aad_to_json _) as [j|]; [|done]. cbn. destruct (aead_encrypt _ _ _ _) as [y|] eqn:E; [|done].
  intros [= <-]. eauto.
Qed.

Lemma decrypt_data_eq collection id nonce c j y :
  length nonce = AES_GCM_256_NONCE_SIZE -> aad_to_json (aad_of collection id) = Some j ->
  decrypt_data collection id c (nonce ++ y) = ok_or (aead_decrypt c nonce j y) AesGcmError.
Proof. intros Hn Hj. unfold decrypt_data. rewrite Hj. cbn [ok_or mbind]. by rewrite split_at_nonce. Qed.

Lemma decrypt_encrypt_data `{!AesGcmLaws G} collection id nonce c m x :
  length nonce = AES_GCM_256_NONCE_SIZE ->
  encrypt_data collection id nonce c m = Ok x -> decrypt_data collection id c x = Ok m.
Proof.
  intros Hn (j & y & Hj & Hy & ->)%encrypt_data_Ok.
  rewrite (decrypt_data_eq _ _ _ _ _ _ Hn Hj). by rewrite (aead_decrypt_encrypt _ _ _ _ _ Hy).
Qed.

(** A field is readable under the key, the collection and the id it was encrypted with only. *)
Lemma decrypt_data_authentic `{!AesGcmAuthentic G} collection collection' id id' nonce k k' m m' x :
  length nonce = AES_GCM_256_NONCE_SIZE ->
  encrypt_data collection id nonce (cipher_new k) m = Ok x ->
  decrypt_data collection' id' (cipher_new k') x = Ok m' ->
  k' = k /\ bstr collection' = bstr collection /\ id' = id.
Proof.
  intros Hn (j & y & Hj & Hy & ->)%encrypt_data_Ok Hd.
  destruct (aad_to_json (aad_of collection' id')) as [j'|] eqn:Hj'; [|unfold decrypt_data in Hd; by rewrite Hj' in Hd].
  rewrite (decrypt_data_eq _ _ _ _ _ _ Hn Hj') in Hd.
  destruct (aead_decrypt _ _ _ _) eqn:Ha; [|done].
  destruct (aead_authentic _ _ _ _ _ _ _ _ Hy Ha) as [-> ->].
  by injection (aad_to_json_inj _ _ _ Hj' Hj) as -> ->.
Qed.

(** A field that can be read under a key cannot be read under another. *)
Lemma decrypt_data_other_key `{!AesGcmAuthentic G} collection id k k' m x :
  decrypt_data collection id (cipher_new k) x = Ok m -> k' <> k -> decrypt_data collection id (cipher_new k') x = Err AesGcmError.
Proof.
  unfold decrypt_data, decrypt_with_nonce_and_aad. intros H Hk.
  destruct (aad_to_json _) as [j|]; [|done]. cbn [ok_or mbind res_bind] in *.
  destruct (split_at_checked _ x) as [[nonce msg]|]; [|done]. cbn [ok_or mbind res_bind] in *.
  destruct (aead_decrypt (cipher_new k) nonce j msg) as [m0|] eqn:E; [|done].
  destruct (aead_decrypt (cipher_new k') nonce j msg) as [m1|] eqn:E'; [|done].
  apply aead_encrypt_decrypt in E. by destruct (aead_authentic _ _ _ _ _ _ _ _ E E') as [? _].
Qed.
End encryption.

(** ** JavaScript values *)

(** What the forms of entities serialise to: a sequence of bytes is an array of numbers. *)
Inductive JsValue : Type := JsArray (b : bytes) | JsString (s : bytes) | JsNumber (z : Z) | JsNull.

#[export] Instance JsValue_eq_dec : EqDecision JsValue.
Proof. solve_decision. Defined.

Abbreviation JsObject := (list (string * JsValue)).

Fixpoint js_field (name : string) (o : JsObject) : option JsValue :=
  match o with
  | [] => None
  | (n, v) :: o => if String.eqb n name then Some v else js_field name o
  end.

(** [serde_wasm_bindgen::from_value] of a struct: each field is looked up by its name, fields
    of other names are ignored, and an option may be missing. *)
Definition de_bytes (name : string) (o : JsObject) : kres bytes :=
  match js_field name o with Some (JsArray b) => Ok b | _ => Err SerdeWasmBindgenError end.
Definition de_opt_bytes (name : string) (o : JsObject) : kres (option bytes) :=
  match js_field name o with
  | Some (JsArray b) => Ok (Some b) | Some JsNull | None => Ok None | _ => Err SerdeWasmBindgenError
  end.
Definition de_string (name : string) (o : JsObject) : kres bytes :=
  match js_field name o with Some (JsString s) => Ok s | _ => Err SerdeWasmBindgenError end.
Definition de_uint (limit : Z) (name : string) (o : JsObject) : kres Z :=
  match js_field name o with
  | Some (JsNumber z) => if (0 <=? z)%Z && (z <? limit)%Z then Ok z else Err SerdeWasmBindgenError
  | _ => Err SerdeWasmBindgenError
  end.
Definition de_u16 : string -> JsObject -> kres Z := de_uint 65536.
Definition de_u64 : string -> JsObject -> kres Z := de_uint (2 ^ 64).

Definition ser_opt_bytes (b : option bytes) : JsValue := match b with Some b => JsArray b | None => JsNull end.

(** [serialize] of a [u64]: numbers above the largest safe integer are refused. *)
Definition MAX_SAFE_INTEGER : Z := 9007199254740991.
Definition ser_u64 (z : Z) : kres JsValue :=
  if (z <=? MAX_SAFE_INTEGER)%Z then Ok (JsNumber z) else Err SerdeWasmBindgenError.

(** ** The derived forms *)

(** A column of a derived entity: the name of the field, whether it stays unencrypted, its
    value. *)
Inductive ColumnValue : Type := ColBytes (b : bytes) | ColString (s : bytes) | ColOptionalBytes (b : option bytes).
Inductive ColumnType : Type := TyBytes | TyString | TyOptionalBytes.

Definition column_type (v : ColumnValue) : ColumnType :=
  match v with ColBytes _ => TyBytes | ColString _ => TyString | ColOptionalBytes _ => TyOptionalBytes end.

Record Column' (A : Type) : Type := MkCol { field_name : string; skip_encryption : bool; column : A }.
Arguments MkCol {A}.
Arguments field_name {A}.
Arguments skip_encryption {A}.
Arguments column {A}.

Section derive.
Context `{G : AesGcm}.

(** [Entity::impl_encrypting]: the expressions of the other fields. *)
Definition encrypt_column (collection : string) (id nonce : bytes) (cipher : Cipher) (col : Column' ColumnValue) :
    kres JsValue :=
  let encrypt_operation accessor :=
    if skip_encryption col then Ok accessor else encrypt_data collection id nonce cipher accessor in
  match column col with
  | ColBytes b => JsArray <$> encrypt_operation b
  | ColString s => JsArray <$> encrypt_operation s
  | ColOptionalBytes None => Ok JsNull
  | ColOptionalBytes (Some b) => JsArray <$> encrypt_operation b
  end.

Fixpoint impl_encrypting (collection : string) (id : bytes) (draw : Nonces) (cipher : Cipher)
    (cols : list (Column' ColumnValue)) : kres JsObject :=
  match cols with
  | [] => Ok []
  | col :: cols =>
      v ← encrypt_column collection id (draw 0) cipher col;
      o ← impl_encrypting collection id (skip_nonces 1 draw) cipher cols;
      Ok ((field_name col, v) :: o)
  end.

(** [Entity::impl_decrypting]. *)
Definition decrypt_column (collection : string) (id : bytes) (cipher : Cipher) (o : JsObject) (col : Column' ColumnType) :
    kres ColumnValue :=
  let decrypt_operation accessor :=
    if skip_encryption col then Ok accessor else decrypt_data collection id cipher accessor in
  match column col with
  | TyBytes => b ← de_bytes (field_name col) o; ColBytes <$> decrypt_operation b
  | TyString =>
      b ← de_bytes (field_name col) o;
      s ← decrypt_operation b;
      if utf8_valid s then Ok (ColString s) else Err KeystoreError.KeyReprError
  | TyOptionalBytes =>
      b ← de_opt_bytes (field_name col) o;
      match b with
      | None => Ok (ColOptionalBytes None)
      | Some b => ColOptionalBytes ∘ Some <$> decrypt_operation b
      end
  end.

Fixpoint impl_decrypting (collection : string) (id : bytes) (cipher : Cipher) (o : JsObject)
    (cols : list (Column' ColumnType)) : kres (list ColumnValue) :=
  match cols with
  | [] => Ok []
  | col :: cols =>
      v ← decrypt_column collection id cipher o col;
      vs ← impl_decrypting collection id cipher o cols;
      Ok (v :: vs)
  end.

(** The declaration a column with a value belongs to. *)
Definition declared (col : Column' ColumnValue) : Column' ColumnType :=
  MkCol (field_name col) (skip_encryption col) (column_type (column col)).

Definition column_ok (col : Column' ColumnValue) : Prop :=
  match column col with ColString s => utf8_valid s = true | _ => True end.

Lemma decrypt_encrypt_operation `{!AesGcmLaws G} (skip : bool) collection id nonce c m x :
  length nonce = AES_GCM_256_NONCE_SIZE ->
  (if skip then Ok m else encrypt_data collection id nonce c m) = Ok x ->
  (if skip then Ok x else decrypt_data collection id c x) = Ok m.
Proof. intros Hn. destruct skip; [congruence|]. by apply decrypt_encrypt_data. Qed.

Lemma decrypt_encrypt_column `{!AesGcmLaws G} collection id nonce c o col v :
  length nonce = AES_GCM_256_NONCE_SIZE -> column_ok col ->
  encrypt_column collection id nonce c col = Ok v -> js_field (field_name col) o = Some v ->
  decrypt_column collection id c o (declared col) = Ok (column col).
Proof.
  intros Hn Hok He Hf. destruct col as [name skip [b|s|[b|]]]; cbn in *;
    unfold de_bytes, de_opt_bytes; try (apply fmap_Ok in He as (x & He & ->)); rewrite ?Hf.
  - cbn. by rewrite (decrypt_encrypt_operation skip _ _ _ _ _ _ Hn He).
  - cbn. rewrite (decrypt_encrypt_operation skip _ _ _ _ _ _ Hn He). cbn. by rewrite Hok.
  - cbn. by rewrite (decrypt_encrypt_operation skip _ _ _ _ _ _ Hn He).
  - by injection He as <-.
Qed.

(** Decrypting what was encrypted, in an object that has its fields. *)
Lemma impl_round_trip `{!AesGcmLaws G} collection id c o' cols : forall draw o,
  nonces_ok draw -> Forall column_ok cols -> impl_encrypting collection id draw c cols = Ok o ->
  Forall (fun f => js_field f.1 o' = Some f.2) o ->
  impl_decrypting collection id c o' (map declared cols) = Ok (map column cols).
Proof.
  induction cols as [|col cols IH]; intros draw o Hn Hok He Hf; [done|].
  apply Forall_cons in Hok as [Hcol Hok]. cbn in He.
  apply bind_Ok in He as (v & Hv & He). apply bind_Ok in He as (o1 & Ho & [= <-]).
  apply Forall_cons in Hf as [Hfv Hf]. cbn.
  rewrite (decrypt_encrypt_column _ _ _ _ _ _ _ (Hn 0) Hcol Hv Hfv). cbn.
  by rewrite (IH _ _ (nonces_ok_skip 1 _ Hn) Hok Ho Hf).
Qed.

Lemma impl_encrypting_names collection id c cols : forall draw o,
  impl_encrypting collection id draw c cols = Ok o -> map fst o = map field_name cols.
Proof.
  induction cols as [|col cols IH]; intros draw o He; cbn in He; [by injection He as <-|].
  apply bind_Ok in He as (v & Hv & He). apply bind_Ok in He as (o1 & Ho & [= <-]).
  cbn. by rewrite (IH _ _ Ho).
Qed.
End derive.

Lemma js_field_self (o : JsObject) : NoDup (map fst o) -> Forall (fun f => js_field f.1 o = Some f.2) o.
Proof.
  induction o as [|[n v] o IH]; intros Hnd; [done|]. apply NoDup_cons in Hnd as [Hn Hnd]. constructor; cbn.
  - by rewrite String.eqb_refl.
  - specialize (IH Hnd). rewrite Forall_forall in IH |- *. intros [n' v'] Hin. specialize (IH _ Hin). cbn in *.
    destruct (String.eqb_spec n n') as [->|]; [|done]. destruct Hn. apply list_elem_of_fmap. by exists (n', v').
Qed.

(** ** A concrete cipher

    Not secret, but authentic: a message is preceded by its key and associated data, each in a
    self-delimiting encoding. *)

Fixpoint frame (b : bytes) : bytes := match b with [] => [x00] | x :: b => x01 :: x :: frame b end.

Lemma frame_inj a b u v : frame a ++ u = frame b ++ v -> a = b /\ u = v.
Proof.
  revert b. induction a as [|x a IH]; intros [|y b]; cbn; try done; [by intros [= ->]|].
  intros [= <- H]. by destruct (IH _ H) as [-> ->].
Qed.

Definition strip_prefix (p x : bytes) : option bytes :=
  if decide (take (length p) x = p) then Some (drop (length p) x) else None.

Lemma strip_prefix_Some p x m : strip_prefix p x = Some m <-> x = p ++ m.
Proof.
  unfold strip_prefix. split.
  - case_decide as H; [|done]. intros [= <-]. rewrite <- H at 1. by rewrite take_drop.
  - intros ->. rewrite take_app_length, drop_app_length. by rewrite decide_True.
Qed.

#[export] Instance toy_gcm : AesGcm := {|
  Cipher := bytes;
  cipher_new k := k;
  aead_encrypt c _ a m := Some ((frame c ++ frame a) ++ m);
  aead_decrypt c _ a x := strip_prefix (frame c ++ frame a) x;
  aad_to_json a := Some (frame (aad_type_name a) ++ aad_id a);
|}.

#[export] Instance toy_gcm_laws : AesGcmLaws toy_gcm.
Proof. split. intros c n a m x [= <-]. by apply strip_prefix_Some. Qed.

#[export] Instance toy_gcm_authentic : AesGcmAuthentic toy_gcm.
Proof.
  split.
  - intros [] [] j [= <-] [= H]. by destruct (frame_inj _ _ _ _ H) as [-> ->].
  - intros c n a m x H. apply strip_prefix_Some in H as ->. done.
  - intros k k' n a a' m m' x [= <-] H. apply strip_prefix_Some in H. rewrite <- !app_assoc in H.
    apply frame_inj in H as [-> H]. by apply frame_inj in H as [-> _].
Qed.

(** Nonces of twelve zeros. *)
Definition toy_nonces : Nonces := fun _ => replicate 12 x00.
Lemma toy_nonces_ok : nonces_ok toy_nonces.
Proof. by intros i. Qed.
