(* ===== verification/WasmEntities.v ===== *)
(** * Entities in the browser

    [keystore/src/entities/platform/wasm]: the encrypted form of each entity, in which the
    sensitive fields are ciphertexts, and the derived forms of the entities of
    [keystore/src/entities] that have no hand-written one.  The key of an entity is the bytes
    of its primary key. *)

From S2P Require Import Prelude Keys EntityTypes Entities Sql KeystoreErrors ItemEncryption.
From Stdlib Require Import Lia ZArith.

(** The traits [EntityBase], [PrimaryKey], [Encrypting] and [Decryptable]. *)
Class WasmEntity `{G : AesGcm} (E : Type) : Type := {
  COLLECTION_NAME : string;
  wasm_key : E -> bytes;
  encrypt : Nonces -> Cipher -> E -> kres JsObject;
  decrypt : Cipher -> JsObject -> kres E;
}.
Arguments COLLECTION_NAME {G} E {_}.

(** What the storage relies on, for the values the Rust type has. *)
Class WasmEntityLaws `{G : AesGcm} (E : Type) `{!WasmEntity E} (valid : E -> Prop) : Prop := {
  decrypt_encrypt draw c e o :
    nonces_ok draw -> valid e -> encrypt draw c e = Ok o -> decrypt c o = Ok e;
}.

Section entities.
Context `{X : Externals, G : AesGcm}.

(** [UniqueEntity::KEY] of the entities that exist once: a [u32] in the browser. *)
Definition UNIQUE_KEY : bytes := to_le_bytes 4 0.

(** ** Hand-written forms *)

Definition consumer_data_encrypt (draw : Nonces) (c : Cipher) (e : ConsumerData) : kres JsObject :=
  content ← encrypt_data "consumer_data" UNIQUE_KEY (draw 0) c (consumer_content e);
  Ok [("content", JsArray content)].

Definition consumer_data_decrypt (c : Cipher) (o : JsObject) : kres ConsumerData :=
  content ← de_bytes "content" o;
  content ← decrypt_data "consumer_data" UNIQUE_KEY c content;
  Ok {| consumer_content := content |}.

#[export] Instance consumer_data_wasm : WasmEntity ConsumerData := {|
  COLLECTION_NAME := "consumer_data"; wasm_key _ := UNIQUE_KEY;
  encrypt := consumer_data_encrypt; decrypt := consumer_data_decrypt
|}.

Definition acme_ca_encrypt (draw : Nonces) (c : Cipher) (e : E2eiAcmeCA) : kres JsObject :=
  content ← encrypt_data "e2ei_acme_ca" UNIQUE_KEY (draw 0) c (acme_ca_content e);
  Ok [("content", JsArray content)].

Definition acme_ca_decrypt (c : Cipher) (o : JsObject) : kres E2eiAcmeCA :=
  content ← de_bytes "content" o;
  content ← decrypt_data "e2ei_acme_ca" UNIQUE_KEY c content;
  Ok {| acme_ca_content := content |}.

#[export] Instance acme_ca_wasm : WasmEntity E2eiAcmeCA := {|
  COLLECTION_NAME := "e2ei_acme_ca"; wasm_key _ := UNIQUE_KEY;
  encrypt := acme_ca_encrypt; decrypt := acme_ca_decrypt
|}.

(** [StoredCredential]: the key is the hash of the public key. *)
Definition credential_encrypt (draw : Nonces) (c : Cipher) (e : StoredCredential) : kres JsObject :=
  let primary_key := hash_bytes (hash_from (cred_public_key e)) in
  credential ← encrypt_data "mls_credentials" primary_key (draw 0) c (cred_credential e);
  private_key ← encrypt_data "mls_credentials" primary_key (draw 1) c (cred_private_key e);
  created_at ← ser_u64 (cred_created_at e);
  Ok [("created_at", created_at); ("ciphersuite", JsNumber (cred_ciphersuite e));
      ("session_id", JsArray (cred_session_id e)); ("public_key", JsArray (cred_public_key e));
      ("credential", JsArray credential); ("private_key", JsArray private_key)].

Definition credential_decrypt (c : Cipher) (o : JsObject) : kres StoredCredential :=
  session_id ← de_bytes "session_id" o;
  credential ← de_bytes "credential" o;
  created_at ← de_u64 "created_at" o;
  ciphersuite ← de_u16 "ciphersuite" o;
  public_key ← de_bytes "public_key" o;
  private_key ← de_bytes "private_key" o;
  let primary_key := hash_bytes (hash_from public_key) in
  credential ← decrypt_data "mls_credentials" primary_key c credential;
  private_key ← decrypt_data "mls_credentials" primary_key c private_key;
  Ok {| cred_session_id := session_id; cred_credential := credential; cred_created_at := created_at;
        cred_ciphersuite := ciphersuite; cred_public_key := public_key; cred_private_key := private_key |}.

#[export] Instance credential_wasm : WasmEntity StoredCredential := {|
  COLLECTION_NAME := "mls_credentials"; wasm_key e := hash_bytes (hash_from (cred_public_key e));
  encrypt := credential_encrypt; decrypt := credential_decrypt
|}.

Definition encryption_keypair_encrypt (draw : Nonces) (c : Cipher) (e : StoredEncryptionKeyPair) : kres JsObject :=
  sk ← encrypt_data "mls_encryption_keypairs" (enc_pk e) (draw 0) c (enc_sk e);
  Ok [("pk", JsArray (enc_pk e)); ("sk", JsArray sk)].

Definition encryption_keypair_decrypt (c : Cipher) (o : JsObject) : kres StoredEncryptionKeyPair :=
  pk ← de_bytes "pk" o;
  sk ← de_bytes "sk" o;
  sk ← decrypt_data "mls_encryption_keypairs" pk c sk;
  Ok {| enc_pk := pk; enc_sk := sk |}.

#[export] Instance encryption_keypair_wasm : WasmEntity StoredEncryptionKeyPair := {|
  COLLECTION_NAME := "mls_encryption_keypairs"; wasm_key := enc_pk;
  encrypt := encryption_keypair_encrypt; decrypt := encryption_keypair_decrypt
|}.

Definition hpke_encrypt (draw : Nonces) (c : Cipher) (e : StoredHpkePrivateKey) : kres JsObject :=
  sk ← encrypt_data "mls_hpke_private_keys" (hpke_pk e) (draw 0) c (hpke_sk e);
  Ok [("sk", JsArray sk); ("pk", JsArray (hpke_pk e))].

Definition hpke_decrypt (c : Cipher) (o : JsObject) : kres StoredHpkePrivateKey :=
  sk ← de_bytes "sk" o;
  pk ← de_bytes "pk" o;
  sk ← decrypt_data "mls_hpke_private_keys" pk c sk;
  Ok {| hpke_sk := sk; hpke_pk := pk |}.

#[export] Instance hpke_wasm : WasmEntity StoredHpkePrivateKey := {|
  COLLECTION_NAME := "mls_hpke_private_keys"; wasm_key := hpke_pk;
  encrypt := hpke_encrypt; decrypt := hpke_decrypt
|}.

Definition psk_encrypt (draw : Nonces) (c : Cipher) (e : StoredPskBundle) : kres JsObject :=
  psk ← encrypt_data "mls_psk_bundles" (psk_id e) (draw 0) c (psk e);
  Ok [("psk_id", JsArray (psk_id e)); ("psk", JsArray psk)].

Definition psk_decrypt (c : Cipher) (o : JsObject) : kres StoredPskBundle :=
  psk_id ← de_bytes "psk_id" o;
  psk ← de_bytes "psk" o;
  psk ← decrypt_data "mls_psk_bundles" psk_id c psk;
  Ok {| psk_id := psk_id; psk := psk |}.

#[export] Instance psk_wasm : WasmEntity StoredPskBundle := {|
  COLLECTION_NAME := "mls_psk_bundles"; wasm_key := psk_id; encrypt := psk_encrypt; decrypt := psk_decrypt
|}.

Definition pending_group_encrypt (draw : Nonces) (c : Cipher) (e : PersistedMlsPendingGroup) : kres JsObject :=
  state ← encrypt_data "mls_pending_groups" (pgroup_id e) (draw 0) c (pgroup_state e);
  Ok [("id", JsArray (pgroup_id e)); ("state", JsArray state); ("parent_id", ser_opt_bytes (pgroup_parent_id e));
      ("custom_configuration", JsArray (pgroup_custom_configuration e))].

Definition pending_group_decrypt (c : Cipher) (o : JsObject) : kres PersistedMlsPendingGroup :=
  id ← de_bytes "id" o;
  state ← de_bytes "state" o;
  parent_id ← de_opt_bytes "parent_id" o;
  custom_configuration ← de_bytes "custom_configuration" o;
  state ← decrypt_data "mls_pending_groups" id c state;
  Ok {| pgroup_id := id; pgroup_state := state; pgroup_parent_id := parent_id;
        pgroup_custom_configuration := custom_configuration |}.

#[export] Instance pending_group_wasm : WasmEntity PersistedMlsPendingGroup := {|
  COLLECTION_NAME := "mls_pending_groups"; wasm_key := pgroup_id;
  encrypt := pending_group_encrypt; decrypt := pending_group_decrypt
|}.

(** [MlsPendingMessage]: stored under its hash, encrypted with the id of its conversation. *)
Definition pending_message_encrypt (draw : Nonces) (c : Cipher) (e : MlsPendingMessage) : kres JsObject :=
  message ← encrypt_data "mls_pending_messages" (pm_foreign_id e) (draw 0) c (pm_message e);
  Ok [("foreign_id", JsArray (pm_foreign_id e)); ("message", JsArray message)].

Definition pending_message_decrypt (c : Cipher) (o : JsObject) : kres MlsPendingMessage :=
  foreign_id ← de_bytes "foreign_id" o;
  message ← de_bytes "message" o;
  message ← decrypt_data "mls_pending_messages" foreign_id c message;
  Ok {| pm_foreign_id := foreign_id; pm_message := message |}.

#[export] Instance pending_message_wasm : WasmEntity MlsPendingMessage := {|
  COLLECTION_NAME := "mls_pending_messages"; wasm_key e := key_bytes (pending_message_primary_key e);
  encrypt := pending_message_encrypt; decrypt := pending_message_decrypt
|}.

(** [ProteusIdentity]: both keys are encrypted, and the key of the entity is the byte 1. *)
Definition IDENTITY_KEY : bytes := [x01].

Definition identity_encrypt (draw : Nonces) (c : Cipher) (e : ProteusIdentity) : kres JsObject :=
  sk ← encrypt_data "proteus_identities" IDENTITY_KEY (draw 0) c (identity_sk e);
  pk ← encrypt_data "proteus_identities" IDENTITY_KEY (draw 1) c (identity_pk e);
  Ok [("sk", JsArray sk); ("pk", JsArray pk)].

Definition identity_decrypt (c : Cipher) (o : JsObject) : kres ProteusIdentity :=
  sk ← de_bytes "sk" o;
  pk ← de_bytes "pk" o;
  sk ← decrypt_data "proteus_identities" IDENTITY_KEY c sk;
  pk ← decrypt_data "proteus_identities" IDENTITY_KEY c pk;
  Ok {| identity_sk := sk; identity_pk := pk |}.

#[export] Instance identity_wasm : WasmEntity ProteusIdentity := {|
  COLLECTION_NAME := "proteus_identities"; wasm_key _ := IDENTITY_KEY;
  encrypt := identity_encrypt; decrypt := identity_decrypt
|}.

Definition prekey_encrypt (draw : Nonces) (c : Cipher) (e : ProteusPrekey) : kres JsObject :=
  prekey ← encrypt_data "proteus_prekeys" (to_le_bytes 2 (prekey_id e)) (draw 0) c (prekey_prekey e);
  Ok [("id", JsNumber (prekey_id e)); ("prekey", JsArray prekey)].

Definition prekey_decrypt (c : Cipher) (o : JsObject) : kres ProteusPrekey :=
  id ← de_u16 "id" o;
  prekey ← de_bytes "prekey" o;
  prekey ← decrypt_data "proteus_prekeys" (to_le_bytes 2 id) c prekey;
  Ok (proteus_prekey_from_raw id prekey).

#[export] Instance prekey_wasm : WasmEntity ProteusPrekey := {|
  COLLECTION_NAME := "proteus_prekeys"; wasm_key e := to_le_bytes 2 (prekey_id e);
  encrypt := prekey_encrypt; decrypt := prekey_decrypt
|}.

(** [E2eiRefreshToken], which later versions of the schema have no store for. *)
Record E2eiRefreshToken : Type := { refresh_token_content : bytes }.

Definition refresh_token_encrypt (draw : Nonces) (c : Cipher) (e : E2eiRefreshToken) : kres JsObject :=
  content ← encrypt_data "e2ei_refresh_token" UNIQUE_KEY (draw 0) c (refresh_token_content e);
  Ok [("content", JsArray content)].

Definition refresh_token_decrypt (c : Cipher) (o : JsObject) : kres E2eiRefreshToken :=
  content ← de_bytes "content" o;
  content ← decrypt_data "e2ei_refresh_token" UNIQUE_KEY c content;
  Ok {| refresh_token_content := content |}.

#[export] Instance refresh_token_wasm : WasmEntity E2eiRefreshToken := {|
  COLLECTION_NAME := "e2ei_refresh_token"; wasm_key _ := UNIQUE_KEY;
  encrypt := refresh_token_encrypt; decrypt := refresh_token_decrypt
|}.

(** ** Derived forms

    An id field, which is not encrypted, and columns. *)

Definition derived_encrypt (collection id_field : string) (id_value : JsValue) (id : bytes) (draw : Nonces) (c : Cipher)
    (cols : list (Column' ColumnValue)) : kres JsObject :=
  o ← impl_encrypting collection id draw c cols; Ok ((id_field, id_value) :: o).

Definition bytes_column (name : string) (b : bytes) : Column' ColumnValue := MkCol name false (ColBytes b).
Definition bytes_column_type (name : string) : Column' ColumnType := MkCol name false TyBytes.

(** An entity of an id and one column of bytes. *)
Definition derived_decrypt {A} (collection id_field : string) (de_id : string -> JsObject -> kres bytes) (column : string)
    (build : bytes -> bytes -> A) (c : Cipher) (o : JsObject) : kres A :=
  id ← de_id id_field o;
  vs ← impl_decrypting collection id c o [bytes_column_type column];
  match vs with [ColBytes b] => Ok (build id b) | _ => Panic end.

#[export] Instance keypackage_wasm : WasmEntity StoredKeypackage := {|
  COLLECTION_NAME := "mls_keypackages"; wasm_key := keypackage_ref;
  encrypt draw c e := derived_encrypt "mls_keypackages" "keypackage_ref" (JsArray (keypackage_ref e)) (keypackage_ref e)
    draw c [bytes_column "keypackage" (keypackage e)];
  decrypt := derived_decrypt "mls_keypackages" "keypackage_ref" de_bytes "keypackage" Build_StoredKeypackage
|}.

#[export] Instance epoch_keypair_wasm : WasmEntity StoredEpochEncryptionKeypair := {|
  COLLECTION_NAME := "mls_epoch_encryption_keypairs"; wasm_key := epoch_id;
  encrypt draw c e := derived_encrypt "mls_epoch_encryption_keypairs" "id" (JsArray (epoch_id e)) (epoch_id e)
    draw c [bytes_column "keypairs" (epoch_keypairs e)];
  decrypt := derived_decrypt "mls_epoch_encryption_keypairs" "id" de_bytes "keypairs" Build_StoredEpochEncryptionKeypair
|}.

#[export] Instance buffered_commit_wasm : WasmEntity StoredBufferedCommit := {|
  COLLECTION_NAME := "mls_buffered_commits"; wasm_key := bc_conversation_id;
  encrypt draw c e := derived_encrypt "mls_buffered_commits" "conversation_id" (JsArray (bc_conversation_id e))
    (bc_conversation_id e) draw c [bytes_column "commit_data" (bc_commit_data e)];
  decrypt := derived_decrypt "mls_buffered_commits" "conversation_id" de_bytes "commit_data" Build_StoredBufferedCommit
|}.

#[export] Instance enrollment_wasm : WasmEntity StoredE2eiEnrollment := {|
  COLLECTION_NAME := "e2ei_enrollment"; wasm_key := enrollment_id;
  encrypt draw c e := derived_encrypt "e2ei_enrollment" "id" (JsArray (enrollment_id e)) (enrollment_id e)
    draw c [bytes_column "content" (enrollment_content e)];
  decrypt := derived_decrypt "e2ei_enrollment" "id" de_bytes "content" Build_StoredE2eiEnrollment
|}.

#[export] Instance intermediate_cert_wasm : WasmEntity E2eiIntermediateCert := {|
  COLLECTION_NAME := "e2ei_intermediate_certs"; wasm_key := ski_aki_pair;
  encrypt draw c e := derived_encrypt "e2ei_intermediate_certs" "ski_aki_pair" (JsString (ski_aki_pair e))
    (ski_aki_pair e) draw c [bytes_column "content" (intermediate_content e)];
  decrypt := derived_decrypt "e2ei_intermediate_certs" "ski_aki_pair" de_string "content" Build_E2eiIntermediateCert
|}.

#[export] Instance crl_wasm : WasmEntity E2eiCrl := {|
  COLLECTION_NAME := "e2ei_crls"; wasm_key := distribution_point;
  encrypt draw c e := derived_encrypt "e2ei_crls" "distribution_point" (JsString (distribution_point e))
    (distribution_point e) draw c [bytes_column "content" (crl_content e)];
  decrypt := derived_decrypt "e2ei_crls" "distribution_point" de_string "content" Build_E2eiCrl
|}.

#[export] Instance session_wasm : WasmEntity ProteusSession := {|
  COLLECTION_NAME := "proteus_sessions"; wasm_key := session_id;
  encrypt draw c e := derived_encrypt "proteus_sessions" "id" (JsString (session_id e)) (session_id e)
    draw c [bytes_column "session" (session_session e)];
  decrypt := derived_decrypt "proteus_sessions" "id" de_string "session" Build_ProteusSession
|}.

(** [PersistedMlsGroup]: the id of the parent is not encrypted, for it is indexed. *)
Definition group_columns (e : PersistedMlsGroup) : list (Column' ColumnValue) :=
  [bytes_column "state" (group_state e); MkCol "parent_id" true (ColOptionalBytes (group_parent_id e))].

Definition group_decrypt (c : Cipher) (o : JsObject) : kres PersistedMlsGroup :=
  id ← de_bytes "id" o;
  vs ← impl_decrypting "mls_groups" id c o [bytes_column_type "state"; MkCol "parent_id" true TyOptionalBytes];
  match vs with
  | [ColBytes state; ColOptionalBytes parent_id] =>
      Ok {| group_id := id; group_state := state; group_parent_id := parent_id |}
  | _ => Panic
  end.

#[export] Instance group_wasm : WasmEntity PersistedMlsGroup := {|
  COLLECTION_NAME := "mls_groups"; wasm_key := group_id;
  encrypt draw c e := derived_encrypt "mls_groups" "id" (JsArray (group_id e)) (group_id e) draw c (group_columns e);
  decrypt := group_decrypt
|}.
End entities.

(** ** Reading what was written *)

Section round_trips.
Context `{X : Externals, G : AesGcm, !AesGcmLaws G}.

Ltac cbn_items := cbn -[decrypt_data UNIQUE_KEY IDENTITY_KEY to_le_bytes hash_from].

(** Open the encryption of a hand-written form and read the object back. *)
Ltac solve_round_trip :=
  split; intros draw c e o Hn Hok He; cbn in He;
  repeat (apply bind_Ok in He as (? & ? & He)); injection He as <-;
  repeat match goal with
  | H : encrypt_data _ _ _ _ _ = Ok _ |- _ => apply (decrypt_encrypt_data _ _ _ _ _ _ (Hn _)) in H
  end;
  cbn_items;
  repeat match goal with H : decrypt_data _ _ _ _ = Ok _ |- _ => rewrite H; cbn_items; clear H end.

Lemma derived_round_trip {A} collection id_field id_value de_id col build (draw : Nonces) c o id b (e : A) :
  nonces_ok draw -> id_field <> col -> (forall o, de_id id_field ((id_field, id_value) :: o) = Ok id) ->
  derived_encrypt collection id_field id_value id draw c [bytes_column col b] = Ok o -> build id b = e ->
  derived_decrypt collection id_field de_id col build c o = Ok e.
Proof.
  intros Hn Hne Hid He <-. unfold derived_encrypt in He. apply bind_Ok in He as (o1 & Ho & [= <-]).
  unfold derived_decrypt. rewrite Hid. cbn [mbind res_bind].
  pose proof (impl_encrypting_names _ _ _ _ _ _ Ho) as Hnames.
  rewrite (impl_round_trip _ _ _ ((id_field, id_value) :: o1) [bytes_column col b] draw o1 Hn); [done| |done|].
  - by repeat constructor.
  - assert (NoDup (map fst ((id_field, id_value) :: o1))) as Hnd.
    { cbn. rewrite Hnames. cbn. repeat constructor; set_solver. }
    by apply js_field_self, Forall_cons in Hnd as [_ ?].
Qed.

#[export] Instance consumer_data_laws : WasmEntityLaws ConsumerData (fun _ => True).
Proof. solve_round_trip. by destruct e. Qed.
#[export] Instance acme_ca_laws : WasmEntityLaws E2eiAcmeCA (fun _ => True).
Proof. solve_round_trip. by destruct e. Qed.
#[export] Instance refresh_token_laws : WasmEntityLaws E2eiRefreshToken (fun _ => True).
Proof. solve_round_trip. by destruct e. Qed.
#[export] Instance encryption_keypair_laws : WasmEntityLaws StoredEncryptionKeyPair (fun _ => True).
Proof. solve_round_trip. by destruct e. Qed.
#[export] Instance hpke_laws : WasmEntityLaws StoredHpkePrivateKey (fun _ => True).
Proof. solve_round_trip. by destruct e. Qed.
#[export] Instance psk_laws : WasmEntityLaws StoredPskBundle (fun _ => True).
Proof. solve_round_trip. by destruct e. Qed.
#[export] Instance pending_message_laws : WasmEntityLaws MlsPendingMessage (fun _ => True).
Proof. solve_round_trip. by destruct e. Qed.
#[export] Instance identity_laws : WasmEntityLaws ProteusIdentity (fun _ => True).
Proof. solve_round_trip. by destruct e. Qed.
#[export] Instance pending_group_laws : WasmEntityLaws PersistedMlsPendingGroup (fun _ => True).
Proof. solve_round_trip. by destruct e as [? ? [] ?]. Qed.

Lemma in_limit z limit : (0 <= z < limit)%Z -> (0 <=? z)%Z && (z <? limit)%Z = true.
Proof. intros [H1 H2]. apply andb_true_intro. by rewrite Z.leb_le, Z.ltb_lt. Qed.

#[export] Instance prekey_laws : WasmEntityLaws ProteusPrekey (fun e => entity_ok (Entity.ProteusPrekey e)).
Proof.
  solve_round_trip. destruct Hok as [Hr Hb]. rewrite (in_limit _ _ Hr). cbn_items.
  rewrite H. cbn_items. unfold proteus_prekey_from_raw. rewrite <- Hb. by destruct e.
Qed.

Lemma ser_u64_Ok z v : ser_u64 z = Ok v -> v = JsNumber z /\ (z <= MAX_SAFE_INTEGER)%Z.
Proof. unfold ser_u64. destruct (Z.leb_spec z MAX_SAFE_INTEGER); [|done]. by intros [= <-]. Qed.

#[export] Instance credential_laws : WasmEntityLaws StoredCredential (fun e => entity_ok (Entity.StoredCredential e)).
Proof.
  split; intros draw c e o Hn [Ht Hc] He. cbn in He.
  apply bind_Ok in He as (cred & Hcred & He). apply bind_Ok in He as (private & Hprivate & He).
  apply bind_Ok in He as (created & [-> Hsafe]%ser_u64_Ok & He). injection He as <-.
  apply (decrypt_encrypt_data _ _ _ _ _ _ (Hn _)) in Hcred, Hprivate.
  unfold decrypt, credential_wasm, credential_decrypt, de_u64, de_u16, de_uint, de_bytes. cbn [js_field String.eqb Ascii.eqb Bool.eqb].
  unfold MAX_SAFE_INTEGER in Hsafe. cbn in Ht.
  rewrite (in_limit (cred_created_at e)) by lia. rewrite (in_limit (cred_ciphersuite e)) by lia.
  cbn [mbind res_bind]. rewrite Hcred. cbn [mbind res_bind]. rewrite Hprivate. by destruct e.
Qed.

Ltac solve_derived :=
  split; intros draw c e o Hn _ He; eapply derived_round_trip; [exact Hn|done| |exact He|by destruct e]; by intros.

#[export] Instance keypackage_laws : WasmEntityLaws StoredKeypackage (fun _ => True).
Proof. solve_derived. Qed.
#[export] Instance epoch_keypair_laws : WasmEntityLaws StoredEpochEncryptionKeypair (fun _ => True).
Proof. solve_derived. Qed.
#[export] Instance buffered_commit_laws : WasmEntityLaws StoredBufferedCommit (fun _ => True).
Proof. solve_derived. Qed.
#[export] Instance enrollment_laws : WasmEntityLaws StoredE2eiEnrollment (fun _ => True).
Proof. solve_derived. Qed.
#[export] Instance intermediate_cert_laws : WasmEntityLaws E2eiIntermediateCert (fun _ => True).
Proof. solve_derived. Qed.
#[export] Instance crl_laws : WasmEntityLaws E2eiCrl (fun _ => True).
Proof. solve_derived. Qed.
#[export] Instance session_laws : WasmEntityLaws ProteusSession (fun _ => True).
Proof. solve_derived. Qed.

#[export] Instance group_laws : WasmEntityLaws PersistedMlsGroup (fun _ => True).
Proof.
  split; intros draw c e o Hn _ He. unfold encrypt, group_wasm, derived_encrypt in He.
  apply bind_Ok in He as (o1 & Ho & [= <-]). pose proof (impl_encrypting_names _ _ _ _ _ _ Ho) as Hnames.
  assert (NoDup (map fst (("id", JsArray (group_id e)) :: o1))) as Hnd.
  { cbn. rewrite Hnames. cbn. repeat constructor; set_solver. }
  apply js_field_self, Forall_cons in Hnd as [_ Hf].
  unfold decrypt, group_wasm, group_decrypt. cbn [de_bytes js_field String.eqb Ascii.eqb Bool.eqb mbind res_bind].
  pose proof (impl_round_trip _ _ _ _ (group_columns e) draw o1 Hn ltac:(by repeat constructor) Ho Hf) as Hr.
  change (map declared (group_columns e)) with [bytes_column_type "state"; MkCol "parent_id" true TyOptionalBytes] in Hr.
  rewrite Hr. by destruct e.
Qed.
End round_trips.
