(* ===== verification/Idb.v ===== *)
(** * The fragment of IndexedDB the browser build uses

    Object stores with out-of-line binary keys and indexes on one field, requests on them,
    opening a database at a version, and the schema builder of the [idb] crate.  A request
    fails on a missing store and on a unique index that would repeat a value; records are
    listed in the order of their keys. *)

From stdpp Require Import sorting.
From S2P Require Import Prelude Sql KeystoreErrors CryptoErrors ItemEncryption.
From Stdlib Require Import Lia ZArith.

Abbreviation IdbError := KeystoreError.IdbError.

(** ** Stores *)

Record Index : Type := MkIndex { index_name : string; key_path : string; index_unique : bool }.

#[export] Instance Index_eq_dec : EqDecision Index.
Proof. solve_decision. Defined.

Record ObjectStore : Type := MkStore { store_indexes : list Index; records : gmap bytes JsObject }.
Record Idb : Type := MkIdb { idb_version : Z; stores : gmap string ObjectStore }.

(** The key of a record in an index: a value that is not a key is not indexed. *)
Definition index_key (i : Index) (o : JsObject) : option JsValue :=
  match js_field (key_path i) o with Some JsNull | None => None | Some v => Some v end.

Definition same_index_key (o o' : JsObject) (i : Index) : bool :=
  match index_key i o, index_key i o' with Some v, Some v' => bool_decide (v = v') | _, _ => false end.

(** A unique index in which the value would meet another record. *)
Definition conflicts (s : ObjectStore) (key : bytes) (value : JsObject) : bool :=
  existsb (fun r => negb (bool_decide (r.1 = key)) &&
    existsb (fun i => index_unique i && same_index_key r.2 value i) (store_indexes s)) (map_to_list (records s)).

(** Binary keys are compared byte by byte. *)
Fixpoint bytes_leb (a b : bytes) : bool :=
  match a, b with
  | [], _ => true
  | _ :: _, [] => false
  | x :: a, y :: b =>
      if (byte_to_Z x <? byte_to_Z y)%Z then true
      else if (byte_to_Z y <? byte_to_Z x)%Z then false else bytes_leb a b
  end.

Definition key_le (a b : bytes * JsObject) : Prop := bytes_leb a.1 b.1 = true.
#[export] Instance key_le_dec a b : Decision (key_le a b).
Proof. unfold key_le. apply _. Defined.

Definition in_key_order (r : gmap bytes JsObject) : list (bytes * JsObject) :=
  merge_sort key_le (map_to_list r).

(** ** Requests *)

Definition object_store (name : string) (db : Idb) : kres ObjectStore := ok_or (stores db !! name) IdbError.

Definition set_store (name : string) (s : ObjectStore) (db : Idb) : Idb :=
  MkIdb (idb_version db) (<[name := s]> (stores db)).

Definition set_records (r : gmap bytes JsObject) (s : ObjectStore) : ObjectStore := MkStore (store_indexes s) r.

Definition idb_put (name : string) (key : bytes) (value : JsObject) : st Idb KeystoreError.t () := fun db =>
  match object_store name db with
  | Ok s =>
      if conflicts s key value then (Err IdbError, db)
      else (Ok (), set_store name (set_records (<[key := value]> (records s)) s) db)
  | Err e => (Err e, db)
  | Panic => (Panic, db)
  end.

Definition idb_delete (name : string) (key : bytes) : st Idb KeystoreError.t () := fun db =>
  match object_store name db with
  | Ok s => (Ok (), set_store name (set_records (base.delete key (records s)) s) db)
  | Err e => (Err e, db)
  | Panic => (Panic, db)
  end.

Definition idb_get (name : string) (key : bytes) (db : Idb) : kres (option JsObject) :=
  s ← object_store name db; Ok (records s !! key).

(** [get_all] and [count], of a key or of everything. *)
Definition idb_get_all (name : string) (query : option bytes) (db : Idb) : kres (list JsObject) :=
  s ← object_store name db;
  Ok match query with
     | None => map snd (in_key_order (records s))
     | Some key => match records s !! key with Some o => [o] | None => [] end
     end.

Definition idb_count (name : string) (query : option bytes) (db : Idb) : kres nat :=
  length <$> idb_get_all name query db.

(** [get_all] of an index. *)
Definition idb_index_get_all (name index : string) (key : JsValue) (db : Idb) : kres (list JsObject) :=
  s ← object_store name db;
  i ← ok_or (List.find (fun i => String.eqb (index_name i) index) (store_indexes s)) IdbError;
  Ok (filter (fun o => index_key i o = Some key) (map snd (in_key_order (records s)))).

(** ** Databases *)

(** [Factory::open] of a name: a database that does not exist is created, empty, at version 1;
    one is never opened at a lower version. *)
Definition fresh_idb : Idb := MkIdb 1 ∅.

Definition factory_open (version : option Z) (db : option Idb) : kres Idb :=
  match version, db with
  | None, _ => Ok (default fresh_idb db)
  | Some v, None => Ok (MkIdb v ∅)
  | Some v, Some db => if (v <? idb_version db)%Z then Err IdbError else Ok (MkIdb v (stores db))
  end.

(** The calls on a [DatabaseBuilder]. *)
Inductive Directive : Type :=
  | BVersion (v : Z)
  | BAddStore (name : string) (indexes : list Index)
  | BRemoveStore (name : string)
  | BRenameStore (old new : string)
  | BAddIndex (name : string) (i : Index).

Abbreviation Builder := (list Directive).

Definition apply_directive (db : Idb) (d : Directive) : Idb :=
  match d with
  | BVersion v => MkIdb v (stores db)
  | BAddStore name indexes => set_store name (MkStore indexes ∅) db
  | BRemoveStore name => MkIdb (idb_version db) (base.delete name (stores db))
  | BRenameStore old new =>
      match stores db !! old with
      | Some s => MkIdb (idb_version db) (<[new := s]> (base.delete old (stores db)))
      | None => db
      end
  | BAddIndex name i =>
      match stores db !! name with
      | Some s => set_store name (MkStore (store_indexes s ++ [i]) (records s)) db
      | None => db
      end
  end.

Definition apply_directives (db : Idb) (b : Builder) : Idb := foldl apply_directive db b.

(** The directives of a builder for versions after [v]. *)
Fixpoint directives_after (v : Z) (b : Builder) : Builder :=
  match b with
  | [] => []
  | BVersion w :: b' => if (v <? w)%Z then b else directives_after v b'
  | _ :: b' => directives_after v b'
  end.

Fixpoint directives_upto (v : Z) (b : Builder) : Builder :=
  match b with
  | [] => []
  | BVersion w :: b' => if (v <? w)%Z then [] else BVersion w :: directives_upto v b'
  | d :: b' => d :: directives_upto v b'
  end.

(** The schema of a database: its version, its stores and their indexes. *)
Definition idb_schema (db : Idb) : Z * gmap string (list Index) := (idb_version db, store_indexes <$> stores db).
Definition builder_schema (b : Builder) : Z * gmap string (list Index) := idb_schema (apply_directives fresh_idb b).

(** The [idb] crate and the browser: building a database, whether a transaction is committed,
    and what a transaction that is dropped before it completes leaves of its writes. *)
Class IdbPlatform : Type := {
  build : Builder -> Idb -> kres Idb;
  commits : Idb -> Idb -> bool;
  dropped : Idb -> Idb -> Idb;
}.

(** Building a database that has the schema of the builder at its version performs the
    directives of later versions. *)
Class IdbPlatformLaws (P : IdbPlatform) : Prop := {
  build_upgrades b db :
    idb_schema db = builder_schema (directives_upto (idb_version db) b) ->
    build b db = Ok (apply_directives db (directives_after (idb_version db) b));
}.

(** The writes of a transaction, which ends with [transaction.await] unless they fail. *)
Definition transaction {A} `{P : IdbPlatform} (not_committed : KeystoreError.t) (work : st Idb KeystoreError.t A) :
    st Idb KeystoreError.t A := fun before =>
  match work before with
  | (Ok a, after) => if commits before after then (Ok a, after) else (Err not_committed, before)
  | (r, pending) => (r, dropped before pending)
  end.

(** ** Facts about requests *)

Lemma in_key_order_Permutation r : in_key_order r ≡ₚ map_to_list r.
Proof. apply merge_sort_Permutation. Qed.

Lemma elem_of_in_key_order r k o : (k, o) ∈ in_key_order r <-> r !! k = Some o.
Proof. by rewrite in_key_order_Permutation, elem_of_map_to_list. Qed.

Lemma conflicts_true s k v :
  conflicts s k v = true <->
  exists k' v' i, records s !! k' = Some v' /\ k' <> k /\ i ∈ store_indexes s /\ index_unique i = true /\
    same_index_key v' v i = true.
Proof.
  unfold conflicts. rewrite existsb_exists. split.
  - intros ([k' v'] & Hin & H). apply list_elem_of_In, elem_of_map_to_list in Hin.
    apply andb_true_iff in H as [Hne H]. apply existsb_exists in H as (i & Hi & H).
    apply andb_true_iff in H as [Hu Hs]. apply negb_true_iff, bool_decide_eq_false in Hne.
    exists k', v', i. by rewrite <- list_elem_of_In in Hi.
  - intros (k' & v' & i & Hr & Hne & Hi & Hu & Hs). exists (k', v').
    rewrite <- list_elem_of_In, elem_of_map_to_list. split; [done|]. cbn.
    rewrite bool_decide_eq_false_2 by done. cbn. apply existsb_exists. exists i.
    rewrite <- list_elem_of_In, Hu, Hs. done.
Qed.

Lemma directives_split v b : directives_upto v b ++ directives_after v b = b.
Proof. induction b as [|[] b IH]; cbn; try congruence. case_match; cbn; congruence. Qed.

(** ** A platform that upgrades, commits, and keeps nothing of dropped transactions *)

Definition toy_build (b : Builder) (db : Idb) : kres Idb :=
  Ok (apply_directives db (directives_after (idb_version db) b)).

#[export] Instance toy_platform : IdbPlatform := {|
  build := toy_build; commits _ _ := true; dropped before _ := before
|}.

#[export] Instance toy_platform_laws : IdbPlatformLaws toy_platform.
Proof. by split. Qed.
