(* ===== verification/WasmStorage.v ===== *)
(** * The storage of the browser build

    [keystore/src/connection/platform/wasm]: the encrypted storage over an IndexedDB database
    or over a map in memory, its transactions, the change of the key, the search keys of the
    entities that have them, and the saves and deletions a keystore transaction commits. *)

From S2P Require Import Prelude Keys EntityTypes Entities Sql KeystoreErrors EntityStore CryptoErrors ItemEncryption WasmEntities Idb.
From Stdlib Require Import Lia ZArith.

Abbreviation InMemoryDB := (gmap string (gmap bytes JsObject)).

Inductive WasmStorageWrapper : Type := Persistent (db : Idb) | InMemory (db : InMemoryDB).

Record WasmEncryptedStorage `{G : AesGcm} : Type := MkStorage { storage : WasmStorageWrapper; cipher : Cipher }.
Arguments MkStorage {G}.

Section storage.
Context `{X : Externals, G : AesGcm}.

Abbreviation Storage := WasmEncryptedStorage.

(** ** [WasmEncryptedStorage] *)

Definition new (key : bytes) (s : WasmStorageWrapper) : Storage := MkStorage s (cipher_new key).

Definition new_with_pre_v4_key (key : bytes) (s : WasmStorageWrapper) : Storage :=
  MkStorage s (cipher_new (sha256_digest key)).

Definition is_persistent (s : Storage) : bool :=
  match storage s with Persistent _ => true | InMemory _ => false end.

(** [close] leaves the contents of a persistent database and clears those in memory. *)
Definition close (s : Storage) : WasmStorageWrapper :=
  match storage s with Persistent db => Persistent db | InMemory _ => InMemory ∅ end.

Definition as_u32 (n : nat) : Z := (Z.of_nat n mod 2 ^ 32)%Z.

Definition count (E : Type) `{!WasmEntity E} (s : Storage) : kres Z :=
  match storage s with
  | Persistent db => as_u32 <$> idb_count (COLLECTION_NAME E) None db
  | InMemory m => Ok (default 0%Z ((fun v : gmap bytes JsObject => as_u32 (size v)) <$> m !! COLLECTION_NAME E))
  end.

Definition get (E : Type) `{!WasmEntity E} (key : bytes) (s : Storage) : kres (option E) :=
  js_value ← match storage s with
    | Persistent db => idb_get (COLLECTION_NAME E) key db
    | InMemory m => Ok (store ← m !! COLLECTION_NAME E; store !! key)
    end;
  match js_value with None => Ok None | Some o => Some <$> decrypt (cipher s) o end.

(** [get_all_with_query]: the query is for the database only. *)
Definition get_all_with_query (E : Type) `{!WasmEntity E} (query : option bytes) (s : Storage) : kres (list E) :=
  js_values ← match storage s with
    | Persistent db => idb_get_all (COLLECTION_NAME E) query db
    | InMemory m => Ok (default [] ((fun v => map snd (map_to_list v)) <$> m !! COLLECTION_NAME E))
    end;
  mapM (decrypt (cipher s)) js_values.

Definition get_all (E : Type) `{!WasmEntity E} (s : Storage) : kres (list E) := get_all_with_query E None s.

(** ** [WasmStorageTransaction]

    The state is that of the storage while the transaction runs; [scope] are the stores it was
    opened for. *)

Abbreviation tx_st := (st WasmStorageWrapper KeystoreError.t).

(** [Transaction::object_store]. *)
Definition in_scope (scope : list string) (name : string) : kres () :=
  if decide (name ∈ scope) then Ok () else Err IdbError.

Definition on_idb {A} (m : Idb -> kres A * Idb) (db : Idb) : kres A * WasmStorageWrapper :=
  let '(r, db) := m db in (r, Persistent db).

Definition tx_count (E : Type) `{!WasmEntity E} (scope : list string) : tx_st Z := fun s =>
  match s with
  | Persistent db =>
      (_ ← in_scope scope (COLLECTION_NAME E); as_u32 <$> idb_count (COLLECTION_NAME E) None db, s)
  | InMemory m => (Ok (default 0%Z ((fun v : gmap bytes JsObject => as_u32 (size v)) <$> m !! COLLECTION_NAME E)), s)
  end.

Definition tx_put (scope : list string) (name : string) (key : bytes) (js_value : JsObject) : tx_st () := fun s =>
  match s with
  | Persistent db => on_idb (_ ← st_lift (fun _ => in_scope scope name); idb_put name key js_value) db
  | InMemory m => (Ok (), InMemory (<[name := <[key := js_value]> (default ∅ (m !! name))]> m))
  end.

Definition tx_save {E : Type} `{!WasmEntity E} (scope : list string) (c : Cipher) (draw : Nonces) (e : E) : tx_st () :=
  js_value ← st_lift (fun _ => encrypt draw c e);
  tx_put scope (COLLECTION_NAME E) (wasm_key e) js_value.

Definition tx_delete_key (scope : list string) (name : string) (key : bytes) : tx_st bool := fun s =>
  match s with
  | Persistent db =>
      on_idb (_ ← st_lift (fun _ => in_scope scope name);
              existed ← st_lift (idb_count name (Some key));
              _ ← idb_delete name key;
              mret (bool_decide (0 < existed))) db
  | InMemory m =>
      let store := default ∅ (m !! name) in
      (Ok (bool_decide (is_Some (store !! key))), InMemory (<[name := base.delete key store]> m))
  end.

Definition tx_delete (E : Type) `{!WasmEntity E} (scope : list string) (key : bytes) : tx_st bool :=
  tx_delete_key scope (COLLECTION_NAME E) key.

(** [UniqueEntityExt::set_and_replace]. *)
Definition set_and_replace {E : Type} `{!WasmEntity E} (scope : list string) (c : Cipher) (draw : Nonces) (e : E) : tx_st bool :=
  deleted ← tx_delete E scope (wasm_key e);
  _ ← tx_save scope c draw e;
  mret deleted.

(** [UniqueEntityExt::set_if_absent]. *)
Definition set_if_absent {E : Type} `{!WasmEntity E} (scope : list string) (c : Cipher) (draw : Nonces) (e : E) : tx_st bool :=
  count ← tx_count E scope;
  if (0 <? count)%Z then mret false else _ ← tx_save scope c draw e; mret true.

Definition not_committed : KeystoreError.t := KeystoreError.MlsKeyStoreError.

(** [TransactionCreator::new_transaction], the work, and [commit_tx]: a map in memory is
    written through. *)
Definition with_transaction {A} `{P : IdbPlatform} (tables : list string) (work : tx_st A) : st Storage KeystoreError.t A :=
  fun s =>
  match storage s with
  | Persistent db =>
      if decide (Forall (fun name => is_Some (stores db !! name)) tables) then
        match work (Persistent db) with
        | (Ok a, Persistent after) =>
            if commits db after then (Ok a, MkStorage (Persistent after) (cipher s)) else (Err not_committed, s)
        | (r, Persistent pending) => (r, MkStorage (Persistent (dropped db pending)) (cipher s))
        | (_, InMemory _) => (Panic, s)
        end
      else (Err IdbError, s)
  | InMemory m => let '(r, w) := work (InMemory m) in (r, MkStorage w (cipher s))
  end.

(** ** Changing the key *)

(** [rekey_entity]: every record is read with the old cipher and put under the key of its
    entity with the new one. *)
Fixpoint rekey_records (E : Type) `{!WasmEntity E} (draw : Nonces) (old_cipher new_cipher : Cipher) (values : list JsObject) :
    st Idb KeystoreError.t () :=
  match values with
  | [] => mret ()
  | js_value :: values =>
      entity ← st_lift (fun _ => decrypt (E := E) old_cipher js_value);
      encrypted ← st_lift (fun _ => encrypt draw new_cipher entity);
      _ ← idb_put (COLLECTION_NAME E) (wasm_key entity) encrypted;
      rekey_records E (skip_nonces 2 draw) old_cipher new_cipher values
  end.

Definition rekey_entity (E : Type) `{!WasmEntity E} (draw : Nonces) (old_cipher new_cipher : Cipher) : st Idb KeystoreError.t () :=
  st_map_err (fun _ => KeystoreError.MigrationFailed)
    (values ← st_lift (idb_get_all (COLLECTION_NAME E) None);
     rekey_records E draw old_cipher new_cipher values).

(** [update_key]: [rekey_entities!] in one transaction; [draws] are the nonces of each type. *)
Definition rekey_all (draws : nat -> Nonces) (o n : Cipher) : st Idb KeystoreError.t () :=
  _ ← rekey_entity StoredCredential (draws 0) o n;
  _ ← rekey_entity StoredHpkePrivateKey (draws 1) o n;
  _ ← rekey_entity StoredEncryptionKeyPair (draws 2) o n;
  _ ← rekey_entity StoredEpochEncryptionKeypair (draws 3) o n;
  _ ← rekey_entity StoredPskBundle (draws 4) o n;
  _ ← rekey_entity StoredKeypackage (draws 5) o n;
  _ ← rekey_entity PersistedMlsGroup (draws 6) o n;
  _ ← rekey_entity PersistedMlsPendingGroup (draws 7) o n;
  _ ← rekey_entity MlsPendingMessage (draws 8) o n;
  _ ← rekey_entity StoredE2eiEnrollment (draws 9) o n;
  _ ← rekey_entity E2eiAcmeCA (draws 10) o n;
  _ ← rekey_entity E2eiIntermediateCert (draws 11) o n;
  _ ← rekey_entity E2eiCrl (draws 12) o n;
  _ ← rekey_entity ProteusPrekey (draws 13) o n;
  _ ← rekey_entity ProteusIdentity (draws 14) o n;
  rekey_entity ProteusSession (draws 15) o n.

Definition update_key `{P : IdbPlatform} (draws : nat -> Nonces) (new_key : bytes) : st Storage KeystoreError.t () := fun s =>
  match storage s with
  | Persistent db =>
      let new_cipher := cipher_new new_key in
      match transaction KeystoreError.MigrationFailed (rekey_all draws (cipher s) new_cipher) db with
      | (Ok _, db) => (Ok (), MkStorage (Persistent db) new_cipher)
      | (r, db) => (r, MkStorage (Persistent db) (cipher s))
      end
  | InMemory _ => (Err KeystoreError.NotImplemented, s)
  end.

(** ** Reads that are not by primary key *)

(** [ProteusIdentity::get]. *)
Definition identity_get (s : Storage) : kres (option ProteusIdentity) := last <$> get_all ProteusIdentity s.

(** [MlsPendingMessage::find_all_matching] and [delete_all_matching]: the id of the conversation
    is the query for the key of the store. *)
Definition pending_message_find_all_matching (conversation_id : bytes) (s : Storage) : kres (list MlsPendingMessage) :=
  get_all_with_query MlsPendingMessage (Some conversation_id) s.

Definition pending_message_delete_all_matching (scope : list string) (conversation_id : bytes) : tx_st () :=
  _ ← tx_delete MlsPendingMessage scope conversation_id; mret ().

(** [PersistedMlsGroup::find_all_matching]: the index in a database, a scan in memory, which
    keeps the records it cannot read for [collect] to fail on. *)
Definition group_find_all_matching (parent_id : bytes) (s : Storage) : kres (list PersistedMlsGroup) :=
  match storage s with
  | InMemory m =>
      match m !! COLLECTION_NAME PersistedMlsGroup with
      | None => Ok []
      | Some entities =>
          mapM id (filter (fun r : kres PersistedMlsGroup =>
              match r with Ok g => bool_decide (group_parent_id g = Some parent_id) | _ => true end = true)
            (map (fun r => decrypt (cipher s) r.2) (map_to_list entities)))
      end
  | Persistent db =>
      entities ← idb_index_get_all (COLLECTION_NAME PersistedMlsGroup) "parent_id" (JsArray parent_id) db;
      mapM (decrypt (cipher s)) entities
  end.

(** [StoredCredential::find_all_matching]: by hash when one is known. *)
Definition credential_find_all_matching (filters : CredentialFindFilters) (s : Storage) : kres (list StoredCredential) :=
  let matching := filter (fun c => credential_matches filters (Entity.StoredCredential c) = true) in
  let hash := match filter_hash filters with
    | Some h => Some (hash_bytes h)
    | None => (fun k => hash_bytes (hash_from k)) <$> filter_public_key filters
    end in
  match hash with
  | Some h => optional ← get StoredCredential h s; Ok (matching (option_list optional))
  | None => matching <$> get_all StoredCredential s
  end.

(** ** [Entity::get] and [Entity::load_all] *)

Definition entity_get (ty : EntityType.t) (key : bytes) (s : Storage) : kres (option Entity.t) :=
  match ty with
  | EntityType.HpkePrivateKey => option_map Entity.HpkePrivateKey <$> get StoredHpkePrivateKey key s
  | EntityType.KeyPackage => option_map Entity.StoredKeypackage <$> get StoredKeypackage key s
  | EntityType.PskBundle => option_map Entity.PskBundle <$> get StoredPskBundle key s
  | EntityType.EncryptionKeyPair => option_map Entity.EncryptionKeyPair <$> get StoredEncryptionKeyPair key s
  | EntityType.EpochEncryptionKeyPair => option_map Entity.StoredEpochEncryptionKeypair <$> get StoredEpochEncryptionKeypair key s
  | EntityType.StoredCredential => option_map Entity.StoredCredential <$> get StoredCredential key s
  | EntityType.StoredBufferedCommit => option_map Entity.StoredBufferedCommit <$> get StoredBufferedCommit key s
  | EntityType.PersistedMlsGroup => option_map Entity.PersistedMlsGroup <$> get PersistedMlsGroup key s
  | EntityType.PersistedMlsPendingGroup => option_map Entity.PersistedMlsPendingGroup <$> get PersistedMlsPendingGroup key s
  | EntityType.MlsPendingMessage => Panic
  | EntityType.StoredE2eiEnrollment => option_map Entity.StoredE2eiEnrollment <$> get StoredE2eiEnrollment key s
  | EntityType.E2eiAcmeCA => option_map Entity.E2eiAcmeCA <$> get E2eiAcmeCA key s
  | EntityType.E2eiIntermediateCert => option_map Entity.E2eiIntermediateCert <$> get E2eiIntermediateCert key s
  | EntityType.E2eiCrl => option_map Entity.E2eiCrl <$> get E2eiCrl key s
  | EntityType.ProteusIdentity => option_map Entity.ProteusIdentity <$> identity_get s
  | EntityType.ProteusPrekey => option_map Entity.ProteusPrekey <$> get ProteusPrekey key s
  | EntityType.ProteusSession => option_map Entity.ProteusSession <$> get ProteusSession key s
  | EntityType.ConsumerData => option_map Entity.ConsumerData <$> get ConsumerData key s
  end.

Definition entity_load_all (ty : EntityType.t) (s : Storage) : kres (list Entity.t) :=
  match ty with
  | EntityType.HpkePrivateKey => map Entity.HpkePrivateKey <$> get_all StoredHpkePrivateKey s
  | EntityType.KeyPackage => map Entity.StoredKeypackage <$> get_all StoredKeypackage s
  | EntityType.PskBundle => map Entity.PskBundle <$> get_all StoredPskBundle s
  | EntityType.EncryptionKeyPair => map Entity.EncryptionKeyPair <$> get_all StoredEncryptionKeyPair s
  | EntityType.EpochEncryptionKeyPair => map Entity.StoredEpochEncryptionKeypair <$> get_all StoredEpochEncryptionKeypair s
  | EntityType.StoredCredential => map Entity.StoredCredential <$> get_all StoredCredential s
  | EntityType.StoredBufferedCommit => map Entity.StoredBufferedCommit <$> get_all StoredBufferedCommit s
  | EntityType.PersistedMlsGroup => map Entity.PersistedMlsGroup <$> get_all PersistedMlsGroup s
  | EntityType.PersistedMlsPendingGroup => map Entity.PersistedMlsPendingGroup <$> get_all PersistedMlsPendingGroup s
  | EntityType.MlsPendingMessage => map Entity.MlsPendingMessage <$> get_all MlsPendingMessage s
  | EntityType.StoredE2eiEnrollment => map Entity.StoredE2eiEnrollment <$> get_all StoredE2eiEnrollment s
  | EntityType.E2eiAcmeCA => map Entity.E2eiAcmeCA <$> get_all E2eiAcmeCA s
  | EntityType.E2eiIntermediateCert => map Entity.E2eiIntermediateCert <$> get_all E2eiIntermediateCert s
  | EntityType.E2eiCrl => map Entity.E2eiCrl <$> get_all E2eiCrl s
  | EntityType.ProteusIdentity => map Entity.ProteusIdentity <$> get_all ProteusIdentity s
  | EntityType.ProteusPrekey => map Entity.ProteusPrekey <$> get_all ProteusPrekey s
  | EntityType.ProteusSession => map Entity.ProteusSession <$> get_all ProteusSession s
  | EntityType.ConsumerData => map Entity.ConsumerData <$> get_all ConsumerData s
  end.

(** ** What a keystore transaction commits *)

(** [dynamic_dispatch::Entity::execute_save]. *)
Definition execute_save (scope : list string) (c : Cipher) (draw : Nonces) (e : Entity.t) : tx_st () :=
  match e with
  | Entity.ConsumerData e => _ ← set_and_replace scope c draw e; mret ()
  | Entity.HpkePrivateKey e => tx_save scope c draw e
  | Entity.StoredKeypackage e => tx_save scope c draw e
  | Entity.PskBundle e => tx_save scope c draw e
  | Entity.EncryptionKeyPair e => tx_save scope c draw e
  | Entity.StoredEpochEncryptionKeypair e => tx_save scope c draw e
  | Entity.StoredCredential e => tx_save scope c draw e
  | Entity.StoredBufferedCommit e => tx_save scope c draw e
  | Entity.PersistedMlsGroup e => tx_save scope c draw e
  | Entity.PersistedMlsPendingGroup e => tx_save scope c draw e
  | Entity.MlsPendingMessage e => tx_save scope c draw e
  | Entity.StoredE2eiEnrollment e => tx_save scope c draw e
  | Entity.E2eiAcmeCA e => _ ← set_and_replace scope c draw e; mret ()
  | Entity.E2eiIntermediateCert e => tx_save scope c draw e
  | Entity.E2eiCrl e => tx_save scope c draw e
  | Entity.ProteusIdentity e => tx_save scope c draw e
  | Entity.ProteusPrekey e => tx_save scope c draw e
  | Entity.ProteusSession e => tx_save scope c draw e
  end.

(** [EntityId::primary_key]: whether the bytes are those of a key of the type; the keys of the
    unique entities have other widths than in the native build. *)
Definition wasm_key_valid (ty : EntityType.t) (id : bytes) : bool :=
  match ty with
  | EntityType.ConsumerData | EntityType.E2eiAcmeCA => bool_decide (length id = 4)
  | EntityType.ProteusIdentity => bool_decide (length id = 1)
  | _ => bool_decide (is_Some (pk_from_bytes ty id))
  end.

(** [EntityId::execute_delete]. *)
Definition execute_delete (scope : list string) (i : EntityId.t) : tx_st bool :=
  let delete E `(!WasmEntity E) : tx_st bool :=
    if wasm_key_valid (EntityId.typ i) (EntityId.id i) then tx_delete E scope (EntityId.id i)
    else st_throw (KeystoreError.InvalidPrimaryKeyBytes (EntityId.collection_name i)) in
  match EntityId.typ i with
  | EntityType.HpkePrivateKey => delete StoredHpkePrivateKey _
  | EntityType.KeyPackage => delete StoredKeypackage _
  | EntityType.PskBundle => delete StoredPskBundle _
  | EntityType.EncryptionKeyPair => delete StoredEncryptionKeyPair _
  | EntityType.EpochEncryptionKeyPair => delete StoredEpochEncryptionKeypair _
  | EntityType.StoredCredential => delete StoredCredential _
  | EntityType.StoredBufferedCommit => delete StoredBufferedCommit _
  | EntityType.PersistedMlsGroup => delete PersistedMlsGroup _
  | EntityType.PersistedMlsPendingGroup => delete PersistedMlsPendingGroup _
  | EntityType.MlsPendingMessage => _ ← pending_message_delete_all_matching scope (EntityId.id i); mret false
  | EntityType.StoredE2eiEnrollment => delete StoredE2eiEnrollment _
  | EntityType.E2eiAcmeCA => delete E2eiAcmeCA _
  | EntityType.E2eiIntermediateCert => delete E2eiIntermediateCert _
  | EntityType.E2eiCrl => delete E2eiCrl _
  | EntityType.ProteusSession => delete ProteusSession _
  | EntityType.ProteusIdentity => delete ProteusIdentity _
  | EntityType.ProteusPrekey => delete ProteusPrekey _
  | EntityType.ConsumerData => delete ConsumerData _
  end.

Fixpoint commit_saves (scope : list string) (c : Cipher) (draw : Nonces) (es : list Entity.t) : tx_st () :=
  match es with
  | [] => mret ()
  | e :: es => _ ← execute_save scope c draw e; commit_saves scope c (skip_nonces 2 draw) es
  end.

Fixpoint commit_deletes (scope : list string) (ids : list EntityId.t) : tx_st () :=
  match ids with
  | [] => mret ()
  | i :: ids => _ ← execute_delete scope i; commit_deletes scope ids
  end.

(** [KeystoreTransaction::commit]: the saves, then the deletions, in one transaction over their
    collections. *)
Definition commit_tables (saves : list Entity.t) (deletes : list EntityId.t) : list string :=
  map EntityId.collection_name deletes ++ map (fun e => EntityType.collection_name (Entity.typ e)) saves.

Definition commit `{P : IdbPlatform} (draw : Nonces) (saves : list Entity.t) (deletes : list EntityId.t) :
    st Storage KeystoreError.t () := fun s =>
  let tables := commit_tables saves deletes in
  if decide (tables = []) then (Ok (), s) else
  with_transaction tables
    (_ ← commit_saves tables (cipher s) draw saves; commit_deletes tables deletes) s.
End storage.
