(* ===== verification/WasmStorageProps.v ===== *)
(** * Correctness of the browser storage

    A storage represents a map from entity ids to entities: reads look up in it, a committed
    transaction inserts and deletes in it, and changing the key keeps it, except for the two
    kinds of entities the code does not re-encrypt. *)

From S2P Require Import Prelude Keys EntityTypes Entities ToyExternals Sql KeystoreErrors EntityStore CryptoErrors ItemEncryption WasmEntities Idb WasmStorage.
From Stdlib Require Import Lia ZArith.

(** ** Entities of every type *)

Section dispatch.
Context `{X : Externals, G : AesGcm}.

Definition entity_encrypt (draw : Nonces) (c : Cipher) (e : Entity.t) : kres JsObject :=
  match e with
  | Entity.ConsumerData e => encrypt draw c e
  | Entity.HpkePrivateKey e => encrypt draw c e
  | Entity.StoredKeypackage e => encrypt draw c e
  | Entity.PskBundle e => encrypt draw c e
  | Entity.EncryptionKeyPair e => encrypt draw c e
  | Entity.StoredEpochEncryptionKeypair e => encrypt draw c e
  | Entity.StoredCredential e => encrypt draw c e
  | Entity.StoredBufferedCommit e => encrypt draw c e
  | Entity.PersistedMlsGroup e => encrypt draw c e
  | Entity.PersistedMlsPendingGroup e => encrypt draw c e
  | Entity.MlsPendingMessage e => encrypt draw c e
  | Entity.StoredE2eiEnrollment e => encrypt draw c e
  | Entity.E2eiAcmeCA e => encrypt draw c e
  | Entity.E2eiIntermediateCert e => encrypt draw c e
  | Entity.E2eiCrl e => encrypt draw c e
  | Entity.ProteusIdentity e => encrypt draw c e
  | Entity.ProteusPrekey e => encrypt draw c e
  | Entity.ProteusSession e => encrypt draw c e
  end.

Definition entity_decrypt (ty : EntityType.t) (c : Cipher) (o : JsObject) : kres Entity.t :=
  match ty with
  | EntityType.HpkePrivateKey => Entity.HpkePrivateKey <$> decrypt c o
  | EntityType.KeyPackage => Entity.StoredKeypackage <$> decrypt c o
  | EntityType.PskBundle => Entity.PskBundle <$> decrypt c o
  | EntityType.EncryptionKeyPair => Entity.EncryptionKeyPair <$> decrypt c o
  | EntityType.EpochEncryptionKeyPair => Entity.StoredEpochEncryptionKeypair <$> decrypt c o
  | EntityType.StoredCredential => Entity.StoredCredential <$> decrypt c o
  | EntityType.StoredBufferedCommit => Entity.StoredBufferedCommit <$> decrypt c o
  | EntityType.PersistedMlsGroup => Entity.PersistedMlsGroup <$> decrypt c o
  | EntityType.PersistedMlsPendingGroup => Entity.PersistedMlsPendingGroup <$> decrypt c o
  | EntityType.MlsPendingMessage => Entity.MlsPendingMessage <$> decrypt c o
  | EntityType.StoredE2eiEnrollment => Entity.StoredE2eiEnrollment <$> decrypt c o
  | EntityType.E2eiAcmeCA => Entity.E2eiAcmeCA <$> decrypt c o
  | EntityType.E2eiIntermediateCert => Entity.E2eiIntermediateCert <$> decrypt c o
  | EntityType.E2eiCrl => Entity.E2eiCrl <$> decrypt c o
  | EntityType.ProteusIdentity => Entity.ProteusIdentity <$> decrypt c o
  | EntityType.ProteusPrekey => Entity.ProteusPrekey <$> decrypt c o
  | EntityType.ProteusSession => Entity.ProteusSession <$> decrypt c o
  | EntityType.ConsumerData => Entity.ConsumerData <$> decrypt c o
  end.

(** The bytes of the primary key an entity has in the browser. *)
Definition browser_key (e : Entity.t) : bytes :=
  match e with
  | Entity.ConsumerData _ | Entity.E2eiAcmeCA _ => UNIQUE_KEY
  | Entity.ProteusIdentity _ => IDENTITY_KEY
  | _ => pk_bytes (primary_key e)
  end.

Definition browser_id (e : Entity.t) : EntityId.t := EntityId.MkId (Entity.typ e) (browser_key e).
End dispatch.

(** How a Rust type appears among the entities. *)
Class EntityOf `{X : Externals, G : AesGcm} (E : Type) `{!WasmEntity E} (ty : EntityType.t) (inj : E -> Entity.t) : Prop := {
  of_collection : COLLECTION_NAME E = EntityType.collection_name ty;
  of_encrypt draw c e : entity_encrypt draw c (inj e) = encrypt draw c e;
  of_decrypt c o : entity_decrypt ty c o = inj <$> decrypt c o;
  of_key e : browser_key (inj e) = wasm_key e;
}.

Section entity_of.
Context `{X : Externals, G : AesGcm}.
#[export] Instance storedHpkePrivateKey_of : EntityOf StoredHpkePrivateKey EntityType.HpkePrivateKey Entity.HpkePrivateKey.
Proof. by split. Qed.
#[export] Instance storedKeypackage_of : EntityOf StoredKeypackage EntityType.KeyPackage Entity.StoredKeypackage.
Proof. by split. Qed.
#[export] Instance storedPskBundle_of : EntityOf StoredPskBundle EntityType.PskBundle Entity.PskBundle.
Proof. by split. Qed.
#[export] Instance storedEncryptionKeyPair_of : EntityOf StoredEncryptionKeyPair EntityType.EncryptionKeyPair Entity.EncryptionKeyPair.
Proof. by split. Qed.
#[export] Instance storedEpochEncryptionKeypair_of : EntityOf StoredEpochEncryptionKeypair EntityType.EpochEncryptionKeyPair Entity.StoredEpochEncryptionKeypair.
Proof. by split. Qed.
#[export] Instance storedCredential_of : EntityOf StoredCredential EntityType.StoredCredential Entity.StoredCredential.
Proof. by split. Qed.
#[export] Instance storedBufferedCommit_of : EntityOf StoredBufferedCommit EntityType.StoredBufferedCommit Entity.StoredBufferedCommit.
Proof. by split. Qed.
#[export] Instance persistedMlsGroup_of : EntityOf PersistedMlsGroup EntityType.PersistedMlsGroup Entity.PersistedMlsGroup.
Proof. by split. Qed.
#[export] Instance persistedMlsPendingGroup_of : EntityOf PersistedMlsPendingGroup EntityType.PersistedMlsPendingGroup Entity.PersistedMlsPendingGroup.
Proof. by split. Qed.
#[export] Instance mlsPendingMessage_of : EntityOf MlsPendingMessage EntityType.MlsPendingMessage Entity.MlsPendingMessage.
Proof. by split. Qed.
#[export] Instance storedE2eiEnrollment_of : EntityOf StoredE2eiEnrollment EntityType.StoredE2eiEnrollment Entity.StoredE2eiEnrollment.
Proof. by split. Qed.
#[export] Instance e2eiAcmeCA_of : EntityOf E2eiAcmeCA EntityType.E2eiAcmeCA Entity.E2eiAcmeCA.
Proof. by split. Qed.
#[export] Instance e2eiIntermediateCert_of : EntityOf E2eiIntermediateCert EntityType.E2eiIntermediateCert Entity.E2eiIntermediateCert.
Proof. by split. Qed.
#[export] Instance e2eiCrl_of : EntityOf E2eiCrl EntityType.E2eiCrl Entity.E2eiCrl.
Proof. by split. Qed.
#[export] Instance proteusIdentity_of : EntityOf ProteusIdentity EntityType.ProteusIdentity Entity.ProteusIdentity.
Proof. by split. Qed.
#[export] Instance proteusPrekey_of : EntityOf ProteusPrekey EntityType.ProteusPrekey Entity.ProteusPrekey.
Proof. by split. Qed.
#[export] Instance proteusSession_of : EntityOf ProteusSession EntityType.ProteusSession Entity.ProteusSession.
Proof. by split. Qed.
#[export] Instance consumerData_of : EntityOf ConsumerData EntityType.ConsumerData Entity.ConsumerData.
Proof. by split. Qed.
End entity_of.

Section representation.
Context `{X : Externals, G : AesGcm, !AesGcmLaws G}.

Lemma entity_decrypt_typ ty c o e : entity_decrypt ty c o = Ok e -> Entity.typ e = ty.
Proof. destruct ty; cbn [entity_decrypt]; intros (x & _ & ->)%fmap_Ok; reflexivity. Qed.

(** The encrypted form of an entity of any type decrypts to it. *)
Lemma entity_round_trip draw c e o :
  nonces_ok draw -> entity_ok e -> entity_encrypt draw c e = Ok o -> entity_decrypt (Entity.typ e) c o = Ok e.
Proof.
  intros Hn Hok He. destruct e; cbn [entity_encrypt entity_decrypt Entity.typ] in *;
    erewrite decrypt_encrypt; eauto; try typeclasses eauto; try exact I; exact Hok.
Qed.

(** ** What a storage holds *)

Abbreviation Contents := (gmap EntityId.t Entity.t).

Definition record (w : WasmStorageWrapper) (i : EntityId.t) : option JsObject :=
  match w with
  | Persistent db => s ← stores db !! EntityId.collection_name i; records s !! EntityId.id i
  | InMemory m => s ← m !! EntityId.collection_name i; (s : gmap bytes JsObject) !! EntityId.id i
  end.

(** A record is the encrypted form of a well-formed entity, stored under its key. *)
Definition is_form (c : Cipher) (i : EntityId.t) (o : JsObject) (e : Entity.t) : Prop :=
  entity_decrypt (EntityId.typ i) c o = Ok e /\ browser_id e = i /\ entity_ok e.

Definition holds (cs : EntityId.t -> Cipher) (w : WasmStorageWrapper) (m : Contents) : Prop :=
  forall i, option_Forall2 (is_form (cs i) i) (record w i) (m !! i).

(** The field the unique indexes of a store are on, for the entities whose key is not fixed. *)
Definition id_field (ty : EntityType.t) : option string :=
  match ty with
  | EntityType.HpkePrivateKey | EntityType.EncryptionKeyPair => Some "pk"
  | EntityType.KeyPackage => Some "keypackage_ref"
  | EntityType.PskBundle => Some "psk_id"
  | EntityType.StoredCredential => Some "public_key"
  | EntityType.StoredBufferedCommit => Some "conversation_id"
  | EntityType.E2eiIntermediateCert => Some "ski_aki_pair"
  | EntityType.E2eiCrl => Some "distribution_point"
  | EntityType.EpochEncryptionKeyPair | EntityType.PersistedMlsGroup | EntityType.PersistedMlsPendingGroup
  | EntityType.StoredE2eiEnrollment | EntityType.ProteusPrekey | EntityType.ProteusSession => Some "id"
  | EntityType.MlsPendingMessage | EntityType.E2eiAcmeCA | EntityType.ConsumerData | EntityType.ProteusIdentity => None
  end.

Definition index_ok (ty : EntityType.t) (i : Index) : Prop :=
  index_unique i = true ->
  match id_field ty with Some f => key_path i = f | None => ty <> EntityType.MlsPendingMessage end.

(** Every type has its store, and its unique indexes are on the field its key comes from. *)
Definition schema_ok (w : WasmStorageWrapper) : Prop :=
  match w with
  | Persistent db => forall ty, exists s, stores db !! EntityType.collection_name ty = Some s /\
      Forall (index_ok ty) (store_indexes s)
  | InMemory _ => True
  end.

(** The key an indexed value gives. *)
Definition key_of_field (ty : EntityType.t) (v : JsValue) : bytes :=
  match v with
  | JsArray b => if decide (ty = EntityType.StoredCredential) then hash_bytes (hash_from b) else b
  | JsString s => s
  | JsNumber z => to_le_bytes 2 z
  | JsNull => []
  end.

Lemma decrypted_key ty c o e f :
  entity_decrypt ty c o = Ok e -> id_field ty = Some f ->
  exists v, js_field f o = Some v /\ v <> JsNull /\ browser_key e = key_of_field ty v.
Proof.
  destruct ty; cbn [id_field]; intros He [= <-]; cbn [entity_decrypt] in He;
    apply fmap_Ok in He as (x & He & ->); cbn in He;
    unfold encryption_keypair_decrypt, hpke_decrypt, psk_decrypt, credential_decrypt, pending_group_decrypt, prekey_decrypt,
      derived_decrypt, group_decrypt in He;
    repeat (apply bind_Ok in He as (? & ? & He));
    unfold de_bytes, de_string, de_u16, de_uint in *; repeat (case_match; try discriminate); simplify_eq/=; eauto.
Qed.

(** Records that share the value of a unique index have the same key. *)
Lemma index_determines c c' i i' o o' e e' idx :
  EntityId.typ i = EntityId.typ i' -> is_form c i o e -> is_form c' i' o' e' ->
  index_ok (EntityId.typ i) idx -> index_unique idx = true -> same_index_key o o' idx = true -> EntityId.id i = EntityId.id i'.
Proof.
  destruct i as [ty k], i' as [ty' k']. cbn. intros <- (Hd & Hi & _) (Hd' & Hi' & _) Hidx Hu Hs. cbn in *.
  injection Hi as Hty <-. injection Hi' as Hty' <-. specialize (Hidx Hu).
  destruct (id_field ty) as [f|] eqn:Hf.
  - destruct (decrypted_key _ _ _ _ _ Hd Hf) as (v & Hv & Hn & ->).
    destruct (decrypted_key _ _ _ _ _ Hd' Hf) as (v' & Hv' & Hn' & ->).
    unfold same_index_key, index_key in Hs. rewrite Hidx, Hv, Hv' in Hs.
    f_equal. destruct v, v'; try done; apply bool_decide_eq_true in Hs; congruence.
  - destruct ty; try done; destruct e, e'; try discriminate; done.
Qed.

Lemma record_set_store name s r db i :
  record (Persistent (set_store name (set_records r s) db)) i =
  if decide (EntityId.collection_name i = name) then r !! EntityId.id i else record (Persistent db) i.
Proof.
  unfold record, set_store. cbn. case_decide as Hn.
  - subst. by rewrite lookup_insert_eq.
  - by rewrite lookup_insert_ne by done.
Qed.

Lemma schema_ok_set_store name s r db :
  stores db !! name = Some s -> schema_ok (Persistent db) -> schema_ok (Persistent (set_store name (set_records r s) db)).
Proof.
  intros Hs Hok ty. destruct (Hok ty) as (s' & Hs' & Hi). cbn.
  destruct (decide (name = EntityType.collection_name ty)) as [->|Hn].
  - rewrite lookup_insert_eq. eexists. split; [done|]. by simplify_eq.
  - rewrite lookup_insert_ne by done. eauto.
Qed.

Lemma record_in_memory name r m i :
  record (InMemory (<[name := r]> m)) i =
  if decide (EntityId.collection_name i = name) then r !! EntityId.id i else record (InMemory m) i.
Proof.
  unfold record. case_decide as Hn.
  - subst. by rewrite lookup_insert_eq.
  - by rewrite lookup_insert_ne by done.
Qed.

(** ** Puts and deletions *)

Definition in_table (ty : EntityType.t) (scope : list string) : Prop := EntityType.collection_name ty ∈ scope.

Definition persistent (w : WasmStorageWrapper) : bool := match w with Persistent _ => true | InMemory _ => false end.

(** The wrapper has exactly the given record at [i], and is otherwise unchanged. *)
Definition updated (i : EntityId.t) (o : option JsObject) (w w' : WasmStorageWrapper) : Prop :=
  (forall j, record w' j = if decide (j = i) then o else record w j) /\ (schema_ok w -> schema_ok w') /\
  persistent w' = persistent w.

Lemma entity_id_eq i j : EntityId.collection_name j = EntityId.collection_name i -> EntityId.id j = EntityId.id i -> j = i.
Proof. destruct i, j. cbn. unfold EntityId.collection_name; cbn. by intros ->%(inj _) ->. Qed.

Lemma in_scope_idb {A} scope name (m : st Idb KeystoreError.t A) db :
  name ∈ scope -> on_idb (_ ← st_lift (fun _ => in_scope scope name); m) db = on_idb m db.
Proof. intros Hin. unfold on_idb, mbind, st_bind, st_lift, in_scope. by rewrite decide_True. Qed.

Lemma tx_put_ok cs c scope i o e (w : WasmStorageWrapper) m :
  holds cs w m -> schema_ok w -> in_table (EntityId.typ i) scope -> is_form c i o e ->
  exists w', tx_put scope (EntityId.collection_name i) (EntityId.id i) o w = (Ok (), w') /\ updated i (Some o) w w'.
Proof.
  intros Hm Hs Hin Hf. destruct w as [db|mem]; cbn [tx_put].
  - destruct (Hs (EntityId.typ i)) as (s & Hst & Hidx).
    change (stores db !! EntityId.collection_name i = Some s) in Hst.
    rewrite in_scope_idb by exact Hin. unfold on_idb, idb_put, object_store. rewrite Hst. cbn [ok_or].
    destruct (conflicts s (EntityId.id i) o) eqn:Hc.
    + apply conflicts_true in Hc as (k' & v' & idx & Hr & Hne & Hi & Hu & Hsame). destruct Hne.
      specialize (Hm (EntityId.MkId (EntityId.typ i) k')).
      change (record (Persistent db) (EntityId.MkId (EntityId.typ i) k'))
        with (s ← stores db !! EntityId.collection_name i; records s !! k') in Hm.
      rewrite Hst in Hm. cbn in Hm. rewrite Hr in Hm.
      inversion Hm as [? e' Hf' E1 E2|]; subst. rewrite Forall_forall in Hidx.
      by apply (index_determines _ _ (EntityId.MkId (EntityId.typ i) k') i v' o e' e idx eq_refl Hf' Hf); auto.
    + eexists. split; [reflexivity|]. split; [|split; [by apply schema_ok_set_store|done]].
      intros j. rewrite record_set_store. destruct (decide (j = i)) as [->|Hne].
      * rewrite decide_True by done. by rewrite lookup_insert_eq.
      * case_decide as Hc'; [|done]. rewrite lookup_insert_ne by (intros E; by apply Hne, entity_id_eq).
        unfold record. by rewrite Hc', Hst.
  - eexists. split; [reflexivity|]. split; [|done]. intros j. rewrite record_in_memory.
    destruct (decide (j = i)) as [->|Hne].
    + rewrite decide_True by done. by rewrite lookup_insert_eq.
    + case_decide as Hc'; [|done]. rewrite lookup_insert_ne by (intros E; by apply Hne, entity_id_eq).
      unfold record. rewrite Hc'. by destruct (mem !! _).
Qed.

Lemma tx_delete_ok scope i (w : WasmStorageWrapper) :
  schema_ok w -> in_table (EntityId.typ i) scope ->
  exists w', tx_delete_key scope (EntityId.collection_name i) (EntityId.id i) w = (Ok (bool_decide (is_Some (record w i))), w') /\
    updated i None w w'.
Proof.
  intros Hs Hin. destruct w as [db|mem]; cbn [tx_delete_key].
  - destruct (Hs (EntityId.typ i)) as (s & Hst & Hidx).
    change (stores db !! EntityId.collection_name i = Some s) in Hst.
    rewrite in_scope_idb by exact Hin.
    unfold on_idb, idb_count, idb_get_all, idb_delete, object_store, mbind, st_bind, st_lift. rewrite Hst.
    cbn -[EntityId.collection_name]. eexists. split.
    + f_equal. f_equal. unfold record. rewrite Hst. cbn -[EntityId.collection_name].
      destruct (records s !! EntityId.id i); cbn; [rewrite !bool_decide_eq_true_2 by (done || lia)|]; done.
    + split; [|split; [by apply schema_ok_set_store|done]]. intros j. rewrite record_set_store.
      destruct (decide (j = i)) as [->|Hne].
      * rewrite decide_True by done. by rewrite lookup_delete_eq.
      * case_decide as Hc'; [|done]. rewrite lookup_delete_ne by (intros E; by apply Hne, entity_id_eq).
        unfold record. by rewrite Hc', Hst.
  - eexists. split.
    + f_equal. f_equal. unfold record. by destruct (mem !! _).
    + split; [|done]. intros j. rewrite record_in_memory. destruct (decide (j = i)) as [->|Hne].
      * rewrite decide_True by done. by rewrite lookup_delete_eq.
      * case_decide as Hc'; [|done]. rewrite lookup_delete_ne by (intros E; by apply Hne, entity_id_eq).
        unfold record. rewrite Hc'. by destruct (mem !! _).
Qed.

Lemma holds_updated_Some cs w w' m i o e :
  holds cs w m -> updated i (Some o) w w' -> is_form (cs i) i o e -> holds cs w' (<[i := e]> m).
Proof.
  intros Hm [Hu _] Hf j. rewrite Hu. case_decide as Hj.
  - subst. rewrite lookup_insert_eq. by constructor.
  - by rewrite lookup_insert_ne.
Qed.

Lemma holds_updated_None cs w w' m i : holds cs w m -> updated i None w w' -> holds cs w' (base.delete i m).
Proof.
  intros Hm [Hu _] j. rewrite Hu. case_decide as Hj.
  - subst. rewrite lookup_delete_eq. constructor.
  - by rewrite lookup_delete_ne.
Qed.

(** ** Committing *)

Lemma updated_trans i o o' w w' w'' : updated i o w w' -> updated i o' w' w'' -> updated i o' w w''.
Proof.
  intros (H1 & S1 & P1) (H2 & S2 & P2). split; [|split; [auto|congruence]]. intros j. rewrite H2. case_decide; [done|].
  rewrite H1. by rewrite decide_False.
Qed.

Definition save_form (scope : list string) (c : Cipher) (draw : Nonces) (e : Entity.t) : st WasmStorageWrapper KeystoreError.t () :=
  js_value ← st_lift (fun _ => entity_encrypt draw c e);
  tx_put scope (EntityId.collection_name (browser_id e)) (EntityId.id (browser_id e)) js_value.

Definition unique_entity (e : Entity.t) : bool :=
  match e with Entity.ConsumerData _ | Entity.E2eiAcmeCA _ => true | _ => false end.

Lemma execute_save_form scope c draw e :
  execute_save scope c draw e =
  if unique_entity e
  then (_ ← (deleted ← tx_delete_key scope (EntityId.collection_name (browser_id e)) (EntityId.id (browser_id e));
             _ ← save_form scope c draw e; mret deleted); mret ())
  else save_form scope c draw e.
Proof. by destruct e. Qed.

Lemma save_form_ok cs scope draw e o w m :
  holds cs w m -> schema_ok w -> in_table (Entity.typ e) scope -> nonces_ok draw -> entity_ok e ->
  entity_encrypt draw (cs (browser_id e)) e = Ok o ->
  exists w', save_form scope (cs (browser_id e)) draw e w = (Ok (), w') /\ updated (browser_id e) (Some o) w w'.
Proof.
  intros Hm Hs Hin Hn Hok He. unfold save_form, mbind, st_bind, st_lift. rewrite He.
  apply (tx_put_ok cs (cs (browser_id e)) _ _ _ e _ m); try done. split; [by apply (entity_round_trip draw)|done].
Qed.

Lemma execute_save_ok cs scope draw e o w m :
  holds cs w m -> schema_ok w -> in_table (Entity.typ e) scope -> nonces_ok draw -> entity_ok e ->
  entity_encrypt draw (cs (browser_id e)) e = Ok o ->
  exists w', execute_save scope (cs (browser_id e)) draw e w = (Ok (), w') /\ updated (browser_id e) (Some o) w w'.
Proof.
  intros Hm Hs Hin Hn Hok He. rewrite execute_save_form. destruct (unique_entity e); [|by eapply save_form_ok].
  destruct (tx_delete_ok scope (browser_id e) w Hs Hin) as (w1 & Hd & Hu1).
  destruct (save_form_ok cs scope draw e o w1 (base.delete (browser_id e) m)) as (w2 & Hp & Hu2); try done.
  { by eapply holds_updated_None. }
  { by apply Hu1. }
  exists w2. split; [|by eapply updated_trans]. unfold mbind, st_bind. rewrite Hd. by rewrite Hp.
Qed.

(** The ids a deletion takes. *)
Definition deletable (i : EntityId.t) : bool :=
  match EntityId.typ i with EntityType.MlsPendingMessage => true | ty => wasm_key_valid ty (EntityId.id i) end.

Lemma execute_delete_ok scope i w :
  schema_ok w -> in_table (EntityId.typ i) scope -> deletable i = true ->
  exists r w', execute_delete scope i w = (Ok r, w') /\ updated i None w w'.
Proof.
  intros Hs Hin Hv. destruct (tx_delete_ok scope i w Hs Hin) as (w1 & Hd & Hu).
  destruct i as [ty k]. destruct ty; unfold execute_delete, tx_delete, deletable in *;
    cbn -[wasm_key_valid tx_delete_key pending_message_delete_all_matching] in Hd, Hv |- *;
    try (rewrite Hv, Hd; eauto).
  unfold pending_message_delete_all_matching, tx_delete, mbind, st_bind. cbn -[tx_delete_key]. rewrite Hd. eauto.
Qed.

Definition inserted (m : Contents) (es : list Entity.t) : Contents := foldl (fun m e => <[browser_id e := e]> m) m es.
Definition removed (m : Contents) (ids : list EntityId.t) : Contents := foldl (fun m i => base.delete i m) m ids.

(** The cipher takes the entity, whatever the nonces are. *)
Definition encrypts (c : Cipher) (e : Entity.t) : Prop :=
  forall draw, nonces_ok draw -> exists o, entity_encrypt draw c e = Ok o.

Lemma commit_saves_ok c scope es : forall draw w m,
  holds (fun _ => c) w m -> schema_ok w -> nonces_ok draw ->
  Forall (fun e => in_table (Entity.typ e) scope /\ entity_ok e /\ encrypts c e) es ->
  exists w', commit_saves scope c draw es w = (Ok (), w') /\
    holds (fun _ => c) w' (inserted m es) /\ schema_ok w' /\ persistent w' = persistent w.
Proof.
  induction es as [|e es IH]; intros draw w m Hm Hs Hn Hes; [by exists w|].
  apply Forall_cons in Hes as [(Hin & Hok & Henc) Hes]. destruct (Henc draw Hn) as [o Ho].
  destruct (execute_save_ok (fun _ => c) scope draw e o w m) as (w1 & H1 & Hu); try done.
  destruct (IH (skip_nonces 2 draw) w1 (<[browser_id e := e]> m)) as (w' & H' & Hm' & Hs' & Hp'); try done.
  - eapply holds_updated_Some; [done..|]. split; [by apply (entity_round_trip draw)|done].
  - by apply Hu.
  - by apply nonces_ok_skip.
  - exists w'. cbn. unfold mbind, st_bind. rewrite H1, H'. split_and!; try done.
    destruct Hu as (_ & _ & Hp). congruence.
Qed.

Lemma commit_deletes_ok cs scope ids : forall w m,
  holds cs w m -> schema_ok w -> Forall (fun i => in_table (EntityId.typ i) scope /\ deletable i = true) ids ->
  exists w', commit_deletes scope ids w = (Ok (), w') /\
    holds cs w' (removed m ids) /\ schema_ok w' /\ persistent w' = persistent w.
Proof.
  induction ids as [|i ids IH]; intros w m Hm Hs Hids; [by exists w|].
  apply Forall_cons in Hids as [[Hin Hd] Hids].
  destruct (execute_delete_ok scope i w Hs Hin Hd) as (r & w1 & H1 & Hu).
  destruct (IH w1 (base.delete i m)) as (w' & H' & Hm' & Hs' & Hp'); try done.
  - by eapply holds_updated_None.
  - by apply Hu.
  - exists w'. cbn. unfold mbind, st_bind. rewrite H1, H'. split_and!; try done.
    destruct Hu as (_ & _ & Hp). congruence.
Qed.

(** How a transaction that leaves [w'] ends: the platform may refuse to commit it. *)
Definition settles `{P : IdbPlatform} (e : KeystoreError.t) (s : WasmEncryptedStorage) (c : Cipher) (w' : WasmStorageWrapper) :
    kres () * WasmEncryptedStorage :=
  match storage s, w' with
  | Persistent db, Persistent db' => if commits db db' then (Ok (), MkStorage w' c) else (Err e, s)
  | _, _ => (Ok (), MkStorage w' c)
  end.

Lemma with_transaction_settles `{P : IdbPlatform} tables (work : st WasmStorageWrapper KeystoreError.t ()) s w' :
  schema_ok (storage s) -> Forall (fun t => exists ty, t = EntityType.collection_name ty) tables ->
  work (storage s) = (Ok (), w') -> persistent w' = persistent (storage s) ->
  with_transaction tables work s = settles not_committed s (cipher s) w'.
Proof.
  intros Hs Ht Hw Hp. unfold with_transaction, settles. destruct (storage s) as [db|mem], w' as [db'|mem']; try done.
  - rewrite decide_True, Hw; [done|]. eapply Forall_impl; [exact Ht|]. intros t [ty ->].
    destruct (Hs ty) as (st & -> & _). eauto.
  - by rewrite Hw.
Qed.

Lemma commit_scope saves deletes :
  Forall (fun e => in_table (Entity.typ e) (commit_tables saves deletes)) saves /\
  Forall (fun i => in_table (EntityId.typ i) (commit_tables saves deletes)) deletes /\
  Forall (fun t => exists ty, t = EntityType.collection_name ty) (commit_tables saves deletes).
Proof.
  unfold in_table, commit_tables. rewrite !Forall_forall. split_and!.
  - intros e He. apply elem_of_app. right. apply list_elem_of_fmap. by exists e.
  - intros i Hi. apply elem_of_app. left. apply list_elem_of_fmap. by exists i.
  - intros t [(i & -> & _)%list_elem_of_fmap|(e & -> & _)%list_elem_of_fmap]%elem_of_app; eauto.
Qed.

Lemma commit_ok `{P : IdbPlatform} draw saves deletes s m :
  holds (fun _ => cipher s) (storage s) m -> schema_ok (storage s) -> nonces_ok draw ->
  Forall (fun e => entity_ok e /\ encrypts (cipher s) e) saves -> Forall (fun i => deletable i = true) deletes ->
  commit_tables saves deletes <> [] ->
  exists w', commit draw saves deletes s = settles not_committed s (cipher s) w' /\
    persistent w' = persistent (storage s) /\ schema_ok w' /\
    holds (fun _ => cipher s) w' (removed (inserted m saves) deletes).
Proof.
  intros Hm Hs Hn Hok Hdel Ht. destruct (commit_scope saves deletes) as (Hsaves & Hdeletes & Htables).
  destruct (commit_saves_ok (cipher s) (commit_tables saves deletes) saves draw (storage s) m)
    as (w1 & H1 & Hm1 & Hs1 & Hp1); try done.
  { rewrite Forall_forall in Hsaves, Hok |- *. intros e He. split; [auto|]. by apply Hok. }
  destruct (commit_deletes_ok _ (commit_tables saves deletes) deletes w1 _ Hm1 Hs1) as (w2 & H2 & Hm2 & Hs2 & Hp2).
  { rewrite Forall_forall in Hdeletes, Hdel |- *. auto. }
  exists w2. split; [|split; [congruence|done]]. unfold commit. rewrite decide_False by done.
  apply with_transaction_settles; try done; [|congruence]. unfold mbind, st_bind. by rewrite H1, H2.
Qed.

(** ** Reading *)

Definition get_form (ty : EntityType.t) (key : bytes) (s : WasmEncryptedStorage) : kres (option Entity.t) :=
  js_value ← match storage s with
    | Persistent db => idb_get (EntityType.collection_name ty) key db
    | InMemory m => Ok (store ← m !! EntityType.collection_name ty; store !! key)
    end;
  match js_value with None => Ok None | Some o => Some <$> entity_decrypt ty (cipher s) o end.

Lemma get_is_form E `{!WasmEntity E} ty inj `{!EntityOf E ty inj} key s : option_map inj <$> get E key s = get_form ty key s.
Proof.
  unfold get, get_form. rewrite of_collection.
  destruct (match storage s with Persistent db => _ | InMemory m => _ end) as [[o|]| |]; cbn; try done.
  rewrite of_decrypt. by destruct (decrypt (cipher s) o).
Qed.

Lemma get_form_record ty key s :
  schema_ok (storage s) ->
  get_form ty key s =
  match record (storage s) (EntityId.MkId ty key) with None => Ok None | Some o => Some <$> entity_decrypt ty (cipher s) o end.
Proof.
  intros Hs. unfold get_form. destruct (storage s) as [db|]; [|done]. destruct (Hs ty) as (st & Hst & _).
  unfold idb_get, object_store, record, EntityId.collection_name. cbn. by rewrite Hst.
Qed.

Lemma get_form_holds cs ty key s m :
  holds cs (storage s) m -> cs (EntityId.MkId ty key) = cipher s -> schema_ok (storage s) -> get_form ty key s = Ok (m !! EntityId.MkId ty key).
Proof.
  intros Hm Hc Hs. specialize (Hm (EntityId.MkId ty key)). rewrite Hc in Hm. rewrite get_form_record by done.
  destruct Hm as [o e (Hd & _)|]; [|done]. cbn in Hd. by rewrite Hd.
Qed.

Lemma mapM_Forall2 {A B} (f : A -> kres B) l k : Forall2 (fun x y => f x = Ok y) l k -> mapM f l = Ok k.
Proof. induction 1 as [|x y l k Hxy _ IH]; [done|]. cbn. rewrite Hxy. cbn. by rewrite IH. Qed.

(** The records of a collection, as they are listed. *)
Definition listed (ty : EntityType.t) (w : WasmStorageWrapper) : list (bytes * JsObject) :=
  match w with
  | Persistent db => in_key_order (default ∅ (records <$> stores db !! EntityType.collection_name ty))
  | InMemory m => map_to_list (default ∅ (m !! EntityType.collection_name ty))
  end.

Lemma elem_of_listed ty w k o : (k, o) ∈ listed ty w <-> record w (EntityId.MkId ty k) = Some o.
Proof.
  destruct w as [db|m]; unfold listed, record, EntityId.collection_name; cbn.
  - rewrite elem_of_in_key_order. destruct (stores db !! _); cbn; [done|]. by rewrite lookup_empty.
  - rewrite elem_of_map_to_list. destruct (m !! _); cbn; [done|]. by rewrite lookup_empty.
Qed.

Lemma NoDup_listed ty w : NoDup (map fst (listed ty w)).
Proof.
  destruct w; unfold listed; [rewrite in_key_order_Permutation|]; apply NoDup_fst_map_to_list.
Qed.

(** What the listed records decrypt to. *)
Lemma listed_forms cs ty c w m : holds cs w m -> (forall k, cs (EntityId.MkId ty k) = c) ->
  exists es, Forall2 (fun r e => is_form c (EntityId.MkId ty r.1) r.2 e) (listed ty w) es /\
    forall e, e ∈ es <-> Entity.typ e = ty /\ m !! browser_id e = Some e.
Proof.
  intros Hm Hc.
  assert (forall l, l ⊆ listed ty w -> exists es, Forall2 (fun r e => is_form c (EntityId.MkId ty r.1) r.2 e) l es) as Hex.
  { induction l as [|[k o] l IH]; intros Hsub; [by exists []|].
    destruct IH as [es Hes]; [set_solver|]. assert ((k, o) ∈ listed ty w) as Hin by set_solver.
    apply elem_of_listed in Hin. specialize (Hm (EntityId.MkId ty k)). rewrite Hin, Hc in Hm.
    inversion Hm as [? e Hf|]; subst. exists (e :: es). by constructor. }
  destruct (Hex (listed ty w)) as [es Hes]; [done|]. exists es. split; [done|]. intros e. split.
  - intros (i & Hi)%list_elem_of_lookup. eapply Forall2_lookup_r in Hes as ([k o] & Hk & Hd & Hid & Hok); [|done].
    apply list_elem_of_lookup_2, elem_of_listed in Hk. cbn in *. specialize (Hm (EntityId.MkId ty k)).
    rewrite Hk, Hc in Hm. inversion Hm as [? e' (Hd' & _) E1 E2|]; subst. cbn in Hd'. rewrite Hd in Hd'. injection Hd' as <-.
    rewrite Hid. split; [by apply (entity_decrypt_typ _ _ _ _ Hd)|done].
  - intros [Hty He]. specialize (Hm (browser_id e)). rewrite He in Hm. inversion Hm as [o ? (Hd & Hid & Hok) E1 E2|]; subst.
    assert ((browser_key e, o) ∈ listed (Entity.typ e) w) as Hin by by apply elem_of_listed.
    apply list_elem_of_lookup in Hin as [i Hi]. eapply Forall2_lookup_l in Hes as (e' & He' & Hd' & _); [|done].
    cbn in Hd, Hd'. unfold browser_id in Hd. rewrite Hc, Hd' in Hd. injection Hd as <-. by apply list_elem_of_lookup_2 in He'.
Qed.

Lemma listed_ids ty c w es :
  Forall2 (fun r e => is_form c (EntityId.MkId ty r.1) r.2 e) (listed ty w) es ->
  map browser_id es = map (EntityId.MkId ty) (map fst (listed ty w)).
Proof. induction 1 as [|[k o] e l es (_ & Hid & _) _ IH]; [done|]. cbn. by rewrite Hid, IH. Qed.

Lemma listed_NoDup ty c w es :
  Forall2 (fun r e => is_form c (EntityId.MkId ty r.1) r.2 e) (listed ty w) es -> NoDup es.
Proof.
  intros Hes. apply (NoDup_fmap_1 browser_id). change (NoDup (map browser_id es)).
  rewrite (listed_ids _ _ _ _ Hes). apply NoDup_fmap_2; [|apply NoDup_listed]. by intros ? ? [= ->].
Qed.

Lemma mapM_fmap {A B C} (f : A -> kres B) (g : B -> C) l : map g <$> mapM f l = mapM (fun x => g <$> f x) l.
Proof. induction l as [|x l IH]; [done|]. cbn. destruct (f x); cbn; try done. rewrite <- IH. by destruct (mapM f l). Qed.

Lemma load_all_listed E `{!WasmEntity E} ty inj `{!EntityOf E ty inj} s :
  schema_ok (storage s) -> map inj <$> get_all E s = mapM (entity_decrypt ty (cipher s)) (map snd (listed ty (storage s))).
Proof.
  intros Hs. unfold get_all, get_all_with_query. rewrite of_collection.
  assert (match storage s with
    | Persistent db => idb_get_all (EntityType.collection_name ty) None db
    | InMemory m => Ok (default [] ((fun v => map snd (map_to_list v)) <$> m !! EntityType.collection_name ty))
    end = Ok (map snd (listed ty (storage s)))) as ->.
  { destruct (storage s) as [db|m]; unfold listed; cbn.
    - destruct (Hs ty) as (st & Hst & _). unfold idb_get_all, object_store. by rewrite Hst.
    - by destruct (m !! _). }
  cbn [mbind res_bind]. rewrite mapM_fmap. induction (map snd (listed ty (storage s))) as [|o l IH]; [done|].
  cbn. rewrite of_decrypt. destruct (decrypt (cipher s) o); cbn; try done. by rewrite IH.
Qed.

Lemma entity_load_all_listed ty s :
  schema_ok (storage s) -> entity_load_all ty s = mapM (entity_decrypt ty (cipher s)) (map snd (listed ty (storage s))).
Proof. intros Hs. destruct ty; cbn [entity_load_all]; by eapply load_all_listed; [typeclasses eauto|]. Qed.

Lemma entity_load_all_eq ty s es :
  schema_ok (storage s) ->
  Forall2 (fun r e => is_form (cipher s) (EntityId.MkId ty r.1) r.2 e) (listed ty (storage s)) es ->
  entity_load_all ty s = Ok es.
Proof.
  intros Hs Hes. rewrite entity_load_all_listed by done. apply mapM_Forall2.
  induction Hes as [|[k o] e l es (Hd & _) _ IH]; by constructor.
Qed.

(** The key [entity_get] reads: the identity is the only one of its collection. *)
Definition read_key (ty : EntityType.t) (key : bytes) : bytes :=
  match ty with EntityType.ProteusIdentity => IDENTITY_KEY | _ => key end.

Lemma identity_get_holds cs s m :
  holds cs (storage s) m -> (forall k, cs (EntityId.MkId EntityType.ProteusIdentity k) = cipher s) -> schema_ok (storage s) ->
  option_map Entity.ProteusIdentity <$> identity_get s = Ok (m !! EntityId.MkId EntityType.ProteusIdentity IDENTITY_KEY).
Proof.
  intros Hm Hc Hs. destruct (listed_forms _ EntityType.ProteusIdentity _ _ _ Hm Hc) as (es & Hes & Hin).
  pose proof (listed_NoDup _ _ _ _ Hes) as Hnd.
  pose proof (entity_load_all_eq EntityType.ProteusIdentity s es Hs Hes) as Hl. cbn [entity_load_all] in Hl.
  apply fmap_Ok in Hl as (l & Hl & ->). unfold identity_get. rewrite Hl. cbn [fmap res_fmap].
  destruct l as [|x [|y l]].
  - cbn. destruct (m !! _) as [e|] eqn:E; [|done]. specialize (Hm (EntityId.MkId EntityType.ProteusIdentity IDENTITY_KEY)).
    rewrite E in Hm. inversion Hm as [o ? (_ & Hid & _)|]; subst. rewrite <- Hid in E.
    assert (e ∈ ([] : list Entity.t)) as [] %not_elem_of_nil. apply Hin. by injection Hid as ->.
  - cbn. destruct (proj1 (Hin (Entity.ProteusIdentity x))) as [_ H]; [by left|]. by rewrite <- H.
  - exfalso. destruct (proj1 (Hin (Entity.ProteusIdentity x))) as [_ H1]; [by left|].
    destruct (proj1 (Hin (Entity.ProteusIdentity y))) as [_ H2]; [right; by left|].
    cbn in H1, H2. change (browser_id (Entity.ProteusIdentity x)) with (browser_id (Entity.ProteusIdentity y)) in H1.
    rewrite H1 in H2. injection H2 as ->. apply NoDup_cons in Hnd as [Hnd _]. apply Hnd. by left.
Qed.

Lemma entity_get_holds cs ty key s m :
  holds cs (storage s) m -> (forall k, cs (EntityId.MkId ty k) = cipher s) -> schema_ok (storage s) -> ty <> EntityType.MlsPendingMessage ->
  entity_get ty key s = Ok (m !! EntityId.MkId ty (read_key ty key)).
Proof.
  intros Hm Hc Hs Hne. destruct ty; try done; cbn [entity_get read_key]; try exact (identity_get_holds cs s m Hm Hc Hs);
    (erewrite get_is_form; [|typeclasses eauto]); by apply (get_form_holds cs).
Qed.
End representation.

(** ** Changing the key

    [update_key] re-encrypts the records of sixteen collections: everything in them is kept.
    The records of the two collections it leaves out cannot be read afterwards. *)

Section rekey.
Context `{X : Externals, G : AesGcm, !AesGcmLaws G}.

Abbreviation Contents := (gmap EntityId.t Entity.t).

(** ** One collection *)

(** [rekey_records], of any type of entity. *)
Fixpoint rekey_forms (ty : EntityType.t) (draw : Nonces) (old_cipher new_cipher : Cipher) (values : list JsObject) :
    st Idb KeystoreError.t () :=
  match values with
  | [] => mret ()
  | o :: values =>
      e ← st_lift (fun _ => entity_decrypt ty old_cipher o);
      encrypted ← st_lift (fun _ => entity_encrypt draw new_cipher e);
      _ ← idb_put (EntityType.collection_name ty) (browser_key e) encrypted;
      rekey_forms ty (skip_nonces 2 draw) old_cipher new_cipher values
  end.

Lemma rekey_records_forms E `{!WasmEntity E} ty inj `{!EntityOf E ty inj} o n values : forall draw db,
  rekey_records E draw o n values db = rekey_forms ty draw o n values db.
Proof.
  induction values as [|v values IH]; intros draw db; [done|]. cbn.
  unfold mbind, st_bind, st_lift. rewrite (of_decrypt (inj := inj)).
  destruct (decrypt o v) as [e| |]; cbn; try done. rewrite (of_encrypt (ty := ty)).
  destruct (encrypt draw n e) as [x| |]; cbn; try done.
  rewrite (of_key (ty := ty)), (of_collection (inj := inj)). destruct (idb_put _ _ _ db) as [[]]; try done.
Qed.

(** Re-encrypting some records of a collection keeps the contents and changes the ciphers of
    those records. *)
Lemma rekey_forms_ok ty o n l : forall draw cs cs' db m,
  nonces_ok draw -> holds cs (Persistent db) m -> schema_ok (Persistent db) -> NoDup (map fst l) ->
  (forall i e, m !! i = Some e -> encrypts n e) ->
  Forall (fun r => record (Persistent db) (EntityId.MkId ty r.1) = Some r.2 /\ cs (EntityId.MkId ty r.1) = o) l ->
  (forall i, cs' i = if decide (i ∈ map (EntityId.MkId ty) (map fst l)) then n else cs i) ->
  exists db', rekey_forms ty draw o n (map snd l) db = (Ok (), db') /\ holds cs' (Persistent db') m /\ schema_ok (Persistent db').
Proof.
  induction l as [|[k v] l IH]; intros draw cs cs' db m Hn Hm Hs Hnd Henc Hl Hcs.
  - exists db. split_and!; try done. intros i. rewrite Hcs. cbn. apply Hm.
  - apply Forall_cons in Hl as [[Hr Hc] Hl]. cbn [fst snd map] in Hr, Hc, Hnd. apply NoDup_cons in Hnd as [Hk Hnd].
    pose proof (Hm (EntityId.MkId ty k)) as Hmk. rewrite Hr, Hc in Hmk.
    inversion Hmk as [? e (Hd & Hid & Hok) E1 E2|]; subst. cbn in Hd.
    destruct (Henc _ e (eq_sym E2) draw Hn) as [x Hx].
    assert (is_form n (EntityId.MkId ty k) x e) as Hf.
    { split; [|done]. rewrite <- (entity_decrypt_typ _ _ _ _ Hd). by apply (entity_round_trip draw). }
    destruct (tx_put_ok cs n [EntityType.collection_name ty] (EntityId.MkId ty k) x e (Persistent db) m)
      as (w & Hw & Hu); try done; [by left|]. cbn [tx_put] in Hw. rewrite in_scope_idb in Hw by by left.
    unfold on_idb in Hw. destruct (idb_put _ _ x db) as [r db1] eqn:Hp. injection Hw as -> <-.
    destruct Hu as (Hu & Hschema & _).
    destruct (IH (skip_nonces 2 draw) (fun i => if decide (i = EntityId.MkId ty k) then n else cs i) cs' db1 m)
      as (db' & Hrun & Hdb'); [by apply nonces_ok_skip| |auto|exact Hnd|exact Henc| | |].
    + rewrite <- (insert_id m (EntityId.MkId ty k) e) by done. intros i. rewrite Hu.
      case_decide as Hi; [subst; rewrite lookup_insert_eq; by constructor|]. rewrite lookup_insert_ne by done. apply Hm.
    + rewrite Forall_forall in Hl |- *. intros [k' v'] Hin. destruct (Hl _ Hin) as [Hr' Hc']. cbn [fst snd] in *.
      assert (EntityId.MkId ty k' <> EntityId.MkId ty k) as Hne.
      { intros [= ->]. apply Hk, list_elem_of_fmap. by exists (k, v'). }
      rewrite Hu. by rewrite !decide_False.
    + intros i. rewrite Hcs. cbn [map fst]. destruct (decide (i = EntityId.MkId ty k)) as [->|Hne].
      * rewrite decide_True by by left. by case_decide.
      * apply decide_ext. rewrite elem_of_cons. naive_solver.
    + exists db'. split; [|done]. cbn. unfold mbind, st_bind, st_lift. rewrite Hd, Hx. injection Hid as <- <-.
      unfold EntityId.collection_name in Hp. cbn in Hp. by rewrite Hp.
Qed.

(** The ciphers once the collections of the types in [done] are re-encrypted. *)
Definition ciphers_after (o n : Cipher) (done : list EntityType.t) (i : EntityId.t) : Cipher :=
  if decide (EntityId.typ i ∈ done) then n else o.

Lemma rekey_entity_ok E `{!WasmEntity E} ty inj `{!EntityOf E ty inj} draw o n done db m :
  nonces_ok draw -> (forall i e, m !! i = Some e -> encrypts n e) ->
  holds (ciphers_after o n done) (Persistent db) m -> schema_ok (Persistent db) -> ty ∉ done ->
  exists db', rekey_entity E draw o n db = (Ok (), db') /\
    holds (ciphers_after o n (ty :: done)) (Persistent db') m /\ schema_ok (Persistent db').
Proof.
  intros Hn Henc Hm Hs Hty.
  destruct (rekey_forms_ok ty o n (listed ty (Persistent db)) draw (ciphers_after o n done)
    (fun i => if decide (i ∈ map (EntityId.MkId ty) (map fst (listed ty (Persistent db)))) then n else ciphers_after o n done i)
    db m Hn Hm Hs (NoDup_listed _ _)) as (db' & Hrun & Hm' & Hs'); try done.
  { apply Forall_forall. intros [k v] Hin. apply elem_of_listed in Hin. split; [done|].
    unfold ciphers_after. by rewrite decide_False. }
  exists db'. split.
  { unfold rekey_entity, st_map_err, mbind, st_bind, st_lift. rewrite (of_collection (inj := inj)).
    destruct (Hs ty) as (s & Hst & _). unfold listed in Hrun. unfold idb_get_all, object_store. rewrite Hst in Hrun |- *.
    cbn. rewrite (rekey_records_forms E ty inj). cbn in Hrun. by rewrite Hrun. }
  split; [|done]. intros i. specialize (Hm i). specialize (Hm' i). cbn beta in Hm'.
  case_decide as Hi; unfold ciphers_after in *.
  - apply list_elem_of_fmap in Hi as (k & -> & _). rewrite decide_True by by left. done.
  - destruct (decide (EntityId.typ i = ty)) as [Hi'|Hne].
    + destruct i as [ty' k]. cbn in Hi'. subst ty'.
      destruct (record (Persistent db) (EntityId.MkId ty k)) as [v|] eqn:Hr.
      * destruct Hi. apply elem_of_listed in Hr. apply list_elem_of_fmap. exists k. split; [done|].
        apply list_elem_of_fmap. by exists (k, v).
      * assert (m !! EntityId.MkId ty k = None) as Hnone by by inversion Hm.
        rewrite Hnone in Hm' |- *. destruct (record (Persistent db') _); [inversion Hm'|constructor].
    + rewrite (decide_ext (EntityId.typ i ∈ ty :: done) (EntityId.typ i ∈ done)) by (rewrite elem_of_cons; naive_solver). done.
Qed.

(** ** All collections *)

(** The types of [rekey_entities!], last first. *)
Definition rekeyed : list EntityType.t :=
  [EntityType.ProteusSession; EntityType.ProteusIdentity; EntityType.ProteusPrekey; EntityType.E2eiCrl;
   EntityType.E2eiIntermediateCert; EntityType.E2eiAcmeCA; EntityType.StoredE2eiEnrollment; EntityType.MlsPendingMessage;
   EntityType.PersistedMlsPendingGroup; EntityType.PersistedMlsGroup; EntityType.KeyPackage; EntityType.PskBundle;
   EntityType.EpochEncryptionKeyPair; EntityType.EncryptionKeyPair; EntityType.HpkePrivateKey; EntityType.StoredCredential].

Lemma not_rekeyed ty : ty ∉ rekeyed <-> ty = EntityType.StoredBufferedCommit \/ ty = EntityType.ConsumerData.
Proof.
  split.
  - intros H. destruct ty; (by left) || (by right) || (destruct H; unfold rekeyed; set_solver).
  - intros [->| ->]; unfold rekeyed; rewrite !not_elem_of_cons; repeat split; discriminate || apply not_elem_of_nil.
Qed.

(** The next collection of [rekey_all]. *)
Local Ltac rekey_next Hn Henc Hm Hs :=
  match goal with
  | |- context [rekey_entity ?E ?draw ?o ?n] =>
      destruct (rekey_entity_ok E _ _ draw o n _ _ _ (Hn _) Henc Hm Hs) as (? & Hx & Hm' & Hs');
        [rewrite ?not_elem_of_cons; repeat split; discriminate || apply not_elem_of_nil|];
      clear Hm Hs; rename Hm' into Hm, Hs' into Hs
  end.

Lemma rekey_all_ok draws o n db m :
  (forall k, nonces_ok (draws k)) -> (forall i e, m !! i = Some e -> encrypts n e) ->
  holds (fun _ => o) (Persistent db) m -> schema_ok (Persistent db) ->
  exists db', rekey_all draws o n db = (Ok (), db') /\
    holds (ciphers_after o n rekeyed) (Persistent db') m /\ schema_ok (Persistent db').
Proof.
  intros Hn Henc Hm Hs. unfold rekey_all.
  change (holds (ciphers_after o n []) (Persistent db) m) in Hm.
  unfold mbind, st_bind. do 15 (rekey_next Hn Henc Hm Hs; rewrite Hx; clear Hx).
  rekey_next Hn Henc Hm Hs. eauto.
Qed.

(** [update_key] keeps what the storage holds; the records of two collections keep their cipher. *)
Lemma update_key_ok `{P : IdbPlatform} draws key s m db :
  storage s = Persistent db -> (forall k, nonces_ok (draws k)) -> (forall i e, m !! i = Some e -> encrypts (cipher_new key) e) ->
  holds (fun _ => cipher s) (storage s) m -> schema_ok (storage s) ->
  exists w', update_key draws key s = settles KeystoreError.MigrationFailed s (cipher_new key) w' /\
    persistent w' = true /\ schema_ok w' /\
    holds (ciphers_after (cipher s) (cipher_new key) rekeyed) w' m.
Proof.
  intros Hdb Hn Henc Hm Hs. rewrite Hdb in Hm, Hs.
  destruct (rekey_all_ok draws (cipher s) (cipher_new key) db m) as (db' & Hrun & Hm' & Hs'); try done.
  exists (Persistent db'). split; [|done]. unfold update_key, settles, transaction. rewrite Hdb, Hrun.
  destruct (commits db db'); [done|]. destruct s as [w c]. cbn in *. by rewrite Hdb.
Qed.
End rekey.
