(* ===== verification/IdbMigrations.v ===== *)
(** * Schema and migrations of the browser database

    [keystore/src/connection/platform/wasm/migrations]: the schema of every version as a
    builder, the entities older versions stored, the migrations between versions, the loop that
    runs them when a database is opened, the change from string keys to bytes that leads to
    version 4, and [WasmConnection]. *)

From S2P Require Import Prelude Keys EntityTypes Entities Sql KeystoreErrors EntityStore CryptoErrors Migrations ItemEncryption WasmEntities Idb WasmStorage.
From Stdlib Require Import Lia ZArith.

(** ** Versions *)

Definition db_version_number (counter : Z) : Z := 10000000 + 2000 + counter.

Definition DB_VERSION_0 : Z := db_version_number 0.
Definition DB_VERSION_1 : Z := db_version_number 1.
Definition DB_VERSION_2 : Z := db_version_number 2.
Definition DB_VERSION_3 : Z := db_version_number 3.
Definition DB_VERSION_4 : Z := db_version_number 4.
Definition DB_VERSION_5 : Z := db_version_number 5.
Definition DB_VERSION_6 : Z := db_version_number 6.
Definition DB_VERSION_7 : Z := db_version_number 7.
Definition DB_VERSION_8 : Z := db_version_number 8.
Definition DB_VERSION_9 : Z := db_version_number 9.
Definition DB_VERSION_10 : Z := db_version_number 10.
Definition DB_VERSION_11 : Z := db_version_number 11.
Definition TARGET_VERSION : Z := DB_VERSION_11.

(** ** Schemas *)

Definition index (name path : string) : Index := MkIndex name path false.
Definition unique_index (name path : string) : Index := MkIndex name path true.

Definition v00_builder : Builder :=
  [BVersion DB_VERSION_0;
   BAddStore "mls_credentials" [index "id" "id"; unique_index "credential" "credential"];
   BAddStore "mls_signature_keypairs" [index "signature_scheme" "signature_scheme"; index "signature_pk" "pk"];
   BAddStore "mls_hpke_private_keys" [unique_index "pk" "pk"];
   BAddStore "mls_encryption_keypairs" [unique_index "pk" "pk"];
   BAddStore "mls_epoch_encryption_keypairs" [unique_index "id" "id"];
   BAddStore "mls_psk_bundles" [unique_index "psk_id" "psk_id"];
   BAddStore "mls_keypackages" [unique_index "keypackage_ref" "keypackage_ref"];
   BAddStore "mls_groups" [unique_index "id" "id"];
   BAddStore "mls_pending_groups" [unique_index "id" "id"];
   BAddStore "mls_pending_messages" [index "id" "id"];
   BAddStore "e2ei_enrollment" [unique_index "id" "id"];
   BAddStore "e2ei_refresh_token" [unique_index "id" "id"];
   BAddStore "e2ei_acme_ca" [unique_index "id" "id"];
   BAddStore "e2ei_intermediate_certs" [unique_index "ski_aki_pair" "ski_aki_pair"];
   BAddStore "e2ei_crls" [unique_index "distribution_point" "distribution_point"];
   BAddStore "proteus_prekeys" [unique_index "id" "id"];
   BAddStore "proteus_identities" [unique_index "pk" "pk"];
   BAddStore "proteus_sessions" [unique_index "id" "id"]].

Definition v02_builder : Builder :=
  v00_builder ++ [BVersion DB_VERSION_2; BAddStore "consumer_data" [unique_index "id" "id"]].

Definition v03_builder : Builder :=
  v02_builder ++ [BVersion DB_VERSION_3;
    BAddStore "mls_buffered_commits" [unique_index "conversation_id" "conversation_id"]].

Definition v04_builder : Builder := v03_builder ++ [BVersion DB_VERSION_4].

Definition v05_builder : Builder := v04_builder ++ [BVersion DB_VERSION_5; BRemoveStore "e2ei_refresh_token"].

Definition v06_builder : Builder := v05_builder ++ [BVersion DB_VERSION_6; BRemoveStore "mls_signature_keypairs"].

Definition v07_builder : Builder := v06_builder ++ [BVersion DB_VERSION_7].

Definition v08_builder : Builder :=
  v07_builder ++ [BVersion DB_VERSION_8; BAddStore "mls_credentials_new" [unique_index "public_key" "public_key"]].

Definition v09_builder : Builder :=
  v08_builder ++ [BVersion DB_VERSION_9; BRemoveStore "mls_credentials"; BRenameStore "mls_credentials_new" "mls_credentials"].

Definition v10_builder : Builder :=
  v09_builder ++ [BVersion DB_VERSION_10; BAddIndex "mls_groups" (index "parent_id" "parent_id")].

Definition v11_builder : Builder := v10_builder ++ [BVersion DB_VERSION_11].

(** ** Entities of older versions *)

Record V10PersistedMlsGroup : Type := { v10_id : bytes; v10_state : bytes; v10_parent_id : option bytes }.

Section old_entities.
Context `{X : Externals, G : AesGcm}.

Definition v5_credential_encrypt (draw : Nonces) (c : Cipher) (e : V5Credential) : kres JsObject :=
  credential ← encrypt_data "mls_credentials" (v5_id e) (draw 0) c (v5_credential e);
  created_at ← ser_u64 (v5_created_at e);
  Ok [("id", JsArray (v5_id e)); ("credential", JsArray credential); ("created_at", created_at)].

Definition v5_credential_decrypt (c : Cipher) (o : JsObject) : kres V5Credential :=
  id ← de_bytes "id" o;
  credential ← de_bytes "credential" o;
  created_at ← de_u64 "created_at" o;
  credential ← decrypt_data "mls_credentials" id c credential;
  Ok (MkV5 id credential created_at).

#[export] Instance v5_credential_wasm : WasmEntity V5Credential := {|
  COLLECTION_NAME := "mls_credentials"; wasm_key := v5_id;
  encrypt := v5_credential_encrypt; decrypt := v5_credential_decrypt
|}.

Definition keypair_encrypt (draw : Nonces) (c : Cipher) (e : StoredSignatureKeypair) : kres JsObject :=
  keypair ← encrypt_data "mls_signature_keypairs" (kp_pk e) (draw 0) c (kp_keypair e);
  Ok [("pk", JsArray (kp_pk e)); ("credential_id", JsArray (kp_credential_id e));
      ("signature_scheme", JsNumber (kp_signature_scheme e)); ("keypair", JsArray keypair)].

Definition keypair_decrypt (c : Cipher) (o : JsObject) : kres StoredSignatureKeypair :=
  pk ← de_bytes "pk" o;
  credential_id ← de_bytes "credential_id" o;
  signature_scheme ← de_u16 "signature_scheme" o;
  keypair ← de_bytes "keypair" o;
  keypair ← decrypt_data "mls_signature_keypairs" pk c keypair;
  Ok (MkKeypair signature_scheme pk keypair credential_id).

#[export] Instance keypair_wasm : WasmEntity StoredSignatureKeypair := {|
  COLLECTION_NAME := "mls_signature_keypairs"; wasm_key := kp_pk; encrypt := keypair_encrypt; decrypt := keypair_decrypt
|}.

Definition v6_credential_encrypt (draw : Nonces) (c : Cipher) (e : V6Credential) : kres JsObject :=
  let primary_key := hash_bytes (hash_from (v6_public_key e)) in
  credential ← encrypt_data "mls_credentials" primary_key (draw 0) c (v6_credential e);
  private_key ← encrypt_data "mls_credentials" primary_key (draw 1) c (v6_private_key e);
  created_at ← ser_u64 (v6_created_at e);
  Ok [("signature_scheme", JsNumber (v6_signature_scheme e)); ("session_id", JsArray (v6_session_id e));
      ("credential", JsArray credential); ("created_at", created_at);
      ("public_key", JsArray (v6_public_key e)); ("private_key", JsArray private_key)].

Definition v6_credential_decrypt (c : Cipher) (o : JsObject) : kres V6Credential :=
  signature_scheme ← de_u16 "signature_scheme" o;
  session_id ← de_bytes "session_id" o;
  credential ← de_bytes "credential" o;
  created_at ← de_u64 "created_at" o;
  public_key ← de_bytes "public_key" o;
  private_key ← de_bytes "private_key" o;
  let primary_key := hash_bytes (hash_from public_key) in
  credential ← decrypt_data "mls_credentials" primary_key c credential;
  private_key ← decrypt_data "mls_credentials" primary_key c private_key;
  Ok (MkV6 session_id credential created_at signature_scheme public_key private_key).

#[export] Instance v6_credential_wasm : WasmEntity V6Credential := {|
  COLLECTION_NAME := "mls_credentials"; wasm_key e := hash_bytes (hash_from (v6_public_key e));
  encrypt := v6_credential_encrypt; decrypt := v6_credential_decrypt
|}.

(** [V10PersistedMlsGroupDecrypt]: the id of the parent is encrypted, too. *)
Definition v10_group_decrypt (c : Cipher) (o : JsObject) : kres V10PersistedMlsGroup :=
  id ← de_bytes "id" o;
  parent_id ← de_opt_bytes "parent_id" o;
  state ← de_bytes "state" o;
  parent_id ← match parent_id with
    | Some p => Some <$> decrypt_data "mls_groups" id c p
    | None => Ok None
    end;
  state ← decrypt_data "mls_groups" id c state;
  Ok {| v10_id := id; v10_state := state; v10_parent_id := parent_id |}.

(** [From<V10PersistedMlsGroup> for PersistedMlsGroup]. *)
Definition group_of_v10 (g : V10PersistedMlsGroup) : PersistedMlsGroup :=
  {| group_id := v10_id g; group_state := v10_state g; group_parent_id := v10_parent_id g |}.
End old_entities.

(** The databases of the origin, by name. *)
Abbreviation Origin := (gmap string Idb).

(** ** The migrations *)

Section migrations.
Context `{X : Externals, G : AesGcm, P : IdbPlatform, ML : MigrationLib}.

Abbreviation mig := (st Idb KeystoreError.t).

(** [get_builder(name).build().await?] and its version. *)
Definition build_version (b : Builder) : mig Z := fun db =>
  match build b db with
  | Ok db' => (Ok (idb_version db'), db')
  | Err e => (Err e, db)
  | Panic => (Panic, db)
  end.

(** [Database::migration_connection]: the storage of the previous version. *)
Definition migration_connection (previous_builder : Builder) (key : bytes) : mig WasmEncryptedStorage := fun db =>
  match build previous_builder db with
  | Ok db' => (Ok (new key (Persistent db')), db')
  | Err e => (Err e, db)
  | Panic => (Panic, db)
  end.

(** [Database::migration_transaction], over all stores. *)
Definition migration_transaction (migration_work : mig ()) : mig () :=
  transaction KeystoreError.MigrationFailed migration_work.

(** [save] in such a transaction. *)
Definition idb_save {E} `{!WasmEntity E} (draw : Nonces) (c : Cipher) (e : E) : mig () :=
  js_value ← st_lift (fun _ => encrypt draw c e); idb_put (COLLECTION_NAME E) (wasm_key e) js_value.

(** [delete_credential_by_session_id]. *)
Definition delete_credential_by_session_id (session_id : bytes) : mig () := idb_delete "mls_credentials" session_id.

Definition v02_migrate : mig Z := build_version v02_builder.
Definition v03_migrate : mig Z := build_version v03_builder.
Definition v04_migrate : mig Z := build_version v04_builder.
Definition v05_migrate : mig Z := build_version v05_builder.

(** Version 6 merges credentials with signature keys: the keys are tried in turn. *)
Fixpoint migrate_with (v5 : V5Credential) (signature_keys : list StoredSignatureKeypair) : kres (option V6Credential) :=
  match signature_keys with
  | [] => Ok None
  | signature_key :: signature_keys =>
      migrated ← migrate_to_new_credential v5 signature_key;
      match migrated with Some c => Ok (Some c) | None => migrate_with v5 signature_keys end
  end.

Fixpoint v06_credentials (draw : Nonces) (c : Cipher) (signature_keys : list StoredSignatureKeypair)
    (v5_credentials : list V5Credential) (session_ids_to_clean_up : list bytes) : mig () :=
  match v5_credentials with
  | [] =>
      (fix clean_up ids := match ids with [] => mret () | i :: ids => _ ← delete_credential_by_session_id i; clean_up ids end)
        session_ids_to_clean_up
  | v5 :: v5_credentials =>
      new_credential ← st_lift (fun _ => migrate_with v5 signature_keys);
      match new_credential with
      | Some v6 =>
          _ ← idb_save draw c v6;
          _ ← delete_credential_by_session_id (v5_id v5);
          v06_credentials (skip_nonces 2 draw) c signature_keys v5_credentials session_ids_to_clean_up
      | None => v06_credentials draw c signature_keys v5_credentials (session_ids_to_clean_up ++ [v5_id v5])
      end
  end.

Definition v06_migrate (draw : Nonces) (key : bytes) : mig Z :=
  db_during_migration ← migration_connection v05_builder key;
  signature_keys ← st_lift (fun _ => get_all StoredSignatureKeypair db_during_migration);
  v5_credentials ← st_lift (fun _ => get_all V5Credential db_during_migration);
  _ ← migration_transaction (v06_credentials draw (cipher db_during_migration) signature_keys v5_credentials []);
  build_version v06_builder.

(** Version 7 replaces the signature scheme by a cipher suite. *)
Fixpoint v07_credentials (draw : Nonces) (c : Cipher) (o : CiphersuiteOccurences) (v6_credentials : list V6Credential) : mig () :=
  match v6_credentials with
  | [] => mret ()
  | v6 :: v6_credentials =>
      _ ← match ciphersuite_for_signature_scheme o (v6_signature_scheme v6) with
          | Some ciphersuite =>
              _ ← delete_credential_by_session_id (v6_session_id v6);
              idb_save draw c {|
                cred_ciphersuite := ciphersuite; cred_session_id := v6_session_id v6; cred_credential := v6_credential v6;
                cred_created_at := v6_created_at v6; cred_public_key := v6_public_key v6;
                cred_private_key := v6_private_key v6 |}
          | None => mret ()
          end;
      v07_credentials (skip_nonces 2 draw) c o v6_credentials
  end.

Definition v07_migrate (draw : Nonces) (key : bytes) : mig Z :=
  db_during_migration ← migration_connection v06_builder key;
  persisted_mls_groups ← st_lift (fun _ => get_all PersistedMlsGroup db_during_migration);
  o ← st_lift (fun _ => count_ciphersuite_occurences (map group_state persisted_mls_groups));
  v6_credentials ← st_lift (fun _ => get_all V6Credential db_during_migration);
  _ ← migration_transaction (v07_credentials draw (cipher db_during_migration) o v6_credentials);
  build_version v07_builder.

(** Version 8 deletes duplicates no cipher suite is preferred for, and adds the new store. *)
Fixpoint v08_duplicates (o : CiphersuiteOccurences) (duplicates : list (StoredCredential * StoredCredential)) : mig () :=
  match duplicates with
  | [] => mret ()
  | (cred_a, cred_b) :: duplicates =>
      _ ← match least_used_ciphersuite o (cred_ciphersuite cred_a) (cred_ciphersuite cred_b) with
          | None =>
              _ ← delete_credential_by_session_id (cred_session_id cred_a);
              delete_credential_by_session_id (cred_session_id cred_b)
          | Some _ => mret ()
          end;
      v08_duplicates o duplicates
  end.

Definition v08_migrate (key : bytes) : mig Z :=
  db_during_migration ← migration_connection v07_builder key;
  persisted_mls_groups ← st_lift (fun _ => get_all PersistedMlsGroup db_during_migration);
  o ← st_lift (fun _ => count_ciphersuite_occurences (map group_state persisted_mls_groups));
  credentials ← st_lift (fun _ => get_all StoredCredential db_during_migration);
  _ ← migration_transaction (v08_duplicates o (detect_duplicate_credentials credentials));
  build_version v08_builder.

(** Version 9 copies the credentials to the new store, which takes the place of the old one. *)
Fixpoint v09_credentials (draw : Nonces) (c : Cipher) (credentials : list StoredCredential) : mig () :=
  match credentials with
  | [] => mret ()
  | credential :: credentials =>
      js_value ← st_lift (fun _ => encrypt draw c credential);
      _ ← idb_put "mls_credentials_new" (cred_public_key credential) js_value;
      v09_credentials (skip_nonces 2 draw) c credentials
  end.

Definition v09_migrate (draw : Nonces) (key : bytes) : mig Z :=
  db_during_migration ← migration_connection v08_builder key;
  credentials ← st_lift (fun _ => get_all StoredCredential db_during_migration);
  _ ← migration_transaction (v09_credentials draw (cipher db_during_migration) credentials);
  build_version v09_builder.

Definition v10_migrate : mig Z := build_version v10_builder.

(** Version 11 stores the ids of parent groups unencrypted. *)
Fixpoint v11_groups (draw : Nonces) (c : Cipher) (groups : list PersistedMlsGroup) : mig () :=
  match groups with
  | [] => mret ()
  | group :: groups => _ ← idb_save draw c group; v11_groups (skip_nonces 2 draw) c groups
  end.

(** [V10PersistedMlsGroup::load_all]. *)
Definition v10_load_all (s : WasmEncryptedStorage) : kres (list V10PersistedMlsGroup) :=
  match storage s with
  | Persistent db => js_values ← idb_get_all "mls_groups" None db; mapM (v10_group_decrypt (cipher s)) js_values
  | InMemory m => mapM (v10_group_decrypt (cipher s)) (map snd (map_to_list (default ∅ (m !! "mls_groups"))))
  end.

Definition v11_migrate (draw : Nonces) (key : bytes) : mig Z :=
  db_during_migration ← migration_connection v10_builder key;
  groups ← st_lift (fun _ => v10_load_all db_during_migration);
  _ ← migration_transaction (v11_groups draw (cipher db_during_migration) (map group_of_v10 groups));
  build_version v11_builder.

(** ** Opening *)

(** [do_migration_step]. *)
Definition do_migration_step (draw : Nonces) (from : Z) (key : bytes) : mig Z :=
  if (from =? 1)%Z then v04_migrate else
  if (from =? DB_VERSION_4)%Z then v05_migrate else
  if (from =? DB_VERSION_5)%Z then v06_migrate draw key else
  if (from =? DB_VERSION_6)%Z then v07_migrate draw key else
  if (from =? DB_VERSION_7)%Z then v08_migrate key else
  if (from =? DB_VERSION_8)%Z then v09_migrate draw key else
  if (from =? DB_VERSION_9)%Z then v10_migrate else
  if (from =? DB_VERSION_10)%Z then v11_migrate draw key else
  st_throw (KeystoreError.MigrationNotSupported from).

(** The loop of [open_and_migrate], with fuel: [None] when it does not suffice. *)
Fixpoint migration_loop (fuel : nat) (draws : nat -> Nonces) (key : bytes) (version : Z) : Idb -> option (kres () * Idb) := fun db =>
  if (version <? TARGET_VERSION)%Z then
    match fuel with
    | O => None
    | S fuel =>
        match do_migration_step (draws fuel) version key db with
        | (Ok version, db) => migration_loop fuel draws key version db
        | (Err e, db) => Some (Err e, db)
        | (Panic, db) => Some (Panic, db)
        end
    end
  else Some (Ok (), db).

(** More than there are migrations. *)
Definition migration_fuel : nat := 9.

(** [open_and_migrate] of a name, in the state of the database of that name. *)
Definition open_and_migrate (draws : nat -> Nonces) (key : bytes) (existing : option Idb) : option (kres () * Idb) :=
  match factory_open None existing with
  | Ok existing_db =>
      if (idb_version existing_db =? TARGET_VERSION)%Z then Some (Ok (), existing_db) else
      match migration_loop migration_fuel draws key (idb_version existing_db) existing_db with
      | None => None
      | Some (Ok _, db) =>
          match factory_open (Some TARGET_VERSION) (Some db) with
          | Ok db => Some (Ok (), db)
          | Err e => Some (Err e, db)
          | Panic => Some (Panic, db)
          end
      | Some (r, db) => Some (r, db)
      end
  | Err e => Some (Err e, default fresh_idb existing)
  | Panic => Some (Panic, default fresh_idb existing)
  end.

(** ** From string keys to bytes *)

(** [pre_v04::do_migration_step] and [pre_v04::open_and_migrate]. *)
Definition pre_v04_do_migration_step (from : Z) : mig Z :=
  if (from =? DB_VERSION_1)%Z then v02_migrate else
  if (from =? DB_VERSION_2)%Z then v03_migrate else
  st_throw (KeystoreError.MigrationNotSupported from).

Fixpoint pre_v04_loop (fuel : nat) (version : Z) : Idb -> option (kres () * Idb) := fun db =>
  if (version <? DB_VERSION_3)%Z then
    match fuel with
    | O => None
    | S fuel =>
        match pre_v04_do_migration_step version db with
        | (Ok version, db) => pre_v04_loop fuel version db
        | (Err e, db) => Some (Err e, db)
        | (Panic, db) => Some (Panic, db)
        end
    end
  else Some (Ok (), db).

Definition pre_v04_open_and_migrate (existing : option Idb) : option (kres () * Idb) :=
  match factory_open None existing with
  | Ok existing_db =>
      if (idb_version existing_db =? DB_VERSION_3)%Z then Some (Ok (), existing_db) else
      match pre_v04_loop migration_fuel (idb_version existing_db) existing_db with
      | None => None
      | Some (Ok _, db) =>
          match factory_open (Some DB_VERSION_3) (Some db) with
          | Ok db => Some (Ok (), db)
          | Err e => Some (Err e, db)
          | Panic => Some (Panic, db)
          end
      | Some (r, db) => Some (r, db)
      end
  | Err e => Some (Err e, default fresh_idb existing)
  | Panic => Some (Panic, default fresh_idb existing)
  end.

(** [rekey_entities!] of [migrate_db_key_type_to_bytes]. *)
Definition rekey_v3_entities (draws : nat -> Nonces) (o n : Cipher) : mig () :=
  _ ← rekey_entity V5Credential (draws 0) o n;
  _ ← rekey_entity StoredSignatureKeypair (draws 1) o n;
  _ ← rekey_entity StoredHpkePrivateKey (draws 2) o n;
  _ ← rekey_entity StoredEncryptionKeyPair (draws 3) o n;
  _ ← rekey_entity StoredEpochEncryptionKeypair (draws 4) o n;
  _ ← rekey_entity StoredPskBundle (draws 5) o n;
  _ ← rekey_entity StoredKeypackage (draws 6) o n;
  _ ← rekey_entity PersistedMlsGroup (draws 7) o n;
  _ ← rekey_entity PersistedMlsPendingGroup (draws 8) o n;
  _ ← rekey_entity MlsPendingMessage (draws 9) o n;
  _ ← rekey_entity StoredE2eiEnrollment (draws 10) o n;
  _ ← rekey_entity E2eiRefreshToken (draws 11) o n;
  _ ← rekey_entity E2eiAcmeCA (draws 12) o n;
  _ ← rekey_entity E2eiIntermediateCert (draws 13) o n;
  _ ← rekey_entity E2eiCrl (draws 14) o n;
  _ ← rekey_entity ProteusPrekey (draws 15) o n;
  _ ← rekey_entity ProteusIdentity (draws 16) o n;
  rekey_entity ProteusSession (draws 17) o n.

Definition migrate_db_key_type_to_bytes (draws : nat -> Nonces) (old_key new_key : bytes) (existing : option Idb) :
    option (kres () * Idb) :=
  let old_cipher := cipher_new (sha256_digest old_key) in
  let new_cipher := cipher_new new_key in
  match pre_v04_open_and_migrate existing with
  | Some (Ok _, db) =>
      if (idb_version db =? DB_VERSION_3)%Z then
        match transaction KeystoreError.MigrationFailed (rekey_v3_entities draws old_cipher new_cipher) db with
        | (Ok _, db) =>
            match factory_open (Some DB_VERSION_4) (Some db) with
            | Ok db => Some (Ok (), db)
            | Err e => Some (Err e, db)
            | Panic => Some (Panic, db)
            end
        | (r, db) => Some (r, db)
        end
      else Some (Panic, db)
  | r => r
  end.

(** ** [WasmConnection] *)

Record WasmConnection : Type := MkWasmConnection { conn_name : option string; conn_storage : WasmEncryptedStorage }.

(** [WasmConnection::open]; [None] when the loop does not end. *)
Definition wasm_open (draws : nat -> Nonces) (location : string) (key : bytes) (origin : Origin) :
    option (kres WasmConnection * Origin) :=
  match open_and_migrate draws key (origin !! location) with
  | Some (r, idb) =>
      Some (_ ← r; Ok (MkWasmConnection (Some location) (new key (Persistent idb))), <[location := idb]> origin)
  | None => None
  end.

Definition wasm_open_in_memory (key : bytes) : WasmConnection := MkWasmConnection None (new key (InMemory ∅)).

(** [wipe]: the [expect] on the name is a panic. *)
Definition wasm_wipe (c : WasmConnection) (origin : Origin) : kres () * Origin :=
  if is_persistent (conn_storage c) then
    match conn_name c with
    | Some name => (Ok (), base.delete name origin)
    | None => (Panic, origin)
    end
  else (Ok (), origin).
End migrations.
