(* ===== verification/IdbMigrationProps.v ===== *)
(** * Opening a browser database

    The migrations lead from the schema of one version to that of the next, so opening a
    database ends, at the schema of the last version, and keeps the records of the stores the
    migrations do not rewrite. *)

From S2P Require Import Prelude Keys EntityTypes Entities Sql KeystoreErrors EntityStore CryptoErrors Migrations ItemEncryption WasmEntities Idb WasmStorage WasmStorageProps IdbMigrations.
From Stdlib Require Import Lia ZArith.

(** ** Schemas *)

Lemma stores_lookup_schema db db' name :
  idb_schema db = idb_schema db' -> store_indexes <$> stores db !! name = store_indexes <$> stores db' !! name.
Proof. intros [= _ E]. by rewrite <- !lookup_fmap, E. Qed.

Lemma apply_directive_schema db db' d :
  idb_schema db = idb_schema db' -> idb_schema (apply_directive db d) = idb_schema (apply_directive db' d).
Proof.
  intros E. pose proof (fun name => stores_lookup_schema db db' name E) as L. injection E as Ev Es.
  destruct d as [v|name indexes|name|old name|name i]; unfold idb_schema; cbn.
  - by rewrite Es.
  - by rewrite !fmap_insert, Ev, Es.
  - by rewrite !fmap_delete, Ev, Es.
  - specialize (L old). destruct (stores db !! old) as [s|], (stores db' !! old) as [s'|]; cbn in L |- *; simplify_eq;
      [|by rewrite Ev, Es]. by rewrite !fmap_insert, !fmap_delete, Ev, Es, L.
  - specialize (L name). destruct (stores db !! name) as [s|], (stores db' !! name) as [s'|]; cbn in L |- *; simplify_eq;
      [|by rewrite Ev, Es]. rewrite !fmap_insert, Ev, Es. cbn. by rewrite L.
Qed.

Lemma apply_directives_schema b : forall db db',
  idb_schema db = idb_schema db' -> idb_schema (apply_directives db b) = idb_schema (apply_directives db' b).
Proof. induction b as [|d b IH]; intros db db' E; [done|]. apply IH, apply_directive_schema, E. Qed.

(** The records of a store, if there is one. *)
Definition recs (name : string) (db : Idb) : gmap bytes JsObject := default ∅ (records <$> stores db !! name).

Lemma recs_set_store name s db : recs name (set_store name s db) = records s.
Proof. unfold recs. cbn. by rewrite lookup_insert_eq. Qed.

Lemma apply_directives_empty b : forall db,
  (forall name, recs name db = ∅) -> forall name, recs name (apply_directives db b) = ∅.
Proof.
  induction b as [|d b IH]; intros db H; [exact H|]. apply IH. intros name.
  destruct d as [v|n indexes|n|old n|n i]; cbn; unfold recs in *; cbn; try apply H.
  - destruct (decide (n = name)) as [->|]; [by rewrite lookup_insert_eq|rewrite lookup_insert_ne by done; apply H].
  - destruct (decide (n = name)) as [->|]; [by rewrite lookup_delete_eq|rewrite lookup_delete_ne by done; apply H].
  - pose proof (H old) as Ho. destruct (stores db !! old) as [s|]; [|apply H]. cbn in Ho |- *.
    destruct (decide (n = name)) as [->|]; [by rewrite lookup_insert_eq|rewrite lookup_insert_ne by done].
    destruct (decide (old = name)) as [->|]; [by rewrite lookup_delete_eq|rewrite lookup_delete_ne by done; apply H].
  - pose proof (H n) as Hn. destruct (stores db !! n) as [s|] eqn:E; [|apply H]. cbn in Hn |- *.
    destruct (decide (n = name)) as [->|]; [by rewrite lookup_insert_eq|rewrite lookup_insert_ne by done; apply H].
Qed.

(** The builder of each version a database can be opened at. *)
Definition builder_at (version : Z) : option Builder :=
  if (version =? 1)%Z then Some [] else
  if (version =? DB_VERSION_4)%Z then Some v04_builder else
  if (version =? DB_VERSION_5)%Z then Some v05_builder else
  if (version =? DB_VERSION_6)%Z then Some v06_builder else
  if (version =? DB_VERSION_7)%Z then Some v07_builder else
  if (version =? DB_VERSION_8)%Z then Some v08_builder else
  if (version =? DB_VERSION_9)%Z then Some v09_builder else
  if (version =? DB_VERSION_10)%Z then Some v10_builder else
  if (version =? DB_VERSION_11)%Z then Some v11_builder else None.

Definition has_schema (b : Builder) (db : Idb) : Prop := idb_schema db = builder_schema b.
Definition well_formed (db : Idb) : Prop := exists b, builder_at (idb_version db) = Some b /\ has_schema b db.

Lemma has_schema_version b db : has_schema b db -> idb_version db = (builder_schema b).1.
Proof. by intros [= ->]. Qed.

(** The stores whose records the migrations rewrite or remove. *)
Definition migrated_stores : list string :=
  ["mls_credentials"; "mls_credentials_new"; "mls_signature_keypairs"; "mls_groups"; "e2ei_refresh_token"].

Definition kept (db db' : Idb) : Prop := forall name, name ∉ migrated_stores -> recs name db' = recs name db.

#[export] Instance kept_preorder : PreOrder kept.
Proof. split; [by intros db name _|]. intros a b c H1 H2 name Hn. by rewrite H2, H1. Qed.

(** What the work of a migration does to a database. *)
Definition rewrites (db db' : Idb) : Prop := idb_schema db' = idb_schema db /\ kept db db'.

#[export] Instance rewrites_preorder : PreOrder rewrites.
Proof. split; [by split|]. intros a b c [S1 K1] [S2 K2]. split; [congruence|by trans b]. Qed.

Lemma set_records_schema name s r db :
  stores db !! name = Some s -> idb_schema (set_store name (set_records r s) db) = idb_schema db.
Proof. intros Hs. unfold idb_schema. cbn. rewrite fmap_insert. cbn. f_equal. apply insert_id. by rewrite lookup_fmap, Hs. Qed.

Lemma set_records_rewrites name s r db :
  stores db !! name = Some s -> name ∈ migrated_stores -> rewrites db (set_store name (set_records r s) db).
Proof.
  intros Hs Hin. split; [by apply set_records_schema|].
  intros n Hn. unfold recs. cbn. rewrite lookup_insert_ne; [done|]. by intros ->.
Qed.

Lemma idb_put_rewrites name key value : name ∈ migrated_stores -> st_frame rewrites (idb_put name key value).
Proof.
  intros Hin db. unfold idb_put, object_store. destruct (stores db !! name) as [s|] eqn:Hs; [|done]. cbn.
  case_match; [done|]. by apply set_records_rewrites.
Qed.

Lemma idb_delete_rewrites name key : name ∈ migrated_stores -> st_frame rewrites (idb_delete name key).
Proof.
  intros Hin db. unfold idb_delete, object_store. destruct (stores db !! name) as [s|] eqn:Hs; [|done]. cbn.
  by apply set_records_rewrites.
Qed.

#[export] Hint Resolve idb_put_rewrites idb_delete_rewrites : frame.
#[export] Hint Extern 1 (_ ∈ migrated_stores) => (unfold migrated_stores; set_solver) : frame.

(** ** Steps *)

Section steps.
Context `{X : Externals, G : AesGcm, P : IdbPlatform, !IdbPlatformLaws P, ML : MigrationLib}.

Lemma delete_credential_rewrites i : st_frame rewrites (delete_credential_by_session_id i).
Proof. apply idb_delete_rewrites. unfold migrated_stores. set_solver. Qed.

Lemma idb_save_rewrites {E} `{!WasmEntity E} draw c (e : E) :
  COLLECTION_NAME E ∈ migrated_stores -> st_frame rewrites (idb_save draw c e).
Proof. intros Hin. unfold idb_save. solve_keeps. Qed.

#[local] Hint Resolve delete_credential_rewrites idb_save_rewrites : frame.
#[local] Hint Extern 1 (COLLECTION_NAME _ ∈ migrated_stores) => (cbn; unfold migrated_stores; set_solver) : frame.

Lemma v06_rewrites c keys v5s : forall draw ids, st_frame rewrites (v06_credentials draw c keys v5s ids).
Proof.
  induction v5s as [|v5 v5s IH]; intros draw ids; cbn [v06_credentials].
  - induction ids; solve_keeps.
  - solve_keeps.
Qed.

Lemma v07_rewrites c o v6s : forall draw, st_frame rewrites (v07_credentials draw c o v6s).
Proof. induction v6s as [|v6 v6s IH]; intros draw; cbn [v07_credentials]; solve_keeps. Qed.

Lemma v08_rewrites o ds : st_frame rewrites (v08_duplicates o ds).
Proof. induction ds as [|[a b] ds IH]; cbn [v08_duplicates]; solve_keeps. Qed.

Lemma v09_rewrites c cs : forall draw, st_frame rewrites (v09_credentials draw c cs).
Proof. induction cs as [|x cs IH]; intros draw; cbn [v09_credentials]; solve_keeps. Qed.

Lemma v11_rewrites c gs : forall draw, st_frame rewrites (v11_groups draw c gs).
Proof. induction gs as [|g gs IH]; intros draw; cbn [v11_groups]; solve_keeps. Qed.

Lemma migration_transaction_Ok work db db' :
  migration_transaction work db = (Ok (), db') -> work db = (Ok (), db').
Proof. unfold migration_transaction, transaction. destruct (work db) as [[[]| |] db1]; try done. case_match; congruence. Qed.

(** Building the previous version again changes nothing. *)
Lemma migration_connection_same b key db :
  directives_upto (builder_schema b).1 b = b -> has_schema b db ->
  migration_connection b key db = (Ok (new key (Persistent db)), db).
Proof.
  intros Hb Hs. pose proof (has_schema_version _ _ Hs) as Hv.
  pose proof (directives_split (idb_version db) b) as Hsplit. rewrite Hv, Hb in Hsplit.
  assert (directives_after (idb_version db) b = []) as Ha by (rewrite Hv; by eapply app_inv_head; rewrite app_nil_r).
  unfold migration_connection. rewrite build_upgrades, Ha; [done|]. by rewrite Hv, Hb.
Qed.

(** Building the next version. *)
Lemma build_version_next b next db ds :
  has_schema b db -> directives_upto (builder_schema b).1 next = b -> directives_after (builder_schema b).1 next = ds ->
  build_version next db = (Ok (builder_schema next).1, apply_directives db ds) /\ has_schema next (apply_directives db ds).
Proof.
  intros Hs Hu Ha. pose proof (has_schema_version _ _ Hs) as Hv.
  assert (has_schema next (apply_directives db ds)) as Hn.
  { unfold has_schema, builder_schema. rewrite <- (directives_split (builder_schema b).1 next), Hu, Ha.
    unfold apply_directives. rewrite foldl_app. by apply apply_directives_schema. }
  split; [|done]. unfold build_version. rewrite build_upgrades by by rewrite Hv, Hu.
  rewrite Hv, Ha. by rewrite (has_schema_version _ _ Hn).
Qed.

Lemma transaction_then_build work next db v db' :
  st_frame rewrites work -> (_ ← migration_transaction work; build_version next) db = (Ok v, db') ->
  exists db1, rewrites db db1 /\ build_version next db1 = (Ok v, db').
Proof.
  intros Hw H. apply st_bind_Ok in H as ([] & db1 & H1 & H). apply migration_transaction_Ok in H1.
  exists db1. split; [|done]. specialize (Hw db). by rewrite H1 in Hw.
Qed.

Definition directive_stores (d : Directive) : list string :=
  match d with
  | BVersion _ => []
  | BAddStore name _ | BRemoveStore name | BAddIndex name _ => [name]
  | BRenameStore old new => [old; new]
  end.

Lemma apply_directives_kept ds : forall db,
  Forall (fun d => Forall (fun n => n ∈ migrated_stores) (directive_stores d)) ds -> kept db (apply_directives db ds).
Proof.
  induction ds as [|d ds IH]; intros db Hds; [done|]. apply Forall_cons in Hds as [Hd Hds].
  trans (apply_directive db d); [|by apply IH]. clear IH Hds ds. intros name Hn.
  assert (forall n, n ∈ directive_stores d -> n <> name) as Hne.
  { rewrite Forall_forall in Hd. intros n Hin ->. by apply Hn, Hd. }
  destruct d as [v|n indexes|n|old n|n i]; cbn in *; unfold recs; cbn; try done.
  - by rewrite lookup_insert_ne by (apply Hne; set_solver).
  - by rewrite lookup_delete_ne by (apply Hne; set_solver).
  - case_match; [|done]. cbn. by rewrite lookup_insert_ne, lookup_delete_ne by (apply Hne; set_solver).
  - case_match; [|done]. cbn. by rewrite lookup_insert_ne by (apply Hne; set_solver).
Qed.

(** A step between two versions, whose work rewrites the database before the next version is built. *)
Definition steps_to (b next : Builder) (m : st Idb KeystoreError.t Z) : Prop :=
  forall db v db', has_schema b db -> m db = (Ok v, db') ->
  v = (builder_schema next).1 /\ has_schema next db' /\ kept db db'.

Lemma rewrite_step b next ds m :
  directives_upto (builder_schema b).1 next = b -> directives_after (builder_schema b).1 next = ds ->
  Forall (fun d => Forall (fun n => n ∈ migrated_stores) (directive_stores d)) ds ->
  (forall db v db', has_schema b db -> m db = (Ok v, db') -> exists db1, rewrites db db1 /\ build_version next db1 = (Ok v, db')) ->
  steps_to b next m.
Proof.
  intros Hu Ha Hds Hm db v db' Hs H. destruct (Hm db v db' Hs H) as (db1 & [Hs1 Hk1] & H1).
  destruct (build_version_next b next db1 ds) as [H3 Hn]; [by unfold has_schema; rewrite Hs1|done..|].
  rewrite H3 in H1. injection H1 as <- <-. split_and!; [done..|]. trans db1; [done|]. by apply apply_directives_kept.
Qed.

Ltac solve_directives := repeat constructor; unfold migrated_stores; set_solver.
Ltac solve_reads b :=
  let db := fresh "db" in let Hs := fresh "Hs" in let H := fresh "H" in
  intros db ? ? Hs H; apply st_bind_Ok in H as (? & ? & H1 & H);
  rewrite (migration_connection_same b _ db) in H1 by (reflexivity || exact Hs); injection H1 as <- <-;
  repeat (apply st_bind_Ok in H as (? & ? & [= _ <-] & H));
  apply transaction_then_build in H; [exact H|].

Lemma v05_steps : steps_to v04_builder v05_builder v05_migrate.
Proof. eapply rewrite_step; [reflexivity..|solve_directives|]. intros db v db' _ H. by exists db. Qed.

Lemma v06_steps draw key : steps_to v05_builder v06_builder (v06_migrate draw key).
Proof. eapply rewrite_step; [reflexivity..|solve_directives|]. solve_reads v05_builder. apply v06_rewrites. Qed.

Lemma v07_steps draw key : steps_to v06_builder v07_builder (v07_migrate draw key).
Proof. eapply rewrite_step; [reflexivity..|solve_directives|]. solve_reads v06_builder. apply v07_rewrites. Qed.

Lemma v08_steps key : steps_to v07_builder v08_builder (v08_migrate key).
Proof. eapply rewrite_step; [reflexivity..|solve_directives|]. solve_reads v07_builder. apply v08_rewrites. Qed.

Lemma v09_steps draw key : steps_to v08_builder v09_builder (v09_migrate draw key).
Proof. eapply rewrite_step; [reflexivity..|solve_directives|]. solve_reads v08_builder. apply v09_rewrites. Qed.

Lemma v10_steps : steps_to v09_builder v10_builder v10_migrate.
Proof. eapply rewrite_step; [reflexivity..|solve_directives|]. intros db v db' _ H. by exists db. Qed.

Lemma v11_steps draw key : steps_to v10_builder v11_builder (v11_migrate draw key).
Proof. eapply rewrite_step; [reflexivity..|solve_directives|]. solve_reads v10_builder. apply v11_rewrites. Qed.

(** A database of version 1 has no stores yet. *)
Lemma fresh_schema db : has_schema [] db -> db = fresh_idb.
Proof. destruct db as [v st]. intros [= -> Hst]. f_equal. rewrite fmap_empty in Hst. by apply fmap_empty_inv in Hst. Qed.

Lemma fresh_steps next :
  directives_upto 1 next = [] -> directives_after 1 next = next -> steps_to [] next (build_version next).
Proof.
  intros Hu Ha db v db' Hs H. destruct (build_version_next [] next db next) as [H3 Hn]; [done..|].
  rewrite H3 in H. injection H as <- <-. split_and!; [done..|].
  rewrite (fresh_schema db Hs). intros name _. exact (apply_directives_empty next fresh_idb (fun _ => eq_refl) name).
Qed.

Lemma v04_steps : steps_to [] v04_builder v04_migrate.
Proof. by apply fresh_steps. Qed.

Lemma builder_at_version v b : builder_at v = Some b -> (builder_schema b).1 = v.
Proof. unfold builder_at. repeat (case_match; [by intros [= <-]; symmetry; apply Z.eqb_eq|]). done. Qed.

(** A step to a version that can be opened, later than [v]. *)
Definition advances (v : Z) (b : Builder) (m : st Idb KeystoreError.t Z) : Prop :=
  exists next, steps_to b next m /\ builder_at (builder_schema next).1 = Some next /\
    (v < (builder_schema next).1)%Z /\ (DB_VERSION_4 <= (builder_schema next).1)%Z.

Lemma do_migration_step_advances draw key v b :
  builder_at v = Some b -> (v < TARGET_VERSION)%Z -> advances v b (do_migration_step draw v key).
Proof.
  unfold builder_at, do_migration_step.
  repeat (case_match eqn:E; [apply Z.eqb_eq in E as ->; intros [= <-] Hlt; eexists;
    (split; [solve [eauto using v04_steps, v05_steps, v06_steps, v07_steps, v08_steps, v09_steps, v10_steps, v11_steps]|done])|clear E]).
  case_match eqn:E; [apply Z.eqb_eq in E as ->; intros _ Hlt; by apply Z.lt_irrefl in Hlt|done].
Qed.

(** Opening steps through the versions. *)
Lemma do_migration_step_ok draw key db v db' :
  well_formed db -> (idb_version db < TARGET_VERSION)%Z -> do_migration_step draw (idb_version db) key db = (Ok v, db') ->
  v = idb_version db' /\ well_formed db' /\ (idb_version db < v)%Z /\ (DB_VERSION_4 <= v)%Z /\ kept db db'.
Proof.
  intros (b & Hb & Hs) Hlt H. destruct (do_migration_step_advances draw key _ _ Hb Hlt) as (next & Hstep & Hnext & Hlt' & Hge).
  destruct (Hstep db v db' Hs H) as (-> & Hs' & Hk). rewrite (has_schema_version _ _ Hs').
  split_and!; try done. exists next. by rewrite (has_schema_version _ _ Hs').
Qed.

(** ** The loop *)

(** How many migrations are left. *)
Definition remaining (v : Z) : nat := if (v =? 1)%Z then 8 else Z.to_nat (DB_VERSION_11 - v).

Lemma migration_loop_ends draws key fuel : forall db,
  well_formed db -> remaining (idb_version db) <= fuel ->
  exists r db', migration_loop fuel draws key (idb_version db) db = Some (r, db') /\
    (r = Ok () -> well_formed db' /\ (TARGET_VERSION <= idb_version db')%Z /\ kept db db').
Proof.
  induction fuel as [|fuel IH]; intros db Hwf Hr; cbn [migration_loop].
  - assert (TARGET_VERSION <= idb_version db)%Z as Hge.
    { unfold remaining in Hr. case_match; [lia|]. unfold TARGET_VERSION. lia. }
    rewrite (proj2 (Z.ltb_ge _ _) Hge). by eexists _, _.
  - destruct (Z.ltb_spec (idb_version db) TARGET_VERSION) as [Hlt|Hge]; [|by eexists _, _].
    destruct (do_migration_step (draws fuel) (idb_version db) key db) as [[v|e|] db1] eqn:H; [|eexists _, _; split; [done|discriminate]..].
    destruct (do_migration_step_ok _ _ _ _ _ Hwf Hlt H) as (-> & Hwf1 & Hlt1 & Hge1 & Hk1).
    destruct (IH db1 Hwf1) as (r & db' & Hloop & Hdb').
    { unfold remaining in Hr |- *. unfold DB_VERSION_4, DB_VERSION_11, db_version_number in *. repeat case_match; lia. }
    exists r, db'. split; [done|]. intros ->. destruct Hdb' as (? & ? & ?); [done|]. split_and!; try done. by trans db1.
Qed.

Lemma well_formed_target db : well_formed db -> (TARGET_VERSION <= idb_version db)%Z -> has_schema v11_builder db.
Proof.
  intros (b & Hb & Hs) Hge. unfold builder_at in Hb.
  repeat (case_match eqn:E; [apply Z.eqb_eq in E; rewrite E in Hge; (injection Hb as <-; exact Hs) || (by destruct Hge)|clear E]). done.
Qed.

Lemma remaining_fuel db : well_formed db -> remaining (idb_version db) <= migration_fuel.
Proof.
  intros (b & Hb & _). unfold builder_at in Hb. unfold remaining, migration_fuel.
  repeat (case_match; [rewrite ?Z.eqb_eq in *; unfold DB_VERSION_4, DB_VERSION_5, DB_VERSION_6, DB_VERSION_7, DB_VERSION_8,
    DB_VERSION_9, DB_VERSION_10, DB_VERSION_11, db_version_number in *; lia|]). done.
Qed.
End steps.

(** ** Opening *)

Section opening.
Context `{X : Externals, G : AesGcm, P : IdbPlatform, !IdbPlatformLaws P, ML : MigrationLib}.

Lemma open_at_target db : (idb_version db = TARGET_VERSION)%Z -> factory_open (Some TARGET_VERSION) (Some db) = Ok db.
Proof. intros Hv. cbn [factory_open]. rewrite Hv, Z.ltb_irrefl. destruct db as [v st]. cbn in Hv. by rewrite Hv. Qed.

Lemma open_and_migrate_ends draws key existing :
  well_formed (default fresh_idb existing) ->
  exists r db', open_and_migrate draws key existing = Some (r, db') /\
    (r = Ok () -> has_schema v11_builder db' /\ kept (default fresh_idb existing) db').
Proof.
  intros Hwf. unfold open_and_migrate.
  change (factory_open None existing) with (Ok (E := KeystoreError.t) (default fresh_idb existing)).
  cbv beta iota. set (db := default fresh_idb existing) in *.
  destruct (Z.eqb_spec (idb_version db) TARGET_VERSION) as [Ht|_].
  - eexists _, _. split; [done|]. intros _. split; [|done]. apply well_formed_target; [done|]. by rewrite Ht.
  - destruct (migration_loop_ends draws key migration_fuel db Hwf (remaining_fuel db Hwf)) as (r & db1 & Hloop & Hdb1).
    rewrite Hloop. destruct r as [[]|e|]; [|eexists _, _; split; [done|discriminate]..].
    destruct Hdb1 as (Hwf1 & Hge & Hk); [done|]. pose proof (well_formed_target db1 Hwf1 Hge) as Hs.
    rewrite open_at_target by exact (has_schema_version _ _ Hs). exists (Ok ()), db1. split; [reflexivity|]. intros _. exact (conj Hs Hk).
Qed.

Lemma open_current draws key db : idb_version db = TARGET_VERSION -> open_and_migrate draws key (Some db) = Some (Ok (), db).
Proof. intros Hv. unfold open_and_migrate. change (factory_open None (Some db)) with (Ok (E := KeystoreError.t) db).
  cbv beta iota. by rewrite Hv, Z.eqb_refl. Qed.

Lemma do_migration_step_refuses draw key v db :
  builder_at v = None -> do_migration_step draw v key db = (Err (KeystoreError.MigrationNotSupported v), db).
Proof. unfold builder_at, do_migration_step. by repeat (case_match; [done|]). Qed.

(** A version that is not in the list is refused, and the database is left as it is. *)
Lemma open_unsupported draws key db :
  builder_at (idb_version db) = None ->
  open_and_migrate draws key (Some db) =
  Some (Err (if (idb_version db <? TARGET_VERSION)%Z then KeystoreError.MigrationNotSupported (idb_version db) else IdbError), db).
Proof.
  intros Hv. unfold open_and_migrate. change (factory_open None (Some db)) with (Ok (E := KeystoreError.t) db).
  cbv beta iota. destruct (Z.eqb_spec (idb_version db) TARGET_VERSION) as [E|Hne]; [by rewrite E in Hv|].
  unfold migration_fuel. cbn [migration_loop]. destruct (Z.ltb_spec (idb_version db) TARGET_VERSION) as [Hlt|Hge].
  - by rewrite do_migration_step_refuses.
  - cbn [factory_open]. by rewrite (proj2 (Z.ltb_lt _ _)) by lia.
Qed.

Lemma well_formed_fresh : well_formed fresh_idb.
Proof. by exists []. Qed.

(** ** A new database *)

Definition built (b : Builder) : Idb := apply_directives fresh_idb b.

Definition v11_idb : Idb := built v11_builder.

Lemma build_version_built b next :
  directives_upto (builder_schema b).1 next = b -> build_version next (built b) = (Ok (builder_schema next).1, built next).
Proof.
  intros Hu. destruct (build_version_next b next (built b) (directives_after (builder_schema b).1 next)) as [H _]; [done..|].
  rewrite H. f_equal. unfold built, apply_directives. rewrite <- foldl_app. f_equal.
  rewrite <- Hu at 1. apply directives_split.
Qed.

Lemma empty_transaction work db : commits db db = true -> work db = (Ok (), db) -> migration_transaction work db = (Ok (), db).
Proof. intros Hc Hw. unfold migration_transaction, transaction. by rewrite Hw, Hc. Qed.

Lemma get_all_built E `{!WasmEntity E} b key :
  is_Some (stores (built b) !! COLLECTION_NAME E) -> get_all E (new key (Persistent (built b))) = Ok [].
Proof.
  intros [s Hs]. unfold get_all, get_all_with_query, idb_get_all, object_store. cbn [storage new]. rewrite Hs. cbn.
  pose proof (apply_directives_empty b fresh_idb (fun _ => eq_refl) (COLLECTION_NAME E)) as Hr.
  unfold recs in Hr. fold (built b) in Hr. rewrite Hs in Hr. cbn in Hr. by rewrite Hr.
Qed.

Lemma v10_load_all_built key : v10_load_all (new key (Persistent (built v10_builder))) = Ok [].
Proof. reflexivity. Qed.

Ltac empty_step b next :=
  etrans; [|exact (build_version_built b next eq_refl)];
  unfold v06_migrate, v07_migrate, v08_migrate, v09_migrate, v11_migrate, mbind, st_bind;
  rewrite (migration_connection_same b) by done; unfold st_lift;
  rewrite ?get_all_built, ?v10_load_all_built by (vm_compute; eauto); cbn -[build_version get_all new built migration_transaction];
  rewrite ?get_all_built by (vm_compute; eauto); cbn -[build_version built migration_transaction];
  rewrite empty_transaction by done; done.

(** The migrations of a database without records. *)
Lemma empty_steps draw key :
  (forall db, commits db db = true) ->
  v04_migrate (built []) = (Ok DB_VERSION_4, built v04_builder) /\
  v05_migrate (built v04_builder) = (Ok DB_VERSION_5, built v05_builder) /\
  v06_migrate draw key (built v05_builder) = (Ok DB_VERSION_6, built v06_builder) /\
  v07_migrate draw key (built v06_builder) = (Ok DB_VERSION_7, built v07_builder) /\
  v08_migrate key (built v07_builder) = (Ok DB_VERSION_8, built v08_builder) /\
  v09_migrate draw key (built v08_builder) = (Ok DB_VERSION_9, built v09_builder) /\
  v10_migrate (built v09_builder) = (Ok DB_VERSION_10, built v10_builder) /\
  v11_migrate draw key (built v10_builder) = (Ok DB_VERSION_11, built v11_builder).
Proof.
  intros Hc. split_and!.
  - exact (build_version_built [] v04_builder eq_refl).
  - exact (build_version_built v04_builder v05_builder eq_refl).
  - empty_step v05_builder v06_builder.
  - empty_step v06_builder v07_builder.
  - empty_step v07_builder v08_builder.
  - empty_step v08_builder v09_builder.
  - exact (build_version_built v09_builder v10_builder eq_refl).
  - empty_step v10_builder v11_builder.
Qed.

Lemma migration_loop_step draws key fuel v db v' db' :
  (v < TARGET_VERSION)%Z -> do_migration_step (draws fuel) v key db = (Ok v', db') ->
  migration_loop (S fuel) draws key v db = migration_loop fuel draws key v' db'.
Proof. intros Hlt H. cbn [migration_loop]. by rewrite (proj2 (Z.ltb_lt _ _) Hlt), H. Qed.

Lemma open_new draws key :
  (forall db, commits db db = true) -> open_and_migrate draws key None = Some (Ok (), v11_idb).
Proof.
  intros Hc. unfold open_and_migrate, migration_fuel. cbn [factory_open default].
  destruct (empty_steps (draws 6) key Hc) as (H4 & H5 & H6 & _). destruct (empty_steps (draws 5) key Hc) as (_ & _ & _ & H7 & _).
  destruct (empty_steps (draws 4) key Hc) as (_ & _ & _ & _ & H8 & _). destruct (empty_steps (draws 3) key Hc) as (_ & _ & _ & _ & _ & H9 & _).
  destruct (empty_steps (draws 1) key Hc) as (_ & _ & _ & _ & _ & _ & H10 & H11). change fresh_idb with (built []).
  change (idb_version (built [])) with 1%Z. change (1 =? TARGET_VERSION)%Z with false. cbv iota.
  rewrite (migration_loop_step draws key 8 1 _ _ _ eq_refl H4).
  rewrite (migration_loop_step draws key 7 DB_VERSION_4 _ _ _ eq_refl H5).
  rewrite (migration_loop_step draws key 6 DB_VERSION_5 _ _ _ eq_refl H6).
  rewrite (migration_loop_step draws key 5 DB_VERSION_6 _ _ _ eq_refl H7).
  rewrite (migration_loop_step draws key 4 DB_VERSION_7 _ _ _ eq_refl H8).
  rewrite (migration_loop_step draws key 3 DB_VERSION_8 _ _ _ eq_refl H9).
  rewrite (migration_loop_step draws key 2 DB_VERSION_9 _ _ _ eq_refl H10).
  rewrite (migration_loop_step draws key 1 DB_VERSION_10 _ _ _ eq_refl H11).
  reflexivity.
Qed.

Lemma v11_schema_ok db : has_schema v11_builder db -> schema_ok (Persistent db).
Proof.
  intros Hs ty. pose proof (stores_lookup_schema db v11_idb (EntityType.collection_name ty) Hs) as Hl.
  assert (exists s, stores v11_idb !! EntityType.collection_name ty = Some s /\ Forall (index_ok ty) (store_indexes s)) as (s & Hst & Hok).
  { destruct ty; (eexists; split; [vm_compute; reflexivity|]); repeat constructor; done. }
  rewrite Hst in Hl. destruct (stores db !! _) as [s'|]; [|discriminate Hl]. injection Hl as Hl.
  exists s'. split; [reflexivity|]. rewrite Hl. exact Hok.
Qed.

Lemma v11_idb_holds cs : holds cs (Persistent v11_idb) ∅.
Proof.
  intros i. rewrite lookup_empty.
  pose proof (apply_directives_empty v11_builder fresh_idb (fun _ => eq_refl) (EntityId.collection_name i)) as Hr.
  unfold recs in Hr. unfold record. change (apply_directives fresh_idb v11_builder) with v11_idb in Hr.
  destruct (stores v11_idb !! EntityId.collection_name i) as [s|]; [|constructor]. cbn in Hr |- *. rewrite Hr, lookup_empty. constructor.
Qed.
End opening.

(** ** Version 11: groups *)

Section groups.
Context `{X : Externals, G : AesGcm, !AesGcmLaws G, P : IdbPlatform, !IdbPlatformLaws P, ML : MigrationLib}.

Definition id_is (k : bytes) (o : JsObject) : Prop := js_field "id" o = Some (JsArray k).

Lemma de_bytes_field f o b : de_bytes f o = Ok b -> js_field f o = Some (JsArray b).
Proof. unfold de_bytes. repeat case_match; try done. by intros [= <-]. Qed.

Lemma v10_group_id c o g : v10_group_decrypt c o = Ok g -> id_is (v10_id g) o.
Proof.
  unfold v10_group_decrypt. intros H. apply bind_Ok in H as (id & Hid & H). apply de_bytes_field in Hid.
  apply bind_Ok in H as (p & _ & H). apply bind_Ok in H as (st & _ & H). apply bind_Ok in H as (p' & _ & H).
  apply bind_Ok in H as (st' & _ & H). by injection H as <-.
Qed.

Lemma group_id_field c o (g : PersistedMlsGroup) : decrypt c o = Ok g -> id_is (group_id g) o.
Proof.
  cbn. unfold group_decrypt. intros H. apply bind_Ok in H as (id & Hid & H). apply de_bytes_field in Hid.
  apply bind_Ok in H as (vs & _ & H). repeat (case_match; try done). by injection H as <-.
Qed.

(** The indexes of the store of the groups. *)
Definition group_indexes : list Index := [unique_index "id" "id"; index "parent_id" "parent_id"].

Lemma no_conflict s k o :
  store_indexes s = group_indexes -> (forall k' o', records s !! k' = Some o' -> id_is k' o') -> id_is k o ->
  conflicts s k o = false.
Proof.
  intros Hi Hr Ho. destruct (conflicts s k o) eqn:Hc; [|done].
  apply conflicts_true in Hc as (k' & o' & i & Hk' & Hne & Hin & Hu & Hs). destruct Hne.
  rewrite Hi in Hin. unfold group_indexes in Hin. apply elem_of_cons in Hin as [->|[->|[]%not_elem_of_nil]%elem_of_cons]; [|done].
  unfold same_index_key, index_key in Hs. cbn in Hs. rewrite (Hr k' o' Hk'), Ho in Hs.
  apply bool_decide_eq_true in Hs. congruence.
Qed.

(** What the store of the groups becomes. *)
Definition groups_put (c : Cipher) (gs : list PersistedMlsGroup) (r r' : gmap bytes JsObject) : Prop :=
  forall k, if decide (k ∈ map group_id gs)
    then exists o g, r' !! k = Some o /\ g ∈ gs /\ group_id g = k /\ decrypt c o = Ok g
    else r' !! k = r !! k.

Lemma v11_groups_ok c gs : forall draw db s,
  nonces_ok draw -> (forall g, encrypts c (Entity.PersistedMlsGroup g)) -> NoDup (map group_id gs) ->
  stores db !! "mls_groups" = Some s -> store_indexes s = group_indexes ->
  (forall k o, records s !! k = Some o -> id_is k o) ->
  exists db' s', v11_groups draw c gs db = (Ok (), db') /\ stores db' !! "mls_groups" = Some s' /\
    groups_put c gs (records s) (records s').
Proof.
  induction gs as [|g gs IH]; intros draw db s Hn Henc Hnd Hs Hi Hr; [by exists db, s|].
  cbn [map] in Hnd. apply NoDup_cons in Hnd as [Hg Hnd]. destruct (Henc g draw Hn) as [o Ho]. cbn [entity_encrypt] in Ho.
  assert (decrypt c o = Ok g) as Hd by by eapply decrypt_encrypt.
  set (s1 := set_records (<[group_id g := o]> (records s)) s). set (db1 := set_store "mls_groups" s1 db).
  assert (idb_save draw c g db = (Ok (), db1)) as Hput.
  { unfold idb_save, mbind, st_bind, st_lift. rewrite Ho. unfold idb_put, object_store. cbn -[encrypt]. rewrite Hs. cbn [ok_or].
    by rewrite (no_conflict s (group_id g) o Hi Hr (group_id_field c o g Hd)). }
  destruct (IH (skip_nonces 2 draw) db1 s1) as (db' & s' & Hrun & Hs' & Hg'); try done.
  { by apply nonces_ok_skip. }
  { unfold db1. cbn. by rewrite lookup_insert_eq. }
  { intros k o'. unfold s1. cbn. rewrite lookup_insert_Some. intros [[<- <-]|[_ Hk]]; [by eapply group_id_field|by apply Hr]. }
  exists db', s'. cbn [v11_groups]. unfold mbind, st_bind. rewrite Hput, Hrun. split_and!; try done.
  intros k. specialize (Hg' k). cbn [map]. destruct (decide (k ∈ map group_id gs)) as [Hin|Hout].
  - rewrite decide_True by by right. destruct Hg' as (o' & g' & ? & ? & ?). exists o', g'. split_and!; try done; [by right|naive_solver..].
  - case_decide as Hk; rewrite Hg'; unfold s1; cbn.
    + apply elem_of_cons in Hk as [->|Hk]; [|done]. exists o, g. rewrite lookup_insert_eq. split_and!; try done. by left.
    + apply not_elem_of_cons in Hk as [Hk _]. by rewrite lookup_insert_ne.
Qed.

(** Every group can be read in the old format, under its id. *)
Definition v10_groups_readable (c : Cipher) (db : Idb) : Prop :=
  forall k o, recs "mls_groups" db !! k = Some o -> exists g, v10_group_decrypt c o = Ok g /\ v10_id g = k.

Lemma v10_groups_loaded (c : Cipher) (r : gmap bytes JsObject) :
  (forall k o, r !! k = Some o -> exists g, v10_group_decrypt c o = Ok g /\ v10_id g = k) ->
  exists gs, mapM (v10_group_decrypt c) (map snd (in_key_order r)) = Ok gs /\ NoDup (map v10_id gs) /\
    (forall k, k ∈ map v10_id gs <-> is_Some (r !! k)) /\
    (forall g, g ∈ gs -> exists o, r !! v10_id g = Some o /\ v10_group_decrypt c o = Ok g).
Proof.
  intros Hr.
  assert (forall l, l ⊆ in_key_order r -> exists gs, Forall2 (fun ko g => v10_group_decrypt c ko.2 = Ok g /\ v10_id g = ko.1) l gs) as Hex.
  { induction l as [|[k o] l IH]; intros Hsub; [by exists []|]. destruct IH as [gs Hgs]; [set_solver|].
    destruct (Hr k o) as (g & Hg & Hk); [apply elem_of_in_key_order; set_solver|]. exists (g :: gs). by constructor. }
  destruct (Hex (in_key_order r)) as [gs Hgs]; [done|]. exists gs.
  assert (map v10_id gs = map fst (in_key_order r)) as Hids.
  { clear -Hgs. induction Hgs as [|[k o] g l gs [_ Hk] _ IH]; [done|]. cbn in *. by rewrite Hk, IH. }
  split_and!.
  - clear -Hgs. induction Hgs as [|[k o] g l gs [Hd _] _ IH]; [done|]. cbn in *. by rewrite Hd, IH.
  - rewrite Hids, in_key_order_Permutation. apply NoDup_fst_map_to_list.
  - intros k. rewrite Hids. change (map fst) with (fmap (M := list) (fst (A := bytes) (B := JsObject))). rewrite list_elem_of_fmap. split.
    + intros ([k' o] & -> & H). apply elem_of_in_key_order in H. by exists o.
    + intros [o H]. exists (k, o). split; [done|]. by apply elem_of_in_key_order.
  - intros g (i & Hi)%list_elem_of_lookup. eapply Forall2_lookup_r in Hgs as ([k o] & Hk & Hd & Hid); [|done].
    cbn in Hd, Hid. apply list_elem_of_lookup_2, elem_of_in_key_order in Hk. rewrite Hid. eauto.
Qed.

Lemma v11_migrate_ok draw key db :
  has_schema v10_builder db -> nonces_ok draw -> (forall g, encrypts (cipher_new key) (Entity.PersistedMlsGroup g)) ->
  (forall db db', commits db db' = true) -> v10_groups_readable (cipher_new key) db ->
  exists db', v11_migrate draw key db = (Ok DB_VERSION_11, db') /\ has_schema v11_builder db' /\ kept db db' /\
    forall k, option_Forall2 (fun o o' => exists g, v10_group_decrypt (cipher_new key) o = Ok g /\
        decrypt (cipher_new key) o' = Ok (group_of_v10 g))
      (recs "mls_groups" db !! k) (recs "mls_groups" db' !! k).
Proof.
  intros Hs Hn Henc Hc Hr. set (c := cipher_new key) in *.
  pose proof (stores_lookup_schema db (built v10_builder) "mls_groups" Hs) as Hl.
  destruct (stores db !! "mls_groups") as [s|] eqn:Hst; [|vm_compute in Hl; discriminate]. vm_compute in Hl. injection Hl as Hi.
  unfold v10_groups_readable, recs in Hr. unfold recs at 1. rewrite Hst in Hr |- *. cbn in Hr |- *.
  destruct (v10_groups_loaded c (records s) Hr) as (gs & Hload & Hnd & Hkeys & Hgs).
  assert (map group_id (map group_of_v10 gs) = map v10_id gs) as Hids by by rewrite map_map.
  destruct (v11_groups_ok c (map group_of_v10 gs) draw db s) as (db1 & s1 & Hrun & Hst1 & Hput).
  { exact Hn. }
  { exact Henc. }
  { rewrite Hids. exact Hnd. }
  { exact Hst. }
  { exact Hi. }
  { intros k o Hk. destruct (Hr k o Hk) as (g & Hg & <-). by eapply v10_group_id. }
  assert (v11_migrate draw key db = build_version v11_builder db1) as Hm.
  { unfold v11_migrate, mbind, st_bind. rewrite (migration_connection_same v10_builder) by done. unfold st_lift, v10_load_all.
    cbn [storage new]. unfold idb_get_all, object_store. rewrite Hst. cbn -[build_version v11_groups migration_transaction].
    fold c. rewrite Hload. unfold migration_transaction, transaction. by rewrite Hrun, Hc. }
  pose proof (v11_rewrites c (map group_of_v10 gs) draw db) as Hw. rewrite Hrun in Hw. destruct Hw as [Hs1 Hk1]. cbn in Hs1, Hk1.
  destruct (build_version_next v10_builder v11_builder db1 [BVersion DB_VERSION_11]) as [Hb Hs11]; [by unfold has_schema; rewrite Hs1|done..|].
  exists (apply_directives db1 [BVersion DB_VERSION_11]). rewrite Hm, Hb. split_and!; [done..| |].
  { trans db1; [done|]. apply apply_directives_kept. by repeat constructor. }
  intros k. unfold recs. cbn. rewrite Hst1. cbn. specialize (Hput k). rewrite Hids in Hput. case_decide as Hk.
  - destruct Hput as (o' & g' & -> & (g & -> & Hg)%list_elem_of_fmap & <- & Hd). destruct (Hgs g Hg) as (o & Ho & Hdo).
    cbn. rewrite Ho. constructor. exists g. split; [exact Hdo|exact Hd].
  - rewrite Hput. rewrite Hkeys in Hk. apply eq_None_not_Some in Hk. rewrite Hk. constructor.
Qed.
End groups.
