(* ===== verification/BrowserProps.v ===== *)
(** * Theorems about the browser build

    What is stored is read back, and only with the key it was written with; transactions and
    reads implement a map from ids to entities; changing the key keeps all but two kinds of
    entities; opening a database ends at the last version.  Then what goes wrong: the entities
    [update_key] forgets, pending messages that are not found, credentials and groups that
    migrations leave unreadable. *)

From S2P Require Import Prelude Keys EntityTypes Entities ToyExternals Sql KeystoreErrors EntityStore CryptoErrors Migrations ItemEncryption WasmEntities Idb WasmStorage WasmStorageProps IdbMigrations IdbMigrationProps.
From Stdlib Require Import Lia ZArith.

(** ** A database to look at *)

Definition demo_key : bytes := bstr "old key".
Definition other_key : bytes := bstr "new key".

Definition demo_draws : nat -> Nonces := fun _ => toy_nonces.
Lemma demo_draws_ok k : nonces_ok (demo_draws k).
Proof. exact toy_nonces_ok. Qed.

(** A new database, opened. *)
Definition demo_storage : WasmEncryptedStorage := new demo_key (Persistent v11_idb).

Lemma demo_schema : schema_ok (storage demo_storage).
Proof. by apply v11_schema_ok. Qed.

Lemma demo_holds : holds (fun _ => cipher demo_storage) (storage demo_storage) ∅.
Proof. apply v11_idb_holds. Qed.

Lemma toy_encrypt_data collection id nonce c m :
  exists x, encrypt_data (G := toy_gcm) collection id nonce c m = Ok x.
Proof. eexists. reflexivity. Qed.

Definition demo_commit_entity : Entity.t :=
  Entity.StoredBufferedCommit {| bc_conversation_id := bstr "c"; bc_commit_data := bstr "commit" |}.
Definition demo_group_entity : Entity.t :=
  Entity.PersistedMlsGroup {| group_id := bstr "g"; group_state := bstr "state"; group_parent_id := Some (bstr "p") |}.

Lemma demo_encrypts c : encrypts c demo_commit_entity /\ encrypts c demo_group_entity.
Proof. split; intros draw _; eexists; reflexivity. Qed.

Lemma demo_saves_ok c : Forall (fun e => entity_ok e /\ encrypts c e) [demo_commit_entity; demo_group_entity].
Proof. destruct (demo_encrypts c). apply Forall_cons. split; [done|]. apply Forall_cons. by split. Qed.

(** ** Storing and reading *)

(** C23: What the browser build stores of an entity of any type decrypts to that entity again. *)
Theorem browser_entity_round_trip `{X : Externals, G : AesGcm, !AesGcmLaws G} draw c e o :
  nonces_ok draw -> entity_ok e -> entity_encrypt draw c e = Ok o -> entity_decrypt (Entity.typ e) c o = Ok e.
Proof. apply entity_round_trip. Qed.

Lemma browser_entity_round_trip_witness :
  entity_encrypt toy_nonces (cipher_new demo_key) demo_group_entity =
    Ok [("id", JsArray (bstr "g"));
        ("state", JsArray (replicate 12 x00 ++ frame demo_key ++ frame (frame (bstr "mls_groups") ++ bstr "g") ++ bstr "state"));
        ("parent_id", JsArray (bstr "p"))] /\
  (forall o, entity_encrypt toy_nonces (cipher_new demo_key) demo_group_entity = Ok o ->
    entity_decrypt EntityType.PersistedMlsGroup (cipher_new demo_key) o = Ok demo_group_entity).
Proof.
  split; [vm_compute; reflexivity|]. intros o Ho.
  exact (browser_entity_round_trip toy_nonces _ demo_group_entity o toy_nonces_ok I Ho).
Defined.

(** A stored item can only be read with the key it was written with, in the collection and
    under the id of its entity; in particular not after it was moved to another record. *)
Theorem stored_item_bound `{G : AesGcm, !AesGcmLaws G, !AesGcmAuthentic G} collection collection' id id' nonce key key' data x :
  length nonce = AES_GCM_256_NONCE_SIZE -> encrypt_data collection id nonce (cipher_new key) data = Ok x ->
  (exists data', decrypt_data collection' id' (cipher_new key') x = Ok data') <->
  key' = key /\ bstr collection' = bstr collection /\ id' = id.
Proof.
  intros Hn He. split.
  - intros [data' Hd]. by eapply decrypt_data_authentic.
  - intros (-> & Hc & ->). exists data. pose proof (decrypt_encrypt_data _ _ _ _ _ _ Hn He) as Hd.
    unfold decrypt_data, aad_of in *. by rewrite Hc.
Qed.

Lemma stored_item_bound_witness :
  exists x, encrypt_data "mls_groups" (bstr "g") (toy_nonces 0) (cipher_new demo_key) (bstr "state") = Ok x /\
    ~ (exists data', decrypt_data "mls_groups" (bstr "h") (cipher_new demo_key) x = Ok data').
Proof.
  destruct (toy_encrypt_data "mls_groups" (bstr "g") (toy_nonces 0) (cipher_new demo_key) (bstr "state")) as [x Hx].
  exists x. split; [exact Hx|]. intros H.
  apply (stored_item_bound "mls_groups" "mls_groups" (bstr "g") (bstr "h") (toy_nonces 0) demo_key demo_key (bstr "state") x eq_refl Hx) in H
    as (_ & _ & [=]).
Defined.

(** C17: A commit whose entities can be encrypted and whose deletions have valid keys is
    performed, in one transaction unless the platform refuses it: the storage then holds the map
    with the saves inserted and the deletions removed, in a database and in memory. *)
Theorem browser_commit_refines `{X : Externals, G : AesGcm, !AesGcmLaws G, P : IdbPlatform} draw saves deletes s m :
  holds (fun _ => cipher s) (storage s) m -> schema_ok (storage s) -> nonces_ok draw ->
  Forall (fun e => entity_ok e /\ encrypts (cipher s) e) saves -> Forall (fun i => deletable i = true) deletes ->
  commit_tables saves deletes <> [] ->
  exists w', commit draw saves deletes s = settles not_committed s (cipher s) w' /\
    persistent w' = persistent (storage s) /\ schema_ok w' /\
    holds (fun _ => cipher s) w' (removed (inserted m saves) deletes).
Proof. apply commit_ok. Qed.

Lemma browser_commit_refines_witness :
  exists w', commit (P := toy_platform) toy_nonces [demo_commit_entity; demo_group_entity] [browser_id demo_commit_entity] demo_storage =
      (Ok (), MkStorage w' (cipher_new demo_key)) /\
    holds (fun _ => cipher_new demo_key) w' {[ browser_id demo_group_entity := demo_group_entity ]}.
Proof.
  destruct (browser_commit_refines (P := toy_platform) toy_nonces [demo_commit_entity; demo_group_entity] [browser_id demo_commit_entity]
    demo_storage ∅ demo_holds demo_schema toy_nonces_ok) as (w' & Hc & _ & _ & Hw).
  - apply demo_saves_ok.
  - apply Forall_cons. by split.
  - discriminate.
  - exists w'. rewrite Hc. split; [by destruct w'|]. exact Hw.
Defined.

(** C22: Reads of a storage look up in the map it holds: [get] by key, of every type that has
    one, and [load_all] lists the entities of a type, each once. *)
Theorem browser_reads_refine `{X : Externals, G : AesGcm, !AesGcmLaws G} ty s m :
  holds (fun _ => cipher s) (storage s) m -> schema_ok (storage s) ->
  (ty <> EntityType.MlsPendingMessage -> forall key, entity_get ty key s = Ok (m !! EntityId.MkId ty (read_key ty key))) /\
  exists es, entity_load_all ty s = Ok es /\ NoDup es /\ forall e, e ∈ es <-> Entity.typ e = ty /\ m !! browser_id e = Some e.
Proof.
  intros Hm Hs. split; [intros Hty key; by apply (entity_get_holds (fun _ => cipher s))|].
  destruct (listed_forms _ ty (cipher s) _ _ Hm (fun _ => eq_refl)) as (es & Hes & Hin).
  exists es. split; [by apply entity_load_all_eq|]. split; [by eapply listed_NoDup|exact Hin].
Qed.

Definition demo_contents : gmap EntityId.t Entity.t :=
  <[browser_id demo_group_entity := demo_group_entity]> {[ browser_id demo_commit_entity := demo_commit_entity ]}.

(** A database with a buffered commit and a group. *)
Lemma demo_stored :
  exists db, commit (P := toy_platform) toy_nonces [demo_commit_entity; demo_group_entity] [] demo_storage =
      (Ok (), MkStorage (Persistent db) (cipher_new demo_key)) /\
    schema_ok (Persistent db) /\ holds (fun _ => cipher_new demo_key) (Persistent db) demo_contents.
Proof.
  destruct (commit_ok (P := toy_platform) toy_nonces [demo_commit_entity; demo_group_entity] [] demo_storage ∅ demo_holds demo_schema toy_nonces_ok)
    as ([db|mem] & Hc & Hp & Hs & Hw); [apply demo_saves_ok|constructor|discriminate| |discriminate].
  exists db. split; [exact Hc|]. split; [exact Hs|exact Hw].
Qed.

Lemma browser_reads_refine_witness :
  exists s, entity_get EntityType.PersistedMlsGroup (bstr "g") s = Ok (Some demo_group_entity) /\
  exists es, entity_load_all EntityType.StoredBufferedCommit s = Ok es /\ demo_commit_entity ∈ es.
Proof.
  destruct demo_stored as (db & _ & Hs & Hm). exists (MkStorage (Persistent db) (cipher_new demo_key)). split.
  - destruct (browser_reads_refine EntityType.PersistedMlsGroup (MkStorage (Persistent db) (cipher_new demo_key)) demo_contents Hm Hs) as [H _].
    rewrite (H ltac:(discriminate)). vm_compute. reflexivity.
  - destruct (browser_reads_refine EntityType.StoredBufferedCommit (MkStorage (Persistent db) (cipher_new demo_key)) demo_contents Hm Hs)
      as [_ (es & He & _ & Hin)].
    exists es. split; [exact He|]. apply Hin. split; [reflexivity|]. vm_compute. reflexivity.
Defined.

(** ** Changing the key *)

(** C19: Changing the key of a persistent database in which every record can be read with the old
    key and encrypted with the new one.  If the platform refuses the transaction, an error is
    reported and the database and its key are as they were; otherwise the entities of sixteen
    types are read and listed with the new key as they were with the old one.  (A change that
    fails before it reaches the end of the transaction, at an unreadable record, is not covered.) *)
Theorem update_key_keeps `{X : Externals, G : AesGcm, !AesGcmLaws G, P : IdbPlatform} draws key s m db :
  storage s = Persistent db -> (forall k, nonces_ok (draws k)) -> (forall i e, m !! i = Some e -> encrypts (cipher_new key) e) ->
  holds (fun _ => cipher s) (storage s) m -> schema_ok (storage s) ->
  exists w', update_key draws key s = settles KeystoreError.MigrationFailed s (cipher_new key) w' /\ persistent w' = true /\
    forall ty, ty <> EntityType.StoredBufferedCommit -> ty <> EntityType.ConsumerData ->
      (ty <> EntityType.MlsPendingMessage -> forall k, entity_get ty k (MkStorage w' (cipher_new key)) = entity_get ty k s) /\
      exists es es', entity_load_all ty s = Ok es /\ entity_load_all ty (MkStorage w' (cipher_new key)) = Ok es' /\ es ≡ₚ es'.
Proof.
  intros Hdb Hn Henc Hm Hs.
  destruct (update_key_ok draws key s m db Hdb Hn Henc Hm Hs) as (w' & Hu & Hp & Hs' & Hm').
  exists w'. split; [exact Hu|]. split; [exact Hp|]. intros ty Hb Hc.
  assert (forall k, ciphers_after (cipher s) (cipher_new key) rekeyed (EntityId.MkId ty k) = cipher_new key) as Hk.
  { intros k. unfold ciphers_after. cbn. destruct (decide (ty ∈ rekeyed)) as [|Hno]; [done|].
    apply not_rekeyed in Hno. naive_solver. }
  split.
  - intros Hty k. rewrite (entity_get_holds (fun _ => cipher s) ty k s m) by done.
    by apply (entity_get_holds (ciphers_after (cipher s) (cipher_new key) rekeyed)).
  - destruct (listed_forms _ ty (cipher s) _ _ Hm (fun _ => eq_refl)) as (es & Hes & Hin).
    destruct (listed_forms _ ty (cipher_new key) _ _ Hm' Hk) as (es' & Hes' & Hin').
    exists es, es'. split; [by apply entity_load_all_eq|]. split; [by apply (entity_load_all_eq ty (MkStorage w' (cipher_new key)))|].
    apply NoDup_Permutation; [by eapply listed_NoDup..|]. intros e. by rewrite Hin, Hin'.
Qed.

Lemma demo_contents_encrypt c i e : demo_contents !! i = Some e -> encrypts c e.
Proof.
  destruct (demo_encrypts c). unfold demo_contents. rewrite lookup_insert_Some, lookup_singleton_Some.
  intros [[_ <-]|[_ [_ <-]]]; done.
Qed.

Lemma update_key_keeps_witness :
  exists db w', update_key (P := toy_platform) demo_draws other_key (MkStorage (Persistent db) (cipher_new demo_key)) =
      (Ok (), MkStorage w' (cipher_new other_key)) /\
    entity_get EntityType.PersistedMlsGroup (bstr "g") (MkStorage w' (cipher_new other_key)) = Ok (Some demo_group_entity).
Proof.
  destruct demo_stored as (db & _ & Hs & Hm). exists db.
  destruct (update_key_keeps (P := toy_platform) demo_draws other_key (MkStorage (Persistent db) (cipher_new demo_key)) demo_contents db
    eq_refl demo_draws_ok (demo_contents_encrypt _) Hm Hs) as (w' & Hu & Hp & Hkeep).
  exists w'. destruct w' as [db'|mem]; [|discriminate]. split; [exact Hu|].
  destruct (Hkeep EntityType.PersistedMlsGroup ltac:(discriminate) ltac:(discriminate)) as [Hget _].
  rewrite (Hget ltac:(discriminate)).
  rewrite (entity_get_holds (fun _ => cipher_new demo_key) EntityType.PersistedMlsGroup (bstr "g") (MkStorage (Persistent db) (cipher_new demo_key)) demo_contents Hm (fun _ => eq_refl) Hs ltac:(discriminate)).
  vm_compute. reflexivity.
Defined.

Lemma forgotten_unreadable `{X : Externals, G : AesGcm, !AesGcmAuthentic G} ty old key o e :
  ty = EntityType.StoredBufferedCommit \/ ty = EntityType.ConsumerData -> key <> old ->
  entity_decrypt ty (cipher_new old) o = Ok e -> entity_decrypt ty (cipher_new key) o = Err AesGcmError.
Proof.
  intros [->| ->] Hne; cbn [entity_decrypt]; intros (x & Hd & ->)%fmap_Ok; cbn in Hd |- *.
  - unfold derived_decrypt, impl_decrypting, decrypt_column in *. cbn in Hd |- *.
    apply bind_Ok in Hd as (id & -> & Hd). cbn. apply bind_Ok in Hd as (vs & Hvs & _).
    apply bind_Ok in Hvs as (v & Hv & _). apply bind_Ok in Hv as (b & Hb & Hv). apply fmap_Ok in Hv as (b' & Hv & _).
    rewrite Hb. cbn. by rewrite (decrypt_data_other_key _ _ _ _ _ _ Hv Hne).
  - unfold consumer_data_decrypt in *. apply bind_Ok in Hd as (b & -> & Hd). cbn [mbind res_bind]. apply bind_Ok in Hd as (b' & Hv & _).
    by rewrite (decrypt_data_other_key _ _ _ _ _ _ Hv Hne).
Qed.

Lemma get_unreadable `{X : Externals, G : AesGcm} ty k s o :
  ty = EntityType.StoredBufferedCommit \/ ty = EntityType.ConsumerData -> schema_ok (storage s) ->
  record (storage s) (EntityId.MkId ty k) = Some o -> entity_decrypt ty (cipher s) o = Err AesGcmError ->
  entity_get ty k s = Err AesGcmError.
Proof.
  intros Hty Hs Ho Hd. assert (entity_get ty k s = get_form ty k s) as ->.
  { destruct Hty as [->| ->]; cbn [entity_get]; by apply get_is_form. }
  rewrite (get_form_record ty k s Hs), Ho. cbn. by rewrite Hd.
Qed.

(** C32: Changing the key forgets buffered commits and the data of the consumer: afterwards
    neither can be read, nor can the collection be listed. *)
Theorem update_key_forgets `{X : Externals, G : AesGcm, !AesGcmLaws G, !AesGcmAuthentic G, P : IdbPlatform} draws old key s m db ty k e :
  storage s = Persistent db -> cipher s = cipher_new old -> key <> old ->
  (forall k, nonces_ok (draws k)) -> (forall i e, m !! i = Some e -> encrypts (cipher_new key) e) ->
  holds (fun _ => cipher s) (storage s) m -> schema_ok (storage s) ->
  ty = EntityType.StoredBufferedCommit \/ ty = EntityType.ConsumerData -> m !! EntityId.MkId ty k = Some e ->
  exists w', update_key draws key s = settles KeystoreError.MigrationFailed s (cipher_new key) w' /\ persistent w' = true /\
    entity_get ty k (MkStorage w' (cipher_new key)) = Err AesGcmError /\
    entity_load_all ty (MkStorage w' (cipher_new key)) = Err AesGcmError.
Proof.
  intros Hdb Hc Hne Hn Henc Hm Hs Hty He.
  destruct (update_key_ok draws key s m db Hdb Hn Henc Hm Hs) as (w' & Hu & Hp & Hs' & Hm').
  exists w'. split; [exact Hu|]. split; [exact Hp|]. rewrite Hc in Hm'.
  assert (forall k', ciphers_after (cipher_new old) (cipher_new key) rekeyed (EntityId.MkId ty k') = cipher_new old) as Hk.
  { intros k'. unfold ciphers_after. cbn. by rewrite decide_False by by apply not_rekeyed. }
  assert (forall k' o, record w' (EntityId.MkId ty k') = Some o -> entity_decrypt ty (cipher_new key) o = Err AesGcmError) as Hbad.
  { intros k' o Ho. specialize (Hm' (EntityId.MkId ty k')). rewrite Ho, Hk in Hm'. inversion Hm' as [? e' (Hd & _)|]; subst.
    by apply (forgotten_unreadable ty old key o e'). }
  assert (exists o, record w' (EntityId.MkId ty k) = Some o) as [o Ho].
  { specialize (Hm' (EntityId.MkId ty k)). rewrite He in Hm'. inversion Hm'. eauto. }
  split.
  - by apply (get_unreadable ty k (MkStorage w' (cipher_new key)) o); [..|apply (Hbad k)].
  - rewrite entity_load_all_listed by exact Hs'. cbn [cipher storage].
    assert (forall x, x ∈ listed ty w' -> entity_decrypt ty (cipher_new key) x.2 = Err AesGcmError) as Hall.
    { intros [k' o'] Hin. apply elem_of_listed in Hin. by apply (Hbad k'). }
    apply elem_of_listed in Ho. destruct (listed ty w') as [|x l]; [by apply not_elem_of_nil in Ho|].
    cbn. by rewrite (Hall x) by by left.
Qed.

Lemma update_key_forgets_witness :
  exists db w', update_key (P := toy_platform) demo_draws other_key (MkStorage (Persistent db) (cipher_new demo_key)) =
      (Ok (), MkStorage w' (cipher_new other_key)) /\
    entity_get EntityType.StoredBufferedCommit (bstr "c") (MkStorage (Persistent db) (cipher_new demo_key)) = Ok (Some demo_commit_entity) /\
    entity_get EntityType.StoredBufferedCommit (bstr "c") (MkStorage w' (cipher_new other_key)) = Err AesGcmError.
Proof.
  destruct demo_stored as (db & _ & Hs & Hm). exists db.
  destruct (update_key_forgets (P := toy_platform) demo_draws demo_key other_key (MkStorage (Persistent db) (cipher_new demo_key)) demo_contents db
    EntityType.StoredBufferedCommit (bstr "c") demo_commit_entity
    eq_refl eq_refl ltac:(discriminate) demo_draws_ok (demo_contents_encrypt _) Hm Hs (or_introl eq_refl) eq_refl) as (w' & Hu & Hp & Hget & _).
  exists w'. destruct w' as [db'|mem]; [|discriminate]. split; [exact Hu|]. split; [|exact Hget].
  rewrite (entity_get_holds (fun _ => cipher_new demo_key) EntityType.StoredBufferedCommit (bstr "c") (MkStorage (Persistent db) (cipher_new demo_key)) demo_contents Hm (fun _ => eq_refl) Hs ltac:(discriminate)).
  vm_compute. reflexivity.
Defined.

(** ** Pending messages *)

Lemma pending_message_key_length `{X : Externals, G : AesGcm} c k o e :
  is_form c (EntityId.MkId EntityType.MlsPendingMessage k) o e -> length k = 16.
Proof.
  intros (_ & Hid & _). destruct e; try discriminate. injection Hid as <-. apply length_to_be_bytes.
Qed.

(** A pending message is stored under the hash of its contents but looked for under the id of
    its conversation.  In a database a search for a conversation whose id is not 16 bytes long
    finds nothing and deletes nothing, whatever messages are stored; in memory it finds the
    messages of all conversations. *)
Theorem pending_messages_not_found `{X : Externals, G : AesGcm} s m conversation_id scope :
  holds (fun _ => cipher s) (storage s) m -> schema_ok (storage s) -> length conversation_id <> 16 ->
  "mls_pending_messages" ∈ scope ->
  if persistent (storage s) then
    pending_message_find_all_matching conversation_id s = Ok [] /\
    exists w', pending_message_delete_all_matching scope conversation_id (storage s) = (Ok (), w') /\
      forall i, record w' i = record (storage s) i
  else pending_message_find_all_matching conversation_id s = get_all MlsPendingMessage s.
Proof.
  intros Hm Hs Hlen Hin. set (i := EntityId.MkId EntityType.MlsPendingMessage conversation_id).
  assert (record (storage s) i = None) as Hnone.
  { specialize (Hm i). destruct (record (storage s) i) as [o|]; [|done]. inversion Hm as [? e Hf|]; subst.
    by apply pending_message_key_length in Hf. }
  destruct (storage s) as [db|mem] eqn:Hst; cbn [persistent].
  - destruct (Hs EntityType.MlsPendingMessage) as (st & Hdb & _). split.
    + unfold pending_message_find_all_matching, get_all_with_query, idb_get_all, object_store. rewrite Hst.
      cbn in Hdb |- *. rewrite Hdb. cbn. unfold record, i in Hnone. cbn in Hnone. rewrite Hdb in Hnone. cbn in Hnone. by rewrite Hnone.
    + destruct (tx_delete_ok scope i (Persistent db) Hs Hin) as (w' & Hd & Hu & _). exists w'. split.
      * unfold pending_message_delete_all_matching, tx_delete, mbind, st_bind. cbn -[tx_delete_key] in Hd |- *. by rewrite Hd.
      * intros j. rewrite Hu. case_decide as Hj; [by subst|done].
  - unfold pending_message_find_all_matching, get_all, get_all_with_query. by rewrite Hst.
Qed.

Definition demo_message : Entity.t := Entity.MlsPendingMessage {| pm_foreign_id := bstr "c"; pm_message := bstr "hello" |}.

Lemma demo_message_stored :
  exists db, schema_ok (Persistent db) /\ holds (fun _ => cipher_new demo_key) (Persistent db) {[ browser_id demo_message := demo_message ]}.
Proof.
  destruct (commit_ok (P := toy_platform) toy_nonces [demo_message] [] demo_storage ∅ demo_holds demo_schema toy_nonces_ok)
    as ([db|mem] & _ & Hp & Hs & Hw); [|constructor|discriminate| |discriminate].
  - apply Forall_cons. split; [|done]. split; [exact I|]. intros draw _. eexists. reflexivity.
  - exists db. split; [exact Hs|exact Hw].
Qed.

Lemma pending_messages_not_found_witness :
  exists s, (exists es, entity_load_all EntityType.MlsPendingMessage s = Ok es /\ demo_message ∈ es) /\
    pending_message_find_all_matching (bstr "c") s = Ok [].
Proof.
  destruct demo_message_stored as (db & Hs & Hm). exists (MkStorage (Persistent db) (cipher_new demo_key)). split.
  - destruct (listed_forms _ EntityType.MlsPendingMessage (cipher_new demo_key) _ _ Hm (fun _ => eq_refl)) as (es & Hes & Hin).
    exists es. split; [by apply (entity_load_all_eq _ (MkStorage (Persistent db) (cipher_new demo_key)))|].
    apply Hin. split; [reflexivity|]. apply lookup_singleton_eq.
  - exact (proj1 (pending_messages_not_found (MkStorage (Persistent db) (cipher_new demo_key)) _ (bstr "c") ["mls_pending_messages"]
      Hm Hs ltac:(discriminate) ltac:(by left))).
Defined.

(** ** Opening *)

(** C21: Opening a database that has the schema of its version ends, whatever the data, the key
    and the platform are; if it succeeds the database has the schema of the last version, and the
    records of every store that no migration rewrites are those from before. *)
Theorem opening_ends `{X : Externals, G : AesGcm, P : IdbPlatform, !IdbPlatformLaws P, ML : MigrationLib} draws key existing :
  well_formed (default fresh_idb existing) ->
  exists r db', open_and_migrate draws key existing = Some (r, db') /\
    (r = Ok () -> has_schema v11_builder db' /\ kept (default fresh_idb existing) db').
Proof. apply open_and_migrate_ends. Qed.

(** A database of version 4 with a session. *)
Definition demo_session : gmap bytes JsObject := {[ bstr "s" := [("id", JsString (bstr "s"))] ]}.
Definition demo_sessions : ObjectStore := MkStore [unique_index "id" "id"] ∅.
Definition demo_v4 : Idb := set_store "proteus_sessions" (set_records demo_session demo_sessions) (built v04_builder).

Lemma demo_v4_well_formed : well_formed demo_v4.
Proof.
  exists v04_builder. split; [reflexivity|]. apply (set_records_schema "proteus_sessions" demo_sessions demo_session (built v04_builder)).
  vm_compute. reflexivity.
Qed.

Lemma opening_ends_witness :
  exists r db', open_and_migrate (P := toy_platform) demo_draws demo_key (Some demo_v4) = Some (r, db') /\
    (r = Ok () -> recs "proteus_sessions" db' = demo_session).
Proof.
  destruct (opening_ends (P := toy_platform) demo_draws demo_key (Some demo_v4) demo_v4_well_formed) as (r & db' & Ho & Hk).
  exists r, db'. split; [exact Ho|]. intros Hr. destruct (Hk Hr) as [_ Hkept]. rewrite (Hkept "proteus_sessions").
  - exact (recs_set_store _ _ _).
  - unfold migrated_stores. intros Hin. repeat (apply elem_of_cons in Hin as [Hin|Hin]; [discriminate Hin|]). by apply not_elem_of_nil in Hin.
Defined.

(** Opening a name without a database creates one with every store of the last version and
    nothing in it, ready for the keystore; opening it again changes nothing. *)
Theorem new_database_usable `{X : Externals, G : AesGcm, P : IdbPlatform, !IdbPlatformLaws P, ML : MigrationLib} draws key location origin cs :
  (forall db, commits db db = true) -> origin !! location = None ->
  exists db, wasm_open draws location key origin =
      Some (Ok (MkWasmConnection (Some location) (new key (Persistent db))), <[location := db]> origin) /\
    schema_ok (Persistent db) /\ holds cs (Persistent db) ∅ /\
    wasm_open draws location key (<[location := db]> origin) =
      Some (Ok (MkWasmConnection (Some location) (new key (Persistent db))), <[location := db]> origin).
Proof.
  intros Hc Ho. exists v11_idb. split; [|split; [by apply v11_schema_ok|split; [apply v11_idb_holds|]]].
  - unfold wasm_open. rewrite Ho, open_new by exact Hc. reflexivity.
  - unfold wasm_open. rewrite lookup_insert_eq, open_current by reflexivity. cbn [mbind res_bind]. by rewrite insert_insert_eq.
Qed.

Lemma new_database_usable_witness :
  exists db, wasm_open (P := toy_platform) demo_draws "keystore" demo_key ∅ =
      Some (Ok (MkWasmConnection (Some "keystore") (new demo_key (Persistent db))), {[ "keystore" := db ]}) /\
    schema_ok (Persistent db).
Proof.
  destruct (new_database_usable (P := toy_platform) demo_draws demo_key "keystore" ∅ (fun _ => cipher_new demo_key) (fun _ => eq_refl) (lookup_empty _))
    as (db & Ho & Hs & _). exists db. split; [exact Ho|exact Hs].
Defined.

(** A database of a version that no migration starts from is refused and left as it is: with
    its version when that is too old, by IndexedDB when it is newer than the last one. *)
Theorem opening_refused `{X : Externals, G : AesGcm, P : IdbPlatform, ML : MigrationLib} draws key db :
  builder_at (idb_version db) = None ->
  open_and_migrate draws key (Some db) =
  Some (Err (if (idb_version db <? TARGET_VERSION)%Z then KeystoreError.MigrationNotSupported (idb_version db) else IdbError), db).
Proof. apply open_unsupported. Qed.

Lemma opening_refused_witness :
  open_and_migrate (P := toy_platform) demo_draws demo_key (Some (MkIdb DB_VERSION_3 ∅)) =
    Some (Err (KeystoreError.MigrationNotSupported DB_VERSION_3), MkIdb DB_VERSION_3 ∅) /\
  open_and_migrate (P := toy_platform) demo_draws demo_key (Some (MkIdb (DB_VERSION_11 + 1) ∅)) =
    Some (Err IdbError, MkIdb (DB_VERSION_11 + 1) ∅).
Proof.
  split.
  - exact (opening_refused (P := toy_platform) demo_draws demo_key (MkIdb DB_VERSION_3 ∅) eq_refl).
  - exact (opening_refused (P := toy_platform) demo_draws demo_key (MkIdb (DB_VERSION_11 + 1) ∅) eq_refl).
Defined.

(** C24: The migration to version 11, when every group can be read in the old format and encrypted
    in the new one and the platform commits its transactions: it succeeds, every group is read in
    the new format with its id, its state and its parent, under the same key, no group is added,
    and the other records are kept. *)
Theorem v11_migration_keeps_groups `{X : Externals, G : AesGcm, !AesGcmLaws G, P : IdbPlatform, !IdbPlatformLaws P, ML : MigrationLib} draw key db :
  has_schema v10_builder db -> nonces_ok draw -> (forall g, encrypts (cipher_new key) (Entity.PersistedMlsGroup g)) ->
  (forall db db', commits db db' = true) -> v10_groups_readable (cipher_new key) db ->
  exists db', v11_migrate draw key db = (Ok DB_VERSION_11, db') /\ has_schema v11_builder db' /\ kept db db' /\
    forall k, option_Forall2 (fun o o' => exists g, v10_group_decrypt (cipher_new key) o = Ok g /\
        decrypt (cipher_new key) o' = Ok {| group_id := v10_id g; group_state := v10_state g; group_parent_id := v10_parent_id g |})
      (recs "mls_groups" db !! k) (recs "mls_groups" db' !! k).
Proof. apply v11_migrate_ok. Qed.

(** A child group as version 10 stores it. *)
Definition v10_record (key : bytes) : JsObject :=
  let sealed m := JsArray (replicate 12 x00 ++ (frame key ++ frame (frame (bstr "mls_groups") ++ bstr "g")) ++ m) in
  [("id", JsArray (bstr "g")); ("state", sealed [x01]); ("parent_id", sealed (bstr "p"))].

Definition demo_groups : ObjectStore := MkStore group_indexes ∅.
Definition demo_v10 : Idb := set_store "mls_groups" (set_records {[ bstr "g" := v10_record demo_key ]} demo_groups) (built v10_builder).

Lemma demo_v10_schema : has_schema v10_builder demo_v10.
Proof. apply (set_records_schema "mls_groups" demo_groups {[ bstr "g" := v10_record demo_key ]} (built v10_builder)). vm_compute. reflexivity. Qed.

Lemma demo_v10_recs : recs "mls_groups" demo_v10 = {[ bstr "g" := v10_record demo_key ]}.
Proof. exact (recs_set_store _ _ _). Qed.

Lemma demo_v10_readable : v10_groups_readable (cipher_new demo_key) demo_v10.
Proof.
  intros k o. rewrite demo_v10_recs. intros [<- <-]%lookup_singleton_Some. eexists. split; [vm_compute; reflexivity|reflexivity].
Qed.

Lemma toy_encrypts_groups c g : encrypts (G := toy_gcm) c (Entity.PersistedMlsGroup g).
Proof. intros draw _. destruct g as [i s [p|]]; eexists; reflexivity. Qed.

Lemma v11_migration_keeps_groups_witness :
  exists db' o', v11_migrate (P := toy_platform) toy_nonces demo_key demo_v10 = (Ok DB_VERSION_11, db') /\
    recs "mls_groups" db' !! bstr "g" = Some o' /\
    decrypt (cipher_new demo_key) o' = Ok {| group_id := bstr "g"; group_state := [x01]; group_parent_id := Some (bstr "p") |}.
Proof.
  destruct (v11_migration_keeps_groups (P := toy_platform) toy_nonces demo_key demo_v10 demo_v10_schema toy_nonces_ok
    (toy_encrypts_groups _) (fun _ _ => eq_refl) demo_v10_readable) as (db' & Hm & _ & _ & Hk).
  specialize (Hk (bstr "g")). rewrite demo_v10_recs, lookup_singleton_eq in Hk. inversion Hk as [? o' (g & Hg & Ho) E1 E2|]; subst.
  exists db', o'. split; [exact Hm|]. split; [exact (eq_sym E2)|]. rewrite Ho. vm_compute in Hg. injection Hg as <-. reflexivity.
Defined.

(** ** Data the migrations lose *)

Lemma group_fields `{X : Externals, G : AesGcm} c o (g : PersistedMlsGroup) :
  decrypt c o = Ok g ->
  de_bytes "id" o = Ok (group_id g) /\ de_opt_bytes "parent_id" o = Ok (group_parent_id g) /\ exists b, de_bytes "state" o = Ok b.
Proof.
  cbn. unfold group_decrypt. intros H. apply bind_Ok in H as (a & Ha & H). apply bind_Ok in H as (vs & Hvs & H).
  unfold impl_decrypting in Hvs. apply bind_Ok in Hvs as (v1 & Hv1 & Hvs). apply bind_Ok in Hvs as (vs' & Hvs' & [= <-]).
  apply bind_Ok in Hvs' as (v2 & Hv2 & Hvs'). apply bind_Ok in Hvs' as (? & [= <-] & [= <-]).
  unfold decrypt_column in Hv1, Hv2. cbn in Hv1, Hv2. apply bind_Ok in Hv1 as (b & Hb & Hv1). apply fmap_Ok in Hv1 as (b' & _ & ->).
  apply bind_Ok in Hv2 as (ob & Hob & Hv2). destruct ob; cbn in Hv2; injection Hv2 as <-; injection H as <-; cbn; eauto.
Qed.

(** The change from string keys to bytes re-encrypts a group without its parent, which
    version 3 stores encrypted: what was readable cannot be read by the migration to version 11. *)
Theorem rekeyed_child_group_unreadable `{X : Externals, G : AesGcm, !AesGcmLaws G, !AesGcmAuthentic G} draw old key o o' g e :
  key <> old -> v10_group_decrypt (cipher_new old) o = Ok g -> is_Some (v10_parent_id g) ->
  decrypt (E := PersistedMlsGroup) (cipher_new old) o = Ok e -> encrypt draw (cipher_new key) e = Ok o' -> nonces_ok draw ->
  v10_group_decrypt (cipher_new key) o' = Err AesGcmError.
Proof.
  intros Hne Hg Hp He Ho' Hn. pose proof (decrypt_encrypt _ _ _ _ Hn I Ho') as He'.
  unfold v10_group_decrypt in Hg. apply bind_Ok in Hg as (i & Hi & Hg). apply bind_Ok in Hg as (p & Hpf & Hg).
  apply bind_Ok in Hg as (st & _ & Hg). apply bind_Ok in Hg as (p' & Hpd & Hg). apply bind_Ok in Hg as (st' & _ & [= <-]).
  cbn in Hp. destruct p as [p|]; [|by injection Hpd as <-; destruct Hp]. apply fmap_Ok in Hpd as (q & Hq & ->).
  destruct (group_fields _ _ _ He) as (Hi1 & Hp1 & _). destruct (group_fields _ _ _ He') as (Hi2 & Hp2 & b & Hb2).
  rewrite Hi1 in Hi. injection Hi as <-. rewrite Hp1 in Hpf. injection Hpf as Hpf. rewrite Hpf in Hp2.
  unfold v10_group_decrypt. rewrite Hi2, Hp2, Hb2. cbn. by rewrite (decrypt_data_other_key _ _ _ _ _ _ Hq Hne).
Qed.

(** The group, in a database of version 3 under the old key. *)
Definition demo_v3 : Idb :=
  set_store "mls_groups" (MkStore [unique_index "id" "id"] {[ bstr "g" := v10_record (sha256_digest demo_key) ]}) (built v03_builder).

Definition demo_v4_rekeyed : option (kres () * Idb) :=
  migrate_db_key_type_to_bytes (P := toy_platform) demo_draws demo_key other_key (Some demo_v3).

(** The change of the key type succeeds, and the database cannot be opened afterwards. *)
Lemma rekeyed_child_group_unreadable_witness :
  v10_group_decrypt (cipher_new other_key) (match encrypt toy_nonces (cipher_new other_key)
      {| group_id := bstr "g"; group_state := [x01];
         group_parent_id := Some (match js_field "parent_id" (v10_record (sha256_digest demo_key)) with Some (JsArray p) => p | _ => [] end) |}
    with Ok o => o | _ => [] end) = Err AesGcmError /\
  fst <$> demo_v4_rekeyed = Some (Ok ()) /\
  (db ← snd <$> demo_v4_rekeyed; fst <$> open_and_migrate (P := toy_platform) demo_draws other_key (Some db)) = Some (Err AesGcmError).
Proof.
  split; [|split; vm_compute; reflexivity].
  eapply (rekeyed_child_group_unreadable toy_nonces (sha256_digest demo_key) other_key (v10_record (sha256_digest demo_key)));
    [discriminate|vm_compute; reflexivity|eexists; reflexivity|vm_compute; reflexivity|vm_compute; reflexivity|exact toy_nonces_ok].
Defined.

Lemma idb_put_recs name k o db db' : idb_put name k o db = (Ok (), db') -> recs name db' = <[k := o]> (recs name db).
Proof.
  unfold idb_put, object_store, recs. destruct (stores db !! name) as [s|] eqn:Hs; [|done]. cbn. case_match; [done|].
  intros [= <-]. cbn. by rewrite lookup_insert_eq.
Qed.

Lemma idb_get_recs name k db : is_Some (stores db !! name) -> idb_get name k db = Ok (recs name db !! k).
Proof. intros [s Hs]. unfold idb_get, object_store, recs. by rewrite Hs. Qed.

Lemma schema_store b db name : has_schema b db -> is_Some (stores (built b) !! name) -> is_Some (stores db !! name).
Proof.
  intros Hs [s Hb]. pose proof (stores_lookup_schema db (built b) name Hs) as Hl. rewrite Hb in Hl.
  destruct (stores db !! name); [eauto|discriminate].
Qed.

Lemma v09_credentials_keys `{X : Externals, G : AesGcm} c cs h : forall draw db db',
  v09_credentials draw c cs db = (Ok (), db') -> h ∉ map cred_public_key cs ->
  recs "mls_credentials_new" db' !! h = recs "mls_credentials_new" db !! h.
Proof.
  induction cs as [|x cs IH]; intros draw db db' H Hh; [by injection H as <-|].
  cbn [v09_credentials] in H. apply st_bind_Ok in H as (o & db1 & [= _ <-] & H). apply st_bind_Ok in H as ([] & db1 & Hp & H).
  cbn [map] in Hh. apply not_elem_of_cons in Hh as [Hne Hh]. rewrite (IH _ _ _ H Hh), (idb_put_recs _ _ _ _ _ Hp).
  by rewrite lookup_insert_ne.
Qed.

Lemma renamed_recs db v old name :
  is_Some (stores db !! old) -> old <> name ->
  recs name (apply_directives db [BVersion v; BRemoveStore name; BRenameStore old name]) = recs old db.
Proof.
  intros [s Hs] Hne. unfold recs. cbn. rewrite lookup_delete_ne by done. rewrite Hs. cbn. by rewrite lookup_insert_eq.
Qed.

(** The migration to version 9 stores credentials under their public keys, while they are
    looked up by the hash of the key: a credential is not found by its hash afterwards. *)
Theorem v09_credentials_not_found `{X : Externals, G : AesGcm, P : IdbPlatform, !IdbPlatformLaws P} draw key db v db' credentials h :
  has_schema v08_builder db -> recs "mls_credentials_new" db = ∅ ->
  get_all StoredCredential (new key (Persistent db)) = Ok credentials ->
  v09_migrate draw key db = (Ok v, db') -> h ∉ map cred_public_key credentials ->
  get StoredCredential h (new key (Persistent db')) = Ok None.
Proof.
  intros Hs Hnew Hall H Hh. unfold v09_migrate in H. apply st_bind_Ok in H as (s & db1 & H1 & H).
  rewrite (migration_connection_same v08_builder key db eq_refl Hs) in H1. injection H1 as <- <-.
  apply st_bind_Ok in H as (cs & db1 & [= Hcs <-] & H). rewrite Hall in Hcs. injection Hcs as <-.
  apply st_bind_Ok in H as ([] & db1 & H2 & H). apply migration_transaction_Ok in H2.
  pose proof (v09_rewrites (cipher_new key) credentials draw db) as [Hs1 _]. cbn [cipher new] in H2. rewrite H2 in Hs1. cbn [snd] in Hs1.
  destruct (build_version_next v08_builder v09_builder db1
    [BVersion DB_VERSION_9; BRemoveStore "mls_credentials"; BRenameStore "mls_credentials_new" "mls_credentials"]) as [H3 Hs9];
    [unfold has_schema; rewrite Hs1; exact Hs|reflexivity|reflexivity|].
  rewrite H3 in H. apply (f_equal snd) in H. cbn [snd] in H. subst db'.
  pose proof (renamed_recs db1 DB_VERSION_9 "mls_credentials_new" "mls_credentials"
    (schema_store v08_builder db1 "mls_credentials_new" (eq_trans Hs1 Hs) ltac:(vm_compute; eauto)) ltac:(discriminate)) as Hr.
  set (db' := apply_directives db1 _) in *. unfold get. cbn [storage new COLLECTION_NAME credential_wasm].
  rewrite (idb_get_recs "mls_credentials" h db' (schema_store v09_builder db' "mls_credentials" Hs9 ltac:(vm_compute; eauto))), Hr.
  rewrite (v09_credentials_keys _ _ _ _ _ _ H2 Hh), Hnew, lookup_empty. reflexivity.
Qed.

Definition demo_credential : StoredCredential := {|
  cred_session_id := bstr "alice"; cred_credential := bstr "credential"; cred_created_at := 5; cred_ciphersuite := 1;
  cred_public_key := bstr "public"; cred_private_key := bstr "private" |}.

Definition demo_hash : bytes := hash_bytes (hash_from (cred_public_key demo_credential)).

Definition demo_credentials : ObjectStore := MkStore [index "id" "id"; unique_index "credential" "credential"] ∅.

(** A database of version 8 with a credential. *)
Definition demo_v8 : Idb :=
  set_store "mls_credentials"
    (set_records {[ demo_hash := match encrypt toy_nonces (cipher_new demo_key) demo_credential with Ok o => o | _ => [] end ]} demo_credentials)
    (built v08_builder).

Lemma demo_v8_schema : has_schema v08_builder demo_v8.
Proof. unfold has_schema, demo_v8. rewrite set_records_schema; [reflexivity|vm_compute; reflexivity]. Qed.

Definition demo_v9 : kres Z * Idb := v09_migrate (P := toy_platform) toy_nonces demo_key demo_v8.

(** The credential is found before and not after, though it is listed; and the key of the
    database cannot be changed any more. *)
Lemma v09_credentials_not_found_witness :
  get StoredCredential demo_hash (new demo_key (Persistent demo_v8)) = Ok (Some demo_credential) /\
  get StoredCredential demo_hash (new demo_key (Persistent (snd demo_v9))) = Ok None /\
  get_all StoredCredential (new demo_key (Persistent (snd demo_v9))) = Ok [demo_credential] /\
  fst (update_key (P := toy_platform) demo_draws other_key (new demo_key (Persistent (snd demo_v9)))) = Err KeystoreError.MigrationFailed.
Proof.
  split; [vm_compute; reflexivity|]. split; [|split; vm_compute; reflexivity].
  assert (fst demo_v9 = Ok DB_VERSION_9) as Hv by (vm_compute; reflexivity).
  apply (v09_credentials_not_found (P := toy_platform) toy_nonces demo_key demo_v8 DB_VERSION_9 (snd demo_v9) [demo_credential] demo_hash demo_v8_schema).
  - vm_compute. reflexivity.
  - vm_compute. reflexivity.
  - rewrite <- Hv. exact (surjective_pairing demo_v9).
  - cbn [map]. intros [Hin|Hin%not_elem_of_nil]%elem_of_cons; [vm_compute in Hin; discriminate|done].
Defined.

Lemma get_all_recs `{X : Externals, G : AesGcm} E `{!WasmEntity E} key db :
  is_Some (stores db !! COLLECTION_NAME E) ->
  get_all E (new key (Persistent db)) = mapM (decrypt (cipher_new key)) (map snd (in_key_order (recs (COLLECTION_NAME E) db))).
Proof. intros [s Hs]. unfold get_all, get_all_with_query, idb_get_all, object_store, recs. cbn. by rewrite Hs. Qed.

Lemma in_key_order_singleton k o : in_key_order {[ k := o ]} = [(k, o)].
Proof. unfold in_key_order. by rewrite map_to_list_singleton. Qed.

Lemma v6_form_is_not_current `{X : Externals, G : AesGcm} c o v6 :
  v6_credential_decrypt c o = Ok v6 -> js_field "ciphersuite" o = None -> credential_decrypt c o = Err KeystoreError.SerdeWasmBindgenError.
Proof.
  unfold v6_credential_decrypt, credential_decrypt. intros H Hc.
  apply bind_Ok in H as (a & _ & H). apply bind_Ok in H as (s & Hs & H). apply bind_Ok in H as (cr & Hcr & H).
  apply bind_Ok in H as (t & Ht & _). rewrite Hs, Hcr, Ht. cbn [mbind res_bind]. unfold de_u16, de_uint. by rewrite Hc.
Qed.

(** A database of version 6 with a credential whose signature scheme two cipher suites have,
    and without groups, cannot be opened: the migration to version 7 leaves the credential in its
    old form, and the migration to version 8 fails to read it, each time it is tried. *)
Theorem undetermined_credential_blocks `{X : Externals, G : AesGcm, P : IdbPlatform, !IdbPlatformLaws P, ML : MigrationLib} draw key db k o v6 :
  has_schema v06_builder db -> recs "mls_groups" db = ∅ -> recs "mls_credentials" db = {[ k := o ]} ->
  v6_credential_decrypt (cipher_new key) o = Ok v6 -> js_field "ciphersuite" o = None ->
  ciphersuite_for_signature_scheme no_occurences (v6_signature_scheme v6) = None -> commits db db = true ->
  exists db7, v07_migrate draw key db = (Ok DB_VERSION_7, db7) /\ v08_migrate key db7 = (Err KeystoreError.SerdeWasmBindgenError, db7).
Proof.
  intros Hs Hg Hc Hd Hf Hn Hcommit. set (db7 := apply_directives db [BVersion DB_VERSION_7]).
  destruct (build_version_next v06_builder v07_builder db [BVersion DB_VERSION_7] Hs eq_refl eq_refl) as [Hb Hs7].
  fold db7 in Hb, Hs7. exists db7. split.
  - assert (get_all PersistedMlsGroup (new key (Persistent db)) = Ok []) as Hgs.
    { rewrite get_all_recs by (apply (schema_store v06_builder); [done|vm_compute; eauto]). cbn [COLLECTION_NAME group_wasm]. by rewrite Hg. }
    assert (get_all V6Credential (new key (Persistent db)) = Ok [v6]) as Hcs.
    { rewrite get_all_recs by (apply (schema_store v06_builder); [done|vm_compute; eauto]). cbn [COLLECTION_NAME v6_credential_wasm decrypt].
      rewrite Hc, in_key_order_singleton. cbn [map snd mapM mret res_ret mbind res_bind]. by rewrite Hd. }
    unfold v07_migrate, mbind, st_bind. rewrite (migration_connection_same v06_builder) by done. unfold st_lift.
    rewrite Hgs, Hcs. cbn [map for_each count_ciphersuite_occurences].
    rewrite empty_transaction; [exact Hb|exact Hcommit|]. cbn. by rewrite Hn.
  - unfold v08_migrate, mbind, st_bind. rewrite (migration_connection_same v07_builder) by done. unfold st_lift.
    rewrite get_all_recs by (apply (schema_store v07_builder); [done|vm_compute; eauto]).
    rewrite get_all_recs by (apply (schema_store v07_builder); [done|vm_compute; eauto]).
    change (recs (COLLECTION_NAME PersistedMlsGroup) db7) with (recs "mls_groups" db).
    change (recs (COLLECTION_NAME StoredCredential) db7) with (recs "mls_credentials" db).
    rewrite Hg, Hc, in_key_order_singleton. cbn -[credential_decrypt]. by rewrite (v6_form_is_not_current _ _ _ Hd Hf).
Qed.

Definition demo_v6_credential : V6Credential := MkV6 (bstr "alice") (bstr "credential") 5 2055 (bstr "public") (bstr "private").

Definition demo_v6_record : JsObject :=
  match encrypt toy_nonces (cipher_new demo_key) demo_v6_credential with Ok o => o | _ => [] end.

(** A database of version 6 with an Ed25519 credential. *)
Definition demo_v6 : Idb :=
  set_store "mls_credentials" (set_records {[ demo_hash := demo_v6_record ]} demo_credentials) (built v06_builder).

Lemma demo_v6_schema : has_schema v06_builder demo_v6.
Proof. unfold has_schema, demo_v6. rewrite set_records_schema; [reflexivity|vm_compute; reflexivity]. Qed.

Lemma undetermined_credential_blocks_witness :
  (exists db7, v07_migrate (P := toy_platform) toy_nonces demo_key demo_v6 = (Ok DB_VERSION_7, db7) /\
    v08_migrate (P := toy_platform) demo_key db7 = (Err KeystoreError.SerdeWasmBindgenError, db7)) /\
  fst <$> open_and_migrate (P := toy_platform) demo_draws demo_key (Some demo_v6) = Some (Err KeystoreError.SerdeWasmBindgenError).
Proof.
  split; [|vm_compute; reflexivity].
  apply (undetermined_credential_blocks (P := toy_platform) toy_nonces demo_key demo_v6 demo_hash demo_v6_record demo_v6_credential demo_v6_schema).
  - vm_compute. reflexivity.
  - exact (recs_set_store _ _ _).
  - vm_compute. reflexivity.
  - reflexivity.
  - reflexivity.
  - reflexivity.
Defined.
