(* ===== verification/UnifiedStore.v ===== *)
(** * Entities in the unified database

    The [UnifiedEntity], [UnifiedEntityDatabaseMutation], [UnifiedSearchableEntity] and
    [UnifiedUniqueEntityExt] implementations, which talk to SQLite directly on every platform:
    [keystore/src/entities], [keystore/src/traits/unique_entity.rs] and the code generated by
    [crypto-macros/src/entity_derive/derive_impl.rs].  They differ from the native ones in the
    three tables whose key column holds the hash of the key. *)

From stdpp Require Import functions.
From S2P Require Import Prelude Keys EntityTypes Entities ToyExternals Sql KeystoreErrors EntityStore Store.
From Stdlib Require Import Lia ZArith.

Section unified_store.
Context `{X : Externals}.

(** ** Writing *)

Definition unified_hpke_values (e : StoredHpkePrivateKey) : Row :=
  [("pk_sha256", Blob (hash_bytes (hash_from (hpke_pk e)))); ("pk", Blob (hpke_pk e)); ("sk", Blob (hpke_sk e))].
Definition unified_psk_values (e : StoredPskBundle) : Row :=
  [("id_sha256", Blob (hash_bytes (hash_from (psk_id e)))); ("psk_id", Blob (psk_id e)); ("psk", Blob (psk e))].
Definition unified_encryption_keypair_values (e : StoredEncryptionKeyPair) : Row :=
  [("pk_sha256", Blob (hash_bytes (hash_from (enc_pk e)))); ("pk", Blob (enc_pk e)); ("sk", Blob (enc_sk e))].

(** The columns and values bound by the [INSERT]s; the other statements are the native ones. *)
Definition unified_values (e : Entity.t) : Row :=
  match e with
  | Entity.HpkePrivateKey e => unified_hpke_values e
  | Entity.PskBundle e => unified_psk_values e
  | Entity.EncryptionKeyPair e => unified_encryption_keypair_values e
  | e => insert_values e
  end.

(** [UnifiedEntityDatabaseMutation::save]. *)
Definition unified_save (e : Entity.t) (db : SqlDb) : kres SqlDb :=
  let ty := Entity.typ e in
  map_err (insert_error ty)
    (sql_insert (insert_or_replace ty) (EntityType.collection_name ty) (unified_values e) db).

(** ** Reading and deleting *)

(** The [WHERE] clause of [get] and [delete]. *)
Definition unified_clause (ty : EntityType.t) (pk : PrimaryKey) : res SqlError (string * SqlValue) :=
  let hash := Blob (hash_bytes (hash_from (pk_bytes pk))) in
  match ty with
  | EntityType.HpkePrivateKey | EntityType.EncryptionKeyPair => Ok ("pk_sha256", hash)
  | EntityType.PskBundle => Ok ("id_sha256", hash)
  | _ => v ← key_param pk; Ok (key_column ty, v)
  end.

(** [UnifiedEntity::get]: the identity is the first row of its table. *)
Definition unified_get (ty : EntityType.t) (pk : PrimaryKey) (db : SqlDb) : kres (option Entity.t) :=
  let table := EntityType.collection_name ty in
  match ty with
  | EntityType.MlsPendingMessage => Panic
  | EntityType.ProteusIdentity => sql (rs ← sql_select table db; first_row ty rs)
  | _ => sql ('(column, v) ← unified_clause ty pk; rs ← sql_select_where table column v db; first_row ty rs)
  end.

(** [load_all_helper]. *)
Definition unified_load_all (ty : EntityType.t) (db : SqlDb) : kres (list Entity.t) :=
  sql (rs ← sql_select (EntityType.collection_name ty) db; mapM (from_row ty) rs).

(** [count_helper] and [count_helper_tx]. *)
Definition unified_count (ty : EntityType.t) (db : SqlDb) : kres nat := sql (sql_count (EntityType.collection_name ty) db).

(** [UnifiedEntityDatabaseMutation::delete]. *)
Definition unified_delete (ty : EntityType.t) (pk : PrimaryKey) (db : SqlDb) : kres (bool * SqlDb) :=
  let table := EntityType.collection_name ty in
  let deleted p := (bool_decide (0 < p.1), p.2) in
  match ty with
  | EntityType.MlsPendingMessage => Panic
  | EntityType.ProteusIdentity => deleted <$> sql (sql_delete table db)
  | _ => deleted <$> sql ('(column, v) ← unified_clause ty pk; sql_delete_where table column v db)
  end.

(** [UnifiedUniqueEntityExt]. *)
Definition unified_set_and_replace (e : Entity.t) (db : SqlDb) : kres (bool * SqlDb) :=
  '(deleted, db) ← unified_delete (Entity.typ e) (primary_key e) db;
  db ← unified_save e db;
  Ok (deleted, db).

Definition unified_set_if_absent (e : Entity.t) (db : SqlDb) : kres (bool * SqlDb) :=
  count ← unified_count (Entity.typ e) db;
  if decide (0 < count) then Ok (false, db) else db ← unified_save e db; Ok (true, db).

Definition unified_exists (ty : EntityType.t) (db : SqlDb) : kres bool :=
  (fun n => bool_decide (0 < n)) <$> unified_count ty db.

(** ** Searching *)

(** [MlsPendingMessage::find_all_matching] and [delete_all_matching]. *)
Definition unified_find_pending (conversation_id : bytes) (db : SqlDb) : kres (list Entity.t) :=
  sql (rs ← sql_select_where "mls_pending_messages" "id" (Blob conversation_id) db;
       mapM (from_row EntityType.MlsPendingMessage) rs).

Definition unified_delete_pending (conversation_id : bytes) (db : SqlDb) : kres SqlDb :=
  snd <$> sql (sql_delete_where "mls_pending_messages" "id" (Blob conversation_id) db).

(** The conditions of the query of [StoredCredential::find_all_matching]. *)
Definition unified_credential_row_matches (f : CredentialFindFilters) (row : Row) : bool :=
  is_none_or (filter_ciphersuite f) (fun cs => row_matches "ciphersuite" (Integer cs) row) &&
  is_none_or (filter_earliest_validity f) (fun t => bool_decide (get_unixepoch "created_at" row = Ok t)) &&
  is_none_or (filter_session_id f) (fun s => row_matches "session_id" (Blob s) row).

Definition unified_find_credentials (f : CredentialFindFilters) (db : SqlDb) : kres (list Entity.t) :=
  let hash := match filter_hash f with Some h => Some h | None => hash_from <$> filter_public_key f end in
  match hash with
  | Some hash =>
      opt ← unified_get EntityType.StoredCredential (PkSha256 hash) db;
      Ok (filter (fun c => credential_matches f c = true) (option_list opt))
  | None =>
      if is_none_or (filter_earliest_validity f) (fun t => t <? 2 ^ 63)%Z then
        sql (rs ← sql_select "mls_credentials" db;
             mapM (from_row EntityType.StoredCredential) (filter (fun r => unified_credential_row_matches f r = true) rs))
      else Err (KeystoreError.DbError ToSqlConversionFailure)
  end.
End unified_store.

(** ** What the unified database holds *)

Section refinement.
Context `{X : Externals}.

Definition hashed_table (ty : EntityType.t) : bool :=
  match ty with EntityType.HpkePrivateKey | EntityType.EncryptionKeyPair | EntityType.PskBundle => true | _ => false end.

(** What the [UNIQUE] column of a table holds of an entity. *)
Definition unified_key (e : Entity.t) : bytes :=
  if hashed_table (Entity.typ e) then hash_bytes (hash_from (entity_key e)) else entity_key e.

Definition unified_row (e : Entity.t) : Row := complete_row (schema (Entity.typ e)) (unified_values e).

Definition unified_represents (m : Store) (db : SqlDb) : Prop :=
  forall ty, rows (EntityType.collection_name ty) db = map unified_row (m ty) /\ table_ok ty (m ty).

Lemma unified_represents_empty : unified_represents empty_store ∅.
Proof. intros ty. split; [done|constructor]. Qed.

Lemma unified_row_stored e : hashed_table (Entity.typ e) = false -> unified_row e = stored_row e.
Proof. by destruct e. Qed.

Lemma from_row_unified_row `{!ExternalsLaws X} e : entity_ok e -> from_row (Entity.typ e) (unified_row e) = Ok e.
Proof.
  destruct (hashed_table (Entity.typ e)) eqn:Hh.
  - by destruct e as [|[]| |[]|[]| | | | | | | | | | | | |].
  - rewrite unified_row_stored by done. apply from_row_stored_row.
Qed.

Lemma mapM_from_row_unified `{!ExternalsLaws X} ty es : table_ok ty es -> mapM (from_row ty) (map unified_row es) = Ok es.
Proof.
  induction 1 as [|e es [<- Hok] _ IH]; [done|]. cbn [map mapM]. rewrite from_row_unified_row by done. cbn. by rewrite IH.
Qed.

Lemma clash_unified_row e e' :
  Entity.typ e = Entity.typ e' -> entity_ok e -> entity_ok e' ->
  clash (schema (Entity.typ e')) (unified_row e) (unified_row e') =
  unique_table (Entity.typ e') && bool_decide (unified_key e = unified_key e').
Proof.
  intros Hty Hok Hok'. unfold unified_key. rewrite Hty. destruct (hashed_table (Entity.typ e')) eqn:Hh.
  - destruct e, e'; try discriminate; cbn -[sha256_digest]; rewrite ?orb_false_r; apply bool_decide_ext; split; congruence.
  - rewrite !unified_row_stored by congruence. by apply clash_stored_row.
Qed.

Lemma unified_values_known e :
  find (fun cv => negb (has_column (schema (Entity.typ e)) cv.1)) (unified_values e) = None.
Proof. by destruct e. Qed.

Lemma unified_row_admitted e : forallb (column_admits (unified_row e)) (schema (Entity.typ e)) = true.
Proof. by destruct e. Qed.

Lemma unified_represents_insert m db ty es :
  unified_represents m db -> table_ok ty es ->
  unified_represents (<[ty := es]> m) (<[EntityType.collection_name ty := map unified_row es]> db).
Proof.
  intros Hrep Hok ty'. destruct (decide (ty = ty')) as [<-|Hne].
  - rewrite rows_insert_eq, fn_lookup_insert. done.
  - rewrite rows_insert_ne by (by intros ?%(inj _)). rewrite fn_lookup_insert_ne by done. apply Hrep.
Qed.

(** Saving an entity whose key is not in its table adds it. *)
Lemma unified_save_fresh m db e :
  unified_represents m db -> entity_ok e ->
  (unique_table (Entity.typ e) = true -> unified_key e ∉ map unified_key (m (Entity.typ e))) ->
  exists db', unified_save e db = Ok db' /\ unified_represents (<[Entity.typ e := m (Entity.typ e) ++ [e]]> m) db'.
Proof.
  intros Hrep Hok Hkey. destruct (Hrep (Entity.typ e)) as [Hrows Hes].
  assert (Forall (fun e' => clash (schema (Entity.typ e)) (unified_row e') (unified_row e) = false) (m (Entity.typ e))) as Hc.
  { rewrite Forall_forall. intros e' He'. unfold table_ok in Hes. rewrite Forall_forall in Hes. destruct (Hes e' He') as [Hty Hok'].
    rewrite clash_unified_row by done. destruct (unique_table (Entity.typ e)); [|done]. cbn. apply bool_decide_eq_false_2.
    intros E. apply Hkey; [done|]. rewrite <- E. by apply (list_elem_of_fmap_2 unified_key). }
  exists (<[EntityType.collection_name (Entity.typ e) := map unified_row (m (Entity.typ e) ++ [e])]> db). split.
  - unfold unified_save, sql_insert. rewrite table_schema_of, unified_values_known. fold (unified_row e).
    rewrite unified_row_admitted, Hrows. cbn [negb]. rewrite map_app.
    rewrite (filter_map_Forall unified_row (fun _ => false) (fun r => clash _ r (unified_row e)) false _ Hc).
    rewrite (existsb_map_Forall unified_row (fun _ => false) (fun r => clash _ r (unified_row e)) _ Hc).
    rewrite filter_all by done. assert (forall l : list Entity.t, existsb (fun _ => false) l = false) as -> by by induction l.
    by destruct (insert_or_replace (Entity.typ e)).
  - apply unified_represents_insert; [done|]. apply table_ok_app; [done|]. by repeat constructor.
Qed.

Lemma unified_load_all_refines `{!ExternalsLaws X} m db ty : unified_represents m db -> unified_load_all ty db = Ok (m ty).
Proof.
  intros Hrep. destruct (Hrep ty) as [Hrows Hes].
  unfold unified_load_all, sql_select. rewrite table_schema_of, Hrows. cbn -[from_row]. by rewrite mapM_from_row_unified.
Qed.

(** The entities [get] selects with the key [pk]. *)
Definition unified_select (ty : EntityType.t) (pk : PrimaryKey) (e : Entity.t) : bool :=
  if hashed_table ty then bool_decide (unified_key e = hash_bytes (hash_from (pk_bytes pk))) else store_select ty pk e.

Lemma unified_selected ty pk column v es :
  unified_clause ty pk = Ok (column, v) -> ty <> EntityType.MlsPendingMessage -> ty <> EntityType.ProteusIdentity -> pk_ok ty pk -> table_ok ty es ->
  Forall (fun e => row_matches column v (unified_row e) = unified_select ty pk e) es.
Proof.
  intros Hc Hne Hni Hpk Hes. eapply Forall_impl; [exact Hes|]. intros e [<- Hok].
  unfold unified_select, unified_key. destruct (hashed_table (Entity.typ e)) eqn:Hh.
  - destruct e; try discriminate; cbn [Entity.typ unified_clause] in Hc; injection Hc as <- <-;
      cbn -[sha256_digest]; apply bool_decide_ext; split; congruence.
  - rewrite unified_row_stored by done. destruct (key_param pk) as [v'| |] eqn:Hv.
    + assert (column = key_column (Entity.typ e) /\ v' = v) as [-> ->].
      { destruct e; try discriminate; cbn [Entity.typ unified_clause] in Hc; rewrite Hv in Hc; by injection Hc as <- <-. }
      apply row_matches_stored_row; try done. clear -Hh Hni. by destruct e.
    + destruct e; try discriminate; cbn [Entity.typ unified_clause] in Hc; by rewrite Hv in Hc.
    + destruct e; try discriminate; cbn [Entity.typ unified_clause] in Hc; by rewrite Hv in Hc.
Qed.

Lemma first_row_unified `{!ExternalsLaws X} ty es : table_ok ty es -> first_row ty (map unified_row es) = Ok (head es).
Proof. destruct 1 as [|e es [<- Hok] _]; [done|]. cbn. by rewrite from_row_unified_row. Qed.

Lemma unified_get_refines `{!ExternalsLaws X} m db ty pk :
  unified_represents m db -> pk_ok ty pk -> ty <> EntityType.MlsPendingMessage ->
  (forall e, key_param pk <> Err e) ->
  unified_get ty pk db = Ok (head (filter (fun e => unified_select ty pk e = true) (m ty))).
Proof.
  intros Hrep Hpk Hne Hk. destruct (Hrep ty) as [Hrows Hes].
  assert (ty <> EntityType.ProteusIdentity ->
    sql ('(column, v) ← unified_clause ty pk; rs ← sql_select_where (EntityType.collection_name ty) column v db; first_row ty rs) =
    Ok (head (filter (fun e => unified_select ty pk e = true) (m ty)))) as Hsel.
  { intros Hni. assert (exists column v, unified_clause ty pk = Ok (column, v) /\ has_column (schema ty) column = true) as (column & v & Hc & Hcol).
    { destruct ty; try done; cbn [unified_clause]; try (eexists _, _; by split);
        (destruct (key_param pk) as [v|e|] eqn:Hv; [eexists _, _; by split|by destruct (Hk e)|by destruct pk; cbn in Hv; repeat case_match]). }
    rewrite Hc. cbn -[sql_select_where first_row]. unfold sql_select_where. rewrite table_schema_of, Hcol, Hrows. cbn -[first_row].
    rewrite (filter_map_Forall _ _ (row_matches column v) true _ (unified_selected _ _ _ _ _ Hc Hne Hni Hpk Hes)).
    by rewrite first_row_unified by by apply table_ok_filter. }
  destruct ty; try (by apply Hsel); try done.
  unfold unified_get, sql_select. rewrite table_schema_of, Hrows. cbn -[first_row].
  rewrite first_row_unified by done. cbn. f_equal. by destruct (m EntityType.ProteusIdentity).
Qed.

(** A database the native connection wrote: its key columns hold the keys themselves. *)
Lemma native_rows_not_selected m db ty pk :
  represents m db -> hashed_table ty = true ->
  Forall (fun e => entity_key e <> hash_bytes (hash_from (pk_bytes pk))) (m ty) ->
  unified_get ty pk db = Ok None.
Proof.
  intros Hrep Hh Hkeys. destruct (Hrep ty) as [Hrows Hes].
  assert (exists column v, unified_clause ty pk = Ok (column, v) /\ has_column (schema ty) column = true /\
    Forall (fun e => row_matches column v (stored_row e) = false) (m ty)) as (column & v & Hc & Hcol & Hm).
  { unfold table_ok in Hes. rewrite Forall_forall in Hes, Hkeys.
    destruct ty; try discriminate; eexists _, _; (split; [reflexivity|]); (split; [reflexivity|]); apply Forall_forall; intros e He;
      destruct (Hes e He) as [Hty _], e; try discriminate; specialize (Hkeys _ He); cbn -[sha256_digest] in Hkeys |- *;
      apply bool_decide_eq_false_2; congruence. }
  assert (unified_get ty pk db = sql (rs ← sql_select_where (EntityType.collection_name ty) column v db; first_row ty rs)) as ->.
  { destruct ty; try discriminate; unfold unified_get; rewrite Hc; done. }
  unfold sql_select_where. rewrite table_schema_of, Hcol, Hrows. cbn -[first_row].
  rewrite (filter_map_Forall _ (fun _ => false) (row_matches column v) true _ Hm). by rewrite filter_none.
Qed.
End refinement.
