(* ===== verification/UnifiedConnection.v ===== *)
(** * The unified connection

    [keystore/src/unified_connection]: opening an encrypted SQLite database on every platform,
    its migrations, and the move of a legacy IndexedDB database into it.  SQLite files are kept in
    a virtual file system; a file has the key it is encrypted with, the history of the migration
    runner, the [user_version] pragma and its tables. *)

From S2P Require Import Prelude Keys EntityTypes Entities ToyExternals Sql KeystoreErrors EntityStore Store CryptoErrors Migrations ItemEncryption WasmEntities Idb WasmStorage IdbMigrations UnifiedStore.
From Stdlib Require Import Lia ZArith.

(** ** Files *)

Record SqlFile : Type := MkFile { file_key : bytes; history : Z; user_version : Z; contents : SqlDb }.

(** SQLite and the migration runner: [runner_run v] runs the SQL migrations up to [v] that are
    not in the history and reports their versions; [run_meta] is the work in Rust that follows
    some of them; [passphrase] is the key derived from a string; [not_a_database] is the error of
    the first statement on a file with another key, and [rekey_writes] says whether setting the
    key of a new database creates its file. *)
Class SqliteLib : Type := {
  runner_run : Z -> SqlFile -> option (list Z) * SqlFile;
  run_meta : Z -> SqlFile -> kres SqlFile;
  passphrase : bytes -> bytes;
  not_a_database : SqlError;
  rekey_writes : bool;
}.

(** The migrations of a database without rows: they leave one. *)
Class SqliteLaws (L : SqliteLib) : Prop := {
  runner_done v f : (v <= history f)%Z -> runner_run v f = (Some [], f);
  runner_next v f : (v = history f + 1)%Z -> contents f = ∅ ->
    exists uv, runner_run v f = (Some [v], MkFile (file_key f) v uv ∅);
  meta_empty v f : contents f = ∅ -> run_meta v f = Ok f;
}.

(** A connection to a file, with the key it was given. *)
Definition readable (key : bytes) (f : SqlFile) : bool := bool_decide (key = file_key f).

Section connection.
Context `{X : Externals, G : AesGcm, P : IdbPlatform, ML : MigrationLib, L : SqliteLib}.

Abbreviation file_st := (st SqlFile KeystoreError.t).

(** ** [run_migrations] *)

Definition set_user_version (v : Z) (f : SqlFile) : SqlFile := MkFile (file_key f) (history f) v (contents f).

Definition unified_migration_step (version : Z) : file_st () := fun f =>
  match runner_run version f with
  | (None, f) => (Err KeystoreError.DbMigrationError, f)
  | (Some report, f) =>
      match maximum report with
      | None => (Ok (), f)
      | Some updated_version =>
          match run_meta updated_version f with
          | Ok f => (Ok (), set_user_version updated_version f)
          | Err e => (Err e, f)
          | Panic => (Panic, f)
          end
      end
  end.

Fixpoint unified_migration_loop (versions : list Z) : file_st () :=
  match versions with
  | [] => mret ()
  | v :: versions => _ ← unified_migration_step v; unified_migration_loop versions
  end.

Definition unified_run_migrations (target : MigrationTarget) : file_st () :=
  unified_migration_loop (seqZ 1 (target_version target)).

(** ** Moving a legacy database *)

Definition SQL_DATABASE_VERSION_AS_OF_FINAL_IDB_VERSION : Z := 22.

(** [legacy_idb_exists]: opening a name creates an empty database of version 1; [probe] says
    whether IndexedDB answers the request, and a failure counts as the absence of a database. *)
Definition legacy_idb_exists (probe : bool) (name : string) (origin : Origin) : bool * Origin :=
  if negb probe then (false, origin) else
  let db := default fresh_idb (origin !! name) in ((1 <? idb_version db)%Z, <[name := db]> origin).

(** The entities of [migrate_entities!]. *)
Definition migrated_types : list EntityType.t :=
  [EntityType.ConsumerData; EntityType.E2eiAcmeCA; EntityType.E2eiCrl; EntityType.E2eiIntermediateCert;
   EntityType.MlsPendingMessage; EntityType.PersistedMlsGroup; EntityType.PersistedMlsPendingGroup;
   EntityType.StoredBufferedCommit; EntityType.StoredCredential; EntityType.StoredE2eiEnrollment;
   EntityType.EncryptionKeyPair; EntityType.EpochEncryptionKeyPair; EntityType.HpkePrivateKey; EntityType.KeyPackage;
   EntityType.PskBundle; EntityType.ProteusIdentity; EntityType.ProteusPrekey; EntityType.ProteusSession].

Definition load_legacy (s : WasmEncryptedStorage) : kres (list (list Entity.t)) :=
  mapM (fun ty => WasmStorage.entity_load_all ty s) migrated_types.

Definition save_rows (es : list Entity.t) (db : SqlDb) : kres SqlDb := for_each unified_save es db.

(** [maybe_migrate]; [delete_succeeds] says whether the legacy database can be deleted at the
    end, which is only logged.  [None] when opening the legacy database does not end. *)
Definition maybe_migrate (draws : nat -> Nonces) (probe delete_succeeds : bool) (name : string) (database_key : bytes)
    (new_conn : SqlFile) (origin : Origin) : option (kres () * SqlFile * Origin) :=
  let '(legacy, origin) := legacy_idb_exists probe name origin in
  if negb legacy then Some (Ok (), new_conn, origin) else
  if negb (user_version new_conn =? 0)%Z then Some (Ok (), new_conn, origin) else
  match wasm_open draws name database_key origin with
  | None => None
  | Some (Err e, origin) => Some (Err e, new_conn, origin)
  | Some (Panic, origin) => Some (Panic, new_conn, origin)
  | Some (Ok legacy_conn, origin) =>
      match unified_run_migrations (Version SQL_DATABASE_VERSION_AS_OF_FINAL_IDB_VERSION) new_conn with
      | (Ok _, new_conn) =>
          match (entities ← load_legacy (conn_storage legacy_conn); save_rows (concat entities) (contents new_conn)) with
          | Ok db =>
              Some (Ok (), MkFile (file_key new_conn) (history new_conn) (user_version new_conn) db,
                    if delete_succeeds then base.delete name origin else origin)
          | Err e => Some (Err e, new_conn, origin)
          | Panic => Some (Panic, new_conn, origin)
          end
      | (Err e, new_conn) => Some (Err e, new_conn, origin)
      | (Panic, new_conn) => Some (Panic, new_conn, origin)
      end
  end.

(** ** [Database] *)

Record World : Type := MkWorld { vfs : gmap string SqlFile; idbs : Origin }.

Definition new_file (key : bytes) : SqlFile := MkFile key 0 0 ∅.

(** A connection that is dropped leaves its file when something was written. *)
Definition keep_file (name : string) (f : SqlFile) (fs : gmap string SqlFile) : gmap string SqlFile :=
  if rekey_writes || (0 <? history f)%Z then <[name := f]> fs else fs.

(** [init]. *)
Definition init (key : bytes) (target : MigrationTarget) : file_st () := fun f =>
  if readable key f then unified_run_migrations target f else (Err (KeystoreError.DbError not_a_database), f).

(** [open], in the browser: [os_unknown::open], then [init]. *)
Definition unified_open (draws : nat -> Nonces) (probe delete_succeeds : bool) (name : string) (key : bytes) (w : World) :
    option (kres () * World) :=
  match vfs w !! name with
  | Some f => let '(r, f) := init key Latest f in Some (r, MkWorld (<[name := f]> (vfs w)) (idbs w))
  | None =>
      match maybe_migrate draws probe delete_succeeds name key (new_file key) (idbs w) with
      | None => None
      | Some (Ok _, f, origin) =>
          let '(r, f) := init key Latest f in Some (r, MkWorld (keep_file name f (vfs w)) origin)
      | Some (r, f, origin) => Some (r, MkWorld (keep_file name f (vfs w)) origin)
      end
  end.

(** [open], elsewhere. *)
Definition unified_open_native (path : string) (key : bytes) (fs : gmap string SqlFile) : kres () * gmap string SqlFile :=
  let '(r, f) := init key Latest (default (new_file key) (fs !! path)) in
  (r, match fs !! path with Some _ => <[path := f]> fs | None => keep_file path f fs end).

(** [update_key] and [wipe] of an open database. *)
Definition unified_update_key (new_key : bytes) (f : SqlFile) : SqlFile :=
  MkFile new_key (history f) (user_version f) (contents f).

Definition unified_wipe (location : option string) (fs : gmap string SqlFile) : gmap string SqlFile :=
  match location with Some path => base.delete path fs | None => fs end.

(** [migrate_db_key_type_to_bytes] of a file. *)
Definition MAX_SUPPORTED_SCHEMA_VERSION : Z := 15.

Definition unified_migrate_db_key_type_to_bytes (old_key new_key : bytes) : file_st () := fun f =>
  if negb (readable (passphrase old_key) f) then (Err (KeystoreError.DbError not_a_database), f) else
  if (MAX_SUPPORTED_SCHEMA_VERSION <=? user_version f)%Z then (Err KeystoreError.MigrationFailed, f) else
  match unified_run_migrations (Version MAX_SUPPORTED_SCHEMA_VERSION) f with
  | (Ok _, f) => (Ok (), unified_update_key new_key f)
  | (r, f) => (r, f)
  end.
End connection.
