(* ===== verification/UnifiedProps.v ===== *)
(** * Moving to the unified database

    A legacy database that can be read is moved completely.  When it cannot be read the new
    database stays behind, and the legacy one is not looked at again. *)

From stdpp Require Import functions.
From S2P Require Import Prelude Keys EntityTypes Entities ToyExternals Sql KeystoreErrors EntityStore Store CryptoErrors Migrations ItemEncryption WasmEntities Idb WasmStorage WasmStorageProps IdbMigrations IdbMigrationProps BrowserProps UnifiedStore UnifiedConnection.
From Stdlib Require Import Lia ZArith.

Lemma for_each_app {E A S} (f : A -> S -> res E S) l k s :
  for_each f (l ++ k) s = (s' ← for_each f l s; for_each f k s').
Proof.
  revert s. induction l as [|a l IH]; intros s; [done|]. cbn. destruct (f a s); cbn; [apply IH|done..].
Qed.

(** ** Migrations of new databases *)

Section migrations.
Context `{L : SqliteLib, !SqliteLaws L}.

Lemma unified_loop_done vs f :
  Forall (fun v => v <= history f)%Z vs -> unified_migration_loop vs f = (Ok (), f).
Proof.
  induction 1 as [|v vs Hv _ IH]; [done|]. cbn [unified_migration_loop]. unfold mbind, st_bind, unified_migration_step.
  rewrite (runner_done v f Hv). cbn. exact IH.
Qed.

Lemma unified_step_fresh f :
  contents f = ∅ ->
  unified_migration_step (history f + 1) f = (Ok (), MkFile (file_key f) (history f + 1) (history f + 1) ∅).
Proof.
  intros Hc. unfold unified_migration_step. destruct (runner_next (history f + 1) f eq_refl Hc) as [uv ->]. cbn.
  by rewrite meta_empty.
Qed.

Lemma unified_loop_fresh n : forall f,
  contents f = ∅ ->
  unified_migration_loop (seqZ (history f + 1) (Z.of_nat n)) f =
  (Ok (), if decide (n = 0) then f else MkFile (file_key f) (history f + Z.of_nat n) (history f + Z.of_nat n) ∅).
Proof.
  induction n as [|n IH]; intros f Hc; [done|].
  rewrite seqZ_cons by lia. cbn [unified_migration_loop]. unfold mbind, st_bind. rewrite (unified_step_fresh f Hc).
  set (f1 := MkFile _ _ _ _). replace (Z.succ (history f + 1)) with (history f1 + 1)%Z by (unfold f1; cbn [history]; lia).
  replace (Z.pred (Z.of_nat (S n))) with (Z.of_nat n) by lia. rewrite (IH f1 eq_refl). rewrite (decide_False (P := S n = 0)) by lia.
  f_equal. unfold f1. case_decide as Hn; [subst n; f_equal; lia|]. cbn [file_key history]. f_equal; lia.
Qed.

Lemma unified_run_migrations_new key :
  unified_run_migrations (Version SQL_DATABASE_VERSION_AS_OF_FINAL_IDB_VERSION) (new_file key) = (Ok (), MkFile key 22 22 ∅) /\
  unified_run_migrations Latest (new_file key) = (Ok (), MkFile key 22 22 ∅).
Proof. split; exact (unified_loop_fresh 22 (new_file key) eq_refl). Qed.

Lemma unified_run_migrations_latest f : history f = 22%Z -> unified_run_migrations Latest f = (Ok (), f).
Proof.
  intros Hh. apply unified_loop_done. rewrite Hh. apply Forall_forall. intros v Hv.
  apply elem_of_seqZ in Hv. change (target_version Latest) with 22%Z in Hv. lia.
Qed.
End migrations.

(** ** Saving everything *)

Section saving.
Context `{X : Externals}.

Lemma save_rows_type ty es : forall m db,
  unified_represents m db -> table_ok ty es -> (unique_table ty = true -> NoDup (map unified_key (m ty ++ es))) ->
  exists m' db', save_rows es db = Ok db' /\ unified_represents m' db' /\
    m' ty = m ty ++ es /\ forall ty', ty' <> ty -> m' ty' = m ty'.
Proof.
  induction es as [|e es IH]; intros m db Hrep Hes Hnd.
  - exists m, db. split_and!; try done. by rewrite app_nil_r.
  - apply Forall_cons in Hes as [[<- Hok] Hes]. destruct (unified_save_fresh m db e Hrep Hok) as (db1 & H1 & Hrep1).
    { intros Hu. specialize (Hnd Hu). rewrite map_app in Hnd. apply NoDup_app in Hnd as (_ & Hd & _).
      intros Hin. apply (Hd _ Hin). by left. }
    destruct (IH (<[Entity.typ e := m (Entity.typ e) ++ [e]]> m) db1 Hrep1 Hes) as (m' & db' & H' & Hrep' & Hm' & Hother).
    { intros Hu. rewrite fn_lookup_insert, <- app_assoc. by apply Hnd. }
    exists m', db'. split_and!; [|done| |].
    + unfold save_rows. cbn [for_each]. rewrite H1. exact H'.
    + by rewrite Hm', fn_lookup_insert, <- app_assoc.
    + intros ty' Hne. rewrite (Hother ty' Hne). by rewrite fn_lookup_insert_ne.
Qed.

(** Saving lists of entities, one of each type. *)
Lemma save_rows_types (f : EntityType.t -> list Entity.t) types : forall m db,
  NoDup types -> unified_represents m db -> (forall ty, ty ∈ types -> m ty = []) ->
  (forall ty, table_ok ty (f ty)) -> (forall ty, unique_table ty = true -> NoDup (map unified_key (f ty))) ->
  exists m' db', save_rows (concat (map f types)) db = Ok db' /\ unified_represents m' db' /\
    forall ty, m' ty = if decide (ty ∈ types) then f ty else m ty.
Proof.
  induction types as [|ty types IH]; intros m db Hnd Hrep Hempty Hok Hkeys.
  - exists m, db. split_and!; try done. 
  - apply NoDup_cons in Hnd as [Hty Hnd].
    destruct (save_rows_type ty (f ty) m db Hrep (Hok ty)) as (m1 & db1 & H1 & Hrep1 & Hm1 & Hother).
    { rewrite Hempty by by left. apply Hkeys. }
    destruct (IH m1 db1 Hnd Hrep1) as (m' & db' & H' & Hrep' & Hm'); try done.
    { intros ty' Hin. rewrite Hother by (by intros ->). apply Hempty. by right. }
    exists m', db'. split_and!; [|done|].
    + cbn [map concat]. unfold save_rows. rewrite for_each_app. unfold save_rows in H1, H'. rewrite H1. exact H'.
    + intros ty'. rewrite Hm'. destruct (decide (ty' = ty)) as [->|Hne].
      * rewrite decide_False by done. rewrite decide_True by by left. rewrite Hm1, Hempty by by left. done.
      * rewrite Hother by done. apply decide_ext. rewrite elem_of_cons. naive_solver.
Qed.

Lemma all_types_migrated ty : ty ∈ migrated_types.
Proof. unfold migrated_types. destruct ty; set_solver. Qed.

Lemma NoDup_migrated_types : NoDup migrated_types.
Proof. apply (bool_decide_unpack _). vm_compute. done. Qed.
End saving.

(** ** Moving *)

Section moving.
Context `{X : Externals, !ExternalsLaws X, G : AesGcm, !AesGcmLaws G, P : IdbPlatform, ML : MigrationLib, L : SqliteLib, !SqliteLaws L}.

Abbreviation Contents := (gmap EntityId.t Entity.t).

(** No two stored keys of the tables with a hash column share their hash. *)
Definition hashes_distinct (m : Contents) : Prop :=
  forall e e', m !! browser_id e = Some e -> m !! browser_id e' = Some e' -> Entity.typ e = Entity.typ e' ->
  hashed_table (Entity.typ e) = true -> unified_key e = unified_key e' -> entity_key e = entity_key e'.

(** Entities of a type with the same value in the [UNIQUE] column are the same. *)
Lemma unified_key_determines m ty e e' :
  hashes_distinct m -> unique_table ty = true -> Entity.typ e = ty -> Entity.typ e' = ty ->
  m !! browser_id e = Some e -> m !! browser_id e' = Some e' -> unified_key e = unified_key e' -> e = e'.
Proof.
  intros Hh Hu Hty Hty' He He' Hk. assert (browser_id e = browser_id e') as Hid; [|rewrite Hid in He; congruence].
  assert (entity_key e = entity_key e') as Hek.
  { destruct (hashed_table ty) eqn:Ht; [apply Hh; congruence|]. unfold unified_key in Hk. by rewrite Hty, Hty', Ht in Hk. }
  unfold browser_id. rewrite Hty, Hty'. f_equal. destruct e, e'; cbn in Hty, Hty'; try congruence; try done; subst ty; discriminate.
Qed.

Definition listing (m : Contents) (ty : EntityType.t) (es : list Entity.t) : Prop :=
  NoDup es /\ forall e, e ∈ es <-> Entity.typ e = ty /\ m !! browser_id e = Some e.

(** What the legacy database lists, of every type. *)
Lemma load_legacy_ok s m :
  holds (fun _ => cipher s) (storage s) m -> schema_ok (storage s) ->
  exists f, load_legacy s = Ok (map f migrated_types) /\ forall ty, listing m ty (f ty) /\ table_ok ty (f ty).
Proof.
  intros Hm Hs.
  assert (forall ty, exists es, WasmStorage.entity_load_all ty s = Ok es /\ listing m ty es /\ table_ok ty es) as Hall.
  { intros ty. destruct (listed_forms _ ty (cipher s) _ _ Hm (fun _ => eq_refl)) as (es & Hes & Hin).
    exists es. split; [by apply entity_load_all_eq|]. split; [split; [by eapply listed_NoDup|exact Hin]|].
    clear Hin. induction Hes as [|[k o] e l es (Hd & Hid & Hok) _ IH]; constructor; [|done]. split; [|done].
    by injection Hid. }
  exists (fun ty => match WasmStorage.entity_load_all ty s with Ok es => es | _ => [] end). split.
  - unfold load_legacy. induction migrated_types as [|ty types IH]; [done|]. cbn [mapM map].
    destruct (Hall ty) as (es & He & _). rewrite He. cbn [mbind res_bind]. by rewrite IH.
  - intros ty. by destruct (Hall ty) as (es & -> & H).
Qed.

Lemma save_legacy_ok s m :
  holds (fun _ => cipher s) (storage s) m -> schema_ok (storage s) -> hashes_distinct m ->
  exists m' db', (entities ← load_legacy s; save_rows (concat entities) ∅) = Ok db' /\
    unified_represents m' db' /\ forall ty, listing m ty (m' ty).
Proof.
  intros Hm Hs Hh. destruct (load_legacy_ok s m Hm Hs) as (f & Hf & Hty). rewrite Hf. cbn [mbind res_bind].
  destruct (save_rows_types f migrated_types empty_store ∅ NoDup_migrated_types unified_represents_empty) as (m' & db' & Hsave & Hrep & Hm').
  - done.
  - apply Hty.
  - intros ty Hu. destruct (Hty ty) as [[Hnd Hin] _]. apply NoDup_fmap_2_strong; [|done].
    intros e e' He He' Hk. apply Hin in He as [He1 He2]. apply Hin in He' as [He1' He2']. by eapply (unified_key_determines m ty).
  - exists m', db'. split_and!; try done. intros ty. rewrite Hm', decide_True by apply all_types_migrated. apply Hty.
Qed.

(** A legacy database as it is opened. *)
Definition legacy_opens (draws : nat -> Nonces) (key : bytes) (db0 db : Idb) : Prop :=
  (1 < idb_version db0)%Z /\ open_and_migrate draws key (Some db0) = Some (Ok (), db).

Lemma legacy_wasm_open draws name key origin db0 db :
  origin !! name = Some db0 -> legacy_opens draws key db0 db ->
  legacy_idb_exists true name origin = (true, origin) /\
  wasm_open draws name key origin = Some (Ok (MkWasmConnection (Some name) (new key (Persistent db))), <[name := db]> origin).
Proof.
  intros Ho [Hv Hopen]. split.
  - unfold legacy_idb_exists. cbn [negb]. rewrite Ho. change (default fresh_idb (Some db0)) with db0. cbv zeta. rewrite (proj2 (Z.ltb_lt _ _) Hv).
    f_equal. by apply insert_id.
  - unfold wasm_open. rewrite Ho, Hopen. reflexivity.
Qed.

(** Opening, up to the rows of the legacy database. *)
Lemma maybe_migrate_loads draws ds name key origin db0 db :
  origin !! name = Some db0 -> legacy_opens draws key db0 db ->
  maybe_migrate draws true ds name key (new_file key) origin =
  match (entities ← load_legacy (new key (Persistent db)); save_rows (concat entities) ∅) with
  | Ok rows => Some (Ok (), MkFile key 22 22 rows, if ds then base.delete name (<[name := db]> origin) else <[name := db]> origin)
  | Err e => Some (Err e, MkFile key 22 22 ∅, <[name := db]> origin)
  | Panic => Some (Panic, MkFile key 22 22 ∅, <[name := db]> origin)
  end.
Proof.
  intros Ho Hl. destruct (legacy_wasm_open draws name key origin db0 db Ho Hl) as [He Hw].
  unfold maybe_migrate. rewrite He, Hw. cbn [negb user_version new_file Z.eqb].
  destruct (unified_run_migrations_new key) as [Hm _]. rewrite Hm. reflexivity.
Qed.
End moving.

(** ** A library to run it with *)

#[export] Instance toy_sqlite : SqliteLib := {|
  runner_run v f := if (v <=? history f)%Z then (Some [], f) else (Some [v], MkFile (file_key f) v (user_version f) (contents f));
  run_meta _ f := Ok f;
  passphrase b := b;
  not_a_database := NoSuchTable "sqlite_master";
  rekey_writes := false;
|}.

#[export] Instance toy_sqlite_laws : SqliteLaws toy_sqlite.
Proof.
  split; cbn; [|intros v f -> Hc|done].
  - intros v f Hv. by rewrite (proj2 (Z.leb_le _ _) Hv).
  - rewrite (proj2 (Z.leb_gt _ _)) by lia. rewrite Hc. eauto.
Qed.

(** ** Theorems *)

(** C18: Opening a name under which there is no SQL file yet, but a legacy database past version 1
    that opens with the key, moves it.  If, once its own migrations have run, it has the current
    object stores, every record in it can be read with the key and no two hashed keys collide,
    and if IndexedDB answers and deletes it when asked, then all entities it holds are in the new
    database, each once and nothing else; that is at the last version and encrypted with the key,
    and the legacy database is gone. *)
Theorem legacy_database_moved `{X : Externals, !ExternalsLaws X, G : AesGcm, !AesGcmLaws G, P : IdbPlatform, ML : MigrationLib, L : SqliteLib, !SqliteLaws L}
    draws name key w db0 db m :
  vfs w !! name = None -> idbs w !! name = Some db0 -> legacy_opens draws key db0 db ->
  schema_ok (Persistent db) -> holds (fun _ => cipher_new key) (Persistent db) m -> hashes_distinct m ->
  exists w' f, unified_open draws true true name key w = Some (Ok (), w') /\ idbs w' !! name = None /\
    vfs w' !! name = Some f /\ file_key f = key /\ user_version f = 22%Z /\
    forall ty, exists es, unified_load_all ty (contents f) = Ok es /\ listing m ty es.
Proof.
  intros Hv Ho Hl Hs Hm Hh. destruct (save_legacy_ok (new key (Persistent db)) m Hm Hs Hh) as (m' & rows & Hsave & Hrep & Hlist).
  set (f := MkFile key 22 22 rows). exists (MkWorld (<[name := f]> (vfs w)) (base.delete name (<[name := db]> (idbs w)))), f.
  split; [|split_and!; [apply lookup_delete_eq|apply lookup_insert_eq|done|done|]].
  - unfold unified_open. rewrite Hv, (maybe_migrate_loads draws true name key (idbs w) db0 db Ho Hl), Hsave.
    unfold init, readable. rewrite bool_decide_eq_true_2 by done. rewrite unified_run_migrations_latest by done.
    unfold keep_file. cbn [history]. by rewrite orb_true_r.
  - intros ty. exists (m' ty). split; [by apply unified_load_all_refines|apply Hlist].
Qed.

(** C31: When an entity of the legacy database cannot be read, opening fails but leaves the new
    database behind, migrated and empty.  The next opening with the same key succeeds, with
    nothing in the database, and the legacy database is not looked at any more; with another key,
    for instance the right one when the first was wrong, it is refused. *)
Theorem failed_move_hides_data `{X : Externals, !ExternalsLaws X, G : AesGcm, P : IdbPlatform, ML : MigrationLib, L : SqliteLib, !SqliteLaws L}
    draws ds name key w db0 db e :
  vfs w !! name = None -> idbs w !! name = Some db0 -> legacy_opens draws key db0 db ->
  load_legacy (new key (Persistent db)) = Err e ->
  exists w' f, unified_open draws true ds name key w = Some (Err e, w') /\ idbs w' !! name = Some db /\
    vfs w' !! name = Some f /\ (forall ty, unified_load_all ty (contents f) = Ok []) /\
    (forall draws' probe' ds', unified_open draws' probe' ds' name key w' = Some (Ok (), w')) /\
    (forall draws' probe' ds' key', key' <> key ->
      unified_open draws' probe' ds' name key' w' = Some (Err (KeystoreError.DbError not_a_database), w')).
Proof.
  intros Hv Ho Hl He. set (f := MkFile key 22 22 ∅). set (w' := MkWorld (<[name := f]> (vfs w)) (<[name := db]> (idbs w))).
  exists w', f. split; [|split_and!; [apply lookup_insert_eq|apply lookup_insert_eq| | |]].
  - unfold unified_open. rewrite Hv, (maybe_migrate_loads draws ds name key (idbs w) db0 db Ho Hl), He. cbn [mbind res_bind].
    unfold keep_file. cbn [history]. by rewrite orb_true_r.
  - intros ty. exact (unified_load_all_refines empty_store ∅ ty unified_represents_empty).
  - intros draws' probe' ds'. unfold unified_open, w', vfs. rewrite lookup_insert_eq. unfold init, readable.
    rewrite bool_decide_eq_true_2 by done. rewrite unified_run_migrations_latest by done. by rewrite insert_insert_eq.
  - intros draws' probe' ds' key' Hne. unfold unified_open, w', vfs. rewrite lookup_insert_eq. unfold init, readable.
    rewrite bool_decide_eq_false_2 by done. by rewrite insert_insert_eq.
Qed.

(** A failure of IndexedDB while it looks for a legacy database is taken for the absence of one:
    opening succeeds with an empty database, and no later opening looks for the legacy database,
    which stays as it was. *)
Theorem failed_probe_hides_data `{X : Externals, !ExternalsLaws X, G : AesGcm, P : IdbPlatform, ML : MigrationLib, L : SqliteLib, !SqliteLaws L}
    draws ds name key w :
  vfs w !! name = None ->
  exists w' f, unified_open draws false ds name key w = Some (Ok (), w') /\ idbs w' = idbs w /\
    vfs w' !! name = Some f /\ (forall ty, unified_load_all ty (contents f) = Ok []) /\
    forall draws' probe' ds', unified_open draws' probe' ds' name key w' = Some (Ok (), w').
Proof.
  intros Hv. set (f := MkFile key 22 22 ∅). set (w' := MkWorld (<[name := f]> (vfs w)) (idbs w)).
  exists w', f. split; [|split_and!; [done|apply lookup_insert_eq| |]].
  - unfold unified_open. rewrite Hv. cbn [maybe_migrate legacy_idb_exists negb].
    unfold init, readable. rewrite bool_decide_eq_true_2 by done.
    destruct (unified_run_migrations_new key) as [_ ->].
    unfold keep_file. cbn [history]. by rewrite orb_true_r.
  - intros ty. exact (unified_load_all_refines empty_store ∅ ty unified_represents_empty).
  - intros draws' probe' ds'. unfold unified_open, w', vfs. rewrite lookup_insert_eq. unfold init, readable.
    rewrite bool_decide_eq_true_2 by done. rewrite unified_run_migrations_latest by done. by rewrite insert_insert_eq.
Qed.

(** C33: HPKE private keys, encryption key pairs and PSK bundles that the native connection stored
    are not found through the unified one: the first stores the key itself in the column the
    second searches for its hash. *)
Theorem native_keys_not_found `{X : Externals, !ExternalsLaws X} m db e :
  represents m db -> e ∈ m (Entity.typ e) -> hashed_table (Entity.typ e) = true ->
  Forall (fun e' => entity_key e' <> hash_bytes (hash_from (entity_key e))) (m (Entity.typ e)) ->
  unified_get (Entity.typ e) (primary_key e) db = Ok None /\
  (exists es, unified_load_all (Entity.typ e) db = Ok es /\ e ∈ es).
Proof.
  intros Hrep He Hh Hkeys. split; [by apply (native_rows_not_selected m)|].
  exists (m (Entity.typ e)). split; [|done]. exact (entity_load_all_refines m db (Entity.typ e) Hrep).
Qed.

(** ** Examples *)

Lemma demo_stored_version :
  exists db, idb_version db = TARGET_VERSION /\ schema_ok (Persistent db) /\ holds (fun _ => cipher_new demo_key) (Persistent db) demo_contents.
Proof.
  destruct demo_stored as (db & Hc & Hs & Hm). exists db. split; [|split; [exact Hs|exact Hm]].
  apply (f_equal (fun r => match storage (snd r) with Persistent db => idb_version db | InMemory _ => 0%Z end)) in Hc.
  cbn [snd storage] in Hc. rewrite <- Hc. vm_compute. reflexivity.
Qed.

Lemma demo_contents_elem e i : demo_contents !! i = Some e -> e = demo_group_entity \/ e = demo_commit_entity.
Proof.
  unfold demo_contents. rewrite lookup_insert_Some, lookup_singleton_Some. intros [[_ <-]|[_ [_ <-]]]; auto.
Qed.

Lemma legacy_database_moved_witness :
  exists db w' f, unified_open (P := toy_platform) demo_draws true true "ks" demo_key (MkWorld ∅ {[ "ks" := db ]}) = Some (Ok (), w') /\
    vfs w' !! "ks" = Some f /\
    exists es, unified_load_all EntityType.PersistedMlsGroup (contents f) = Ok es /\ demo_group_entity ∈ es.
Proof.
  destruct demo_stored_version as (db & Hv & Hs & Hm).
  destruct (legacy_database_moved (P := toy_platform) demo_draws "ks" demo_key (MkWorld ∅ {[ "ks" := db ]}) db db demo_contents
    (lookup_empty _) (lookup_singleton_eq _ _)) as (w' & f & Ho & _ & Hf & _ & _ & Hall).
  - split; [rewrite Hv; reflexivity|]. exact (open_current (P := toy_platform) demo_draws demo_key db Hv).
  - exact Hs.
  - exact Hm.
  - intros e e' [->| ->]%demo_contents_elem _ _ Hh; discriminate Hh.
  - exists db, w', f. split; [exact Ho|]. split; [exact Hf|].
    destruct (Hall EntityType.PersistedMlsGroup) as (es & Hes & _ & Hin). exists es. split; [exact Hes|].
    apply Hin. split; [reflexivity|]. vm_compute. reflexivity.
Defined.

(** The last version, with a buffered commit. *)
Definition demo_legacy : Idb :=
  set_store "mls_buffered_commits"
    (MkStore [unique_index "conversation_id" "conversation_id"]
      {[ bstr "c" := match entity_encrypt toy_nonces (cipher_new demo_key) demo_commit_entity with Ok o => o | _ => [] end ]})
    v11_idb.

(** Trying a wrong key first. *)
Lemma failed_move_hides_data_witness :
  exists w', unified_open (P := toy_platform) demo_draws true true "ks" other_key (MkWorld ∅ {[ "ks" := demo_legacy ]}) = Some (Err AesGcmError, w') /\
    unified_open (P := toy_platform) demo_draws true true "ks" other_key w' = Some (Ok (), w') /\
    unified_open (P := toy_platform) demo_draws true true "ks" demo_key w' = Some (Err (KeystoreError.DbError not_a_database), w').
Proof.
  destruct (failed_move_hides_data (P := toy_platform) demo_draws true "ks" other_key (MkWorld ∅ {[ "ks" := demo_legacy ]}) demo_legacy demo_legacy
    AesGcmError (lookup_empty _) (lookup_singleton_eq _ _)) as (w' & f & H1 & _ & _ & _ & H2 & H3).
  - split; [reflexivity|]. exact (open_current (P := toy_platform) demo_draws other_key demo_legacy eq_refl).
  - vm_compute. reflexivity.
  - exists w'. split; [exact H1|]. split; [exact (H2 demo_draws true true)|]. apply H3. discriminate.
Defined.

Definition demo_hpke : Entity.t := Entity.HpkePrivateKey {| hpke_sk := bstr "secret"; hpke_pk := bstr "public" |}.

Lemma native_keys_not_found_witness :
  exists db, EntityStore.entity_save demo_hpke ∅ = Ok db /\
    EntityStore.entity_get EntityType.HpkePrivateKey (primary_key demo_hpke) db = Ok (Some demo_hpke) /\
    unified_get EntityType.HpkePrivateKey (primary_key demo_hpke) db = Ok None.
Proof.
  assert (exists db, EntityStore.entity_save demo_hpke ∅ = Ok db /\ represents (<[EntityType.HpkePrivateKey := [demo_hpke]]> empty_store) db)
    as (db & Hdb & Hrep).
  { pose proof (entity_save_refines empty_store ∅ demo_hpke represents_empty I) as Hs.
    destruct (EntityStore.entity_save demo_hpke ∅) as [db| |]; inversion Hs as [? ? Hrep| |]; subst. by exists db. }
  exists db. split; [exact Hdb|]. split.
  - rewrite (entity_get_refines _ db EntityType.HpkePrivateKey (primary_key demo_hpke) Hrep I). vm_compute. reflexivity.
  - apply (native_keys_not_found _ db demo_hpke Hrep); [rewrite fn_lookup_insert; by left|reflexivity|].
    rewrite fn_lookup_insert. apply Forall_cons. split; [vm_compute; discriminate|constructor].
Defined.

(** What the unified connection saves under a key that is not taken is found by its primary
    key, for every type whose key is not a string and that has one. *)
Theorem unified_save_get `{X : Externals, !ExternalsLaws X} m db e :
  unified_represents m db -> entity_ok e -> key_selects (Entity.typ e) = true \/ Entity.typ e = EntityType.PskBundle ->
  unified_key e ∉ map unified_key (m (Entity.typ e)) ->
  exists db', unified_save e db = Ok db' /\ unified_get (Entity.typ e) (primary_key e) db' = Ok (Some e).
Proof.
  intros Hrep Hok Hty Hk. destruct (unified_save_fresh m db e Hrep Hok (fun _ => Hk)) as (db' & Hsave & Hrep').
  exists db'. split; [done|]. rewrite (unified_get_refines _ db' _ _ Hrep' (primary_key_ok e Hok)).
  - rewrite fn_lookup_insert, filter_app. rewrite (filter_none _ (m (Entity.typ e))).
    + cbn. rewrite decide_True; [done|]. unfold unified_select. destruct Hty as [Hty|Hty], e; try discriminate;
        cbn -[sha256_digest to_le_bytes]; by apply bool_decide_eq_true_2.
    + intros e' He' Hsel. apply Hk. apply list_elem_of_fmap. exists e'. split; [|done].
      destruct (Hrep (Entity.typ e)) as [_ Htab]. unfold table_ok in Htab. rewrite Forall_forall in Htab.
      destruct (Htab e' He') as [Hty' _]. unfold unified_select in Hsel. unfold unified_key. rewrite Hty'.
      destruct Hty as [Hty|Hty], e; try discriminate; destruct e'; try discriminate;
        cbn -[sha256_digest to_le_bytes] in Hsel |- *; apply bool_decide_eq_true_1 in Hsel; congruence.
  - destruct Hty as [Hty|Hty]; intros E; rewrite E in Hty; discriminate.
  - intros err. by destruct e.
Qed.

Lemma unified_save_get_witness :
  exists db', unified_save demo_hpke ∅ = Ok db' /\ unified_get EntityType.HpkePrivateKey (primary_key demo_hpke) db' = Ok (Some demo_hpke).
Proof.
  apply (unified_save_get empty_store ∅ demo_hpke unified_represents_empty I (or_introl eq_refl)). apply not_elem_of_nil.
Defined.
