(* ===== verification/FfiErrors.v ===== *)
(** * Errors of the bindings

    The crate [crypto-ffi] turns the nested errors of [crypto] into the few the application
    tells apart ([error/core_crypto.rs], [error/mls.rs], [error/proteus.rs],
    [error/mls_transport.rs]).  It looks at the innermost error, which it finds by following
    [std::error::Error::source]; what that is follows from the attributes of the error types:
    a variant marked [transparent] has the source of the error it holds, one with [#[from]] or
    [#[source]] has that error, and any other has none.  Messages are kept as the error, or the
    text, they print. *)

From S2P Require Import Prelude Entities Sql KeystoreErrors CryptoErrors.

(** ** Errors of other crates

    The errors of the model drop the payloads of other crates.  What the bindings see of them
    is an argument: where such a payload has a chain of sources, which is finite. *)

(** The places with a payload of another crate. *)
Inductive Payload : Type :=
  | KeystorePayload (e : KeystoreError.t)
  | OpenMlsPayload
  | TlsCodecPayload
  | X509DerPayload
  | E2ePayload (e : E2eIdentityError)
  | E2eTransactionPayload (e : E2eTransactionError)
  | ProteusPayload.

(** The errors of the Proteus library that the bindings tell apart. *)
Inductive ProteusLibrary : Type :=
  | NoSessionForTag
  | SessionDuplicateMessage
  | SessionRemoteIdentityChanged
  | OtherProteusLibrary.

Class ForeignErrors : Type := {
  Foreign : Type;
  foreign_source : Foreign -> option Foreign;
  foreign_depth : Foreign -> nat;
  payload : Payload -> Foreign;
  proteus_library : ProteusLibrary;
  (* [proteus_traits::ProteusErrorCode::code] *)
  library_code : Z;
}.

(** A chain of sources ends; the codes of the library are 16 bits wide, and those of the errors
    that are told apart are documented. *)
Class ForeignErrorsLaws (F : ForeignErrors) : Prop := {
  foreign_source_depth f g : foreign_source f = Some g -> foreign_depth g < foreign_depth f;
  library_code_range : (0 <= library_code < 2 ^ 16)%Z;
  library_code_known :
    match proteus_library with
    | NoSessionForTag => library_code = 102%Z
    | SessionRemoteIdentityChanged => library_code = 204%Z
    | SessionDuplicateMessage => library_code = 209%Z
    | OtherProteusLibrary => (library_code <> 102 /\ library_code <> 204 /\ library_code <> 209)%Z
    end;
}.

(** ** Sources of errors *)

Section sources.
Context `{F : ForeignErrors}.

(** [&dyn std::error::Error]. *)
Inductive DynError : Type :=
  | DynRecursive (e : RecursiveError)
  | DynCore (e : CoreError)
  | DynTransaction (e : TransactionError)
  | DynE2e (e : E2eIdentityError)
  | DynMls (e : MlsError)
  | DynSession (e : SessionError)
  | DynConversation (e : ConversationError)
  | DynCredential (e : CredentialError)
  | DynCredentialRef (e : CredentialRefError)
  | DynValidation (e : CredentialValidationError)
  | DynLeaf (e : LeafError)
  | DynProteus (e : ProteusErrorKind)
  | DynForeign (f : Foreign).

(** A payload that is the source, and one whose source is forwarded. *)
Definition with_source (p : Payload) : option DynError := Some (DynForeign (payload p)).
Definition transparent (p : Payload) : option DynError := DynForeign <$> foreign_source (payload p).

(** [source] of [RecursiveError], which always has one. *)
Definition recursive_source (e : RecursiveError) : DynError :=
  match e with
  | Root e => DynCore e
  | RecTransactionContext e => DynTransaction e
  | RecE2e e => DynE2e e
  | RecMls e => DynMls e
  | RecMlsClient e => DynSession e
  | RecMlsConversation e => DynConversation e
  | RecMlsCredential e => DynCredential e
  | RecMlsCredentialRef e => DynCredentialRef e
  end.

Definition e2e_source (e : E2eIdentityError) : option DynError :=
  match e with
  | E2eJsonError | E2eAcmeError | E2eJwtError | E2eJwtSimpleError | E2eCryptoError | E2ePkiEnvError | E2eX509Error
  | E2eUrlError | E2eX509CertDerError | E2eKeystore _ => transparent (E2ePayload e)
  | E2eSigningFailed => with_source (E2ePayload e)
  | _ => None
  end.

Definition core_source (e : CoreError) : option DynError :=
  match e with
  | CoreKeystore e => with_source (KeystorePayload e)
  | CoreOpenMls => with_source OpenMlsPayload
  | CoreE2eIdentity e => e2e_source e
  | CoreProteus k => Some (DynProteus k)
  | CoreRecursive e => Some (recursive_source e)
  | _ => None
  end.

Definition mls_source (e : MlsError) : option DynError :=
  match e with
  | MlsKeystore e => with_source (KeystorePayload e)
  | MlsOpenMls => with_source OpenMlsPayload
  | MlsLeaf e => Some (DynLeaf e)
  | MlsRecursive e => Some (recursive_source e)
  | _ => None
  end.

Definition session_source (e : SessionError) : option DynError :=
  match e with
  | SessionTlsSerialize | SessionTlsDeserialize => with_source TlsCodecPayload
  | SessionOpenMls => with_source OpenMlsPayload
  | SessionKeystore e => with_source (KeystorePayload e)
  | SessionLeaf e => Some (DynLeaf e)
  | SessionRecursive e => Some (recursive_source e)
  | _ => None
  end.

Definition conversation_source (e : ConversationError) : option DynError :=
  match e with
  | ConvTlsSerialize | ConvTlsDeserialize => with_source TlsCodecPayload
  | ConvOpenMls _ => with_source OpenMlsPayload
  | ConvKeystore e => with_source (KeystorePayload e)
  | ConvLeaf e => Some (DynLeaf e)
  | ConvRecursive e => Some (recursive_source e)
  | _ => None
  end.

Definition e2e_transaction_source (e : E2eTransactionError) : option DynError :=
  match e with
  | TxE2eX509Error | TxE2eX509CertDerError | PkiEnvironmentEror => transparent (E2eTransactionPayload e)
  | TxE2eOpenMls => with_source OpenMlsPayload
  | TxE2eKeystore e => with_source (KeystorePayload e)
  | TxE2eRecursive e => Some (recursive_source e)
  | _ => None
  end.

Definition transaction_source (e : TransactionError) : option DynError :=
  match e with
  | TxTlsSerialize | TxTlsDeserialize => with_source TlsCodecPayload
  | TxE2EIdentity e => e2e_transaction_source e
  | TxKeystore e => with_source (KeystorePayload e)
  | TxOpenMls => with_source OpenMlsPayload
  | TxLeaf e => Some (DynLeaf e)
  | TxRecursive e => Some (recursive_source e)
  | _ => None
  end.

Definition credential_source (e : CredentialError) : option DynError :=
  match e with
  | DecodeX509 => with_source X509DerPayload
  | CredKeystore e => with_source (KeystorePayload e)
  | CredOpenMls => with_source OpenMlsPayload
  | CredRecursive e => Some (recursive_source e)
  | CredTlsSerialize | CredTlsDeserialize => with_source TlsCodecPayload
  | _ => None
  end.

Definition credential_ref_source (e : CredentialRefError) : option DynError :=
  match e with
  | ValidationFailed e => Some (DynValidation e)
  | RefKeystore e => with_source (KeystorePayload e)
  | RefRecursive e => Some (recursive_source e)
  | RefTlsSerialize | RefTlsDeserialize => with_source TlsCodecPayload
  | _ => None
  end.

Definition validation_source (e : CredentialValidationError) : option DynError :=
  match e with ValidationRecursive e => Some (recursive_source e) | _ => None end.

Definition proteus_source (e : ProteusErrorKind) : option DynError :=
  match e with
  | ProteusLibraryError => transparent ProteusPayload
  | ProteusLeaf e => Some (DynLeaf e)
  end.

(** [std::error::Error::source]. *)
Definition source (e : DynError) : option DynError :=
  match e with
  | DynRecursive e => Some (recursive_source e)
  | DynCore e => core_source e
  | DynTransaction e => transaction_source e
  | DynE2e e => e2e_source e
  | DynMls e => mls_source e
  | DynSession e => session_source e
  | DynConversation e => conversation_source e
  | DynCredential e => credential_source e
  | DynCredentialRef e => credential_ref_source e
  | DynValidation e => validation_source e
  | DynLeaf _ => None
  | DynProteus e => proteus_source e
  | DynForeign f => DynForeign <$> foreign_source f
  end.

(** The length of the chain of sources of an error is bounded by its depth. *)
Definition e2e_depth (e : E2eIdentityError) : nat := S (foreign_depth (payload (E2ePayload e))).
Definition payload_depth (p : Payload) : nat := S (foreign_depth (payload p)).

Fixpoint recursive_depth (e : RecursiveError) : nat :=
  S match e with
    | Root e => core_depth e
    | RecTransactionContext e => transaction_depth e
    | RecE2e e => e2e_depth e
    | RecMls e => mls_depth e
    | RecMlsClient e => session_depth e
    | RecMlsConversation e => conversation_depth e
    | RecMlsCredential e => credential_depth e
    | RecMlsCredentialRef e => credential_ref_depth e
    end
with core_depth (e : CoreError) : nat :=
  match e with
  | CoreKeystore e => payload_depth (KeystorePayload e)
  | CoreOpenMls => payload_depth OpenMlsPayload
  | CoreE2eIdentity e => e2e_depth e
  | CoreProteus _ => 2 + payload_depth ProteusPayload
  | CoreRecursive e => recursive_depth e
  | _ => 0
  end
with mls_depth (e : MlsError) : nat :=
  match e with
  | MlsKeystore e => payload_depth (KeystorePayload e)
  | MlsOpenMls => payload_depth OpenMlsPayload
  | MlsLeaf _ => 1
  | MlsRecursive e => recursive_depth e
  | _ => 0
  end
with session_depth (e : SessionError) : nat :=
  match e with
  | SessionTlsSerialize | SessionTlsDeserialize => payload_depth TlsCodecPayload
  | SessionOpenMls => payload_depth OpenMlsPayload
  | SessionKeystore e => payload_depth (KeystorePayload e)
  | SessionLeaf _ => 1
  | SessionRecursive e => recursive_depth e
  | _ => 0
  end
with conversation_depth (e : ConversationError) : nat :=
  match e with
  | ConvTlsSerialize | ConvTlsDeserialize => payload_depth TlsCodecPayload
  | ConvOpenMls _ => payload_depth OpenMlsPayload
  | ConvKeystore e => payload_depth (KeystorePayload e)
  | ConvLeaf _ => 1
  | ConvRecursive e => recursive_depth e
  | _ => 0
  end
with e2e_transaction_depth (e : E2eTransactionError) : nat :=
  match e with
  | TxE2eOpenMls => payload_depth OpenMlsPayload
  | TxE2eKeystore e => payload_depth (KeystorePayload e)
  | TxE2eRecursive e => recursive_depth e
  | e => payload_depth (E2eTransactionPayload e)
  end
with transaction_depth (e : TransactionError) : nat :=
  match e with
  | TxTlsSerialize | TxTlsDeserialize => payload_depth TlsCodecPayload
  | TxE2EIdentity e => e2e_transaction_depth e
  | TxKeystore e => payload_depth (KeystorePayload e)
  | TxOpenMls => payload_depth OpenMlsPayload
  | TxLeaf _ => 1
  | TxRecursive e => recursive_depth e
  | _ => 0
  end
with credential_depth (e : CredentialError) : nat :=
  match e with
  | DecodeX509 => payload_depth X509DerPayload
  | CredKeystore e => payload_depth (KeystorePayload e)
  | CredOpenMls => payload_depth OpenMlsPayload
  | CredRecursive e => recursive_depth e
  | CredTlsSerialize | CredTlsDeserialize => payload_depth TlsCodecPayload
  | _ => 0
  end
with credential_ref_depth (e : CredentialRefError) : nat :=
  match e with
  | ValidationFailed e => S (validation_depth e)
  | RefKeystore e => payload_depth (KeystorePayload e)
  | RefRecursive e => recursive_depth e
  | RefTlsSerialize | RefTlsDeserialize => payload_depth TlsCodecPayload
  | _ => 0
  end
with validation_depth (e : CredentialValidationError) : nat :=
  match e with ValidationRecursive e => recursive_depth e | _ => 0 end.

Definition depth (e : DynError) : nat :=
  match e with
  | DynRecursive e => recursive_depth e
  | DynCore e => core_depth e
  | DynTransaction e => transaction_depth e
  | DynE2e e => e2e_depth e
  | DynMls e => mls_depth e
  | DynSession e => session_depth e
  | DynConversation e => conversation_depth e
  | DynCredential e => credential_depth e
  | DynCredentialRef e => credential_ref_depth e
  | DynValidation e => validation_depth e
  | DynLeaf _ => 0
  | DynProteus _ => 1 + payload_depth ProteusPayload
  | DynForeign f => foreign_depth f
  end.

(** The loop [while let Some(source) = err.source()] of [innermost_error_message]. *)
Fixpoint innermost_loop (fuel : nat) (err : DynError) : option DynError :=
  match fuel with
  | 0 => None
  | S fuel => match source err with Some inner => innermost_loop fuel inner | None => Some err end
  end.

Definition innermost (err : DynError) : option DynError := innermost_loop (S (depth err)) err.
End sources.
Arguments DynError F : clear implicits.

(** ** Errors of the application *)

(** Module [Ffi]: the errors of [crypto-ffi], whose names [crypto] uses too. *)
Module Ffi.
Section types.
Context `{F : ForeignErrors}.

(** What a message prints. *)
Inductive Message : Type :=
  | Display (e : DynError F)
  | Text (s : string)
  | UnknownProteusCode (code : option Z).

(** [MlsError]. *)
Inductive MlsError : Type :=
  | ConversationAlreadyExists (conversation_id : bytes)
  | DuplicateMessage
  | BufferedFutureMessage
  | WrongEpoch
  | BufferedCommit
  | MessageEpochTooOld
  | SelfCommitIgnored
  | UnmergedPendingGroup
  | StaleProposal
  | StaleCommit
  | OrphanWelcome
  | MessageRejected (reason : string)
  | OtherMls (msg : Message).

(** [ProteusError]. *)
Inductive ProteusError : Type :=
  | SessionNotFound
  | ProteusDuplicateMessage
  | RemoteIdentityChanged
  | OtherProteus (error_code : Z).

(** [CoreCryptoError]. *)
Inductive CoreCryptoError : Type :=
  | Mls (mls_error : MlsError)
  | Proteus (exception : ProteusError)
  | E2ei (e2ei_error : E2eIdentityError)
  | TransactionFailed (error : string)
  | Other (msg : Message).

(** [MlsTransportError]. *)
Inductive MlsTransportError : Type := TransportMessageRejected (reason : string).
End types.
Arguments Message F : clear implicits.
Arguments MlsError F : clear implicits.
Arguments CoreCryptoError F : clear implicits.
End Ffi.

(** ** Conversions *)

Section conversions.
Context `{F : ForeignErrors}.

(** [ProteusError::from_error_code]. *)
Definition from_error_code (code : option Z) : option Ffi.ProteusError :=
  code ← code;
  if decide (code = 0%Z) then None else
  Some (if decide (code = 102%Z) then Ffi.SessionNotFound
        else if decide (code = 204%Z) then Ffi.RemoteIdentityChanged
        else if decide (code = 209%Z) then Ffi.ProteusDuplicateMessage
        else Ffi.OtherProteus code).

(** [ProteusError::error_code]. *)
Definition error_code (e : Ffi.ProteusError) : Z :=
  match e with
  | Ffi.SessionNotFound => 102
  | Ffi.RemoteIdentityChanged => 204
  | Ffi.ProteusDuplicateMessage => 209
  | Ffi.OtherProteus code => code
  end.

(** [ProteusErrorKind::error_code]. *)
Definition kind_error_code (k : ProteusErrorKind) : option Z :=
  let out :=
    match k with
    | ProteusLibraryError => Some library_code
    | ProteusLeaf (ConversationNotFound _) => Some 102%Z
    | ProteusLeaf _ => None
    end in
  if decide (out = Some 0%Z) then None else out.

(** [From<&ProteusErrorKind> for ProteusError]. *)
Definition proteus_error_from (k : ProteusErrorKind) : Ffi.ProteusError :=
  match k with
  | ProteusLeaf (ConversationNotFound _) => Ffi.SessionNotFound
  | ProteusLibraryError =>
      match proteus_library with
      | NoSessionForTag => Ffi.SessionNotFound
      | SessionDuplicateMessage => Ffi.ProteusDuplicateMessage
      | SessionRemoteIdentityChanged => Ffi.RemoteIdentityChanged
      | OtherProteusLibrary => Ffi.OtherProteus (default 0%Z (kind_error_code k))
      end
  | _ => Ffi.OtherProteus (default 0%Z (kind_error_code k))
  end.

(** The loop of [From<RecursiveError>], which stops early at an error of Proteus. *)
Inductive Scanned : Type := FoundProteus (k : ProteusErrorKind) | Innermost (e : DynError F).

Fixpoint scan_loop (fuel : nat) (err : DynError F) : option Scanned :=
  match fuel with
  | 0 => None
  | S fuel =>
      match source err with
      | Some (DynProteus k) => Some (FoundProteus k)
      | Some inner => scan_loop fuel inner
      | None => Some (Innermost err)
      end
  end.

(** The arms of [match_heterogenous!]. *)
Definition match_heterogenous (innermost : DynError F) : option (Ffi.MlsError F) :=
  match innermost with
  | DynLeaf (ConversationAlreadyExists id) => Some (Ffi.ConversationAlreadyExists id)
  | DynConversation (BufferedFutureMessage _) => Some Ffi.BufferedFutureMessage
  | DynConversation DuplicateMessage => Some Ffi.DuplicateMessage
  | DynConversation MessageEpochTooOld => Some Ffi.MessageEpochTooOld
  | DynConversation SelfCommitIgnored => Some Ffi.SelfCommitIgnored
  | DynConversation StaleCommit => Some Ffi.StaleCommit
  | DynConversation StaleProposal => Some Ffi.StaleProposal
  | DynConversation UnbufferedFarFutureMessage => Some Ffi.WrongEpoch
  | DynConversation BufferedCommit => Some Ffi.BufferedCommit
  | DynConversation (MessageRejected reason) => Some (Ffi.MessageRejected reason)
  | DynConversation OrphanWelcome => Some Ffi.OrphanWelcome
  | DynConversation BufferedForPendingConversation => Some Ffi.UnmergedPendingGroup
  | _ => None
  end.

(** [From<RecursiveError> for CoreCryptoError]. *)
Definition from_recursive (error : RecursiveError) : option (Ffi.CoreCryptoError F) :=
  scanned ← scan_loop (S (recursive_depth error)) (DynRecursive error);
  match scanned with
  | FoundProteus k => Some (Ffi.Proteus (proteus_error_from k))
  | Innermost (DynE2e e) => Some (Ffi.E2ei e)
  | Innermost e =>
      match match_heterogenous e with
      | Some m => Some (Ffi.Mls m)
      | None => msg ← innermost (DynRecursive error); Some (Ffi.Mls (Ffi.OtherMls (Ffi.Display msg)))
      end
  end.

(** [From<core_crypto::Error> for CoreCryptoError]. *)
Definition from_core (error : CoreError) : option (Ffi.CoreCryptoError F) :=
  match error with
  | CoreProteus k =>
      let code := kind_error_code k in
      Some match from_error_code code with
           | Some e => Ffi.Proteus e
           | None => Ffi.Other (Ffi.UnknownProteusCode code)
           end
  | CoreOpenMls => msg ← innermost (DynForeign (payload OpenMlsPayload)); Some (Ffi.Mls (Ffi.OtherMls (Ffi.Display msg)))
  | ErrorDuringMlsTransport error_message => Some (Ffi.Other (Ffi.Text error_message))
  | CoreE2eIdentity e => Some (Ffi.E2ei e)
  | CoreKeystore e => msg ← innermost (DynForeign (payload (KeystorePayload e))); Some (Ffi.Other (Ffi.Display msg))
  | CoreRecursive e => from_recursive e
  | CoreProteusNotInitialized | CoreInvalidTransactionContext | MlsTransportNotProvided | FeatureDisabled
  | InvalidHistorySecret => Some (Ffi.Other (Ffi.Display (DynCore error)))
  end.

(** [impl_from_via_recursive_error!]. *)
Definition from_mls (e : MlsError) := from_recursive (RecMls e).
Definition from_conversation (e : ConversationError) := from_recursive (RecMlsConversation e).
Definition from_credential (e : CredentialError) := from_recursive (RecMlsCredential e).
Definition from_e2e (e : E2eIdentityError) := from_recursive (RecE2e e).
Definition from_transaction (e : TransactionError) := from_recursive (RecTransactionContext e).

(** [From<MlsTransportError> for core_crypto::Error]. *)
Definition core_error_from (e : Ffi.MlsTransportError) : CoreError :=
  match e with Ffi.TransportMessageRejected reason => CoreRecursive (RecMlsConversation (MessageRejected reason)) end.
End conversions.
Arguments Scanned F : clear implicits.
