(* ===== verification/FfiErrorProps.v ===== *)
(** * What the application is told

    Every conversion ends; errors it can act on are reported by their innermost cause, through
    any nesting; errors of Proteus are found on the way; a rejection by the delivery service
    comes back with its reason.  Where an error of the end-to-end identity layer is reported as
    one of MLS. *)

From S2P Require Import Prelude Entities Sql KeystoreErrors CryptoErrors FfiErrors.

(** ** Chains of sources *)

Section chains.
Context `{F : ForeignErrors, !ForeignErrorsLaws F}.

Definition sourced (e e' : DynError F) : Prop := source e = Some e'.

Lemma foreign_depth_lt p e : transparent p = Some e -> depth e < payload_depth p.
Proof.
  unfold transparent, payload_depth. destruct (foreign_source (payload p)) as [f|] eqn:Hf; [|done].
  intros [= <-]. apply foreign_source_depth in Hf. cbn. lia.
Qed.

Lemma recursive_source_depth r : depth (recursive_source r) < recursive_depth r.
Proof. destruct r; cbn; lia. Qed.

Lemma e2e_source_depth e e' : e2e_source e = Some e' -> depth e' < e2e_depth e.
Proof.
  unfold e2e_source. destruct e; try discriminate; try (apply (foreign_depth_lt (E2ePayload _))).
  intros [= <-]. unfold e2e_depth. cbn. lia.
Qed.

Lemma with_source_depth p e : with_source p = Some e -> depth e < payload_depth p.
Proof. intros [= <-]. unfold payload_depth. cbn. lia. Qed.

(** One case of [source_depth]: a payload, a nested error, a leaf, or no source. *)
Ltac solve_depth :=
  cbn -[transparent with_source payload_depth e2e_source e2e_depth e2e_transaction_source];
  first [discriminate | apply foreign_depth_lt | apply with_source_depth | apply e2e_source_depth
        | intros [= <-]; first [apply recursive_source_depth | cbn; lia]].

Lemma e2e_transaction_source_depth e e' : e2e_transaction_source e = Some e' -> depth e' < e2e_transaction_depth e.
Proof. unfold e2e_transaction_source. destruct e; solve_depth. Qed.

Lemma source_depth e e' : sourced e e' -> depth e' < depth e.
Proof.
  unfold sourced. destruct e as [e|e|e|e|e|e|e|e|e|e|e|e|f]; [| | |apply e2e_source_depth|..].
  12: { cbn. destruct (foreign_source f) as [g|] eqn:Hg; [|done]. intros [= <-]. by apply foreign_source_depth in Hg. }
  11: { destruct e; cbn; [|intros [= <-]; cbn; lia]. intros H%foreign_depth_lt. cbn. lia. }
  1: intros [= <-]; apply recursive_source_depth.
  all: destruct e; first [apply e2e_transaction_source_depth | solve_depth].
Qed.

Lemma sourced_functional e e1 e2 : sourced e e1 -> sourced e e2 -> e1 = e2.
Proof. unfold sourced. congruence. Qed.

(** Of two errors on a chain one is on the chain of the other. *)
Lemma chain_linear e a b : rtc sourced e a -> rtc sourced e b -> rtc sourced a b \/ rtc sourced b a.
Proof.
  intros Ha. induction Ha as [a|e x a Hx Ha IH]; intros Hb; [by left|].
  inversion Hb as [|? y ? Hy Hb']; subst; [right; by eapply rtc_l|].
  rewrite <- (sourced_functional _ _ _ Hx Hy) in Hb'. by apply IH.
Qed.

Lemma chain_end e a : source e = None -> rtc sourced e a -> a = e.
Proof. intros He H. inversion H as [|? y ? Hy]; subst; [done|]. unfold sourced in Hy. congruence. Qed.

(** An error on a chain comes before its end. *)
Lemma chain_to_end e a b : rtc sourced e a -> source a = None -> rtc sourced e b -> rtc sourced b a.
Proof. intros Ha Hend Hb. destruct (chain_linear _ _ _ Ha Hb) as [H|H]; [|done]. by rewrite (chain_end _ _ Hend H). Qed.

(** Below an error of Proteus there is none of Proteus and none of a conversation. *)
Definition of_proteus (e : DynError F) : Prop :=
  match e with DynLeaf _ | DynForeign _ => True | _ => False end.

Lemma below_proteus k e : rtc sourced (DynProteus k) e -> e = DynProteus k \/ of_proteus e.
Proof.
  intros H. inversion H as [|? y ? Hy Hr]; subst; [by left|]. right. clear H.
  assert (of_proteus y) as Hp.
  { unfold sourced in Hy. destruct k; cbn in Hy; [|by injection Hy as <-].
    unfold transparent in Hy. destruct (foreign_source _); [by injection Hy as <-|done]. }
  clear Hy. induction Hr as [|y z e Hz _ IH]; [done|]. apply IH. unfold sourced in Hz. destruct y; cbn in Hp; try done.
  cbn in Hz. destruct (foreign_source f); [by injection Hz as <-|done].
Qed.

Lemma one_proteus e k k' : rtc sourced e (DynProteus k) -> rtc sourced e (DynProteus k') -> k = k'.
Proof.
  intros H1 H2. destruct (chain_linear _ _ _ H1 H2) as [H|H]; apply below_proteus in H as [H|[]]; congruence.
Qed.

(** ** The loops *)

Lemma innermost_spec e : exists e', innermost e = Some e' /\ rtc sourced e e' /\ source e' = None.
Proof.
  unfold innermost. assert (depth e < S (depth e)) as Hd by lia. revert Hd. generalize (S (depth e)) as fuel.
  intros fuel. revert e. induction fuel as [|fuel IH]; intros e Hd; [lia|]. cbn.
  destruct (source e) as [inner|] eqn:Hs; [|by exists e].
  pose proof (source_depth _ _ Hs). destruct (IH inner) as (e' & Hi & Hr & He); [lia|].
  exists e'. split_and!; [done|by eapply rtc_l|done].
Qed.

Lemma scan_loop_spec fuel e : depth e < fuel ->
  exists s, scan_loop fuel e = Some s /\
    match s with
    | FoundProteus k => rtc sourced e (DynProteus k)
    | Innermost e' => rtc sourced e e' /\ source e' = None /\ forall k, rtc sourced e (DynProteus k) -> e = DynProteus k
    end.
Proof.
  revert e. induction fuel as [|fuel IH]; intros e Hd; [lia|]. cbn.
  destruct (source e) as [inner|] eqn:Hs.
  2: { exists (Innermost e). split_and!; [done..|]. intros k H. symmetry. by apply chain_end. }
  assert ((exists k, inner = DynProteus k) \/ forall k, inner <> DynProteus k) as [[k ->]|Hno].
  { destruct inner; first [by left; eexists | by right]. }
  { exists (FoundProteus k). split; [done|]. by eapply rtc_l. }
  pose proof (source_depth _ _ Hs) as Hlt. destruct (IH inner) as (s & Hi & Hr); [lia|]. exists s. split.
  { destruct inner; try done. by destruct (Hno e0). }
  destruct s as [k|e']; [by eapply rtc_l|]. destruct Hr as (Hr & He & Hk). split_and!; [by eapply rtc_l|done|].
  intros k H. inversion H as [|? y ? Hy Hp]; subst; [done|].
  rewrite <- (sourced_functional _ _ _ Hs Hy) in Hp. by destruct (Hno _ (Hk _ Hp)).
Qed.

(** ** What is reported *)

(** The errors the application can act on, as the bindings name them. *)
Inductive reported_as : DynError F -> Ffi.MlsError F -> Prop :=
  | report_exists id : reported_as (DynLeaf (ConversationAlreadyExists id)) (Ffi.ConversationAlreadyExists id)
  | report_future n : reported_as (DynConversation (BufferedFutureMessage n)) Ffi.BufferedFutureMessage
  | report_duplicate : reported_as (DynConversation DuplicateMessage) Ffi.DuplicateMessage
  | report_too_old : reported_as (DynConversation MessageEpochTooOld) Ffi.MessageEpochTooOld
  | report_own_commit : reported_as (DynConversation SelfCommitIgnored) Ffi.SelfCommitIgnored
  | report_stale_commit : reported_as (DynConversation StaleCommit) Ffi.StaleCommit
  | report_stale_proposal : reported_as (DynConversation StaleProposal) Ffi.StaleProposal
  | report_far_future : reported_as (DynConversation UnbufferedFarFutureMessage) Ffi.WrongEpoch
  | report_buffered_commit : reported_as (DynConversation BufferedCommit) Ffi.BufferedCommit
  | report_rejected reason : reported_as (DynConversation (MessageRejected reason)) (Ffi.MessageRejected reason)
  | report_orphan : reported_as (DynConversation OrphanWelcome) Ffi.OrphanWelcome
  | report_pending : reported_as (DynConversation BufferedForPendingConversation) Ffi.UnmergedPendingGroup.

Lemma match_heterogenous_spec e m : match_heterogenous e = Some m <-> reported_as e m.
Proof.
  split; [|by intros []]. destruct e as [| | | | | |c| | | |l| |]; try done; [destruct c|destruct l]; try done; intros [= <-]; constructor.
Qed.

Lemma reported_end e m : reported_as e m -> source e = None.
Proof. by intros []. Qed.

Lemma from_recursive_proteus r k :
  rtc sourced (DynRecursive r) (DynProteus k) -> from_recursive r = Some (Ffi.Proteus (proteus_error_from k)).
Proof.
  intros Hk. unfold from_recursive. destruct (scan_loop_spec (S (recursive_depth r)) (DynRecursive r)) as (s & -> & Hs); [cbn; lia|].
  destruct s as [k'|e']; cbn.
  - by rewrite (one_proteus _ _ _ Hs Hk).
  - destruct Hs as (_ & _ & H). by apply H in Hk.
Qed.

(** Without an error of Proteus the innermost error decides. *)
Lemma from_recursive_innermost r e :
  rtc sourced (DynRecursive r) e -> source e = None -> (forall k, ~ rtc sourced (DynRecursive r) (DynProteus k)) ->
  from_recursive r = Some
    match e with
    | DynE2e e => Ffi.E2ei e
    | e => Ffi.Mls (default (Ffi.OtherMls (Ffi.Display e)) (match_heterogenous e))
    end.
Proof.
  intros Hr He Hno. unfold from_recursive.
  destruct (scan_loop_spec (S (recursive_depth r)) (DynRecursive r)) as (s & -> & Hs); [cbn; lia|].
  destruct s as [k|e']; cbn [mbind option_bind]; [by destruct (Hno k)|]. destruct Hs as (Hr' & He' & _).
  assert (e' = e) as -> by (eapply chain_end, chain_to_end; done).
  destruct (innermost_spec (DynRecursive r)) as (e'' & Hi & Hr'' & He'').
  assert (e'' = e) as -> by (eapply chain_end, chain_to_end; done).
  rewrite Hi. destruct e as [| | | | | |c| | | |l| |]; try done; [by destruct c|by destruct l].
Qed.


(** A name is only given by an arm of the match. *)
Lemma reported_by_match e m : (forall s, m <> Ffi.OtherMls s) ->
  match e with
  | DynE2e e => Ffi.E2ei e
  | e => Ffi.Mls (default (Ffi.OtherMls (Ffi.Display e)) (match_heterogenous e))
  end = Ffi.Mls m ->
  match_heterogenous e = Some m.
Proof.
  intros Hm Heq. destruct (match_heterogenous e) as [m'|] eqn:Hx.
  - f_equal. destruct e; rewrite ?Hx in Heq; first [discriminate Hx | by injection Heq].
  - destruct e; rewrite ?Hx in Heq; try discriminate Heq; injection Heq as Heq; by destruct (Hm _ (eq_sym Heq)).
Qed.

Lemma recursive_cases r :
  (exists k, rtc sourced (DynRecursive r) (DynProteus k)) \/ (forall k, ~ rtc sourced (DynRecursive r) (DynProteus k)).
Proof.
  destruct (scan_loop_spec (S (recursive_depth r)) (DynRecursive r)) as ([k|e] & _ & H); [cbn; lia|left; eauto|].
  right. intros k Hk. by apply H in Hk.
Qed.

(** ** Errors of the end-to-end identity layer *)

Lemma below_foreign f e : rtc sourced (DynForeign f) e -> exists g, e = DynForeign g.
Proof.
  intros H. remember (DynForeign f) as d eqn:Hd. revert f Hd. induction H as [|d y e Hy _ IH]; intros f ->; [eauto|].
  unfold sourced in Hy. cbn in Hy. destruct (foreign_source f) as [g|]; [injection Hy as <-; eauto|done].
Qed.

Lemma e2e_source_foreign e e' : e2e_source e = Some e' -> exists f, e' = DynForeign f.
Proof.
  unfold e2e_source, with_source, transparent. destruct e; try done; try (intros [= <-]; eauto);
    (destruct (foreign_source _); [intros [= <-]; eauto|done]).
Qed.

(** The end of a chain that goes through an error of that layer. *)
Lemma below_e2e e x : rtc sourced (DynE2e e) x -> x = DynE2e e \/ exists f, x = DynForeign f.
Proof.
  intros H. inversion H as [|? y ? Hy Hr]; subst; [by left|].
  right. destruct (e2e_source_foreign _ _ Hy) as [f ->]. by apply below_foreign in Hr.
Qed.

Lemma below_core_e2e e x : rtc sourced (DynCore (CoreE2eIdentity e)) x -> x = DynCore (CoreE2eIdentity e) \/ exists f, x = DynForeign f.
Proof.
  intros H. inversion H as [|? y ? Hy Hr]; subst; [by left|].
  right. destruct (e2e_source_foreign _ _ Hy) as [f ->]. by apply below_foreign in Hr.
Qed.

Lemma below_recursive r x : rtc sourced (DynRecursive r) x -> x = DynRecursive r \/ rtc sourced (recursive_source r) x.
Proof. intros H. inversion H as [|? y ? Hy Hr]; subst; [by left|]. injection Hy as <-. by right. Qed.

(** The innermost error of a chain without Proteus, from below its first error. *)
Lemma from_recursive_below r e :
  rtc sourced (recursive_source r) e -> source e = None ->
  (forall k, ~ rtc sourced (recursive_source r) (DynProteus k)) ->
  from_recursive r = Some
    match e with
    | DynE2e e => Ffi.E2ei e
    | e => Ffi.Mls (default (Ffi.OtherMls (Ffi.Display e)) (match_heterogenous e))
    end.
Proof.
  intros Hr He Hno. apply from_recursive_innermost; [by eapply rtc_l|done|].
  intros k [Hk|Hk]%below_recursive; [done|]. by destruct (Hno k).
Qed.

Lemma from_e2e_innermost e : e2e_source e = None -> from_e2e e = Some (Ffi.E2ei e).
Proof.
  intros He. apply (from_recursive_below (RecE2e e) (DynE2e e)); [done|done|].
  intros k [?|[? ?]]%below_e2e; done.
Qed.

Lemma from_e2e_sourced e e' : e2e_source e = Some e' -> exists msg, from_e2e e = Some (Ffi.Mls (Ffi.OtherMls msg)).
Proof.
  intros He. destruct (innermost_spec (DynE2e e)) as (x & _ & Hr & Hx).
  destruct (below_e2e _ _ Hr) as [->|[f ->]]; [cbn in Hx; congruence|]. eexists.
  apply (from_recursive_below (RecE2e e) (DynForeign f)); [done|done|].
  intros k [?|[? ?]]%below_e2e; done.
Qed.

Lemma from_recursive_core_e2e e : exists msg, from_recursive (Root (CoreE2eIdentity e)) = Some (Ffi.Mls (Ffi.OtherMls msg)).
Proof.
  destruct (innermost_spec (DynCore (CoreE2eIdentity e))) as (x & _ & Hr & Hx).
  pose proof Hr as Hc. apply below_core_e2e in Hc.
  assert (forall k, ~ rtc sourced (DynCore (CoreE2eIdentity e)) (DynProteus k)) as Hno.
  { intros k [?|[? ?]]%below_core_e2e; done. }
  pose proof (from_recursive_below (Root (CoreE2eIdentity e)) x Hr Hx Hno) as H.
  destruct Hc as [->|[f ->]]; eexists; exact H.
Qed.
End chains.

(** ** An instance: a library error wraps an input error *)

#[export] Instance toy_errors : ForeignErrors := {|
  Foreign := nat;
  foreign_source n := match n with O => None | S n => Some n end;
  foreign_depth n := n;
  payload p := match p with E2ePayload E2eSigningFailed => 1 | E2ePayload E2ePkiEnvError => 1 | _ => 0 end;
  proteus_library := SessionDuplicateMessage;
  library_code := 209;
|}.

#[export] Instance toy_errors_laws : ForeignErrorsLaws toy_errors.
Proof. split; [|done|done]. intros [|f] g; [done|]. intros [= <-]. cbn. lia. Qed.

(** ** The properties *)

(** C6: The bindings report an error by its cause, through any nesting: the conversion ends; an
    error the application can act on is reported under its name exactly when it is on the chain
    of sources and no error of Proteus is; an error of Proteus is reported exactly when one is on
    the chain. *)
Theorem errors_reported_by_cause `{F : ForeignErrors, !ForeignErrorsLaws F} r :
  is_Some (from_recursive r) /\
  (forall m, (forall s, m <> Ffi.OtherMls s) ->
    from_recursive r = Some (Ffi.Mls m) <->
    exists e, rtc sourced (DynRecursive r) e /\ reported_as e m /\ forall k, ~ rtc sourced (DynRecursive r) (DynProteus k)) /\
  (forall p, from_recursive r = Some (Ffi.Proteus p) <->
    exists k, rtc sourced (DynRecursive r) (DynProteus k) /\ p = proteus_error_from k).
Proof.
  destruct (recursive_cases r) as [[k Hk]|Hno].
  - rewrite (from_recursive_proteus r k Hk). split_and!; [done| |].
    + intros m _. split; [done|]. intros (e & _ & _ & Hno). by destruct (Hno k).
    + intros p. split; [intros [= <-]; eauto|]. intros (k' & Hk' & ->). by rewrite (one_proteus _ _ _ Hk Hk').
  - destruct (innermost_spec (DynRecursive r)) as (e & _ & Hr & He).
    rewrite (from_recursive_innermost r e Hr He Hno). split_and!; [done| |].
    + intros m Hm. split.
      * intros [= Heq]. exists e. split_and!; [done| |done]. apply match_heterogenous_spec. by apply reported_by_match.
      * intros (e' & Hr' & Hm' & _). pose proof (reported_end _ _ Hm') as He'.
        assert (e' = e) as -> by (eapply chain_end, chain_to_end; done).
        pose proof (proj2 (match_heterogenous_spec e m) Hm') as ->. by destruct Hm'.
    + intros p. split; [by destruct e|]. intros (k & Hk & _). by destruct (Hno k).
Qed.

(** A conversation that was rejected while a history client was replaced, in a transaction. *)
Definition demo_nested : RecursiveError :=
  RecTransactionContext (TxRecursive (RecMlsConversation (ConvRecursive (Root
    (core_error_from (Ffi.TransportMessageRejected "too many members")))))).

Lemma errors_reported_by_cause_witness :
  from_recursive demo_nested = Some (Ffi.Mls (Ffi.MessageRejected "too many members")) /\
  from_recursive (RecTransactionContext (TxRecursive (Root (CoreProteus (ProteusLeaf (ConversationNotFound []))))))
    = Some (Ffi.Proteus Ffi.SessionNotFound).
Proof.
  split.
  - apply errors_reported_by_cause; [done|]. exists (DynConversation (MessageRejected "too many members")).
    split_and!; [|constructor|].
    + do 4 (eapply rtc_l; [reflexivity|]). apply rtc_refl.
    + intros k H. do 4 (inversion H as [|? y ? Hy H']; subst; injection Hy as <-; clear H; rename H' into H).
      inversion H as [|? y ? Hy]; subst. discriminate Hy.
  - apply errors_reported_by_cause. exists (ProteusLeaf (ConversationNotFound [])). split; [|reflexivity].
    do 3 (eapply rtc_l; [reflexivity|]). apply rtc_refl.
Defined.

(** C30: How errors of the end-to-end identity layer reach the application.  The conversion of an
    error of the crate reports each of them as such.  The conversion through [RecursiveError] does
    so only for an error that has no source of its own, and reports the others as some error of
    MLS; when the error is nested in a [RecursiveError] as an error of the crate, it is reported
    as some error of MLS always. *)
Theorem e2e_errors_misreported `{F : ForeignErrors, !ForeignErrorsLaws F} e :
  (if decide (is_Some (e2e_source e)) then exists msg, from_e2e e = Some (Ffi.Mls (Ffi.OtherMls msg))
   else from_e2e e = Some (Ffi.E2ei e)) /\
  from_core (CoreE2eIdentity e) = Some (Ffi.E2ei e) /\
  exists msg, from_recursive (Root (CoreE2eIdentity e)) = Some (Ffi.Mls (Ffi.OtherMls msg)).
Proof.
  split_and!; [|done|apply from_recursive_core_e2e]. destruct (decide _) as [[e' He]|He].
  - by apply (from_e2e_sourced e e').
  - apply from_e2e_innermost. by apply eq_None_not_Some.
Qed.

Lemma e2e_errors_misreported_witness :
  from_e2e E2eSigningFailed = Some (Ffi.Mls (Ffi.OtherMls (Ffi.Display (DynForeign 0)))) /\
  from_e2e E2eNotFound = Some (Ffi.E2ei E2eNotFound) /\
  exists msg, from_recursive (Root (CoreE2eIdentity E2eNotFound)) = Some (Ffi.Mls (Ffi.OtherMls msg)).
Proof.
  split_and!.
  - destruct (e2e_errors_misreported E2eSigningFailed) as ((msg & H) & _). rewrite H. exact (eq_trans (eq_sym H) eq_refl).
  - exact (proj1 (e2e_errors_misreported E2eNotFound)).
  - exact (proj2 (proj2 (e2e_errors_misreported E2eNotFound))).
Defined.

(** An error of Proteus is reported the same whether it is nested or not, if it has a code;
    one without a code is reported as an unknown error or as an error of Proteus with code zero.
    Codes survive the translation to the named errors and back. *)
Theorem proteus_conversions_agree `{F : ForeignErrors, !ForeignErrorsLaws F} k :
  match kind_error_code k with
  | Some code =>
      from_core (CoreProteus k) = from_recursive (Root (CoreProteus k)) /\
      error_code (proteus_error_from k) = code /\ from_error_code (Some code) = Some (proteus_error_from k)
  | None =>
      from_core (CoreProteus k) = Some (Ffi.Other (Ffi.UnknownProteusCode None)) /\
      from_recursive (Root (CoreProteus k)) = Some (Ffi.Proteus (Ffi.OtherProteus 0))
  end.
Proof.
  rewrite (from_recursive_proteus (Root (CoreProteus k)) k) by (do 2 (eapply rtc_l; [reflexivity|]); apply rtc_refl).
  assert (match kind_error_code k with
          | Some code => from_error_code (Some code) = Some (proteus_error_from k) /\ error_code (proteus_error_from k) = code
          | None => proteus_error_from k = Ffi.OtherProteus 0
          end) as H.
  { destruct k as [|l]; [|by destruct l]. pose proof library_code_known as Hc. unfold proteus_error_from, kind_error_code.
    destruct proteus_library; [rewrite Hc; done..|]. case_decide as H0; [done|].
    destruct Hc as (H1 & H2 & H3). cbn. rewrite !decide_False by congruence. done. }
  unfold from_core. destruct (kind_error_code k) as [code|]; [destruct H as [-> ->]; done|]. by rewrite H.
Qed.

Lemma proteus_conversions_agree_witness :
  from_core (CoreProteus ProteusLibraryError) = from_recursive (Root (CoreProteus ProteusLibraryError)) /\
  from_core (CoreProteus (ProteusLeaf InternalMlsError)) = Some (Ffi.Other (Ffi.UnknownProteusCode None)).
Proof.
  split.
  - exact (proj1 (proteus_conversions_agree ProteusLibraryError)).
  - exact (proj1 (proteus_conversions_agree (ProteusLeaf InternalMlsError))).
Defined.
