(* ===== verification/X509Credentials.v ===== *)
(** * X.509 credentials and the identities they show

    [crypto/src/mls/credential/x509.rs] and [ext.rs], [crypto/src/identity.rs],
    [crypto/src/mls/session/identifier.rs]: credentials made from a chain of certificates, and
    the identity a member of a conversation is shown with; the forms of client ids in
    certificates ([e2e-identity/src/legacy/id.rs]); and the object of the bindings that
    acquires a credential ([crypto-ffi/src/e2ei]). *)

From S2P Require Import Prelude Keys EntityTypes Entities Sql KeystoreErrors CryptoErrors CryptoProvider OpenMls ClientIds MlsMessages Credentials X509Check PkiEnv Acme Acquisition CredentialCheck.
From Stdlib Require Import Lia ZArith.

(** ** The libraries *)

(** URL-safe base64 without padding, and the bytes of an identifier. *)
Class Base64Lib : Type := {
  base64_encode : bytes -> bytes;
  base64_decode : bytes -> option bytes;
}.

Class UuidBytes (U : UuidLib) : Type := {
  uuid_as_bytes : Uuid -> bytes;
  uuid_from_slice : bytes -> option Uuid;
}.

(** [E2eiClientId]: its constructor and its fields. *)
Class E2eiIds (T : AcmeTypes) (U : UuidLib) : Type := {
  e2ei_try_new : bytes -> Z -> bytes -> option ClientId;
  e2ei_parts : ClientId -> Uuid * Z * bytes;
}.

(** Certificates as bytes, the credentials and key pairs OpenMLS makes of them, and the
    algorithms of a cipher suite. *)
Class CertificateLib (O : OpenMls) (Mc : MlsCredentials) (T : AcmeTypes) (L : X509Lib) : Type := {
  new_x509 : list bytes -> option MlsCredential;
  (* [CertificateKeyPair::new] *)
  certificate_key_pair : bytes -> list bytes -> option SignatureKeys;
  (* [Document::from_der] and [to_pem] *)
  der_to_pem : bytes -> option bytes;
  (* [from_pem] and [to_bytes] of the key pairs *)
  key_pair_to_bytes : JwsAlgorithm -> Pem -> option bytes;
  (* [from_bytes] and [to_pem] of the key pairs *)
  key_pair_from_bytes : JwsAlgorithm -> bytes -> option Pem;
  suite_signature : Z -> SignatureScheme;
  suite_hash : Z -> HashType;
}.

(** Identifiers are read back as they were printed, which is without colons. *)
Class IdentifierLaws {U : UuidLib} (B : Base64Lib) (Ub : UuidBytes U) : Prop := {
  base64_roundtrip b : base64_decode (base64_encode b) = Some b;
  base64_no_colon b : COLON ∉ base64_encode b;
  uuid_roundtrip u : uuid_from_slice (uuid_as_bytes u) = Some u;
}.

(** The fields of a client id are those it was made of. *)
Class E2eiIdLaws {T : AcmeTypes} {U : UuidLib} (E : E2eiIds T U) : Prop := {
  e2ei_new_parts u d domain c : e2ei_try_new (hyphenated u) d domain = Some c -> e2ei_parts c = (u, d, domain);
}.

(** A credential holds the chain it was made of, a key pair the key of the first certificate. *)
Class CertificateLaws {O : OpenMls} {Mc : MlsCredentials} {T : AcmeTypes} {L : X509Lib}
    (Cc : CredentialCertificates O Mc) (Q : AcquisitionLib T L) (Ce : CertificateLib O Mc T L) : Prop := {
  new_x509_certificates chain c : new_x509 chain = Some c -> certificates_of c = Some chain;
  certificate_key_pair_leaf sk chain keys : certificate_key_pair sk chain = Some keys ->
    key_private keys = sk /\
    exists der leaf, head chain = Some der /\ cert_from_der der = Some leaf /\ key_public keys = cert_public_key leaf;
  cert_der_roundtrip c der : cert_to_der c = Some der -> cert_from_der der = Some c;
}.

(** ** Client ids in certificates *)

(** [<[u8]>::split] at one byte, which yields at least one piece. *)
Fixpoint split_all (d : byte) (s : bytes) : list bytes :=
  match s with
  | [] => [[]]
  | b :: s =>
      if decide (b = d) then [] :: split_all d s
      else match split_all d s with piece :: pieces => (b :: piece) :: pieces | [] => [[b]] end
  end.

Section identities.
Context `{X : Externals, O : OpenMls, Ms : !MlsMessages O, Mc : MlsCredentials, Lc : !LeafCredentials Ms Mc, Cc : !CredentialCertificates O Mc}.
Context `{U : UuidLib, T : AcmeTypes, L : X509Lib, P : !PkiLib L, R : !PathLib L, Q : !AcquisitionLib T L}.
Context `{B : Base64Lib, Ub : !UuidBytes U, E : !E2eiIds T U, Ce : !CertificateLib O Mc T L}.

(** [TryFrom<&[u8]> for WireQualifiedClientId]: from the form with a base64 user id. *)
Definition wire_qualified_try_from (bs : bytes) : res E2eIdentityError bytes :=
  match split_all COLON bs with
  | [user_id; rest] =>
      user_id ← ok_or (base64_decode user_id) E2eInvalidClientId;
      user_id ← ok_or (uuid_from_slice user_id) E2eInvalidClientId;
      Ok (hyphenated user_id ++ [COLON] ++ rest)
  | _ => Err E2eInvalidClientId
  end.

(** [WireQualifiedClientId::get_user_id]; its parser accepts the hyphenated form. *)
Definition wire_qualified_get_user_id (id : bytes) : res E2eIdentityError bytes :=
  match split_all COLON id with
  | user_id :: _ => match uuid_try_parse user_id with Some u => Ok (hyphenated u) | None => Panic end
  | [] => Panic
  end.

(** [TryFrom<&[u8]> for QualifiedE2eiClientId]: from the form with a hyphenated user id. *)
Definition qualified_e2ei_try_from (bs : bytes) : res E2eIdentityError bytes :=
  match split_all COLON bs with
  | [user_id; rest] =>
      user_id ← (if utf8_valid user_id then Ok user_id else Err E2eInvalidClientId);
      user_id ← ok_or (uuid_try_parse user_id) E2eInvalidClientId;
      Ok (base64_encode (uuid_as_bytes user_id) ++ [COLON] ++ rest)
  | _ => Err E2eInvalidClientId
  end.

(** [ClientId::from_e2ei_client_id] and [try_from_str_with_base64_user_id]. *)
Definition from_e2ei_client_id (c : ClientId) : bytes :=
  let '(user_id, device_id, domain) := e2ei_parts c in client_id_new user_id device_id domain.

Definition try_from_str_with_base64_user_id (s : bytes) : res SessionError bytes :=
  match try_from_qualified s with Some c => Ok (from_e2ei_client_id c) | None => Err InvalidQualifiedClientId end.

(** [ClientId::as_e2ei_client_id]. *)
Definition as_e2ei_client_id (id : bytes) : res SessionError ClientId :=
  match try_parse_bytes id with
  | Ok (user_id, device_id, domain) =>
      match e2ei_try_new (hyphenated user_id) device_id domain with Some c => Ok c | None => Panic end
  | _ => Panic
  end.

(** ** Bundles and credentials *)

(** [CertificateBundle]. *)
Record CertificateBundle : Type := MkBundle {
  certificate_chain : list bytes;
  private_key : bytes;
  signature_scheme : SignatureScheme;
}.

Definition scheme_hash_alg (scheme : SignatureScheme) : HashAlgorithm :=
  match scheme with
  | ECDSA_SECP256R1_SHA256 | ED25519 => SHA256
  | ECDSA_SECP384R1_SHA384 => SHA384
  | ED448 | ECDSA_SECP521R1_SHA512 => SHA512
  end.

(** [CertificateBundle::get_client_id]. *)
Definition get_client_id (bundle : CertificateBundle) (env : PkiEnvironment) : res CredentialError bytes :=
  leaf ← ok_or (head (certificate_chain bundle)) InvalidIdentity;
  identity ← map_err (fun _ => InvalidIdentity)
               (extract_identity_der env (scheme_hash_alg (signature_scheme bundle)) leaf);
  id ← map_err (fun e => CredRecursive (RecE2e e)) (wire_qualified_try_from (identity_client_id identity));
  map_err (fun e => CredRecursive (RecMlsClient e)) (client_id_from_bytes id).

(** [CertificateBundle::get_created_at]. *)
Definition get_created_at (bundle : CertificateBundle) : res CredentialError Z :=
  leaf ← ok_or (head (certificate_chain bundle)) InvalidIdentity;
  map_err (fun _ => InvalidIdentity) (extract_created_at_der leaf).

(** [Credential::x509]. *)
Definition credential_x509 (cipher_suite : Z) (bundle : CertificateBundle) : res CredentialError Credential :=
  earliest_validity ← map_err (fun e => CredRecursive (RecMlsCredential e)) (get_created_at bundle);
  keys ← ok_or (certificate_key_pair (private_key bundle) (certificate_chain bundle)) CredOpenMls;
  credential ← ok_or (new_x509 (certificate_chain bundle)) CredOpenMls;
  Ok (MkCredential cipher_suite X509 credential keys earliest_validity).

(** [ClientIdentifier::get_id]; the bundles are in the order of the hash map. *)
Inductive ClientIdentifier : Type :=
  | IdentifierBasic (id : bytes)
  | IdentifierX509 (bundles : list CertificateBundle).

Definition get_id (identifier : ClientIdentifier) (env : option PkiEnvironment) : res SessionError bytes :=
  match identifier with
  | IdentifierBasic id => Ok id
  | IdentifierX509 certs =>
      env ← ok_or env (SessionRecursive (RecMlsCredential MissingPKIEnvironment));
      cert ← ok_or (head certs) NoX509CertificateBundle;
      map_err (fun e => SessionRecursive (RecMlsCredential e)) (get_client_id cert env)
  end.

(** ** Identities *)

(** [DeviceStatus]. *)
Inductive DeviceStatus : Type := DeviceValid | DeviceExpired | DeviceRevoked.

Definition device_status_from (status : IdentityStatus) : DeviceStatus :=
  match status with
  | IdentityValid => DeviceValid
  | IdentityExpired => DeviceExpired
  | IdentityRevoked => DeviceRevoked
  end.

(** [X509Identity] and [crypto]'s [WireIdentity]. *)
Record X509Identity : Type := MkX509Identity {
  x509_handle : bytes;
  x509_display_name : bytes;
  x509_domain : bytes;
  x509_certificate : bytes;
  x509_serial_number : bytes;
  x509_not_before : Z;
  x509_not_after : Z;
}.

Record MemberIdentity : Type := MkMemberIdentity {
  mi_client_id : option bytes;
  mi_thumbprint : bytes;
  mi_status : DeviceStatus;
  mi_credential_type : CredentialType;
  mi_x509_identity : option X509Identity;
}.

(** [TryFrom<(wire_e2e_identity::WireIdentity, &[u8])> for WireIdentity]. *)
Definition member_identity_try_from (i : WireIdentity) (cert_bytes : bytes) : res CoreError MemberIdentity :=
  certificate ← ok_or (der_to_pem cert_bytes) (CoreE2eIdentity E2eX509CertDerError);
  client_id ← map_err (fun e => CoreRecursive (RecMlsClient e)) (try_from_str_with_base64_user_id (identity_client_id i));
  Ok (MkMemberIdentity (Some client_id) (thumbprint i) (device_status_from (identity_status i)) X509
        (Some (MkX509Identity (handle_as_str (identity_handle i)) (identity_display_name i) (identity_domain i)
                 certificate (serial_number i) (identity_not_before i) (identity_not_after i)))).

(** [CipherSuite::e2ei_hash_alg]. *)
Definition e2ei_hash_alg (cs : Z) : HashAlgorithm :=
  match suite_hash cs with Sha2_256 => SHA256 | Sha2_384 => SHA384 | Sha2_512 => SHA512 end.

(** [CredentialExt::extract_identity] and [extract_public_key] of certificates. *)
Definition extract_identity_x509 (chain : list bytes) (cs : Z) (env : option PkiEnvironment) : res CredentialError MemberIdentity :=
  env ← ok_or env MissingPKIEnvironment;
  leaf ← ok_or (head chain) InvalidIdentity;
  identity ← map_err (fun _ => InvalidIdentity) (extract_identity_der env (e2ei_hash_alg cs) leaf);
  map_err (fun _ => InvalidIdentity) (member_identity_try_from identity leaf).

Definition extract_public_key_x509 (chain : list bytes) : res CredentialError (option bytes) :=
  leaf ← ok_or (head chain) InvalidIdentity;
  pk ← map_err (fun _ => InvalidIdentity) (extract_public_key_der leaf);
  Ok (Some pk).

Definition credential_extract_public_key (c : MlsCredential) : res CredentialError (option bytes) :=
  match certificates_of c with Some chain => extract_public_key_x509 chain | None => Ok None end.

(** [compute_thumbprint]: the empty string when it fails. *)
Definition compute_thumbprint (cs : Z) (raw_key : bytes) : res CredentialError bytes :=
  sign_alg ← match suite_signature cs with
             | ED25519 => Ok Ed25519
             | ECDSA_SECP256R1_SHA256 => Ok P256
             | ECDSA_SECP384R1_SHA384 => Ok P384
             | ECDSA_SECP521R1_SHA512 => Ok P521
             | ED448 => Err UnsupportedAlgorithm
             end;
  Ok match compute_raw_key_thumbprint sign_alg (e2ei_hash_alg cs) raw_key with Ok t => t | _ => [] end.

(** [CredentialExt::extract_identity] of [CredentialWithKey]; [ClientId::try_from] is given an
    empty string when the identity is not a string. *)
Definition extract_identity_with_key (c : CredentialWithKey) (cs : Z) (env : option PkiEnvironment) : res CredentialError MemberIdentity :=
  match certificates_of (leaf_credential c) with
  | Some chain => extract_identity_x509 chain cs env
  | None =>
      let id := mls_identity (leaf_credential c) in
      let client_id_bytes := if utf8_valid id then id else [] in
      let client_id := match client_id_from_bytes client_id_bytes with Ok id => Some id | _ => None end in
      thumbprint ← compute_thumbprint cs (leaf_signature_key c);
      Ok (MkMemberIdentity client_id thumbprint DeviceValid Basic None)
  end.
End identities.

(** ** Acquiring a credential through the bindings *)

(** [crypto-ffi]'s [CipherSuite]. *)
Inductive FfiCipherSuite : Type :=
  | FfiX25519Aes128Sha256Ed25519
  | FfiP256Aes128Sha256P256
  | FfiX25519ChaCha20Sha256Ed25519
  | FfiX448Aes256Sha512Ed448
  | FfiP521Aes256Sha512P521
  | FfiX448ChaCha20Sha512Ed448
  | FfiP384Aes256Sha384P384.

Definition ffi_suite_u16 (cs : FfiCipherSuite) : Z :=
  match cs with
  | FfiX25519Aes128Sha256Ed25519 => 1
  | FfiP256Aes128Sha256P256 => 2
  | FfiX25519ChaCha20Sha256Ed25519 => 3
  | FfiX448Aes256Sha512Ed448 => 4
  | FfiP521Aes256Sha512P521 => 5
  | FfiX448ChaCha20Sha512Ed448 => 6
  | FfiP384Aes256Sha384P384 => 7
  end.

#[export] Instance FfiCipherSuite_eq_dec : EqDecision FfiCipherSuite.
Proof. solve_decision. Defined.

(** What the application is told: [CoreCryptoError::E2ei], [Other] and conversions of errors. *)
Inductive AcquireError : Type :=
  | AcquireFailed (e : AcquisitionError)
  | AcquireDer
  | AcquireE2e (e : E2eIdentityError)
  | AcquireCredential (e : CredentialError)
  | AcquireCredentialRef (e : CredentialRefError)
  | AdHoc (msg : string)
  | GenericError.

(** [TryFrom<CipherSuite> for JwsAlgorithm] and its inverse. *)
Definition jws_algorithm_try_from (cs : FfiCipherSuite) : res AcquireError JwsAlgorithm :=
  match cs with
  | FfiX25519Aes128Sha256Ed25519 => Ok Ed25519
  | FfiP256Aes128Sha256P256 => Ok P256
  | FfiP384Aes256Sha384P384 => Ok P384
  | FfiP521Aes256Sha512P521 => Ok P521
  | _ => Err (AdHoc "cipher_suite is not supported for certificate acquisition")
  end.

Definition ffi_suite_from (alg : JwsAlgorithm) : FfiCipherSuite :=
  match alg with
  | Ed25519 => FfiX25519Aes128Sha256Ed25519
  | P256 => FfiP256Aes128Sha256P256
  | P384 => FfiP384Aes256Sha384P384
  | P521 => FfiP521Aes256Sha512P521
  end.

(** [X509CredentialAcquisitionConfiguration]. *)
Record AcquisitionConfiguration : Type := MkFfiConfig {
  cfg_directory_url : bytes;
  cfg_cipher_suite : FfiCipherSuite;
  cfg_display_name : bytes;
  cfg_client_id : bytes;
  cfg_handle : bytes;
  cfg_domain : bytes;
  cfg_team : option bytes;
  cfg_validity_period_secs : Z;
}.

Section acquiring.
Context `{X : Externals, O : OpenMls, Mc : MlsCredentials, Cc : !CredentialCertificates O Mc}.
Context `{U : UuidLib, T : AcmeTypes, L : X509Lib, P : !PkiLib L, R : !PathLib L, K : !AcmeLib T L, Q : !AcquisitionLib T L, H : PkiEnvironmentHooks}.
Context `{E : !E2eiIds T U, Ce : !CertificateLib O Mc T L}.

(** [try_into_core]. *)
Definition try_into_core (c : AcquisitionConfiguration) : res AcquireError X509CredentialConfiguration :=
  sign_alg ← jws_algorithm_try_from (cfg_cipher_suite c);
  client_id ← match as_e2ei_client_id (cfg_client_id c) with Ok id => Ok id | _ => Panic end;
  Ok (MkX509Config (cfg_directory_url c) sign_alg SHA256 (cfg_display_name c) client_id (cfg_handle c) (cfg_domain c)
        (cfg_team c) (cfg_validity_period_secs c)).

(** [AcquisitionState] and [X509CredentialAcquisition]. *)
Inductive AcquisitionState : Type :=
  | Initialized (inner : X509CredentialAcquisition ())
  | DpopCompleted (inner : X509CredentialAcquisition DpopChallengeCompleted)
  | InProgress
  | Finalized.

Record FfiAcquisition : Type := MkFfiAcquisition {
  acq_state : AcquisitionState;
  acq_cipher_suite : FfiCipherSuite;
}.

Definition set_acq_state (s : AcquisitionState) (a : FfiAcquisition) : FfiAcquisition :=
  MkFfiAcquisition s (acq_cipher_suite a).

(** [X509CredentialAcquisition::new]. *)
Definition ffi_acquisition_new (r1 r2 : nat) (c : AcquisitionConfiguration) : res AcquireError FfiAcquisition :=
  core ← try_into_core c;
  inner ← map_err AcquireE2e (try_new r1 r2 core);
  Ok (MkFfiAcquisition (Initialized inner) (cfg_cipher_suite c)).

(** [new_from_credential_ref], for the credential that was loaded. *)
Definition ffi_acquisition_new_from_credential (r : nat) (c : AcquisitionConfiguration) (ref_suite : FfiCipherSuite)
    (load : res CredentialRefError Credential) : res AcquireError FfiAcquisition :=
  if negb (bool_decide (cfg_cipher_suite c = ref_suite))
  then Err (AdHoc "config cipher suite doesn't match credential cipher suite") else
  credential ← map_err AcquireCredentialRef load;
  algorithm ← jws_algorithm_try_from (cfg_cipher_suite c);
  pem ← ok_or (key_pair_from_bytes algorithm (key_private (signature_key_pair credential))) (AcquireE2e E2eJwtSimpleError);
  core ← try_into_core c;
  inner ← map_err AcquireE2e (try_new_from_pem r core pem);
  Ok (MkFfiAcquisition (Initialized inner) (cfg_cipher_suite c)).

(** [from_bytes]. *)
Definition ffi_acquisition_from_bytes (bs : bytes) : res AcquireError FfiAcquisition :=
  snapshot ← map_err (fun _ => GenericError) (deserialize bs);
  Ok (MkFfiAcquisition (DpopCompleted snapshot) (ffi_suite_from (sign_alg (config snapshot)))).

(** [credential_from_acquisition_result]. *)
Definition credential_from_acquisition_result (cs : FfiCipherSuite) (signing_key_pem : Pem) (chain : list Certificate) :
    res AcquireError Credential :=
  sign_alg ← jws_algorithm_try_from cs;
  signing_key ← ok_or (key_pair_to_bytes sign_alg signing_key_pem) GenericError;
  chain ← mapM (fun c => ok_or (cert_to_der c) AcquireDer) chain;
  map_err AcquireCredential
    (credential_x509 (ffi_suite_u16 cs) (MkBundle chain signing_key (suite_signature (ffi_suite_u16 cs)))).

(** [finalize]: the state is taken, and put back when the second challenge has been tried; the
    first one returns early.  The state of the computation is the object, and the calls to the
    application. *)
Definition ffi_finalize (env : PkiEnvironment) : st (FfiAcquisition * list HookCall) AcquireError Credential :=
  fun '(a, calls) =>
  let finish (r : res AcquisitionError (Pem * list Certificate)) (calls : list HookCall) :=
    match r with
    | Ok (signing_key_pem, chain) =>
        (credential_from_acquisition_result (acq_cipher_suite a) signing_key_pem chain, (set_acq_state Finalized a, calls))
    | Err e => (Err (AcquireFailed e), (set_acq_state Finalized a, calls))
    | Panic => (Panic, (set_acq_state InProgress a, calls))
    end in
  match acq_state a with
  | Initialized inner =>
      match complete_dpop_challenge inner calls with
      | (Ok completed, calls) => let '(r, calls) := complete_oidc_challenge env completed calls in finish r calls
      | (Err e, calls) => (Err (AcquireFailed e), (set_acq_state InProgress a, calls))
      | (Panic, calls) => (Panic, (set_acq_state InProgress a, calls))
      end
  | DpopCompleted inner => let '(r, calls) := complete_oidc_challenge env inner calls in finish r calls
  | InProgress => (Err (AdHoc "x509 credential acquisition is already in progress"), (set_acq_state InProgress a, calls))
  | Finalized => (Err (AdHoc "x509 credential acquisition has already been finalized"), (set_acq_state InProgress a, calls))
  end.
End acquiring.
