(* ===== verification/X509CredentialProps.v ===== *)
(** * Properties of X.509 credentials

    A credential acquired through the bindings shows the identity that was configured; an
    acquisition is carried out at most once, and what later calls are told; client ids in their
    two forms. *)

From S2P Require Import Prelude Keys EntityTypes Entities Sql KeystoreErrors CryptoErrors CryptoProvider OpenMls ClientIds MlsMessages Credentials X509Check PkiEnv Acme Acquisition AcquisitionProps CredentialCheck X509Credentials.
From Stdlib Require Import Lia ZArith.

(** ** Client ids *)

Lemma split_all_no d s : d ∉ s -> split_all d s = [s].
Proof.
  induction s as [|b s IH]; intros Hd; [done|]. apply not_elem_of_cons in Hd as [Hne Hd]. cbn.
  rewrite decide_False by done. by rewrite IH.
Qed.

Lemma split_all_app d l r : d ∉ l -> split_all d (l ++ d :: r) = l :: split_all d r.
Proof.
  induction l as [|b l IH]; intros Hd; cbn [app split_all].
  - by rewrite decide_True.
  - apply not_elem_of_cons in Hd as [Hne Hd]. rewrite decide_False by done. by rewrite IH.
Qed.

(** The two forms of a client id, with a hyphenated user id and with one in base64, are
    translated into each other, for every user and any device and domain without a colon. *)
Theorem client_id_forms_roundtrip `{U : UuidLib, !UuidLaws U, B : Base64Lib, Ub : !UuidBytes U, !IdentifierLaws B Ub} u rest :
  COLON ∉ rest ->
  let wire := hyphenated u ++ [COLON] ++ rest in
  let e2ei := base64_encode (uuid_as_bytes u) ++ [COLON] ++ rest in
  qualified_e2ei_try_from wire = Ok e2ei /\ wire_qualified_try_from e2ei = Ok wire /\
  wire_qualified_get_user_id wire = Ok (hyphenated u).
Proof.
  intros Hrest wire e2ei.
  assert (split_all COLON wire = [hyphenated u; rest]) as Hw.
  { unfold wire. cbn [app]. rewrite split_all_app by apply hyphenated_no, eq_refl. by rewrite split_all_no. }
  assert (split_all COLON e2ei = [base64_encode (uuid_as_bytes u); rest]) as He.
  { unfold e2ei. cbn [app]. rewrite split_all_app by apply base64_no_colon. by rewrite split_all_no. }
  assert (utf8_valid (hyphenated u) = true) as Hutf.
  { rewrite <- (app_nil_r (hyphenated u)). by rewrite utf8_valid_ascii_app by apply hyphenated_ascii. }
  unfold qualified_e2ei_try_from, wire_qualified_try_from, wire_qualified_get_user_id.
  rewrite Hw, He, Hutf, uuid_parse_print, base64_roundtrip. cbn [ok_or mbind res_bind].
  by rewrite uuid_parse_print, uuid_roundtrip.
Qed.

(** ** The identity of a credential *)

Section identity.
Context `{X : Externals, O : OpenMls, Mc : MlsCredentials, Cc : !CredentialCertificates O Mc}.
Context `{U : UuidLib, T : AcmeTypes, L : X509Lib, P : !PkiLib L, R : !PathLib L, K : !AcmeLib T L, Q : !AcquisitionLib T L, H : PkiEnvironmentHooks}.
Context `{E : !E2eiIds T U, Ce : !CertificateLib O Mc T L}.

(** What is read from a certificate depends on the environment and on the hash algorithm only in
    its status and its thumbprint. *)
Lemma extract_identity_same env h env' h' c i i' :
  extract_identity env h c = Ok i -> extract_identity env' h' c = Ok i' ->
  identity_client_id i' = identity_client_id i /\ identity_handle i' = identity_handle i /\
  identity_display_name i' = identity_display_name i /\ identity_domain i' = identity_domain i.
Proof.
  unfold extract_identity. intros ([id hd] & Hsan & Hi)%bind_Ok. rewrite Hsan. cbn [mbind res_bind].
  apply bind_Ok in Hi as ([name dom] & Hsub & Hi). rewrite Hsub. cbn [mbind res_bind].
  apply bind_Ok in Hi as (t & _ & [= <-]). intros (t' & _ & [= <-])%bind_Ok. done.
Qed.

Lemma extract_identity_hash env env' h c i :
  extract_identity env h c = Ok i -> is_ok (extract_identity env' h c) = true.
Proof.
  unfold extract_identity. intros ([id hd] & Hsan & Hi)%bind_Ok. rewrite Hsan. cbn [mbind res_bind].
  apply bind_Ok in Hi as ([name dom] & Hsub & Hi). rewrite Hsub. cbn [mbind res_bind].
  apply bind_Ok in Hi as (t & Ht & _). by rewrite Ht.
Qed.

Lemma mapM_Ok_Forall2 {F A C} (f : A -> res F C) l k : mapM f l = Ok k -> Forall2 (fun x y => f x = Ok y) l k.
Proof.
  revert k. induction l as [|x l IH]; intros k; [intros [= <-]; constructor|]. cbn.
  destruct (f x) as [y| |] eqn:Hy; [|done..]. cbn. destruct (mapM f l) as [ys| |]; [|done..]. intros [= <-].
  constructor; [done|by apply IH].
Qed.

Lemma credential_from_result_Ok cs kp certs credential :
  credential_from_acquisition_result cs kp certs = Ok credential ->
  credential_type credential = X509 /\ credential_cipher_suite credential = ffi_suite_u16 cs /\
  exists alg sk chain, jws_algorithm_try_from cs = Ok alg /\ key_pair_to_bytes alg kp = Some sk /\
    Forall2 (fun c der => cert_to_der c = Some der) certs chain /\
    new_x509 chain = Some (mls_credential credential) /\ certificate_key_pair sk chain = Some (signature_key_pair credential).
Proof.
  unfold credential_from_acquisition_result. intros (alg & Halg & Hr)%bind_Ok. apply bind_Ok in Hr as (sk & Hsk & Hr).
  apply bind_Ok in Hr as (chain & Hc%mapM_Ok_Forall2 & Hr).
  destruct (credential_x509 _ _) as [c| |] eqn:Hx; [injection Hr as ->|done..].
  unfold credential_x509 in Hx. apply bind_Ok in Hx as (v & _ & Hx). apply bind_Ok in Hx as (keys & Hk & Hx).
  apply bind_Ok in Hx as (m & Hm & [= <-]). cbn in Hk, Hm |- *.
  split_and!; [done|done|]. exists alg, sk, chain. destruct (key_pair_to_bytes alg kp) as [sk'|]; [injection Hsk as ->|done].
  destruct (certificate_key_pair sk chain); [injection Hk as ->|done]. destruct (new_x509 chain); [injection Hm as ->|done].
  split_and!; try done. eapply Forall2_impl; [exact Hc|]. intros x der Hx. cbn in Hx. by destruct (cert_to_der x); [injection Hx as ->|].
Qed.

(** ** Finalizing *)

(** The configuration and the keys of an object that has not been finalized. *)
Definition acq_config (a : FfiAcquisition) : option (X509CredentialConfiguration * Pem) :=
  match acq_state a with
  | Initialized inner => Some (config inner, sign_kp inner)
  | DpopCompleted inner => Some (config inner, sign_kp inner)
  | _ => None
  end.

Lemma ffi_finalize_Ok env a calls credential a' calls' :
  ffi_finalize env (a, calls) = (Ok credential, (a', calls')) ->
  acq_state a' = Finalized /\
  exists cfg kp certs, acq_config a = Some (cfg, kp) /\ verify_cert_chain cfg env kp certs = Ok () /\
    credential_from_acquisition_result (acq_cipher_suite a) kp certs = Ok credential.
Proof.
  unfold ffi_finalize, acq_config. intros Hf. destruct (acq_state a) as [inner|inner| |] eqn:Hs; [..|done|done].
  - destruct (complete_dpop_challenge inner calls) as [[completed| |] calls1] eqn:Hd; [|done..].
    apply complete_dpop_Ok in Hd as (Hcfg & Hkp & _).
    destruct (complete_oidc_challenge env completed calls1) as [[[kp certs]| |] calls2] eqn:Ho; [|done..].
    apply complete_oidc_Ok in Ho as (-> & Hv & _). rewrite Hcfg, Hkp in *. injection Hf as Hc <- <-. eauto 10.
  - destruct (complete_oidc_challenge env inner calls) as [[[kp certs]| |] calls2] eqn:Ho; [|done..].
    apply complete_oidc_Ok in Ho as (-> & Hv & _). injection Hf as Hc <- <-. eauto 10.
Qed.

Lemma verify_chain_leaf cfg env kp certs :
  verify_cert_chain cfg env kp certs = Ok () ->
  exists leaf rest i, certs = leaf :: rest /\ key_pair_public_key (sign_alg cfg) kp = Some (cert_public_key leaf) /\
    extract_identity env (hash_alg cfg) leaf = Ok i /\ try_from_qualified (identity_client_id i) = Some (client_id cfg) /\
    identity_display_name i = display_name cfg /\ try_to_qualified (handle cfg) (domain cfg) = Some (identity_handle i) /\
    identity_domain i = domain cfg.
Proof.
  unfold verify_cert_chain. destruct certs as [|leaf chain]; [done|]. intros (inner & _ & Hv)%bind_Ok.
  apply bind_Ok in Hv as ([] & Hleaf & _). apply verify_leaf_Ok in Hleaf as (_ & _ & Hkey & i & Hi & Hc & Hn & Hh & Hd).
  by exists leaf, chain, i.
Qed.

(** What a member shows whose credential has this chain, for the configuration it was checked
    against. *)
Lemma shown_identity `{!CertificateLaws Cc Q Ce} env leaf chain rest cfg i :
  extract_identity env (hash_alg cfg) leaf = Ok i -> try_from_qualified (identity_client_id i) = Some (client_id cfg) ->
  Forall2 (fun c der => cert_to_der c = Some der) (leaf :: rest) chain ->
  forall cs env',
    (forall identity, extract_identity_x509 chain cs (Some env') = Ok identity ->
      mi_client_id identity = Some (from_e2ei_client_id (client_id cfg)) /\ mi_credential_type identity = X509 /\
      exists x, mi_x509_identity identity = Some x /\ x509_display_name x = identity_display_name i /\
        x509_domain x = identity_domain i /\ x509_handle x = handle_as_str (identity_handle i)) /\
    (e2ei_hash_alg cs = hash_alg cfg -> (forall der, is_Some (der_to_pem der)) ->
      is_ok (extract_identity_x509 chain cs (Some env')) = true).
Proof.
  intros Hi Hid Hc cs env'. inversion Hc as [|? der ? chain' Hder Hrest]; subst.
  pose proof (cert_der_roundtrip _ _ Hder) as Hleaf. unfold extract_identity_x509, extract_identity_der. cbn [ok_or mbind res_bind head].
  rewrite Hleaf. cbn [ok_or mbind res_bind]. split.
  - intros identity (i' & Hi' & Hr)%bind_Ok. destruct (extract_identity env' _ leaf) as [i''| |] eqn:He; [injection Hi' as ->|done..].
    destruct (extract_identity_same _ _ _ _ _ _ _ Hi He) as (Hsid & Hsh & Hsn & Hsd).
    destruct (member_identity_try_from i' der) as [m| |] eqn:Hm; [injection Hr as ->|done..].
    unfold member_identity_try_from in Hm. apply bind_Ok in Hm as (pem & _ & Hm). apply bind_Ok in Hm as (id & Hq & [= <-]).
    unfold try_from_str_with_base64_user_id in Hq. rewrite Hsid, Hid in Hq. injection Hq as <-. cbn.
    split_and!; [done|done|]. eexists. split_and!; [done|..]; cbn; congruence.
  - intros Hh Hpem. rewrite Hh. pose proof (extract_identity_hash _ env' _ _ _ Hi) as Hok.
    destruct (extract_identity env' (hash_alg cfg) leaf) as [i'| |] eqn:He; [|done..]. cbn [map_err mbind res_bind].
    destruct (extract_identity_same _ _ _ _ _ _ _ Hi He) as (Hsid & _). unfold member_identity_try_from, try_from_str_with_base64_user_id.
    destruct (Hpem der) as [pem ->]. cbn [ok_or mbind res_bind]. by rewrite Hsid, Hid.
Qed.

Lemma try_into_core_Ok c cfg : try_into_core c = Ok cfg ->
  jws_algorithm_try_from (cfg_cipher_suite c) = Ok (sign_alg cfg) /\ hash_alg cfg = SHA256 /\
  display_name cfg = cfg_display_name c /\ handle cfg = cfg_handle c /\ domain cfg = cfg_domain c /\
  as_e2ei_client_id (cfg_client_id c) = Ok (client_id cfg).
Proof.
  unfold try_into_core. intros (alg & Halg & Hr)%bind_Ok. apply bind_Ok in Hr as (id & Hid & [= <-]). cbn.
  destruct (as_e2ei_client_id _); [injection Hid as ->|done..]. done.
Qed.

Lemma ffi_new_Ok r1 r2 c a : ffi_acquisition_new r1 r2 c = Ok a ->
  acq_cipher_suite a = cfg_cipher_suite c /\ exists cfg inner, try_into_core c = Ok cfg /\ acq_state a = Initialized inner /\ config inner = cfg.
Proof.
  unfold ffi_acquisition_new. intros (cfg & Hcfg & Hr)%bind_Ok. apply bind_Ok in Hr as (inner & Hi & [= <-]). cbn.
  split; [done|]. exists cfg, inner. split_and!; [done|done|]. unfold try_new in Hi.
  destruct (generate_key r1 _); [|done]. cbn in Hi. destruct (generate_key r2 _); [|done]. cbn in Hi.
  destruct (public_jwk_from_pem_keypair _ _); [|done..]. cbn in Hi. by injection Hi as <-.
Qed.
End identity.

(** ** The properties *)

(** C10: A credential acquired through the bindings is that of the configured client: it has the
    configured cipher suite and the key pair the certificate was requested for, and whoever reads
    its identity, in any environment and group, is shown the configured client id, display name,
    domain and handle. *)
Theorem acquired_credential_identity
    `{O : OpenMls, Mc : MlsCredentials, Cc : !CredentialCertificates O Mc, U : UuidLib, !UuidLaws U, T : AcmeTypes, L : X509Lib,
      P : !PkiLib L, R : !PathLib L, K : !AcmeLib T L, Q : !AcquisitionLib T L, H : PkiEnvironmentHooks, E : !E2eiIds T U, !E2eiIdLaws E,
      Ce : !CertificateLib O Mc T L, !CertificateLaws Cc Q Ce}
    r1 r2 c a env calls credential a' calls' u d dom :
  cfg_client_id c = client_id_new u d dom -> (0 <= d < 2 ^ 64)%Z -> utf8_valid dom = true ->
  ffi_acquisition_new r1 r2 c = Ok a -> ffi_finalize env (a, calls) = (Ok credential, (a', calls')) ->
  credential_type credential = X509 /\ credential_cipher_suite credential = ffi_suite_u16 (cfg_cipher_suite c) /\
  exists inner alg chain,
    acq_state a = Initialized inner /\ jws_algorithm_try_from (cfg_cipher_suite c) = Ok alg /\
    certificates_of (mls_credential credential) = Some chain /\
    key_pair_public_key alg (sign_kp inner) = Some (key_public (signature_key_pair credential)) /\
    key_pair_to_bytes alg (sign_kp inner) = Some (key_private (signature_key_pair credential)) /\
    forall cs env',
      (forall identity, extract_identity_x509 chain cs (Some env') = Ok identity ->
        mi_client_id identity = Some (cfg_client_id c) /\ mi_credential_type identity = X509 /\
        exists x h, mi_x509_identity identity = Some x /\ x509_display_name x = cfg_display_name c /\ x509_domain x = cfg_domain c /\
          try_to_qualified (cfg_handle c) (cfg_domain c) = Some h /\ x509_handle x = handle_as_str h) /\
      (e2ei_hash_alg cs = SHA256 -> (forall der, is_Some (der_to_pem der)) -> is_ok (extract_identity_x509 chain cs (Some env')) = true).
Proof.
  intros Hid Hd Hdom (Hsuite & cfg & inner & Hcfg & Hst & Hconf)%ffi_new_Ok (_ & cfg' & kp & certs & Hac & Hv & Hcr)%ffi_finalize_Ok.
  unfold acq_config in Hac. rewrite Hst, Hconf in Hac. injection Hac as <- <-.
  apply try_into_core_Ok in Hcfg as (Halg & Hhash & Hname & Hhandle & Hdomain & Hcid).
  apply verify_chain_leaf in Hv as (leaf & rest & i & -> & Hkey & Hi & Hq & Hin & Hih & Hidm).
  rewrite Hsuite in Hcr. apply credential_from_result_Ok in Hcr as (Hty & Hcs & alg & sk & chain & Halg' & Hsk & Hchain & Hx & Hkeys).
  rewrite Halg in Halg'. injection Halg' as <-. split_and!; [done|done|]. exists inner, (sign_alg cfg), chain.
  pose proof (certificate_key_pair_leaf _ _ _ Hkeys) as (Hpriv & der & leaf' & Hh & Hder & Hpub).
  assert (leaf' = leaf) as ->.
  { inversion Hchain as [|? der' ? ? Hd']; subst. injection Hh as ->. apply cert_der_roundtrip in Hd'. congruence. }
  split_and!; [done|done|by apply new_x509_certificates|by rewrite Hkey, Hpub|by rewrite Hpriv|].
  assert (from_e2ei_client_id (client_id cfg) = cfg_client_id c) as Heq.
  { unfold as_e2ei_client_id in Hcid. destruct (client_id_roundtrip u d dom Hd Hdom) as (Hp & _ & _).
    rewrite Hid, Hp in Hcid. destruct (e2ei_try_new _ _ _) as [e|] eqn:He; [injection Hcid as <-|done].
    unfold from_e2ei_client_id. by rewrite (e2ei_new_parts _ _ _ _ He). }
  intros cs env'. destruct (shown_identity env leaf chain rest cfg i Hi Hq Hchain cs env') as [Hshown Hok]. split.
  - intros identity (Hs1 & Hs2 & x & Hx1 & Hx2 & Hx3 & Hx4)%Hshown. rewrite Heq in Hs1. split_and!; [done|done|].
    exists x, (identity_handle i). rewrite Hhandle, Hdomain in Hih. split_and!; try done; congruence.
  - rewrite <- Hhash. exact Hok.
Qed.

(** ** A concrete acquisition *)

Definition demo_client_id : bytes := client_id_new demo_uuid 48879 (bstr "wire.com").

(** One client id is known to the library, under the name the example certificate has. *)
#[export] Instance toy_e2ei_ids : E2eiIds toy_acme_types toy_uuid := {|
  e2ei_try_new u d domain :=
    if decide ((u, d, domain) = (hyphenated demo_uuid, 48879%Z, bstr "wire.com")) then Some (bstr "client") else None;
  e2ei_parts _ := (demo_uuid, 48879%Z, bstr "wire.com");
|}.

#[export] Instance toy_e2ei_ids_laws : E2eiIdLaws toy_e2ei_ids.
Proof.
  split. intros u d domain c. cbn. case_decide as Hdec; [|done]. intros _. injection Hdec as Hu -> ->. f_equal. f_equal.
  apply (f_equal uuid_try_parse) in Hu. change (uuid_try_parse (hyphenated u) = uuid_try_parse (hyphenated demo_uuid)) in Hu.
  rewrite !uuid_parse_print in Hu. by injection Hu.
Qed.

(** The credential of one certificate. *)
#[export] Instance toy_certificate_lib : CertificateLib toy_openmls toy_mixed toy_acme_types toy_x509 := {|
  new_x509 chain := match chain with [c] => Some (x78 :: c : MlsCredential (MlsCredentials := toy_mixed)) | _ => None end;
  certificate_key_pair sk chain := match chain with der :: _ => Some (MkKeys 1 sk der) | [] => None end;
  der_to_pem := Some;
  key_pair_to_bytes _ kp := Some (kp : bytes);
  key_pair_from_bytes _ kp := Some kp;
  suite_signature _ := ED25519;
  suite_hash _ := Sha2_256;
|}.

#[export] Instance toy_certificate_laws : CertificateLaws toy_certificates toy_acquisition toy_certificate_lib.
Proof.
  split.
  - intros [|c [|? ?]] m Hm; [discriminate Hm| |discriminate Hm]. by injection Hm as <-.
  - intros sk [|der chain] keys Hk; [discriminate Hk|]. injection Hk as <-. cbn. split; [done|]. by exists der, der.
  - intros c der. cbn. congruence.
Qed.

Definition demo_configuration : AcquisitionConfiguration :=
  MkFfiConfig (bstr "directory") FfiX25519Aes128Sha256Ed25519 (bstr "name") demo_client_id (bstr "handle") (bstr "domain") None 1000.

Definition demo_acquisition : FfiAcquisition := MkFfiAcquisition (Initialized toy_initialized) FfiX25519Aes128Sha256Ed25519.
Definition demo_credential : Credential (Mc := toy_mixed) :=
  MkCredential (Mc := toy_mixed) 1 X509 (bstr "xsign") (MkKeys 1 (bstr "sign") (bstr "sign")) 0.

Lemma demo_acquisition_new : ffi_acquisition_new 0 1 demo_configuration = Ok demo_acquisition.
Proof. reflexivity. Qed.

Lemma demo_finalize :
  ffi_finalize (Mc := toy_mixed) demo_pki (demo_acquisition, []) =
  (Ok demo_credential, (set_acq_state Finalized demo_acquisition, snd demo_oidc)).
Proof.
  unfold ffi_finalize. cbn [acq_state demo_acquisition]. rewrite demo_dpop_run. rewrite demo_oidc_run. reflexivity.
Qed.

Lemma acquired_credential_identity_witness :
  exists chain, certificates_of (CredentialCertificates := toy_certificates) (mls_credential demo_credential) = Some chain /\
    forall identity, extract_identity_x509 (Mc := toy_mixed) chain 1 (Some demo_pki) = Ok identity ->
      mi_client_id identity = Some demo_client_id.
Proof.
  destruct (acquired_credential_identity (Mc := toy_mixed) (Cc := toy_certificates) 0 1 demo_configuration demo_acquisition
    demo_pki [] demo_credential _ _ demo_uuid 48879 (bstr "wire.com") eq_refl ltac:(lia) eq_refl demo_acquisition_new demo_finalize)
    as (_ & _ & inner & alg & chain & _ & _ & Hc & _ & _ & Hs).
  exists chain. split; [exact Hc|]. intros identity Hi. destruct (Hs 1%Z demo_pki) as [Hid _]. exact (proj1 (Hid identity Hi)).
Defined.

(** ** Repeated calls *)

Section repeated.
Context `{X : Externals, O : OpenMls, Mc : MlsCredentials, Cc : !CredentialCertificates O Mc}.
Context `{U : UuidLib, T : AcmeTypes, L : X509Lib, P : !PkiLib L, R : !PathLib L, K : !AcmeLib T L, Q : !AcquisitionLib T L, H : PkiEnvironmentHooks}.
Context `{E : !E2eiIds T U, Ce : !CertificateLib O Mc T L}.

(** [finalize] called again and again, in whatever environments. *)
Fixpoint finalize_again (envs : list PkiEnvironment) (s : FfiAcquisition * list HookCall) :
    list (res AcquireError Credential) * (FfiAcquisition * list HookCall) :=
  match envs with
  | [] => ([], s)
  | env :: envs =>
      let '(r, s) := ffi_finalize env s in let '(rs, s) := finalize_again envs s in (r :: rs, s)
  end.

Definition started (a : FfiAcquisition) : Prop := acq_state a = InProgress \/ acq_state a = Finalized.

Lemma finalize_starts env a calls : started (fst (snd (ffi_finalize env (a, calls)))).
Proof.
  unfold ffi_finalize. destruct (acq_state a) as [inner|inner| |]; [| |by left|by left].
  - destruct (complete_dpop_challenge inner calls) as [[completed| |] calls1]; [|by left|by left].
    destruct (complete_oidc_challenge env completed calls1) as [[[kp certs]| |] calls2]; [by right|by right|by left].
  - destruct (complete_oidc_challenge env inner calls) as [[[kp certs]| |] calls2]; [by right|by right|by left].
Qed.

Lemma finalize_started env a calls :
  started a -> exists msg, ffi_finalize env (a, calls) = (Err (AdHoc msg), (set_acq_state InProgress a, calls)).
Proof. unfold ffi_finalize. intros [-> | ->]; eauto. Qed.

Lemma finalize_again_started envs a calls : started a ->
  Forall (fun r => exists msg, r = Err (AdHoc msg)) (fst (finalize_again envs (a, calls))) /\
  snd (snd (finalize_again envs (a, calls))) = calls.
Proof.
  revert a. induction envs as [|env envs IH]; intros a Ha; [done|]. cbn [finalize_again].
  destruct (finalize_started env a calls Ha) as [msg ->]. destruct (IH (set_acq_state InProgress a)) as [Hr Hc]; [by left|].
  destruct (finalize_again envs _) as [rs s]. cbn in *. split; [|done]. constructor; [eauto|done].
Qed.
End repeated.

(** However often an acquisition is finalized, only the first call asks the application
    anything and only it can return a credential; all later ones are refused. *)
Theorem acquisition_finalized_once
    `{O : OpenMls, Mc : MlsCredentials, T : AcmeTypes, L : X509Lib, P : !PkiLib L,
      R : !PathLib L, K : !AcmeLib T L, Q : !AcquisitionLib T L, H : PkiEnvironmentHooks, Ce : !CertificateLib O Mc T L}
    env envs a calls :
  let '(r, s) := ffi_finalize env (a, calls) in
  let '(rs, s') := finalize_again (env :: envs) (a, calls) in
  head rs = Some r /\ Forall (fun r' => exists msg, r' = Err (AdHoc msg)) (tail rs) /\ snd s' = snd s.
Proof.
  pose proof (finalize_starts env a calls) as Hs. cbn [finalize_again]. destruct (ffi_finalize env (a, calls)) as [r [a1 calls1]].
  destruct (finalize_again_started envs a1 calls1 Hs) as [Hr Hc].
  destruct (finalize_again envs (a1, calls1)) as [rs s']. done.
Qed.

(** C29: A failed DPoP challenge leaves the acquisition marked as in progress although nothing is,
    and the refusal of a call after the end marks it so, too. *)
Theorem failed_acquisition_in_progress
    `{O : OpenMls, Mc : MlsCredentials, T : AcmeTypes, L : X509Lib, P : !PkiLib L,
      R : !PathLib L, K : !AcmeLib T L, Q : !AcquisitionLib T L, H : PkiEnvironmentHooks, Ce : !CertificateLib O Mc T L}
    env env' env'' a calls :
  (forall inner e calls', acq_state a = Initialized inner -> complete_dpop_challenge inner calls = (Err e, calls') ->
    exists a', ffi_finalize env (a, calls) = (Err (AcquireFailed e), (a', calls')) /\
      fst (ffi_finalize env' (a', calls')) = Err (AdHoc "x509 credential acquisition is already in progress")) /\
  (acq_state a = Finalized ->
    fst (finalize_again [env'; env''] (a, calls)) =
      [Err (AdHoc "x509 credential acquisition has already been finalized"); Err (AdHoc "x509 credential acquisition is already in progress")]).
Proof.
  split.
  - intros inner e calls' Hs Hd. exists (set_acq_state InProgress a). unfold ffi_finalize at 1. by rewrite Hs, Hd.
  - intros Hs. cbn. unfold ffi_finalize. by rewrite Hs.
Qed.

(** A snapshot resumes the acquisition with the cipher suite it was started with. *)
Theorem resumed_acquisition_suite
    `{U : UuidLib, T : AcmeTypes, L : X509Lib, P : !PkiLib L, K : !AcmeLib T L, Q : !AcquisitionLib T L, !AcquisitionLibLaws Q,
      H : PkiEnvironmentHooks, E : !E2eiIds T U} r1 r2 c a inner calls completed calls' s :
  ffi_acquisition_new r1 r2 c = Ok a -> acq_state a = Initialized inner ->
  complete_dpop_challenge inner calls = (Ok completed, calls') -> ser_acquisition completed = Some s ->
  ffi_acquisition_from_bytes s = Ok (MkFfiAcquisition (DpopCompleted completed) (cfg_cipher_suite c)).
Proof.
  intros (_ & cfg & inner' & Hcfg & Hst & Hconf)%ffi_new_Ok Hs (Hc & _)%complete_dpop_Ok Hser. rewrite Hst in Hs. injection Hs as ->.
  apply try_into_core_Ok in Hcfg as (Halg & _). unfold ffi_acquisition_from_bytes, deserialize.
  rewrite (acquisition_roundtrip _ _ Hser). cbn. rewrite Hc, Hconf.
  by destruct (cfg_cipher_suite c); try discriminate Halg; injection Halg as <-.
Qed.

(** ** Concrete calls *)

(** An encoding without colons, and an identifier of one byte. *)
Definition toy_encode_byte (b : byte) : bytes :=
  match b with x3a => [x00; x01] | x00 => [x00; x00] | b => [b] end.

Fixpoint toy_decode (s : bytes) : option bytes :=
  match s with
  | [] => Some []
  | x00 :: x01 :: s => cons COLON <$> toy_decode s
  | x00 :: x00 :: s => cons x00 <$> toy_decode s
  | x00 :: _ => None
  | b :: s => cons b <$> toy_decode s
  end.

#[export] Instance toy_base64 : Base64Lib := {| base64_encode := flat_map toy_encode_byte; base64_decode := toy_decode |}.

#[export] Instance toy_uuid_bytes : UuidBytes toy_uuid := {|
  uuid_as_bytes u := if (u : bool) then [x01] else [x02];
  uuid_from_slice s := match s with [x01] => Some (true : Uuid (UuidLib := toy_uuid)) | [x02] => Some (false : Uuid (UuidLib := toy_uuid)) | _ => None end;
|}.

#[export] Instance toy_identifier_laws : IdentifierLaws toy_base64 toy_uuid_bytes.
Proof.
  split.
  - intros s. cbn. induction s as [|b s IH]; [done|]. change (flat_map toy_encode_byte (b :: s)) with (toy_encode_byte b ++ flat_map toy_encode_byte s).
    destruct b; cbn [toy_encode_byte app toy_decode]; by rewrite IH.
  - intros s. cbn. induction s as [|b s IH]; [apply not_elem_of_nil|]. cbn. rewrite not_elem_of_app. split; [|exact IH].
    destruct b; cbn; rewrite ?not_elem_of_cons; repeat split; first [discriminate|apply not_elem_of_nil].
  - by intros [].
Qed.

Lemma client_id_forms_roundtrip_witness :
  wire_qualified_try_from (base64_encode (uuid_as_bytes demo_uuid) ++ [COLON] ++ bstr "beef@wire.com") =
  Ok (hyphenated demo_uuid ++ [COLON] ++ bstr "beef@wire.com").
Proof.
  refine (proj1 (proj2 (client_id_forms_roundtrip demo_uuid (bstr "beef@wire.com") _))).
  apply (bool_decide_eq_true_1 (COLON ∉ bstr "beef@wire.com")). vm_compute. reflexivity.
Defined.

(** An application that answers nothing. *)
Definition deaf_hooks : PkiEnvironmentHooks := {| answer_http _ := None; answer_string _ := None; clock _ := 0%Z |}.

Lemma failed_acquisition_in_progress_witness :
  exists a' calls', ffi_finalize (Mc := toy_mixed) (H := deaf_hooks) demo_pki (demo_acquisition, []) = (Err (AcquireFailed HookFailed), (a', calls')) /\
    fst (ffi_finalize (Mc := toy_mixed) (H := deaf_hooks) demo_pki (a', calls')) = Err (AdHoc "x509 credential acquisition is already in progress").
Proof.
  destruct (proj1 (failed_acquisition_in_progress (Mc := toy_mixed) (H := deaf_hooks) demo_pki demo_pki demo_pki demo_acquisition [])
    toy_initialized HookFailed (snd (complete_dpop_challenge (H := deaf_hooks) toy_initialized [])) eq_refl eq_refl) as (a' & Hf & Hg).
  exists a'. eexists. split; [exact Hf|exact Hg].
Defined.

Lemma resumed_acquisition_suite_witness :
  ffi_acquisition_from_bytes (bstr "snapshot") = Ok (MkFfiAcquisition (DpopCompleted toy_completed) FfiX25519Aes128Sha256Ed25519).
Proof.
  exact (resumed_acquisition_suite 0 1 demo_configuration demo_acquisition toy_initialized [] toy_completed demo_calls (bstr "snapshot")
    demo_acquisition_new eq_refl demo_dpop_run eq_refl).
Defined.
