(* ===== verification/NativeConnection.v ===== *)
(** * The SQLCipher connection

    [keystore/src/connection/platform/generic/mod.rs]: opening an encrypted database in a file or
    in memory, changing its key, the migration of a database with a passphrase to one with a key
    of bytes, copies and removal.  A file has the key it is encrypted with and the state the
    migrations work on; a connection has its own idea of the key, which SQLCipher checks when a
    statement first reads the file.  A connection to a file that was removed meanwhile is not
    followed. *)

From S2P Require Import Prelude Keys Entities Sql KeystoreErrors CryptoErrors ClientIds Migrations.
From Stdlib Require Import Lia ZArith.

(** ** SQLCipher *)

(** The library: [derive_key] is the key of the argument of the pragmas [key] and [rekey],
    [not_a_database] the error of a statement on a file with another key.  A path may not be
    opened, [rekey] may fail and leave the key as it was, and so may [VACUUM INTO], which gives
    the copy a schema version of its own. *)
Class SqlCipher : Type := {
  CipherKey : Type;
  CipherKey_eq_dec :: EqDecision CipherKey;
  derive_key : bytes -> CipherKey;
  not_a_database : SqlError;
  open_error : string -> option SqlError;
  rekey_error : Connection -> CipherKey -> option SqlError;
  vacuum_error : string -> option SqlError;
  destination_exists : SqlError;
  vacuumed_version : Z -> Z;
}.

(** The argument of the pragmas for a key of bytes: [x'...'], with [hex::encode]. *)
Definition hex_encode_byte (b : byte) : bytes := [hex_digit (byte_to_Z b / 16); hex_digit (byte_to_Z b mod 16)].

Definition raw_key (key : bytes) : bytes := [x78; x27] ++ (key ≫= hex_encode_byte) ++ [x27].

(** "The raw key data is used directly, without key derivation": 64 hexadecimal digits are a
    key of 32 bytes. *)
Class SqlCipherLaws (C : SqlCipher) : Prop := {
  derive_key_raw digits digits' :
    length digits = 64 -> length digits' = 64 ->
    Forall (fun b => is_Some (hex_value b)) digits -> Forall (fun b => is_Some (hex_value b)) digits' ->
    derive_key ([x78; x27] ++ digits ++ [x27]) = derive_key ([x78; x27] ++ digits' ++ [x27]) ->
    map hex_value digits = map hex_value digits';
}.

(** ** Files and connections *)

Record DbFile (K : Type) : Type := MkDbFile { db_key : K; db_conn : Connection }.

Arguments MkDbFile {K}.
Arguments db_key {K}.
Arguments db_conn {K}.

(** The files, and the temporary databases of the connections opened with an empty path. *)
Record Disk (K : Type) : Type := MkDisk { files : gmap string (DbFile K); temporaries : list (option (DbFile K)) }.

Arguments MkDisk {K}.
Arguments files {K}.
Arguments temporaries {K}.

Inductive Handle : Type := OnDisk (path : string) | Temporary (n : nat).

(** [rusqlite::Connection], after the key pragma. *)
Record RawConnection (K : Type) : Type := MkRaw { raw_at : Handle; raw_cipher_key : K }.

Arguments MkRaw {K}.
Arguments raw_at {K}.
Arguments raw_cipher_key {K}.

Record SqlCipherConnection (K : Type) : Type := MkSqlCipher { sc_conn : RawConnection K; path : string }.

Arguments MkSqlCipher {K}.
Arguments sc_conn {K}.
Arguments path {K}.

Definition stored {K} (d : Disk K) (h : Handle) : option (DbFile K) :=
  match h with OnDisk p => files d !! p | Temporary n => mjoin (temporaries d !! n) end.

Definition store {K} (h : Handle) (f : DbFile K) (d : Disk K) : Disk K :=
  match h with
  | OnDisk p => MkDisk (<[p := f]> (files d)) (temporaries d)
  | Temporary n => MkDisk (files d) (<[n := Some f]> (temporaries d))
  end.

Section native.
Context `{ML : MigrationLib, MR : MigrationRunner, C : SqlCipher}.
Context (join : list (Z * V5Credential) -> list StoredSignatureKeypair -> list (Z * V5Credential * StoredSignatureKeypair)).

Abbreviation disk_st := (st (Disk CipherKey) KeystoreError.t).

(** A database that nothing was written to. *)
Definition fresh : Connection := MkConn 0 0 (MkTables None None None []).

(** The database a connection reads. *)
Definition view (c : RawConnection CipherKey) (d : Disk CipherKey) : kres Connection :=
  match stored d (raw_at c) with
  | None => Ok fresh
  | Some f => if decide (db_key f = raw_cipher_key c) then Ok (db_conn f) else Err (KeystoreError.DbError not_a_database)
  end.

(** Statements that write: what was written before a failure stays. *)
Definition on_connection {A} (c : RawConnection CipherKey) (m : st Connection KeystoreError.t A) : disk_st A := fun d =>
  match view c d with
  | Ok conn => let '(r, conn') := m conn in (r, store (raw_at c) (MkDbFile (raw_cipher_key c) conn') d)
  | Err e => (Err e, d)
  | Panic => (Panic, d)
  end.

(** [rusqlite::Connection::open]. *)
Definition connection_open (p : string) : disk_st Handle := fun d =>
  match open_error p with
  | Some e => (Err (KeystoreError.DbError e), d)
  | None =>
      if decide (p = EmptyString) then (Ok (Temporary (length (temporaries d))), MkDisk (files d) (temporaries d ++ [None]))
      else (Ok (OnDisk p), d)
  end.

(** ** Opening *)

(** [set_key]. *)
Definition set_key (h : Handle) (key : bytes) : (RawConnection CipherKey) := MkRaw h (derive_key (raw_key key)).

(** The pragma [journal_mode] reads the file and writes its header. *)
Definition pragma_journal_mode (c : RawConnection CipherKey) : disk_st () := on_connection c (mret ()).

Definition init_with_key (p : string) (key : bytes) : disk_st (SqlCipherConnection CipherKey) :=
  h ← connection_open p;
  let conn := set_key h key in
  _ ← pragma_journal_mode conn;
  _ ← on_connection conn (run_migrations join Latest);
  mret (MkSqlCipher conn p).

Definition init_with_key_in_memory (key : bytes) : disk_st (SqlCipherConnection CipherKey) :=
  h ← connection_open EmptyString;
  let conn := set_key h key in
  _ ← on_connection conn (run_migrations join Latest);
  mret (MkSqlCipher conn EmptyString).

(** [location]. *)
Definition location (c : SqlCipherConnection CipherKey) : option string :=
  if decide (path c = EmptyString) then None else Some (path c).

(** ** Keys *)

(** [rekey]: the connection goes on with the new key. *)
Definition rekey (c : RawConnection CipherKey) (new_key : bytes) : disk_st (RawConnection CipherKey) := fun d =>
  match view c d with
  | Ok conn =>
      let key := derive_key (raw_key new_key) in
      match rekey_error conn key with
      | Some e => (Err (KeystoreError.DbError e), d)
      | None => (Ok (MkRaw (raw_at c) key), store (raw_at c) (MkDbFile key conn) d)
      end
  | Err e => (Err e, d)
  | Panic => (Panic, d)
  end.

Definition update_key (c : SqlCipherConnection CipherKey) (new_key : bytes) : disk_st (SqlCipherConnection CipherKey) :=
  conn ← rekey (sc_conn c) new_key;
  mret (MkSqlCipher conn (path c)).

Definition MAX_SUPPORTED_KEY_TYPE_VERSION : Z := 15.

Definition native_migrate_db_key_type_to_bytes (p : string) (old_key new_key : bytes) : disk_st () :=
  h ← connection_open p;
  let conn := MkRaw h (derive_key old_key) in
  db ← st_lift (view conn);
  if (MAX_SUPPORTED_KEY_TYPE_VERSION <=? schema_version db)%Z then st_lift (fun _ => Err KeystoreError.MigrationFailed) else
  _ ← pragma_journal_mode conn;
  _ ← on_connection conn (run_migrations join (Version MAX_SUPPORTED_KEY_TYPE_VERSION));
  _ ← rekey conn new_key;
  mret ().

(** ** Copies and removal *)

(** [wipe]. *)
Definition wipe (c : SqlCipherConnection CipherKey) : disk_st () := fun d =>
  if decide (path c = EmptyString) then (Ok (), d) else
  match files d !! path c with
  | None => (Err KeystoreError.IoError, d)
  | Some _ => (Ok (), MkDisk (base.delete (path c) (files d)) (temporaries d))
  end.

(** [export_copy]: [VACUUM INTO] a file that may not exist yet. *)
Definition export_copy (c : SqlCipherConnection CipherKey) (destination_path : string) : disk_st () := fun d =>
  match view (sc_conn c) d with
  | Ok conn =>
      match vacuum_error destination_path with
      | Some e => (Err (KeystoreError.DbError e), d)
      | None =>
          match files d !! destination_path with
          | Some _ => (Err (KeystoreError.DbError destination_exists), d)
          | None =>
              let copy := MkConn (applied conn) (vacuumed_version (schema_version conn)) (tables conn) in
              (Ok (), store (OnDisk destination_path) (MkDbFile (raw_cipher_key (sc_conn c)) copy) d)
          end
      end
  | Err e => (Err e, d)
  | Panic => (Panic, d)
  end.
End native.
