(* ===== verification/NativeProps.v ===== *)
(** * Keys of the SQLCipher connection

    The theorems on [NativeConnection]: which key opens a database, what changing it keeps,
    copies and removal, and the migration from a passphrase to a key of bytes. *)

From S2P Require Import Prelude Keys Entities Sql KeystoreErrors CryptoErrors ClientIds Migrations MigrationProps NativeConnection.
From Stdlib Require Import Lia ZArith.

(** ** Keys as digits *)

Lemma hex_byte_values b :
  map hex_value (hex_encode_byte b) = [Some (byte_to_Z b / 16)%Z; Some (byte_to_Z b mod 16)%Z].
Proof.
  pose proof (byte_to_Z_range b) as Hr. unfold hex_encode_byte. cbn [map].
  rewrite (proj1 (hex_digit_ok (byte_to_Z b / 16) ltac:(split; [apply Z.div_pos|apply Z.div_lt_upper_bound]; lia))).
  by rewrite (proj1 (hex_digit_ok (byte_to_Z b mod 16) ltac:(apply Z.mod_pos_bound; lia))).
Qed.

Lemma hex_bytes_length k : length (k ≫= hex_encode_byte) = 2 * length k.
Proof. induction k as [|b k IH]; [done|]. rewrite bind_cons, length_app, IH. cbn. lia. Qed.

Lemma hex_bytes_values k k' : map hex_value (k ≫= hex_encode_byte) = map hex_value (k' ≫= hex_encode_byte) -> k = k'.
Proof.
  revert k'. induction k as [|b k IH]; intros [|b' k'] H; [done|done|done|].
  rewrite !bind_cons, !map_app, !hex_byte_values in H. injection H as H1 H2 H3. f_equal; [|by apply IH].
  rewrite <- (byte_of_to_Z b), <- (byte_of_to_Z b'). f_equal.
  rewrite (Z.div_mod (byte_to_Z b) 16), (Z.div_mod (byte_to_Z b') 16) by lia. lia.
Qed.

Lemma hex_bytes_digits k : Forall (fun b => is_Some (hex_value b)) (k ≫= hex_encode_byte).
Proof.
  induction k as [|b k IH]; [constructor|]. rewrite bind_cons. apply Forall_app; split; [|done].
  pose proof (hex_byte_values b) as H. cbn in H. injection H as H1 H2.
  by repeat constructor; eexists.
Qed.

(** Different keys encrypt differently. *)
Lemma raw_key_inj `{SqlCipherLaws} k k' : length k = 32 -> length k' = 32 ->
  derive_key (raw_key k) = derive_key (raw_key k') -> k = k'.
Proof.
  intros Hk Hk' He. apply hex_bytes_values, derive_key_raw;
    [rewrite hex_bytes_length; lia..|apply hex_bytes_digits|apply hex_bytes_digits|exact He].
Qed.

Section native_props.
Context `{ML : MigrationLib, MRL : MigrationRunnerLaws, CL : SqlCipherLaws}.
Context (join : list (Z * V5Credential) -> list StoredSignatureKeypair -> list (Z * V5Credential * StoredSignatureKeypair)).

(** ** Opening *)

Lemma store_twice {K} h (f f' : DbFile K) d : store h f (store h f' d) = store h f d.
Proof. destruct h; cbn; f_equal; [apply insert_insert_eq|apply list_insert_insert_eq]. Qed.

Lemma view_stored p k d f : files d !! p = Some f -> db_key f = k -> view (MkRaw (OnDisk p) k) d = Ok (db_conn f).
Proof. intros Hf <-. unfold view. cbn. rewrite Hf. by rewrite decide_True. Qed.

Lemma view_refused p k d f : files d !! p = Some f -> db_key f <> k ->
  view (MkRaw (OnDisk p) k) d = Err (KeystoreError.DbError not_a_database).
Proof. intros Hf Hk. unfold view. cbn. rewrite Hf. by rewrite decide_False. Qed.

Lemma open_path p d : p <> EmptyString -> open_error p = None -> connection_open p d = (Ok (OnDisk p), d).
Proof. intros Hp Ho. unfold connection_open. by rewrite Ho, decide_False. Qed.

(** Two sequences of statements on a file are one. *)
Lemma on_file_seq {A B} p k (m : st Connection KeystoreError.t A) (n : A -> st Connection KeystoreError.t B) d :
  (a ← on_connection (MkRaw (OnDisk p) k) m; on_connection (MkRaw (OnDisk p) k) (n a)) d =
  on_connection (MkRaw (OnDisk p) k) (a ← m; n a) d.
Proof.
  unfold mbind, st_bind, on_connection at 1 3. destruct (view (MkRaw (OnDisk p) k) d) as [conn|e|]; [|done..].
  cbn [raw_at raw_cipher_key]. destruct (m conn) as [[a|e|] conn']; [|done..]. unfold on_connection.
  rewrite (view_stored p k _ (MkDbFile k conn')) by (first [done|apply lookup_insert_eq]). cbn [db_conn raw_at raw_cipher_key].
  destruct (n a conn') as [r conn'']. by rewrite store_twice.
Qed.

(** Opening a path, as what happens to the database of the file. *)
Definition opened (p : string) (k : CipherKey) (r : kres ()) : kres (SqlCipherConnection CipherKey) :=
  _ ← r; Ok (MkSqlCipher (MkRaw (OnDisk p) k) p).

Lemma open_eq p key d : p <> EmptyString -> open_error p = None ->
  let k := derive_key (raw_key key) in
  init_with_key join p key d =
  let '(r, d') := on_connection (MkRaw (OnDisk p) k) (run_migrations join Latest) d in (opened p k r, d').
Proof.
  intros Hp Ho k. unfold init_with_key. unfold mbind at 1, st_bind at 1. rewrite open_path by done.
  unfold set_key, pragma_journal_mode. fold k.
  assert ((_ ← on_connection (MkRaw (OnDisk p) k) (mret ()); on_connection (MkRaw (OnDisk p) k) (run_migrations join Latest)) d =
    on_connection (MkRaw (OnDisk p) k) (run_migrations join Latest) d) as <-
    by exact (on_file_seq p k (mret ()) (fun _ => run_migrations join Latest) d).
  unfold mbind, st_bind. destruct (on_connection _ (mret ()) d) as [[u|e|] d1]; [|done..].
  by destruct (on_connection _ _ d1) as [[]].
Qed.

Lemma open_existing p key d f r c : p <> EmptyString -> open_error p = None -> files d !! p = Some f ->
  db_key f = derive_key (raw_key key) -> run_migrations join Latest (db_conn f) = (r, c) ->
  init_with_key join p key d = (opened p (db_key f) r, store (OnDisk p) (MkDbFile (db_key f) c) d).
Proof.
  intros Hp Ho Hf Hk Hr. rewrite open_eq by done. rewrite <- Hk. unfold on_connection. rewrite (view_stored p _ d f) by done.
  by rewrite Hr.
Qed.

Lemma open_refused p key d f : p <> EmptyString -> open_error p = None -> files d !! p = Some f ->
  db_key f <> derive_key (raw_key key) -> init_with_key join p key d = (Err (KeystoreError.DbError not_a_database), d).
Proof. intros Hp Ho Hf Hk. rewrite open_eq by done. unfold on_connection. by rewrite (view_refused p _ d f). Qed.

(** The histories of the runner count from zero. *)
Definition histories_ok {K} (d : Disk K) : Prop := map_Forall (fun _ f => (0 <= applied (db_conn f))%Z) (files d).

(** A path that was opened has a file with the key, at the last version. *)
Lemma open_done p key d c d1 : p <> EmptyString -> histories_ok d -> init_with_key join p key d = (Ok c, d1) ->
  let k := derive_key (raw_key key) in
  c = MkSqlCipher (MkRaw (OnDisk p) k) p /\ open_error p = None /\
  exists conn, d1 = store (OnDisk p) (MkDbFile k conn) d /\ (LATEST <= applied conn)%Z.
Proof.
  intros Hp Hd Hi k. destruct (open_error p) as [e|] eqn:Ho.
  { unfold init_with_key, mbind, st_bind, connection_open in Hi. by rewrite Ho in Hi. }
  rewrite open_eq in Hi by done. fold k in Hi. unfold on_connection in Hi.
  destruct (view _ d) as [c0|e|] eqn:Hv; [|done..].
  assert (0 <= applied c0)%Z as H0.
  { unfold view in Hv. cbn in Hv. destruct (files d !! p) as [f|] eqn:Ef.
    - case_decide; [|done]. injection Hv as <-. exact (Hd p f Ef).
    - by injection Hv as <-. }
  destruct (run_migrations join Latest c0) as [[[]|e|] conn] eqn:Hr; [|done..].
  destruct (run_applied join Latest c0 conn H0 Hr) as [Ha _]. injection Hi as <- <-.
  split; [done|]. split; [done|]. exists conn. split; [done|]. cbn [target_version] in Ha. lia.
Qed.

Lemma reopen p key d conn : p <> EmptyString -> open_error p = None -> (LATEST <= applied conn)%Z ->
  let k := derive_key (raw_key key) in
  files d !! p = Some (MkDbFile k conn) -> init_with_key join p key d = (Ok (MkSqlCipher (MkRaw (OnDisk p) k) p), d).
Proof.
  intros Hp Ho Ha k Hf. rewrite (open_existing p key d (MkDbFile k conn) (Ok ()) conn); [|try done..].
  - cbn. f_equal. destruct d as [fs ts]. cbn in *. f_equal. by apply insert_id.
  - apply run_idle; [|done]. unfold LATEST in Ha. cbn. lia.
Qed.

(** ** Changing the key *)

(** C13: after the key of an open database is changed, the database is what it was: it opens with
    the new key, without anything to migrate, and with no other key; a connection that still has
    the old key reads nothing, and other files are as they were. *)
Theorem changed_key_opens p key new_key d c d1 c' d2 :
  p <> EmptyString -> length key = 32 -> length new_key = 32 -> histories_ok d ->
  init_with_key join p key d = (Ok c, d1) -> update_key c new_key d1 = (Ok c', d2) ->
  view (sc_conn c') d2 = view (sc_conn c) d1 /\ init_with_key join p new_key d2 = (Ok c', d2) /\
  (forall k, length k = 32 -> k <> new_key ->
     init_with_key join p k d2 = (Err (KeystoreError.DbError not_a_database), d2)) /\
  (key <> new_key -> view (sc_conn c) d2 = Err (KeystoreError.DbError not_a_database)) /\
  (forall q, q <> p -> files d2 !! q = files d !! q).
Proof.
  intros Hp Hk Hn Hd Hi Hu. destruct (open_done p key d c d1 Hp Hd Hi) as (-> & Ho & conn & -> & Ha).
  unfold update_key, mbind, st_bind, rekey in Hu. cbn [sc_conn] in Hu.
  rewrite (view_stored p _ _ (MkDbFile (derive_key (raw_key key)) conn)) in Hu by (first [done|apply lookup_insert_eq]).
  cbn [db_conn] in Hu. destruct (rekey_error _ _) as [e|]; [done|]. injection Hu as <- <-.
  cbn [sc_conn raw_at store files temporaries]. rewrite insert_insert_eq.
  set (d2 := MkDisk _ _). set (k2 := derive_key (raw_key new_key)) in *.
  assert (files d2 !! p = Some (MkDbFile k2 conn)) as Hf by apply lookup_insert_eq. split_and!.
  - rewrite (view_stored p k2 d2 _ Hf eq_refl). symmetry.
    by apply (view_stored p _ _ (MkDbFile (derive_key (raw_key key)) conn)); [apply lookup_insert_eq|].
  - by apply (reopen p new_key d2 conn).
  - intros k Hlk Hne. apply (open_refused p k d2 _ Hp Ho Hf). cbn. intros He. apply Hne, raw_key_inj; done.
  - intros Hne. apply (view_refused p _ d2 _ Hf). cbn. intros He. apply Hne. symmetry. by apply raw_key_inj.
  - intros q Hq. by apply lookup_insert_ne.
Qed.

(** ** Copies and removal *)

(** A copy of an open database, at a path without a file, opens with the same key and has the
    same history and tables; the original is untouched, and removing it leaves the copy. *)
Theorem copy_opens p q key d c d1 :
  p <> EmptyString -> q <> EmptyString -> length key = 32 -> histories_ok d ->
  init_with_key join p key d = (Ok c, d1) ->
  files d1 !! q = None -> vacuum_error q = None -> open_error q = None ->
  exists conn d2 c2, view (sc_conn c) d1 = Ok conn /\ export_copy c q d1 = (Ok (), d2) /\
    init_with_key join q key d2 = (Ok c2, d2) /\ location c2 = Some q /\
    view (sc_conn c2) d2 = Ok (MkConn (applied conn) (vacuumed_version (schema_version conn)) (tables conn)) /\
    view (sc_conn c) d2 = Ok conn /\
    (forall k, length k = 32 -> k <> key -> init_with_key join q k d2 = (Err (KeystoreError.DbError not_a_database), d2)) /\
    exists d3, wipe c d2 = (Ok (), d3) /\ files d3 !! q = files d2 !! q /\ files d3 !! p = None.
Proof.
  intros Hp Hq Hk Hd Hi Hf Hv Ho. destruct (open_done p key d c d1 Hp Hd Hi) as (-> & _ & conn & -> & Ha).
  set (k := derive_key (raw_key key)) in *. set (d1 := store _ _ d) in *.
  assert (files d1 !! p = Some (MkDbFile k conn)) as Hf1 by apply lookup_insert_eq.
  assert (q <> p) as Hne by congruence.
  set (copy := MkConn (applied conn) (vacuumed_version (schema_version conn)) (tables conn)).
  set (d2 := store (OnDisk q) (MkDbFile k copy) d1).
  assert (files d2 !! q = Some (MkDbFile k copy)) as Hf2 by apply lookup_insert_eq.
  assert (files d2 !! p = Some (MkDbFile k conn)) as Hf3 by (unfold d2; cbn; by rewrite lookup_insert_ne).
  exists conn, d2, (MkSqlCipher (MkRaw (OnDisk q) k) q). cbn [sc_conn].
  split; [by apply (view_stored p k d1 (MkDbFile k conn))|].
  split. { unfold export_copy. cbn [sc_conn]. rewrite (view_stored p k d1 (MkDbFile k conn)) by done. by rewrite Hv, Hf. }
  split; [by apply (reopen q key d2 copy)|].
  split; [unfold location; cbn; by rewrite decide_False|].
  split; [by apply (view_stored q k d2 (MkDbFile k copy))|]. split; [by apply (view_stored p k d2 (MkDbFile k conn))|].
  split. { intros k' Hlk Hn. apply (open_refused q k' d2 _ Hq Ho Hf2). cbn. intros He. apply Hn, raw_key_inj; done. }
  unfold wipe. cbn [path]. rewrite decide_False, Hf3 by done. eexists. split; [done|]. cbn [files].
  split; [by apply lookup_delete_ne|apply lookup_delete_eq].
Qed.

(** A database that is removed leaves the path as if it had never been opened: any key can be
    used for it afterwards; removing it again fails. *)
Theorem wiped_path_reusable p key d c d1 :
  p <> EmptyString -> histories_ok d -> init_with_key join p key d = (Ok c, d1) ->
  let d2 := MkDisk (base.delete p (files d)) (temporaries d) in
  wipe c d1 = (Ok (), d2) /\ wipe c d2 = (Err KeystoreError.IoError, d2) /\
  forall k, view (set_key (OnDisk p) k) d2 = Ok fresh.
Proof.
  intros Hp Hd Hi d2. destruct (open_done p key d c d1 Hp Hd Hi) as (-> & _ & conn & -> & _).
  unfold wipe. cbn [path]. rewrite !decide_False by done. cbn [store files temporaries]. rewrite lookup_insert_eq, delete_insert_eq.
  unfold d2. cbn [files]. rewrite lookup_delete_eq. split_and!; [done|done|].
  intros k. unfold view. cbn. by rewrite lookup_delete_eq.
Qed.

(** ** From a passphrase to a key of bytes *)

Lemma loop_app vs vs' c :
  migration_loop join (vs ++ vs') c = (_ ← migration_loop join vs; migration_loop join vs') c.
Proof.
  revert c. induction vs as [|v vs IH]; intros c; [done|]. cbn [app migration_loop].
  unfold mbind, st_bind in IH |- *. destruct (migration_step join v c) as [[u|e|] c1]; [|done..]. apply IH.
Qed.

(** Migrations that stop at a version and are run again later are those run at once. *)
Lemma run_resumed v c c1 : (0 <= v <= LATEST)%Z -> (0 <= applied c)%Z -> run_migrations join (Version v) c = (Ok (), c1) ->
  run_migrations join Latest c1 = run_migrations join Latest c.
Proof.
  intros Hv Ha Hr. destruct (run_applied join _ c c1 Ha Hr) as [Ha1 _]. unfold run_migrations in *. cbn [target_version] in *.
  replace (Z.min LATEST v) with v in * by lia.
  replace (seqZ 1 LATEST) with (seqZ 1 v ++ seqZ (1 + v) (LATEST - v)) by (rewrite <- seqZ_app by lia; f_equal; lia).
  rewrite loop_skip by (apply Forall_forall; intros w Hw%elem_of_seqZ; lia).
  rewrite loop_app. unfold mbind, st_bind. by rewrite Hr.
Qed.

(** What the migration of the key does to the file. *)
Lemma key_type_eq p old_key new_key d f :
  p <> EmptyString -> open_error p = None -> files d !! p = Some f -> db_key f = derive_key old_key ->
  let k := derive_key (raw_key new_key) in
  native_migrate_db_key_type_to_bytes join p old_key new_key d =
  if (15 <=? schema_version (db_conn f))%Z then (Err KeystoreError.MigrationFailed, d) else
  match run_migrations join (Version 15) (db_conn f) with
  | (Ok _, c) =>
      match rekey_error c k with
      | Some e => (Err (KeystoreError.DbError e), store (OnDisk p) (MkDbFile (db_key f) c) d)
      | None => (Ok (), store (OnDisk p) (MkDbFile k c) d)
      end
  | (r, c) => (r, store (OnDisk p) (MkDbFile (db_key f) c) d)
  end.
Proof.
  intros Hp Ho Hf Hk k. unfold native_migrate_db_key_type_to_bytes. unfold mbind at 1, st_bind at 1. rewrite open_path by done.
  rewrite <- Hk. unfold mbind at 1, st_bind at 1, st_lift at 1. rewrite (view_stored p (db_key f) d f Hf eq_refl).
  unfold MAX_SUPPORTED_KEY_TYPE_VERSION. destruct (15 <=? _)%Z; [done|].
  unfold mbind, st_bind, pragma_journal_mode. unfold on_connection at 1. rewrite (view_stored p (db_key f) d f Hf eq_refl).
  cbn [mret st_ret raw_at raw_cipher_key]. unfold on_connection.
  rewrite (view_stored p _ _ (MkDbFile (db_key f) (db_conn f))) by (first [done|apply lookup_insert_eq]). cbn [db_conn raw_at raw_cipher_key].
  destruct (run_migrations join (Version 15) (db_conn f)) as [[u|e|] c]; rewrite store_twice; [|done..].
  unfold rekey. rewrite (view_stored p _ _ (MkDbFile (db_key f) c)) by (first [done|apply lookup_insert_eq]). cbn [db_conn raw_at].
  fold k. destruct (rekey_error c k); [done|]. by rewrite store_twice.
Qed.

(** C14: a database with a passphrase whose key is migrated and that is then opened with the new
    key is the database that opening it would have migrated at once, with the same outcome; the
    migration of the key is refused afterwards, whatever passphrase is given. *)
Theorem key_type_migration_keeps p old_key new_key d f d1 :
  p <> EmptyString -> open_error p = None -> files d !! p = Some f -> db_key f = derive_key old_key ->
  (0 <= applied (db_conn f) < 15)%Z ->
  native_migrate_db_key_type_to_bytes join p old_key new_key d = (Ok (), d1) ->
  let k := derive_key (raw_key new_key) in
  (forall r c, run_migrations join Latest (db_conn f) = (r, c) ->
     init_with_key join p new_key d1 = (opened p k r, store (OnDisk p) (MkDbFile k c) d)) /\
  (forall passphrase key, exists e, native_migrate_db_key_type_to_bytes join p passphrase key d1 = (Err e, d1)).
Proof.
  intros Hp Ho Hf Hk Ha Hm k. rewrite (key_type_eq p old_key new_key d f) in Hm by done.
  destruct (15 <=? _)%Z; [done|]. destruct (run_migrations join (Version 15) (db_conn f)) as [[[]|e|] c1] eqn:Hr; [|done..].
  fold k in Hm. destruct (rekey_error c1 k); [done|]. injection Hm as <-.
  assert (files (store (OnDisk p) (MkDbFile k c1) d) !! p = Some (MkDbFile k c1)) as Hf1 by apply lookup_insert_eq. split.
  - intros r c Hl. rewrite <- (run_resumed 15 _ c1) in Hl by (unfold LATEST; first [done|lia]).
    rewrite (open_existing p new_key _ (MkDbFile k c1) r c) by done. cbn [db_key].
    by rewrite <- (store_twice (OnDisk p) _ (MkDbFile k c1) d).
  - intros passphrase key. destruct (run_applied join (Version 15) (db_conn f) c1 ltac:(lia) Hr) as [_ Hs].
    destruct (decide (k = derive_key passphrase)) as [Heq|Hne].
    + rewrite (key_type_eq p passphrase key _ (MkDbFile k c1)) by done. cbn [db_conn]. rewrite Hs by (unfold target_version, LATEST; lia). by eexists.
    + unfold native_migrate_db_key_type_to_bytes, mbind, st_bind, st_lift. rewrite open_path by done.
      rewrite (view_refused p _ _ (MkDbFile k c1)) by done. by eexists.
Qed.

(** C28: when changing the key fails after the migrations have run, the migration of the key is
    refused from then on, although the database still has its passphrase; no key of bytes opens
    it. *)
Theorem failed_rekey_locks_database p old_key new_key d f c1 e :
  p <> EmptyString -> open_error p = None -> files d !! p = Some f -> db_key f = derive_key old_key ->
  (0 <= applied (db_conn f) < 15)%Z -> (schema_version (db_conn f) < 15)%Z ->
  run_migrations join (Version 15) (db_conn f) = (Ok (), c1) -> rekey_error c1 (derive_key (raw_key new_key)) = Some e ->
  exists d1, native_migrate_db_key_type_to_bytes join p old_key new_key d = (Err (KeystoreError.DbError e), d1) /\
    files d1 !! p = Some (MkDbFile (derive_key old_key) c1) /\
    (forall key, native_migrate_db_key_type_to_bytes join p old_key key d1 = (Err KeystoreError.MigrationFailed, d1)) /\
    (forall key, derive_key (raw_key key) <> derive_key old_key ->
       init_with_key join p key d1 = (Err (KeystoreError.DbError not_a_database), d1)).
Proof.
  intros Hp Ho Hf Hk Ha Hs Hr He. set (d1 := store (OnDisk p) (MkDbFile (db_key f) c1) d). exists d1.
  assert (files d1 !! p = Some (MkDbFile (db_key f) c1)) as Hf1 by apply lookup_insert_eq.
  destruct (run_applied join (Version 15) (db_conn f) c1 ltac:(lia) Hr) as [_ Hs1]. split_and!.
  - rewrite (key_type_eq p old_key new_key d f) by done. rewrite (proj2 (Z.leb_gt _ _)) by done. by rewrite Hr, He.
  - by rewrite Hf1, Hk.
  - intros key. rewrite (key_type_eq p old_key key d1 _ Hp Ho Hf1 Hk). cbn [db_conn]. by rewrite Hs1 by (unfold target_version, LATEST; lia).
  - intros key Hne. apply (open_refused p key d1 _ Hp Ho Hf1). cbn [db_key]. congruence.
Qed.
End native_props.

(** ** A concrete cipher: the key is the argument of the pragma; a key of zeros cannot be set. *)

Definition zero_key : bytes := replicate 32 x00.
Definition key_one : bytes := replicate 32 x01.
Definition key_two : bytes := replicate 32 x02.

#[export] Instance toy_cipher : SqlCipher := {|
  CipherKey := bytes;
  derive_key b := b;
  not_a_database := NoSuchTable "sqlite_master";
  open_error _ := None;
  rekey_error _ k := if decide (k = raw_key zero_key) then Some ToSqlConversionFailure else None;
  vacuum_error _ := None;
  destination_exists := ConstraintViolation "destination";
  vacuumed_version v := v;
|}.

#[export] Instance toy_cipher_laws : SqlCipherLaws toy_cipher.
Proof. split. cbn. intros ds ds' _ _ _ _ H. injection H as H. by apply app_inj_tail in H as [-> _]. Qed.

(** A database of version 3 with a passphrase, and one of version 15 with a key of bytes. *)
Definition passphrase : bytes := [x73; x65].
Definition demo_old : Connection := MkConn 3 3 (tables (demo_before [x02])).
Definition demo_disk : Disk bytes :=
  MkDisk {["old" := MkDbFile passphrase demo_old;
           "db" := MkDbFile (raw_key key_one) (demo_before [x02])]} [].

Lemma demo_histories : histories_ok demo_disk.
Proof. apply (bool_decide_eq_true_1 (map_Forall _ _)). vm_compute. reflexivity. Qed.

Definition demo_open := init_with_key (C := toy_cipher) toy_join "db" key_one demo_disk.
Definition demo_opened : SqlCipherConnection bytes := MkSqlCipher (MkRaw (OnDisk "db") (raw_key key_one)) "db".
Definition demo_rekeyed := update_key (C := toy_cipher) demo_opened key_two demo_open.2.
Definition demo_rekeyed_conn : SqlCipherConnection bytes := MkSqlCipher (MkRaw (OnDisk "db") (raw_key key_two)) "db".

Lemma changed_key_opens_witness :
  init_with_key (C := toy_cipher) toy_join "db" key_two demo_rekeyed.2 = (Ok demo_rekeyed_conn, demo_rekeyed.2) /\
  init_with_key (C := toy_cipher) toy_join "db" key_one demo_rekeyed.2 =
    (Err (KeystoreError.DbError (NoSuchTable "sqlite_master")), demo_rekeyed.2) /\
  view (C := toy_cipher) (sc_conn demo_rekeyed_conn) demo_rekeyed.2 = Ok demo_migrated.
Proof.
  assert (demo_open = (Ok demo_opened, demo_open.2)) as H1 by (vm_compute; reflexivity).
  assert (demo_rekeyed = (Ok demo_rekeyed_conn, demo_rekeyed.2)) as H2 by (vm_compute; reflexivity).
  destruct (changed_key_opens (C := toy_cipher) toy_join "db" key_one key_two demo_disk demo_opened demo_open.2
    demo_rekeyed_conn demo_rekeyed.2 ltac:(discriminate) eq_refl eq_refl demo_histories H1 H2) as (Hv & Hn & Hk & _ & _).
  split; [exact Hn|]. split; [apply Hk; [reflexivity|vm_compute; discriminate]|].
  etransitivity; [exact Hv|vm_compute; reflexivity].
Defined.

Lemma key_type_migration_keeps_witness :
  exists d1, native_migrate_db_key_type_to_bytes (C := toy_cipher) toy_join "old" passphrase key_two demo_disk = (Ok (), d1) /\
    init_with_key (C := toy_cipher) toy_join "old" key_two d1 =
    (Ok (MkSqlCipher (MkRaw (OnDisk "old") (raw_key key_two)) "old"),
     store (OnDisk "old") (MkDbFile (raw_key key_two) demo_migrated) demo_disk).
Proof.
  eexists. split; [vm_compute; reflexivity|].
  eapply (proj1 (key_type_migration_keeps (C := toy_cipher) toy_join "old" passphrase key_two demo_disk
    (MkDbFile passphrase demo_old) _ ltac:(discriminate) eq_refl ltac:(vm_compute; reflexivity) eq_refl
    ltac:(vm_compute; split; [discriminate|reflexivity]) ltac:(vm_compute; reflexivity)) (Ok ()) demo_migrated).
  vm_compute. reflexivity.
Defined.

Lemma failed_rekey_locks_database_witness :
  exists d1, native_migrate_db_key_type_to_bytes (C := toy_cipher) toy_join "old" passphrase zero_key demo_disk =
      (Err (KeystoreError.DbError ToSqlConversionFailure), d1) /\
    native_migrate_db_key_type_to_bytes (C := toy_cipher) toy_join "old" passphrase key_two d1 = (Err KeystoreError.MigrationFailed, d1).
Proof.
  destruct (failed_rekey_locks_database (C := toy_cipher) toy_join "old" passphrase zero_key demo_disk
    (MkDbFile passphrase demo_old) (MkConn 15 15 (tables demo_old)) ToSqlConversionFailure
    ltac:(discriminate) eq_refl ltac:(vm_compute; reflexivity) eq_refl
    ltac:(vm_compute; split; [discriminate|reflexivity]) ltac:(vm_compute; reflexivity)
    ltac:(vm_compute; reflexivity) ltac:(vm_compute; reflexivity)) as (d1 & Hm & _ & Hr & _).
  exists d1. split; [exact Hm|apply Hr].
Defined.
